(** * GitLab Desktop Client (gitlab_gui_pro_full.py): a shallow embedding

    The development follows the layout of the Python module:
    - [Utf8], [Base64]: the two text codecs [save_token]/[load_token] call;
    - [Py]: Python values as the program sees them (str, JSON-shaped
      objects, truthiness, exceptions);
    - the environment ([env]) and the outside world ([world]): module
      constants, library functions, file system, keyring, HTTP exchanges;
    - token storage, [GitLabClient], and the part of [GitLabGUIApp] that
      logs in, fills the tree and keeps the cache.

    Python [str] is a list of Unicode code points ([list Z]); [bytes] is a
    list of octets ([list Z], each in [0, 256)). *)

From stdpp Require Import base option list gmap strings numbers sorting.
From Stdlib Require Import ZArith Lia DecimalString.

Set Warnings "-register-all".
Local Open Scope Z_scope.

(** ** UTF-8 (RFC 3629), as [str.encode('utf-8')] / [bytes.decode('utf-8')]

    The strict codec: surrogates cannot be encoded, and the decoder refuses
    overlong forms, surrogates, stray continuation bytes and code points
    above U+10FFFF. [None] stands for UnicodeEncodeError/UnicodeDecodeError. *)
Module Utf8.

Definition is_surrogate (c : Z) : bool := (0xD800 <=? c) && (c <=? 0xDFFF).

Definition is_cont (b : Z) : bool := (0x80 <=? b) && (b <? 0xC0).

Definition encode_cp (c : Z) : option (list Z) :=
  if c <? 0 then None
  else if c <? 0x80 then Some [c]
  else if c <? 0x800 then Some [0xC0 + c / 64; 0x80 + c mod 64]
  else if c <? 0x10000 then
    if is_surrogate c then None
    else Some [0xE0 + c / 4096; 0x80 + (c / 64) mod 64; 0x80 + c mod 64]
  else if c <? 0x110000 then
    Some [0xF0 + c / 262144; 0x80 + (c / 4096) mod 64;
          0x80 + (c / 64) mod 64; 0x80 + c mod 64]
  else None.

Fixpoint encode (s : list Z) : option (list Z) :=
  match s with
  | [] => Some []
  | c :: s' =>
      match encode_cp c, encode s' with
      | Some bs, Some rest => Some (bs ++ rest)
      | _, _ => None
      end
  end.

Fixpoint decode (bs : list Z) : option (list Z) :=
  match bs with
  | [] => Some []
  | b0 :: r0 =>
      if (0 <=? b0) && (b0 <? 0x80) then cons b0 <$> decode r0
      else if (0xC0 <=? b0) && (b0 <? 0xE0) then
        match r0 with
        | b1 :: r1 =>
            let c := (b0 - 0xC0) * 64 + (b1 - 0x80) in
            if is_cont b1 && (0x80 <=? c) then cons c <$> decode r1 else None
        | _ => None
        end
      else if (0xE0 <=? b0) && (b0 <? 0xF0) then
        match r0 with
        | b1 :: b2 :: r2 =>
            let c := (b0 - 0xE0) * 4096 + (b1 - 0x80) * 64 + (b2 - 0x80) in
            if is_cont b1 && is_cont b2 && (0x800 <=? c) && negb (is_surrogate c)
            then cons c <$> decode r2 else None
        | _ => None
        end
      else if (0xF0 <=? b0) && (b0 <? 0xF8) then
        match r0 with
        | b1 :: b2 :: b3 :: r3 =>
            let c := (b0 - 0xF0) * 262144 + (b1 - 0x80) * 4096
                     + (b2 - 0x80) * 64 + (b3 - 0x80) in
            if is_cont b1 && is_cont b2 && is_cont b3
               && (0x10000 <=? c) && (c <? 0x110000)
            then cons c <$> decode r3 else None
        | _ => None
        end
      else None
  end.

(** A code point the codec accepts: a Unicode scalar value. *)
Definition scalar (c : Z) : Prop :=
  0 <= c < 0x110000 /\ ~ (0xD800 <= c <= 0xDFFF).

Definition byte (b : Z) : Prop := 0 <= b < 256.

End Utf8.

(** ** Base64 (RFC 4648, standard alphabet with padding), as
    [base64.b64encode] / [base64.b64decode]

    Both work on bytes; the text is ASCII. The decoder is the strict one:
    [None] stands for binascii.Error. Python's decoder additionally skips
    characters outside the alphabet, which never occur in encoder output. *)
Module Base64.

Definition pad : Z := 61.

(** The alphabet: A-Z, a-z, 0-9, '+', '/'. *)
Definition char_of (n : Z) : Z :=
  if n <? 26 then 65 + n
  else if n <? 52 then 97 + (n - 26)
  else if n <? 62 then 48 + (n - 52)
  else if n =? 62 then 43
  else 47.

Definition value_of (c : Z) : option Z :=
  if (65 <=? c) && (c <=? 90) then Some (c - 65)
  else if (97 <=? c) && (c <=? 122) then Some (c - 97 + 26)
  else if (48 <=? c) && (c <=? 57) then Some (c - 48 + 52)
  else if c =? 43 then Some 62
  else if c =? 47 then Some 63
  else None.

Fixpoint b64encode (bs : list Z) : list Z :=
  match bs with
  | [] => []
  | [a] => [char_of (a / 4); char_of ((a mod 4) * 16); pad; pad]
  | [a; b] =>
      [char_of (a / 4); char_of ((a mod 4) * 16 + b / 16);
       char_of ((b mod 16) * 4); pad]
  | a :: b :: c :: rest =>
      char_of (a / 4) :: char_of ((a mod 4) * 16 + b / 16)
      :: char_of ((b mod 16) * 4 + c / 64) :: char_of (c mod 64)
      :: b64encode rest
  end.

(** [binascii.a2b_base64], as [base64.b64decode] calls it (not strict):
    the loop over the input, in the state [quad_pos] (how many characters
    of the current group of four have been taken), [leftchar] (the bits
    left over from them) and [pads] (the padding characters just seen).
    Characters outside the alphabet are skipped; padding that completes a
    group ends the input; [None] is binascii.Error, for an input that ends
    inside a group. *)
Fixpoint a2b_base64 (cs : list Z) (quad_pos : nat) (leftchar : Z) (pads : nat)
    : option (list Z) :=
  match cs with
  | [] =>
      match quad_pos with
      | O => Some []
      | _ => None
      end
  | c :: cs' =>
      if c =? pad then
        if (2 <=? quad_pos)%nat then
          if (4 <=? quad_pos + S pads)%nat then Some []
          else a2b_base64 cs' quad_pos leftchar (S pads)
        else a2b_base64 cs' quad_pos leftchar pads
      else
        match value_of c with
        | None => a2b_base64 cs' quad_pos leftchar pads
        | Some v =>
            match quad_pos with
            | 0%nat => a2b_base64 cs' 1 v 0
            | 1%nat => cons (leftchar * 4 + v / 16) <$> a2b_base64 cs' 2 (v mod 16) 0
            | 2%nat => cons (leftchar * 16 + v / 4) <$> a2b_base64 cs' 3 (v mod 4) 0
            | _ => cons (leftchar * 64 + v) <$> a2b_base64 cs' 0 0 0
            end
        end
  end.

Definition b64decode (cs : list Z) : option (list Z) := a2b_base64 cs 0 0 0.

(** A character of encoder output: a letter, a digit, '+', '/' or '='. *)
Definition b64char (c : Z) : Prop :=
  65 <= c <= 90 \/ 97 <= c <= 122 \/ 48 <= c <= 57 \/ c = 43 \/ c = 47 \/ c = 61.

End Base64.

(** ** Python values

    [lit] turns a source literal into a [str]: the literal's bytes are the
    UTF-8 text of the Python source. *)

Definition bytes_of_string (s : string) : list Z :=
  (fun a => Z.of_N (Ascii.N_of_ascii a)) <$> String.list_ascii_of_string s.

Definition lit (s : string) : list Z :=
  default [] (Utf8.decode (bytes_of_string s)).
#[global] Arguments lit : simpl never.

(** [str(n)] for an int. *)
Definition str_of_Z (z : Z) : list Z :=
  lit (NilZero.string_of_int (Z.to_int z)).
#[global] Arguments str_of_Z : simpl never.

(** [str.isspace] on one character: the Unicode white-space code points. *)
Definition isspace (c : Z) : bool :=
  ((9 <=? c) && (c <=? 13)) || ((28 <=? c) && (c <=? 32))
  || (c =? 133) || (c =? 160) || (c =? 5760)
  || ((8192 <=? c) && (c <=? 8202))
  || (c =? 8232) || (c =? 8233) || (c =? 8239) || (c =? 8287) || (c =? 12288).

Fixpoint lstrip_with (p : Z -> bool) (s : list Z) : list Z :=
  match s with
  | c :: s' => if p c then lstrip_with p s' else s
  | [] => []
  end.

Definition rstrip_with (p : Z -> bool) (s : list Z) : list Z :=
  reverse (lstrip_with p (reverse s)).

(** [s.strip()] and [s.rstrip('/')]. *)
Definition strip (s : list Z) : list Z := rstrip_with isspace (lstrip_with isspace s).

Definition rstrip_slash (s : list Z) : list Z := rstrip_with (fun c => c =? 47) s.

(** What reading in text mode does to line ends (universal newlines): a
    carriage return followed by a line feed, and a carriage return on its
    own, become one line feed. *)
Fixpoint universal_newlines (s : list Z) : list Z :=
  match s with
  | [] => []
  | c :: rest =>
      if c =? 13 then
        10 :: match rest with
              | d :: rest' =>
                  if d =? 10 then universal_newlines rest' else universal_newlines rest
              | [] => []
              end
      else c :: universal_newlines rest
  end.

(** Lexicographic comparison by code point: [a <= b] on [str]. *)
Fixpoint str_le (a b : list Z) : bool :=
  match a, b with
  | [], _ => true
  | _ :: _, [] => false
  | x :: a', y :: b' => (x <? y) || ((x =? y) && str_le a' b')
  end.

(** Objects of JSON shape, as [json.load] and [r.json()] return them and as
    the program builds them: [None], bool, int, str, list, dict. A dict is
    kept as its items in insertion order. Floats are not modelled. *)
Inductive json :=
| JNull
| JBool (b : bool)
| JNum (n : Z)
| JStr (s : list Z)
| JArr (items : list json)
| JObj (members : list (list Z * json)).

(** Truth value of an object ([if x:] / [not x]). *)
Definition truthy (v : json) : bool :=
  match v with
  | JNull => false
  | JBool b => b
  | JNum n => negb (n =? 0)
  | JStr s => negb (bool_decide (s = []))
  | JArr l => negb (bool_decide (length l = 0%nat))
  | JObj m => negb (bool_decide (length m = 0%nat))
  end.

Definition type_name (v : json) : list Z :=
  match v with
  | JNull => lit "NoneType"
  | JBool _ => lit "bool"
  | JNum _ => lit "int"
  | JStr _ => lit "str"
  | JArr _ => lit "list"
  | JObj _ => lit "dict"
  end.

(** Lookup in a dict's items. *)
Fixpoint dict_lookup (k : list Z) (m : list (list Z * json)) : option json :=
  match m with
  | [] => None
  | (k', v) :: m' => if decide (k' = k) then Some v else dict_lookup k m'
  end.

(** ** Exceptions and the state-and-exception monad *)

Inductive exn_class :=
| HTTPError            (* requests.HTTPError, raised by the client itself *)
| RequestException     (* raised inside requests: connection, timeout *)
| JSONDecodeError      (* r.json() / json.load on text that is not JSON *)
| TypeError
| AttributeError
| FileNotFoundError
| OSError
| UnicodeError
| BinasciiError
| KeyringError
| TclError.

(** [str(e)] is [exn_msg e]. *)
Record exn := Exn { exn_cls : exn_class; exn_msg : list Z }.

(** What running a piece of the program gives: a value, an exception, or
    [Diverge] when a loop has not finished within the fuel it was given. *)
Inductive outcome (A : Type) :=
| Return (a : A)
| Raise (e : exn)
| Diverge.
Arguments Return {A} a.
Arguments Raise {A} e.
Arguments Diverge {A}.

Definition M (S A : Type) : Type := S -> outcome A * S.

Definition ret {S A} (a : A) : M S A := fun s => (Return a, s).

Definition bind {S A B} (m : M S A) (k : A -> M S B) : M S B := fun s =>
  match m s with
  | (Return a, s') => k a s'
  | (Raise e, s') => (Raise e, s')
  | (Diverge, s') => (Diverge, s')
  end.

Definition raise {S A} (e : exn) : M S A := fun s => (Raise e, s).

Definition diverge {S A} : M S A := fun s => (Diverge, s).

Definition gets {S A} (f : S -> A) : M S A := fun s => (Return (f s), s).

Definition modify {S} (f : S -> S) : M S unit := fun s => (Return tt, f s).

(** [try: m  except Exception as e: h e]. Effects made before the exception
    stay. *)
Definition try_except {S A} (m : M S A) (h : exn -> M S A) : M S A := fun s =>
  match m s with
  | (Raise e, s') => h e s'
  | r => r
  end.

(** [try: m  finally: f]. *)
Definition try_finally {S A} (m : M S A) (f : M S unit) : M S A := fun s =>
  match m s with
  | (Diverge, s') => (Diverge, s')
  | (r, s') =>
      match f s' with
      | (Return _, s'') => (r, s'')
      | (Raise e, s'') => (Raise e, s'')
      | (Diverge, s'') => (Diverge, s'')
      end
  end.

#[global] Instance M_ret {S} : MRet (M S) := fun A a => ret a.
#[global] Instance M_bind {S} : MBind (M S) := fun A B k m => bind m k.

(** [for x in l: f x]. *)
Fixpoint for_each {S A} (l : list A) (f : A -> M S unit) : M S unit :=
  match l with
  | [] => ret tt
  | x :: l' => f x ;; for_each l' f
  end.

(** [[f x for x in l]], left to right. *)
Fixpoint map_M {S A B} (f : A -> M S B) (l : list A) : M S (list B) :=
  match l with
  | [] => ret []
  | x :: l' => y ← f x; ys ← map_M f l'; ret (y :: ys)
  end.

(** [[x for x in l if p x]]. *)
Fixpoint filter_M {S A} (p : A -> M S bool) (l : list A) : M S (list A) :=
  match l with
  | [] => ret []
  | x :: l' =>
      bind (p x) (fun b : bool =>
        ys ← filter_M p l'; ret (if b then x :: ys else ys))
  end.

(** Run a computation on a part of the state. *)
Definition zoom {S T A} (proj : S -> T) (upd : T -> S -> S) (m : M T A) : M S A :=
  fun s => let (r, t) := m (proj s) in (r, upd t s).

Section PyObject.
Context {S : Type}.

Definition no_attribute (v : json) (attr : string) : exn :=
  Exn AttributeError
    (lit "'" ++ type_name v ++ lit "' object has no attribute '" ++ lit attr ++ lit "'").

(** [v.get(k, dflt)]: only a dict has [get]. *)
Definition py_get (v : json) (k : list Z) (dflt : json) : M S json :=
  match v with
  | JObj m => ret (default dflt (dict_lookup k m))
  | _ => raise (no_attribute v "get")
  end.

(** The items [list.extend(v)] and [for x in v] go through: the elements of
    a list, the keys of a dict, the characters of a str. *)
Definition py_iter (v : json) : M S (list json) :=
  match v with
  | JArr l => ret l
  | JObj m => ret ((fun kv => JStr kv.1) <$> m)
  | JStr s => ret ((fun c => JStr [c]) <$> s)
  | _ => raise (Exn TypeError (lit "'" ++ type_name v ++ lit "' object is not iterable"))
  end.

(** [len(v)]. *)
Definition py_len (v : json) : M S Z :=
  match v with
  | JArr l => ret (Z.of_nat (length l))
  | JObj m => ret (Z.of_nat (length m))
  | JStr s => ret (Z.of_nat (length s))
  | _ => raise (Exn TypeError (lit "object of type '" ++ type_name v ++ lit "' has no len()"))
  end.

End PyObject.

(** ** HTTP as the requests library shows it *)

Inductive http_method := GET | POST.

(** What a request carries besides its query parameters: nothing, a JSON
    document ([json=payload]) or one uploaded file ([files={'file': ...}]). *)
Inductive payload :=
| NoPayload
| JsonPayload (j : json)
| FilePayload (filename : list Z) (data : list Z).

Record request := Request {
  rq_method : http_method;
  rq_url : list Z;
  rq_headers : gmap (list Z) (list Z);
  rq_params : gmap (list Z) json;
  rq_payload : payload;
  rq_timeout : Z
}.

(** A response: [r.status_code], [r.text], [r.json()] ([None] when the body
    is not JSON and [r.json()] raises) and [r.content]. How the three views
    of the body relate is the library's business; nothing is assumed. *)
Record response := Response {
  status_code : Z;
  text : list Z;
  json_body : option json;
  content : list Z
}.

(** A call into requests either gives a response or raises inside the
    library (connection refused, timeout, ...). *)
Inductive http_result :=
| Resp (r : response)
| NetErr (msg : list Z).

(** ** The environment: module constants and library functions

    Constants fixed when the module is imported, the server on the other
    side of the network, and the library functions the program calls whose
    definitions are not part of it. *)
Record env := Env {
  BASE_URL : list Z;
  CACHE_FILE : list Z;
  TOKEN_FILE_FALLBACK : list Z;
  KEYRING_AVAILABLE : bool;
  REQUESTS_AVAILABLE : bool;
  (** the server: its answer to a request, given the requests before it *)
  api : list request -> request -> http_result;
  (** [str.lower] *)
  str_lower : list Z -> list Z;
  (** [str()] of a list or a dict *)
  py_repr : json -> list Z;
  (** [urllib.parse.quote_plus] of a str; [None] when it raises (the str
      cannot be encoded as UTF-8) *)
  quote_plus : list Z -> option (list Z);
  (** [os.path.basename] *)
  basename : list Z -> list Z;
  (** the pieces [json.dump(data, f, ensure_ascii=False, indent=2)] writes *)
  json_dump_chunks : json -> list (list Z);
  (** [json.loads]; [None] when it raises *)
  json_loads : list Z -> option json;
  (** [time.strftime('%Y-%m-%d %H:%M:%S')] *)
  strftime : list Z;
  (** [os.path.join(os.path.expanduser('~'), name)] *)
  home_join : list Z -> list Z;
  (** the archive [zipfile] makes of a folder of the file system; [None]
      when walking or packing raises *)
  zip_folder : gmap (list Z) (list Z) -> list Z -> option (list Z)
}.

(** ** The world outside the process *)

Inductive io_op :=
| OpenForWrite (path : list Z)
| RemoveFile (path : list Z)
| KeyringSet (pw : list Z)
| KeyringDelete.

Record world := World {
  fs : gmap (list Z) (list Z);              (* path -> bytes *)
  keyring_pw : option (list Z);             (* the one keyring entry *)
  http_log : list (request * http_result);  (* exchanges, oldest first *)
  io_log : list io_op;                      (* writes to files and keyring *)
  stdout : list (list Z)
}.

Definition set_fs (f : gmap (list Z) (list Z) -> gmap (list Z) (list Z)) (w : world) : world :=
  World (f (fs w)) (keyring_pw w) (http_log w) (io_log w) (stdout w).
Definition set_keyring_pw (k : option (list Z)) (w : world) : world :=
  World (fs w) k (http_log w) (io_log w) (stdout w).
Definition add_http (x : request * http_result) (w : world) : world :=
  World (fs w) (keyring_pw w) (http_log w ++ [x]) (io_log w) (stdout w).
Definition add_io (o : io_op) (w : world) : world :=
  World (fs w) (keyring_pw w) (http_log w) (io_log w ++ [o]) (stdout w).
Definition add_stdout (l : list Z) (w : world) : world :=
  World (fs w) (keyring_pw w) (http_log w) (io_log w) (stdout w ++ [l]).

(** *** Files, keyring, print *)
Section Os.

Definition print (line : list Z) : M world unit := modify (add_stdout line).

Definition path_exists (p : list Z) : M world bool :=
  gets (fun w => bool_decide (is_Some (fs w !! p))).

(** [open(p, 'w', encoding='utf-8')]: the file is created or emptied. *)
Definition open_w (p : list Z) : M world unit :=
  modify (fun w => set_fs <[p := []]> (add_io (OpenForWrite p) w)).

(** [f.write(s)] on a file opened by [open_w]. Line feeds are written as
    they are: the line separator of the system is taken to be a line
    feed. *)
Definition write_str (p : list Z) (s : list Z) : M world unit :=
  match Utf8.encode s with
  | Some bs => modify (set_fs (fun m => <[p := default [] (m !! p) ++ bs]> m))
  | None => raise (Exn UnicodeError (lit "'utf-8' codec can't encode character"))
  end.

(** [open(p, 'rb').read()]. *)
Definition read_bytes (p : list Z) : M world (list Z) := fun w =>
  match fs w !! p with
  | Some bs => (Return bs, w)
  | None => (Raise (Exn FileNotFoundError (lit "No such file or directory")), w)
  end.

(** [open(p, 'r', encoding='utf-8').read()]: the bytes are decoded, and
    the line ends translated. *)
Definition read_str (p : list Z) : M world (list Z) :=
  bs ← read_bytes p;
  match Utf8.decode bs with
  | Some s => ret (universal_newlines s)
  | None => raise (Exn UnicodeError (lit "'utf-8' codec can't decode byte"))
  end.

(** [os.remove(p)]. *)
Definition os_remove (p : list Z) : M world unit := fun w =>
  match fs w !! p with
  | Some _ => (Return tt, set_fs (delete p) (add_io (RemoveFile p) w))
  | None => (Raise (Exn FileNotFoundError (lit "No such file or directory")), w)
  end.

(** [os.chmod(p, 0o600)]: permissions are not part of the model. *)
Definition os_chmod (p : list Z) : M world unit := ret tt.

(** The keyring library, reduced to the one entry the program uses. *)
Definition keyring_set_password (pw : list Z) : M world unit :=
  modify (fun w => set_keyring_pw (Some pw) (add_io (KeyringSet pw) w)).

Definition keyring_get_password : M world (option (list Z)) := gets keyring_pw.

Definition keyring_delete_password : M world unit := fun w =>
  match keyring_pw w with
  | Some _ => (Return tt, set_keyring_pw None (add_io KeyringDelete w))
  | None => (Raise (Exn KeyringError (lit "Password not found")), w)
  end.

(** [b.decode('ascii')] and [s.encode('ascii')]. *)
Definition decode_ascii (bs : list Z) : M world (list Z) :=
  if forallb (fun b => (0 <=? b) && (b <? 128)) bs then ret bs
  else raise (Exn UnicodeError (lit "'ascii' codec can't decode byte")).

Definition encode_ascii (s : list Z) : M world (list Z) :=
  if forallb (fun c => (0 <=? c) && (c <? 128)) s then ret s
  else raise (Exn UnicodeError (lit "'ascii' codec can't encode character")).

Definition encode_utf8 (s : list Z) : M world (list Z) :=
  match Utf8.encode s with
  | Some bs => ret bs
  | None => raise (Exn UnicodeError (lit "'utf-8' codec can't encode character"))
  end.

Definition decode_utf8 (bs : list Z) : M world (list Z) :=
  match Utf8.decode bs with
  | Some s => ret s
  | None => raise (Exn UnicodeError (lit "'utf-8' codec can't decode byte"))
  end.

Definition b64decode (bs : list Z) : M world (list Z) :=
  match Base64.b64decode bs with
  | Some out => ret out
  | None => raise (Exn BinasciiError (lit "Incorrect padding"))
  end.

End Os.

(** ** Saving, loading and deleting the token *)
Section Token.
Context (E : env).

Definition save_token (token : list Z) : M world bool :=
  try_except
    (if KEYRING_AVAILABLE E then
       keyring_set_password token ;;
       ret true
     else
       open_w (TOKEN_FILE_FALLBACK E) ;;
       bs ← encode_utf8 token;
       txt ← decode_ascii (Base64.b64encode bs);
       write_str (TOKEN_FILE_FALLBACK E) txt ;;
       try_except (os_chmod (TOKEN_FILE_FALLBACK E)) (fun _ => ret tt) ;;
       ret true)
    (fun e =>
       print (lit "Lỗi khi lưu token: " ++ exn_msg e) ;;
       ret false).

Definition load_token : M world (option (list Z)) :=
  try_except
    (if KEYRING_AVAILABLE E then keyring_get_password
     else
       ex ← path_exists (TOKEN_FILE_FALLBACK E);
       if (ex : bool) then
         txt ← read_str (TOKEN_FILE_FALLBACK E);
         let b := strip txt in
         if bool_decide (b ≠ []) then
           bs ← encode_ascii b;
           raw ← b64decode bs;
           t ← decode_utf8 raw;
           ret (Some t)
         else ret None
       else ret None)
    (fun e =>
       print (lit "Lỗi khi load token: " ++ exn_msg e) ;;
       ret None).

Definition delete_saved_token : M world bool :=
  try_except
    ((if KEYRING_AVAILABLE E then keyring_delete_password else ret tt) ;;
     ex ← path_exists (TOKEN_FILE_FALLBACK E);
     (if (ex : bool) then
        try_except (os_remove (TOKEN_FILE_FALLBACK E)) (fun _ => ret tt)
      else ret tt) ;;
     ret true)
    (fun e =>
       print (lit "Lỗi khi xóa token: " ++ exn_msg e) ;;
       ret false).

End Token.

(** ** Small utilities *)
Section Util.
Context (E : env).

(** [str(v)], as an f-string formats a value. *)
Definition py_str (v : json) : list Z :=
  match v with
  | JNull => lit "None"
  | JBool true => lit "True"
  | JBool false => lit "False"
  | JNum n => str_of_Z n
  | JStr s => s
  | _ => py_repr E v
  end.

(** [re.sub(r'\s+', '-', s)]: every maximal run of white space becomes one
    hyphen. [in_run] tells that the previous character was white space. *)
Fixpoint sub_spaces (in_run : bool) (s : list Z) : list Z :=
  match s with
  | [] => []
  | c :: s' =>
      if isspace c then
        if in_run then sub_spaces true s' else 45 :: sub_spaces true s'
      else c :: sub_spaces false s'
  end.

(** A character kept by [re.sub(r'[^a-z0-9\-]', '', s)]. *)
Definition slug_char (c : Z) : bool :=
  ((97 <=? c) && (c <=? 122)) || ((48 <=? c) && (c <=? 57)) || (c =? 45).

Definition slugify (name : list Z) : list Z :=
  let s := str_lower E (strip name) in
  let s := sub_spaces false s in
  let s := List.filter slug_char s in
  take 255 s.

End Util.

(** ** GitLabClient: the API wrapper *)
Module GitLabClient.

Record t := Client {
  base_url : list Z;
  token : option (list Z);
  headers : gmap (list Z) (list Z)
}.

Section Methods.
Context (E : env).

Definition set_token (self : t) (tok : list Z) : t :=
  let tk := strip tok in
  Client (base_url self) (Some tk)
    (<[lit "Content-Type" := lit "application/json"]>
       (<[lit "Authorization" := lit "Bearer " ++ tk]>
          (<[lit "PRIVATE-TOKEN" := tk]> ∅))).

Definition __init__ (tok : option (list Z)) (url : list Z) : t :=
  let self := Client (rstrip_slash url) tok ∅ in
  match tok with
  | Some tk => if bool_decide (tk ≠ []) then set_token self tk else self
  | None => self
  end.

(** [requests.get] / [requests.post]: the exchange is recorded, then the
    response is handed over or the library's exception raised. *)
Definition send (rq : request) : M world response := fun w =>
  let r := api E ((http_log w).*1) rq in
  let w' := add_http (rq, r) w in
  match r with
  | Resp rs => (Return rs, w')
  | NetErr msg => (Raise (Exn RequestException msg), w')
  end.

(** [r.json()]. *)
Definition resp_json (r : response) : M world json :=
  match json_body r with
  | Some v => ret v
  | None => raise (Exn JSONDecodeError (lit "Expecting value"))
  end.

(** [requests.HTTPError(f"{r.status_code}: {r.text}")]. *)
Definition http_error (r : response) : exn :=
  Exn HTTPError (str_of_Z (status_code r) ++ lit ": " ++ text r).

(** [r.status_code in (200, 201)]. *)
Definition created (r : response) : bool :=
  (status_code r =? 200) || (status_code r =? 201).

Definition test (self : t) : M world json :=
  r ← send (Request GET (base_url self ++ lit "/user") (headers self) ∅ NoPayload 10);
  if status_code r =? 200 then resp_json r
  else raise (http_error r).

(** The request [_paged_get] makes for one page. *)
Definition page_request (self : t) (path : list Z)
    (params : option (gmap (list Z) json)) (page : Z) : request :=
  let p := default ∅ params in
  let p := <[lit "per_page" := JNum 100]> (<[lit "page" := JNum page]> p) in
  Request GET (base_url self ++ path) (headers self) p NoPayload 20.

(** The [while True] loop of [_paged_get], from the state ([page], [res])
    on. One unit of fuel is one turn of the loop. *)
Fixpoint _paged_get_loop (fuel : nat) (self : t) (path : list Z)
    (params : option (gmap (list Z) json)) (page : Z) (res : list json)
    : M world (list json) :=
  match fuel with
  | O => diverge
  | S fuel' =>
      r ← send (page_request self path params page);
      if negb (status_code r =? 200) then raise (http_error r)
      else
        data ← resp_json r;
        if negb (truthy data) then ret res
        else
          items ← py_iter data;
          let res := res ++ items in
          n ← py_len data;
          if n <? 100 then ret res
          else _paged_get_loop fuel' self path params (page + 1) res
  end.

Definition _paged_get (fuel : nat) (self : t) (path : list Z)
    (params : option (gmap (list Z) json)) : M world (list json) :=
  _paged_get_loop fuel self path params 1 [].

Definition list_groups (fuel : nat) (self : t) : M world (list json) :=
  _paged_get fuel self (lit "/groups") None.

Definition create_group (self : t) (name : list Z) (parent_id : json) : M world json :=
  let payload := [(lit "name", JStr (strip name)); (lit "path", JStr (slugify E name))] in
  let payload :=
    if truthy parent_id then payload ++ [(lit "parent_id", parent_id)] else payload in
  r ← send (Request POST (base_url self ++ lit "/groups") (headers self) ∅
              (JsonPayload (JObj payload)) 15);
  if created r then resp_json r
  else raise (http_error r).

Definition create_project (self : t) (name : list Z) (namespace_id : json) : M world json :=
  let payload := [(lit "name", JStr (strip name))] in
  let payload :=
    if truthy namespace_id then payload ++ [(lit "namespace_id", namespace_id)]
    else payload in
  r ← send (Request POST (base_url self ++ lit "/projects") (headers self) ∅
              (JsonPayload (JObj payload)) 20);
  if created r then resp_json r
  else raise (http_error r).

Definition list_projects_in_group (self : t) (group_id : json) : M world json :=
  r ← send (Request GET
              (base_url self ++ lit "/groups/" ++ py_str E group_id ++ lit "/projects")
              (headers self) {[lit "per_page" := JNum 100]} NoPayload 20);
  if status_code r =? 200 then resp_json r
  else raise (http_error r).

Definition list_repository_tree (self : t) (project_id : json)
    (path : list Z) (ref : list Z) : M world json :=
  let params : gmap (list Z) json := {[lit "per_page" := JNum 100]} in
  let params :=
    if bool_decide (path ≠ []) then <[lit "path" := JStr path]> params else params in
  let params :=
    if bool_decide (ref ≠ []) then <[lit "ref" := JStr ref]> params else params in
  r ← send (Request GET
              (base_url self ++ lit "/projects/" ++ py_str E project_id
               ++ lit "/repository/tree")
              (headers self) params NoPayload 20);
  if status_code r =? 200 then resp_json r
  else raise (http_error r).

(** [quote_plus] comes before the request, and may raise. Returns
    [r.content], the raw bytes. *)
Definition get_file_raw (self : t) (project_id : json)
    (file_path : list Z) (ref : list Z) : M world (list Z) :=
  match quote_plus E file_path with
  | None => raise (Exn UnicodeError (lit "'utf-8' codec can't encode character"))
  | Some encoded =>
      r ← send (Request GET
                  (base_url self ++ lit "/projects/" ++ py_str E project_id
                   ++ lit "/repository/files/" ++ encoded ++ lit "/raw")
                  (headers self) {[lit "ref" := JStr ref]} NoPayload 30);
      if status_code r =? 200 then ret (content r)
      else raise (http_error r)
  end.

Definition upload_file (self : t) (project_id : json) (file_path : list Z) : M world json :=
  ex ← path_exists file_path;
  if negb ex then raise (Exn FileNotFoundError (lit "File không tồn tại"))
  else
    data ← read_bytes file_path;
    r ← send (Request POST
                (base_url self ++ lit "/projects/" ++ py_str E project_id ++ lit "/uploads")
                (headers self) ∅ (FilePayload (basename E file_path) data) 60);
    if created r then resp_json r
    else raise (http_error r).

(** [actions]: a list of [{action, file_path, content}] dicts. *)
Definition commit_files (self : t) (project_id : json) (branch : list Z)
    (commit_message : list Z) (actions : json) : M world json :=
  let payload :=
    [(lit "branch", JStr branch); (lit "commit_message", JStr commit_message);
     (lit "actions", actions)] in
  r ← send (Request POST
              (base_url self ++ lit "/projects/" ++ py_str E project_id
               ++ lit "/repository/commits")
              (headers self) ∅ (JsonPayload (JObj payload)) 60);
  if created r then resp_json r
  else raise (http_error r).

(** A call of one of the client's public methods, with its arguments, and
    what such a call returns. *)
Inductive call :=
| Test
| ListGroups
| CreateGroup (name : list Z) (parent_id : json)
| CreateProject (name : list Z) (namespace_id : json)
| ListProjectsInGroup (group_id : json)
| ListRepositoryTree (project_id : json) (path ref : list Z)
| GetFileRaw (project_id : json) (file_path ref : list Z)
| UploadFile (project_id : json) (file_path : list Z)
| CommitFiles (project_id : json) (branch commit_message : list Z) (actions : json).

Inductive value :=
| VJson (v : json)
| VList (l : list json)
| VBytes (b : list Z).

Definition run (fuel : nat) (self : t) (c : call) : M world value :=
  match c with
  | Test => v ← test self; ret (VJson v)
  | ListGroups => l ← list_groups fuel self; ret (VList l)
  | CreateGroup name parent_id => v ← create_group self name parent_id; ret (VJson v)
  | CreateProject name namespace_id =>
      v ← create_project self name namespace_id; ret (VJson v)
  | ListProjectsInGroup group_id => v ← list_projects_in_group self group_id; ret (VJson v)
  | ListRepositoryTree project_id path ref =>
      v ← list_repository_tree self project_id path ref; ret (VJson v)
  | GetFileRaw project_id file_path ref =>
      b ← get_file_raw self project_id file_path ref; ret (VBytes b)
  | UploadFile project_id file_path => v ← upload_file self project_id file_path; ret (VJson v)
  | CommitFiles project_id branch commit_message actions =>
      v ← commit_files self project_id branch commit_message actions; ret (VJson v)
  end.

(** The statuses a call takes for success: 200, and 201 too where the
    method tests [r.status_code in (200, 201)]. *)
Definition accepts (c : call) (r : response) : bool :=
  match c with
  | CreateGroup _ _ | CreateProject _ _ | UploadFile _ _ | CommitFiles _ _ _ _ => created r
  | _ => status_code r =? 200
  end.

End Methods.
End GitLabClient.

(** ** ttk.Treeview: the items of the tree widget

    The widget holds a forest of items under the invisible root item [''].
    An item has its identifier, its text, its values and its children in
    display order. *)
Module Treeview.

Inductive node :=
| Node (iid : list Z) (text : json) (values : list json) (children : list node).

Definition node_iid (n : node) : list Z := let (i, _, _, _) := n in i.
Definition node_text (n : node) : json := let (_, t, _, _) := n in t.
Definition node_values (n : node) : list json := let (_, _, v, _) := n in v.
Definition node_children (n : node) : list node := let (_, _, _, c) := n in c.

(** Identifiers of an item and of everything below it. *)
Fixpoint iids (n : node) : list (list Z) :=
  match n with
  | Node i _ _ cs => i :: flat_map iids cs
  end.

Definition all_iids (roots : list node) : list (list Z) := flat_map iids roots.

(** [tree.exists(i)]; the root item always exists. *)
Definition exists_ (roots : list node) (i : list Z) : bool :=
  bool_decide (i = []) || bool_decide (i ∈ all_iids roots).

(** Append [new] as last child of the item [parent], wherever it is. *)
Fixpoint add_child (parent : list Z) (new : node) (n : node) : node :=
  match n with
  | Node i t v cs =>
      if bool_decide (i = parent) then Node i t v (cs ++ [new])
      else Node i t v (List.map (add_child parent new) cs)
  end.

(** [tree.insert(parent, 'end', iid=..., text=..., values=...)]; [None] is
    a TclError: the text is [None] (ttk then passes the option [-text]
    without a value, and Tk refuses the odd list of options), the
    identifier is taken, or the parent does not exist. *)
Definition insert (roots : list node) (parent i : list Z)
    (t : json) (v : list json) : option (list node) :=
  match t with
  | JNull => None
  | _ =>
      if exists_ roots i then None
      else if bool_decide (parent = []) then Some (roots ++ [Node i t v []])
      else if bool_decide (parent ∈ all_iids roots)
           then Some (List.map (add_child parent (Node i t v [])) roots)
      else None
  end.

(** [tree.get_children(i)]. *)
Fixpoint find_children (i : list Z) (n : node) : option (list (list Z)) :=
  match n with
  | Node j _ _ cs =>
      if bool_decide (j = i) then Some (node_iid <$> cs)
      else
        (fix go (l : list node) : option (list (list Z)) :=
           match l with
           | [] => None
           | c :: l' =>
               match find_children i c with
               | Some r => Some r
               | None => go l'
               end
           end) cs
  end.

Definition get_children (roots : list node) (i : list Z) : option (list (list Z)) :=
  if bool_decide (i = []) then Some (node_iid <$> roots)
  else head (omap (find_children i) roots).

(** Remove the item [i], with its descendants, from below [n]. *)
Fixpoint prune (i : list Z) (n : node) : node :=
  match n with
  | Node j t v cs =>
      Node j t v
        (List.filter (fun c => negb (bool_decide (node_iid c = i)))
           (List.map (prune i) cs))
  end.

Definition remove (roots : list node) (i : list Z) : list node :=
  List.filter (fun c => negb (bool_decide (node_iid c = i))) (List.map (prune i) roots).

(** [tree.delete(i1, ..., ik)]: every item must exist and none may be the
    root ([None] is the TclError); then each goes with its descendants. *)
Definition delete (roots : list node) (items : list (list Z)) : option (list node) :=
  if forallb (fun i => negb (bool_decide (i = [])) && bool_decide (i ∈ all_iids roots)) items
  then Some (foldl remove roots items)
  else None.

End Treeview.

(** ** GitLabGUIApp: the part that logs in, fills the tree, keeps the cache
    and uploads *)
Module GitLabGUIApp.

(** Who runs a piece of code: the Tk main loop, the one-shot thread a
    handler starts for its task, or the log worker. *)
Inductive thread := MainThread | ActionThread | LogWorker.

(** Calls into Tk: widgets, Tk variables, message boxes, [after]. *)
Inductive widget_call :=
| StatusSet (text : list Z)
| ShowError (title msg : list Z)
| ShowInfo (title msg : list Z)
| TreeGetChildren (item : list Z)
| TreeDelete (items : list (list Z))
| TreeInsert (parent iid : list Z)
| LogAreaInsert (line : list Z)
| ProgressOpen (title : list Z)
| ProgressUpdate
| ProgressClose
| After
| Toast (text : list Z).

(** The attributes of the application object, the Tk state they refer to,
    the thread now running, every Tk call made so far with the thread that
    made it, and the world outside. *)
Record state := State {
  client : option GitLabClient.t;
  user_info : option json;
  token : option (list Z);
  _all_groups : json;
  last_parent_name : json;
  last_subgroup_name : json;
  current_project_id : option Z;
  tree : list Treeview.node;
  token_var : list Z;
  save_token_var : bool;
  status_var : list Z;
  log_queue : list (list Z);
  log_area : list Z;
  cur_thread : thread;
  calls : list (thread * widget_call);
  outside : world
}.

Definition set_client x s := State x (user_info s) (token s) (_all_groups s) (last_parent_name s) (last_subgroup_name s) (current_project_id s) (tree s) (token_var s) (save_token_var s) (status_var s) (log_queue s) (log_area s) (cur_thread s) (calls s) (outside s).
Definition set_user_info x s := State (client s) x (token s) (_all_groups s) (last_parent_name s) (last_subgroup_name s) (current_project_id s) (tree s) (token_var s) (save_token_var s) (status_var s) (log_queue s) (log_area s) (cur_thread s) (calls s) (outside s).
Definition set_token x s := State (client s) (user_info s) x (_all_groups s) (last_parent_name s) (last_subgroup_name s) (current_project_id s) (tree s) (token_var s) (save_token_var s) (status_var s) (log_queue s) (log_area s) (cur_thread s) (calls s) (outside s).
Definition set__all_groups x s := State (client s) (user_info s) (token s) x (last_parent_name s) (last_subgroup_name s) (current_project_id s) (tree s) (token_var s) (save_token_var s) (status_var s) (log_queue s) (log_area s) (cur_thread s) (calls s) (outside s).
Definition set_last_parent_name x s := State (client s) (user_info s) (token s) (_all_groups s) x (last_subgroup_name s) (current_project_id s) (tree s) (token_var s) (save_token_var s) (status_var s) (log_queue s) (log_area s) (cur_thread s) (calls s) (outside s).
Definition set_last_subgroup_name x s := State (client s) (user_info s) (token s) (_all_groups s) (last_parent_name s) x (current_project_id s) (tree s) (token_var s) (save_token_var s) (status_var s) (log_queue s) (log_area s) (cur_thread s) (calls s) (outside s).
Definition set_tree x s := State (client s) (user_info s) (token s) (_all_groups s) (last_parent_name s) (last_subgroup_name s) (current_project_id s) x (token_var s) (save_token_var s) (status_var s) (log_queue s) (log_area s) (cur_thread s) (calls s) (outside s).
Definition set_status_var x s := State (client s) (user_info s) (token s) (_all_groups s) (last_parent_name s) (last_subgroup_name s) (current_project_id s) (tree s) (token_var s) (save_token_var s) x (log_queue s) (log_area s) (cur_thread s) (calls s) (outside s).
Definition set_log_queue x s := State (client s) (user_info s) (token s) (_all_groups s) (last_parent_name s) (last_subgroup_name s) (current_project_id s) (tree s) (token_var s) (save_token_var s) (status_var s) x (log_area s) (cur_thread s) (calls s) (outside s).
Definition set_log_area x s := State (client s) (user_info s) (token s) (_all_groups s) (last_parent_name s) (last_subgroup_name s) (current_project_id s) (tree s) (token_var s) (save_token_var s) (status_var s) (log_queue s) x (cur_thread s) (calls s) (outside s).
Definition set_cur_thread x s := State (client s) (user_info s) (token s) (_all_groups s) (last_parent_name s) (last_subgroup_name s) (current_project_id s) (tree s) (token_var s) (save_token_var s) (status_var s) (log_queue s) (log_area s) x (calls s) (outside s).
Definition set_calls x s := State (client s) (user_info s) (token s) (_all_groups s) (last_parent_name s) (last_subgroup_name s) (current_project_id s) (tree s) (token_var s) (save_token_var s) (status_var s) (log_queue s) (log_area s) (cur_thread s) x (outside s).
Definition set_outside x s := State (client s) (user_info s) (token s) (_all_groups s) (last_parent_name s) (last_subgroup_name s) (current_project_id s) (tree s) (token_var s) (save_token_var s) (status_var s) (log_queue s) (log_area s) (cur_thread s) (calls s) x.

(** A call into Tk, noted with the thread that makes it. *)
Definition tk (c : widget_call) : M state unit :=
  modify (fun s => set_calls (calls s ++ [(cur_thread s, c)]) s).

(** Code that only deals with the outside world. *)
Definition in_world {A} (m : M world A) : M state A := zoom outside set_outside m.

(** Run [task] as the thread [t], then go on as before. An exception
    leaving the task ends that thread's work and nothing else. *)
Definition on_thread (t : thread) (task : M state unit) : M state unit := fun s =>
  let t0 := cur_thread s in
  match task (set_cur_thread t s) with
  | (Diverge, s') => (Diverge, set_cur_thread t0 s')
  | (_, s') => (Return tt, set_cur_thread t0 s')
  end.

(** [threading.Thread(target=task, daemon=True).start()], with the task run
    to its end at once: the interleaving with other threads is not
    modelled, who runs the task is. *)
Definition spawn (task : M state unit) : M state unit := on_thread ActionThread task.

(** [win.after(0, callback)]: the call itself, then the callback on the
    main loop. *)
Definition after (callback : M state unit) : M state unit :=
  tk After ;;
  on_thread MainThread callback.

Definition tree_get_children (item : list Z) : M state (list (list Z)) :=
  tk (TreeGetChildren item) ;;
  roots ← gets tree;
  match Treeview.get_children roots item with
  | Some cs => ret cs
  | None => raise (Exn TclError (lit "Item " ++ item ++ lit " not found"))
  end.

Definition tree_delete (items : list (list Z)) : M state unit :=
  tk (TreeDelete items) ;;
  roots ← gets tree;
  match Treeview.delete roots items with
  | Some roots' => modify (set_tree roots')
  | None => raise (Exn TclError (lit "Item not found"))
  end.

Definition tree_insert (parent iid : list Z) (text : json) (values : list json)
    : M state unit :=
  tk (TreeInsert parent iid) ;;
  roots ← gets tree;
  match Treeview.insert roots parent iid text values with
  | Some roots' => modify (set_tree roots')
  | None => raise (Exn TclError (lit "Item " ++ iid ++ lit " cannot be inserted"))
  end.

Definition showerror (title msg : list Z) : M state unit := tk (ShowError title msg).
Definition showinfo (title msg : list Z) : M state unit := tk (ShowInfo title msg).

Section Methods.
Context (E : env).

(** [x.lower()] where [x] should be a str. *)
Definition py_lower (v : json) : M state (list Z) :=
  match v with
  | JStr s => ret (str_lower E s)
  | _ => raise (no_attribute v "lower")
  end.

(** Insertion of a keyed item before the first item whose key is not
    smaller: equal keys stay in their order. *)
Fixpoint insert_by_key {A} (k : list Z) (x : A) (l : list (list Z * A))
    : list (list Z * A) :=
  match l with
  | [] => [(k, x)]
  | (k', y) :: l' =>
      if str_le k k' then (k, x) :: l
      else (k', y) :: insert_by_key k x l'
  end.

Fixpoint sort_keyed {A} (l : list (list Z * A)) : list (list Z * A) :=
  match l with
  | [] => []
  | (k, x) :: l' => insert_by_key k x (sort_keyed l')
  end.

(** [sorted(l, key=key)]: the keys are computed first, left to right, then
    the items are put in ascending order of key, stably. *)
Definition sorted {A} (l : list A) (key : A -> M state (list Z)) : M state (list A) :=
  ks ← map_M key l;
  ret ((sort_keyed (zip ks l)).*2).

(** [lambda x: x.get('name', '').lower()] *)
Definition name_key (x : json) : M state (list Z) :=
  n ← py_get x (lit "name") (JStr []);
  py_lower n.

(** [not g.get('parent_id')] *)
Definition is_root (g : json) : M state bool :=
  p ← py_get g (lit "parent_id") JNull;
  ret (negb (truthy p)).

Definition set_status (text : list Z) : M state unit :=
  tk (StatusSet text) ;;
  modify (set_status_var text).

Definition log (text : list Z) : M state unit :=
  let line := lit "[" ++ strftime E ++ lit "] " ++ text in
  modify (fun s => set_log_queue (log_queue s ++ [line]) s).

(** One turn of the loop of the worker [_start_log_worker] starts: it takes
    the next line off the queue and writes it into the log widget. With an
    empty queue the worker waits. *)
Definition log_worker_step : M state unit := fun s =>
  match log_queue s with
  | [] => (Return tt, s)
  | line :: q =>
      let s := set_log_queue q s in
      let s := set_calls (calls s ++ [(LogWorker, LogAreaInsert line)]) s in
      (Return tt, set_log_area (log_area s ++ line ++ lit (String (Ascii.ascii_of_nat 10) "")) s)
  end.

Definition toast (text : list Z) : M state unit := tk (Toast text).

(** The body of the loops that fill the top level of the tree: the item of
    one root group, then its placeholder child. *)
Definition insert_root_group (rg : json) : M state unit :=
  id ← py_get rg (lit "id") JNull;
  let iid := lit "group_" ++ py_str E id in
  name ← py_get rg (lit "name") JNull;
  tree_insert [] iid name [JStr (lit "group"); id] ;;
  tree_insert iid (iid ++ lit "_dummy") (JStr (lit "(mở để tải...)")) [].

(** The two loops that fill the top level of the tree, in [populate_groups]
    and in [_load_cache]. *)
Definition insert_root_groups (groups : list json) : M state unit :=
  roots ← filter_M is_root groups;
  ordered ← sorted roots name_key;
  for_each ordered insert_root_group.

(** *** Cache *)

Definition cache_data (s : state) : json :=
  JObj [(lit "groups", _all_groups s);
        (lit "last_parent", last_parent_name s);
        (lit "last_subgroup", last_subgroup_name s)].

(** The [try] block of [save_cache]. *)
Definition save_cache_try : M state unit :=
  data ← gets cache_data;
  in_world (open_w (CACHE_FILE E) ;;
            for_each (json_dump_chunks E data) (write_str (CACHE_FILE E))) ;;
  log (lit "Lưu cache vào " ++ CACHE_FILE E) ;;
  showinfo (lit "Đã lưu") (lit "Cache đã lưu").

Definition save_cache : M state unit :=
  try_except save_cache_try
    (fun e =>
       log (lit "Lỗi lưu cache: " ++ exn_msg e) ;;
       showerror (lit "Lỗi") (lit "Không thể lưu cache: " ++ exn_msg e)).

(** [json.load(f)]. *)
Definition json_load (path : list Z) : M state json :=
  txt ← in_world (read_str path);
  match json_loads E txt with
  | Some v => ret v
  | None => raise (Exn JSONDecodeError (lit "Expecting value"))
  end.

Definition _load_cache : M state unit :=
  ex ← in_world (path_exists (CACHE_FILE E));
  if (ex : bool) then
    try_except
      (data ← json_load (CACHE_FILE E);
       g ← py_get data (lit "groups") (JArr []);
       modify (set__all_groups g) ;;
       lp ← py_get data (lit "last_parent") JNull;
       modify (set_last_parent_name lp) ;;
       ls ← py_get data (lit "last_subgroup") JNull;
       modify (set_last_subgroup_name ls) ;;
       log (lit "Đã nạp cache groups") ;;
       cs ← tree_get_children [];
       tree_delete cs ;;
       ag ← gets _all_groups;
       groups ← py_iter ag;
       insert_root_groups groups)
      (fun e => log (lit "Lỗi nạp cache: " ++ exn_msg e))
  else ret tt.

(** *** Filling the tree *)

(** The task [populate_groups] hands to its thread. *)
Definition populate_groups_task (fuel : nat) : M state unit :=
  try_except
    (set_status (lit "Tải groups...") ;;
     c ← gets client;
     groups ← match c with
              | Some c => in_world (GitLabClient.list_groups E fuel c)
              | None => raise (no_attribute JNull "list_groups")
              end;
     modify (set__all_groups (JArr groups)) ;;
     log (lit "Tải " ++ str_of_Z (Z.of_nat (length groups)) ++ lit " groups") ;;
     cs ← tree_get_children [];
     tree_delete cs ;;
     insert_root_groups groups ;;
     set_status (lit "Hoàn thành tải groups"))
    (fun e =>
       log (lit "Lỗi tải groups: " ++ exn_msg e) ;;
       showerror (lit "Lỗi") (lit "Không thể tải groups: " ++ exn_msg e) ;;
       set_status (lit "Lỗi tải groups")).

Definition populate_groups (fuel : nat) : M state unit :=
  c ← gets client;
  match c with
  | None => showerror (lit "Lỗi") (lit "Bạn cần đăng nhập trước")
  | Some _ => spawn (populate_groups_task fuel)
  end.

(** *** Login and logout *)

Definition on_login_task (fuel : nat) (tok : list Z) : M state unit :=
  try_except
    (set_status (lit "Đăng nhập...") ;;
     let c := GitLabClient.__init__ (Some tok) (BASE_URL E) in
     user ← in_world (GitLabClient.test E c);
     modify (set_client (Some c)) ;;
     modify (set_user_info (Some user)) ;;
     modify (set_token (Some tok)) ;;
     n ← py_get user (lit "name") JNull;
     log (lit "Đăng nhập thành công: " ++ py_str E n) ;;
     n ← py_get user (lit "name") JNull;
     set_status (lit "Đăng nhập: " ++ py_str E n) ;;
     sv ← gets save_token_var;
     (if (sv : bool) then
        ok ← in_world (save_token E tok);
        if (ok : bool) then log (lit "Token đã được lưu an toàn") else ret tt
      else ret tt) ;;
     populate_groups fuel)
    (fun e =>
       log (lit "Lỗi đăng nhập: " ++ exn_msg e) ;;
       showerror (lit "Lỗi đăng nhập") (exn_msg e) ;;
       set_status (lit "Đăng nhập thất bại")).

Definition on_login (fuel : nat) : M state unit :=
  tv ← gets token_var;
  let tok := strip tv in
  if bool_decide (tok = []) then
    showerror (lit "Lỗi") (lit "Vui lòng nhập Access Token")
  else if negb (REQUESTS_AVAILABLE E) then
    showerror (lit "Lỗi") (lit "Chưa cài 'requests'. Chạy: python -m pip install requests")
  else spawn (on_login_task fuel tok).

Definition on_logout : M state unit :=
  modify (set_client None) ;;
  modify (set_user_info None) ;;
  modify (set_token None) ;;
  set_status (lit "Đã đăng xuất") ;;
  log (lit "Đã đăng xuất").

(** *** Uploads *)

(** The lines the tasks of [action_upload_file] and [action_upload_folder]
    share: wrap the file in a ProgressFile, copy the client's headers
    without Content-Type, post to the project's uploads. requests reads the
    file in one go, so the progress callback fires once, and only for a
    file that is not empty. *)
Definition upload_post (path : list Z) (timeout : Z) : M state response :=
  data ← in_world (read_bytes path);
  c ← gets client;
  match c with
  | None => raise (no_attribute JNull "headers")
  | Some c =>
      let headers := delete (lit "Content-Type") (GitLabClient.headers c) in
      pid ← gets current_project_id;
      match pid with
      | None => raise (Exn AttributeError
                         (lit "'GitLabGUIApp' object has no attribute 'current_project_id'"))
      | Some pid =>
          (if bool_decide (data ≠ []) then after (tk ProgressUpdate) else ret tt) ;;
          in_world (GitLabClient.send E
            (Request POST
               (GitLabClient.base_url c ++ lit "/projects/" ++ str_of_Z pid ++ lit "/uploads")
               headers ∅ (FilePayload (basename E path) data) timeout))
      end
  end.

(** What both tasks do with the response; [what] and [tail] are the log
    line around the URL. *)
Definition upload_done (r : response) (what tail : list Z) : M state unit :=
  if GitLabClient.created r then
    res ← in_world (GitLabClient.resp_json r);
    u ← py_get res (lit "url") JNull;
    let url := if truthy u then py_str E u else py_str E res in
    log (what ++ url ++ tail) ;;
    after (toast (lit "Upload hoàn tất: " ++ url))
  else raise (GitLabClient.http_error r).

Definition has_project (s : state) : bool :=
  match current_project_id s with
  | Some p => negb (p =? 0)
  | None => false
  end.

(** [fn] is what the file dialog returns, [''] when it is cancelled. *)
Definition action_upload_file (fn : list Z) : M state unit :=
  sel ← gets has_project;
  if negb sel then showerror (lit "Lỗi") (lit "Vui lòng chọn Project trước")
  else if negb (REQUESTS_AVAILABLE E) then
    showerror (lit "Lỗi") (lit "Chưa cài 'requests'. Chạy: python -m pip install requests")
  else if bool_decide (fn = []) then ret tt
  else
    spawn
      (try_finally
         (try_except
            (set_status (lit "Uploading...") ;;
             tk (ProgressOpen (lit "Uploading file...")) ;;
             r ← upload_post fn 120;
             tk ProgressClose ;;
             pid ← gets current_project_id;
             upload_done r (lit "Upload file " ++ fn ++ lit " -> ")
               (lit " (project " ++ from_option str_of_Z (lit "None") pid ++ lit ")"))
            (fun e =>
               log (lit "Lỗi upload: " ++ exn_msg e) ;;
               showerror (lit "Lỗi upload") (exn_msg e)))
         (set_status (lit "Sẵn sàng"))).

(** [folder] is what the directory dialog returns. *)
Definition action_upload_folder (folder : list Z) : M state unit :=
  sel ← gets has_project;
  if negb sel then showerror (lit "Lỗi") (lit "Vui lòng chọn Project trước")
  else if negb (REQUESTS_AVAILABLE E) then
    showerror (lit "Lỗi") (lit "Chưa cài 'requests'. Chạy: python -m pip install requests")
  else if bool_decide (folder = []) then ret tt
  else
    try_except
      (let base := basename E (rstrip_with (fun c => (c =? 47) || (c =? 92)) folder) in
       let zipname := home_join E (base ++ lit ".zip") in
       files ← in_world (gets fs);
       match zip_folder E files folder with
       | None => raise (Exn OSError (lit "cannot write the archive"))
       | Some archive =>
           in_world (open_w zipname ;; modify (set_fs <[zipname := archive]>)) ;;
           spawn
             (try_finally
                (try_except
                   (set_status (lit "Uploading zip...") ;;
                    tk (ProgressOpen (lit "Uploading zip...")) ;;
                    r ← upload_post zipname 180;
                    tk ProgressClose ;;
                    upload_done r (lit "Upload folder " ++ folder ++ lit " as "
                                   ++ zipname ++ lit " -> ") [])
                   (fun e =>
                      log (lit "Lỗi upload folder: " ++ exn_msg e) ;;
                      showerror (lit "Lỗi") (exn_msg e)))
                (set_status (lit "Sẵn sàng")))
       end)
      (fun e => showerror (lit "Lỗi") (lit "Không thể nén folder: " ++ exn_msg e)).

End Methods.
End GitLabGUIApp.

(** ** Vocabulary of the statements about the client *)
Module ClientSpec.
Import GitLabClient.

(** The world with further exchanges on its log. *)
Definition extend_http (exs : list (request * http_result)) (w : world) : world :=
  World (fs w) (keyring_pw w) (http_log w ++ exs) (io_log w) (stdout w).

(** The exchanges a run added: those of [w'] after the ones of [w]. *)
Definition new_exchanges (w w' : world) : list (request * http_result) :=
  drop (length (http_log w)) (http_log w').

(** What one turn of the loop of [_paged_get] decides from the answer to
    its request: leave the loop with an outcome, or go on with a longer
    result. *)
Inductive verdict :=
| Stop (o : outcome (list json))
| Continue (res : list json).

Definition items_of (data : json) : option (list json) :=
  match data with
  | JArr l => Some l
  | JObj m => Some ((fun kv => JStr kv.1) <$> m)
  | JStr s => Some ((fun c => JStr [c]) <$> s)
  | _ => None
  end.

Definition page_verdict (r : http_result) (res : list json) : verdict :=
  match r with
  | NetErr msg => Stop (Raise (Exn RequestException msg))
  | Resp rs =>
      if negb (status_code rs =? 200) then Stop (Raise (http_error rs))
      else
        match json_body rs with
        | None => Stop (Raise (Exn JSONDecodeError (lit "Expecting value")))
        | Some data =>
            if negb (truthy data) then Stop (Return res)
            else
              match items_of data with
              | None =>
                  Stop (Raise (Exn TypeError
                                 (lit "'" ++ type_name data ++ lit "' object is not iterable")))
              | Some items =>
                  if Z.of_nat (length items) <? 100 then Stop (Return (res ++ items))
                  else Continue (res ++ items)
              end
        end
  end.

Section Run.
Context (E : env) (self : t) (path : list Z) (params : option (gmap (list Z) json)).

(** [paged_run fuel page res hist exs o]: started at [page] with [res]
    collected and the requests [hist] already made, the loop makes the
    exchanges [exs] and ends with [o]. *)
Inductive paged_run : nat -> Z -> list json -> list request ->
    list (request * http_result) -> outcome (list json) -> Prop :=
| paged_out page res hist :
    paged_run 0 page res hist [] Diverge
| paged_stop fuel page res hist o :
    page_verdict (api E hist (page_request self path params page)) res = Stop o ->
    paged_run (S fuel) page res hist
      [(page_request self path params page,
        api E hist (page_request self path params page))] o
| paged_more fuel page res hist res' exs o :
    page_verdict (api E hist (page_request self path params page)) res = Continue res' ->
    paged_run fuel (page + 1) res' (hist ++ [page_request self path params page]) exs o ->
    paged_run (S fuel) page res hist
      ((page_request self path params page,
        api E hist (page_request self path params page)) :: exs) o.

(** The server answers the request for page [n] with status 200 and the
    JSON array [pages n], whatever was asked before. *)
Definition serves (pages : Z -> list json) : Prop :=
  forall hist n, exists rs,
    api E hist (page_request self path params n) = Resp rs
    /\ status_code rs = 200
    /\ json_body rs = Some (JArr (pages n)).

End Run.

(** A full page: an answer after which [_paged_get] asks for the next
    page. *)
Definition full_page (x : request * http_result) : Prop :=
  exists rs data items,
    x.2 = Resp rs /\ status_code rs = 200 /\ json_body rs = Some data
    /\ truthy data = true /\ items_of data = Some items
    /\ (100 <= length items)%nat.

(** The GitLab endpoints, under the client's base URL. *)
Inductive endpoint (base : list Z) : list Z -> Prop :=
| ep_user : endpoint base (base ++ lit "/user")
| ep_groups : endpoint base (base ++ lit "/groups")
| ep_projects : endpoint base (base ++ lit "/projects")
| ep_group_projects id :
    endpoint base (base ++ lit "/groups/" ++ id ++ lit "/projects")
| ep_repository_tree id :
    endpoint base (base ++ lit "/projects/" ++ id ++ lit "/repository/tree")
| ep_file_raw id file_path :
    endpoint base (base ++ lit "/projects/" ++ id ++ lit "/repository/files/"
                   ++ file_path ++ lit "/raw")
| ep_uploads id : endpoint base (base ++ lit "/projects/" ++ id ++ lit "/uploads")
| ep_commits id :
    endpoint base (base ++ lit "/projects/" ++ id ++ lit "/repository/commits").


(** What a call that makes one request returns for the answer [r]:
    [r.content] for [get_file_raw], [r.json()] for the others. *)
Definition single_result (c : call) (r : http_result) : outcome value :=
  match r with
  | NetErr msg => Raise (Exn RequestException msg)
  | Resp rs =>
      if accepts c rs then
        match c with
        | GetFileRaw _ _ _ => Return (VBytes (content rs))
        | _ =>
            match json_body rs with
            | Some v => Return (VJson v)
            | None => Raise (Exn JSONDecodeError (lit "Expecting value"))
            end
        end
      else Raise (http_error rs)
  end.

(** What a call raises before it sends anything: [upload_file] for a file
    that does not exist, [get_file_raw] when [quote_plus] refuses the
    path. [None]: the call sends its request. *)
Definition before_request (E : env) (c : call) (w : world) : option exn :=
  match c with
  | UploadFile _ file_path =>
      match fs w !! file_path with
      | None => Some (Exn FileNotFoundError (lit "File không tồn tại"))
      | Some _ => None
      end
  | GetFileRaw _ file_path _ =>
      match quote_plus E file_path with
      | None => Some (Exn UnicodeError (lit "'utf-8' codec can't encode character"))
      | Some _ => None
      end
  | _ => None
  end.

(** The items a page adds to the result of [_paged_get]. *)
Definition page_items (x : request * http_result) : list json :=
  match x.2 with
  | Resp rs =>
      match json_body rs with
      | Some data => if truthy data then default [] (items_of data) else []
      | None => []
      end
  | NetErr _ => []
  end.

(** The outcome of [list_groups] as the outcome of a call. *)
Definition lift_list (o : outcome (list json)) : outcome value :=
  match o with
  | Return l => Return (VList l)
  | Raise e => Raise e
  | Diverge => Diverge
  end.

(** An answer that is not a success for the call: the library raised, or
    the status is not one the call accepts. *)
Definition failure (c : call) (r : http_result) : Prop :=
  match r with
  | NetErr _ => True
  | Resp rs => accepts c rs = false
  end.

End ClientSpec.

(** ** A JSON codec to compute with

    A printer that lays a document out as
    [json.dump(..., ensure_ascii=False, indent=2)] does, and a parser for
    JSON text, both restricted to the values of [json] (numbers are ints).
    The program reaches the json library through the environment; this codec
    is what the environments built below put there. *)
Module Json.

Definition hex_digit (n : Z) : Z := if n <? 10 then 48 + n else 87 + n.

Definition escape_char (c : Z) : list Z :=
  if c =? 34 then [92; 34]
  else if c =? 92 then [92; 92]
  else if c =? 10 then [92; 110]
  else if c =? 13 then [92; 114]
  else if c =? 9 then [92; 116]
  else if c =? 8 then [92; 98]
  else if c =? 12 then [92; 102]
  else if (0 <=? c) && (c <? 32) then [92; 117; 48; 48; hex_digit (c / 16); hex_digit (c mod 16)]
  else [c].

Definition dump_str (s : list Z) : list Z := 34 :: flat_map escape_char s ++ [34].

Definition newline_indent (level : nat) : list Z := 10 :: replicate (2 * level) 32.

Fixpoint dumps (level : nat) (v : json) : list Z :=
  match v with
  | JNull => lit "null"
  | JBool true => lit "true"
  | JBool false => lit "false"
  | JNum n => str_of_Z n
  | JStr s => dump_str s
  | JArr l =>
      match l with
      | [] => lit "[]"
      | _ =>
          [91] ++ newline_indent (S level)
          ++ (fix items (l : list json) : list Z :=
                match l with
                | [] => []
                | [x] => dumps (S level) x
                | x :: l' => dumps (S level) x ++ [44] ++ newline_indent (S level) ++ items l'
                end) l
          ++ newline_indent level ++ [93]
      end
  | JObj m =>
      match m with
      | [] => lit "{}"
      | _ =>
          [123] ++ newline_indent (S level)
          ++ (fix members (m : list (list Z * json)) : list Z :=
                match m with
                | [] => []
                | [(k, x)] => dump_str k ++ lit ": " ++ dumps (S level) x
                | (k, x) :: m' =>
                    dump_str k ++ lit ": " ++ dumps (S level) x
                    ++ [44] ++ newline_indent (S level) ++ members m'
                end) m
          ++ newline_indent level ++ [125]
      end
  end.

(** The document as one piece. *)
Definition dump_chunks (v : json) : list (list Z) := [dumps 0 v].

Fixpoint skip_ws (s : list Z) : list Z :=
  match s with
  | c :: s' => if (c =? 32) || (c =? 10) || (c =? 13) || (c =? 9) then skip_ws s' else s
  | [] => []
  end.

Definition hex_value (c : Z) : option Z :=
  if (48 <=? c) && (c <=? 57) then Some (c - 48)
  else if (97 <=? c) && (c <=? 102) then Some (c - 87)
  else if (65 <=? c) && (c <=? 70) then Some (c - 55)
  else None.

(** The characters of a string, after its opening quote. *)
Fixpoint parse_chars (s : list Z) : option (list Z * list Z) :=
  match s with
  | [] => None
  | c :: rest =>
      if c =? 34 then Some ([], rest)
      else if c =? 92 then
        match rest with
        | e :: rest' =>
            let simple (x : Z) := '(cs, r) ← parse_chars rest'; Some (x :: cs, r) in
            if e =? 34 then simple 34
            else if e =? 92 then simple 92
            else if e =? 47 then simple 47
            else if e =? 110 then simple 10
            else if e =? 114 then simple 13
            else if e =? 116 then simple 9
            else if e =? 98 then simple 8
            else if e =? 102 then simple 12
            else if e =? 117 then
              match rest' with
              | h3 :: h2 :: h1 :: h0 :: rest'' =>
                  match hex_value h3, hex_value h2, hex_value h1, hex_value h0 with
                  | Some a, Some b, Some c', Some d =>
                      '(cs, r) ← parse_chars rest'';
                      Some (a * 4096 + b * 256 + c' * 16 + d :: cs, r)
                  | _, _, _, _ => None
                  end
              | _ => None
              end
            else None
        | [] => None
        end
      else if (0 <=? c) && (c <? 32) then None
      else '(cs, r) ← parse_chars rest; Some (c :: cs, r)
  end.

Definition is_digit (c : Z) : bool := (48 <=? c) && (c <=? 57).

(** The digits at the front of [s], as a number continuing [acc]. *)
Fixpoint parse_digits (acc : Z) (s : list Z) : Z * list Z :=
  match s with
  | c :: s' => if is_digit c then parse_digits (acc * 10 + (c - 48)) s' else (acc, s)
  | [] => (acc, [])
  end.

Definition parse_int (s : list Z) : option (Z * list Z) :=
  match s with
  | 45 :: c :: s' =>
      if is_digit c then let (n, r) := parse_digits 0 (c :: s') in Some (- n, r) else None
  | c :: s' =>
      if is_digit c then Some (parse_digits 0 (c :: s')) else None
  | [] => None
  end.

Section Containers.
Context (parse_value : list Z -> option (json * list Z)).

(** The items of an array after the first bracket, up to the closing one;
    [n] bounds their number. *)
Fixpoint parse_items (n : nat) (s : list Z) : option (list json * list Z) :=
  match n with
  | O => None
  | S n' =>
      '(v, rest) ← parse_value s;
      match skip_ws rest with
      | 44 :: r => '(vs, r') ← parse_items n' r; Some (v :: vs, r')
      | 93 :: r => Some ([v], r)
      | _ => None
      end
  end.

Fixpoint parse_members (n : nat) (s : list Z) : option (list (list Z * json) * list Z) :=
  match n with
  | O => None
  | S n' =>
      match skip_ws s with
      | 34 :: s1 =>
          '(k, s2) ← parse_chars s1;
          match skip_ws s2 with
          | 58 :: s3 =>
              '(v, rest) ← parse_value s3;
              match skip_ws rest with
              | 44 :: r => '(kvs, r') ← parse_members n' r; Some ((k, v) :: kvs, r')
              | 125 :: r => Some ([(k, v)], r)
              | _ => None
              end
          | _ => None
          end
      | _ => None
      end
  end.

End Containers.

Fixpoint parse_value (fuel : nat) (s : list Z) : option (json * list Z) :=
  match fuel with
  | O => None
  | S fuel' =>
      match skip_ws s with
      | 110 :: 117 :: 108 :: 108 :: rest => Some (JNull, rest)
      | 116 :: 114 :: 117 :: 101 :: rest => Some (JBool true, rest)
      | 102 :: 97 :: 108 :: 115 :: 101 :: rest => Some (JBool false, rest)
      | 34 :: rest => '(cs, r) ← parse_chars rest; Some (JStr cs, r)
      | 91 :: rest =>
          match skip_ws rest with
          | 93 :: r => Some (JArr [], r)
          | _ => '(vs, r) ← parse_items (parse_value fuel') fuel' rest; Some (JArr vs, r)
          end
      | 123 :: rest =>
          match skip_ws rest with
          | 125 :: r => Some (JObj [], r)
          | _ => '(kvs, r) ← parse_members (parse_value fuel') fuel' rest; Some (JObj kvs, r)
          end
      | s' => '(n, r) ← parse_int s'; Some (JNum n, r)
      end
  end.

(** [json.loads]: one value, then nothing but white space. *)
Definition loads (s : list Z) : option json :=
  match parse_value (S (length s)) s with
  | Some (v, rest) => if bool_decide (skip_ws rest = []) then Some v else None
  | None => None
  end.

End Json.

(** ** Instances to compute with

    An environment with the module's defaults, simple stand-ins for the
    library functions, and a server that is given as a parameter. *)
Module Demo.

Definition ascii_lower (s : list Z) : list Z :=
  (fun c => if (65 <=? c) && (c <=? 90) then c + 32 else c) <$> s.

(** The last component of a path written with ['/']. *)
Fixpoint last_component (acc s : list Z) : list Z :=
  match s with
  | [] => acc
  | c :: s' => if c =? 47 then last_component [] s' else last_component (acc ++ [c]) s'
  end.

(** A server of pages: a request carrying [page=n] gets status 200 and the
    array [pages n]; any other request gets 404. *)
Definition paged_api (pages : Z -> list json) : list request -> request -> http_result :=
  fun _ rq =>
    match rq_params rq !! lit "page" with
    | Some (JNum n) => Resp (Response 200 (lit "[...]") (Some (JArr (pages n))) [])
    | _ => Resp (Response 404 (lit "Not Found") None (lit "Not Found"))
    end.

Definition group (id : Z) (name : string) (parent_id : json) : json :=
  JObj [(lit "id", JNum id); (lit "name", JStr (lit name)); (lit "parent_id", parent_id)].

(** Page 1 holds [n] groups, page 2 one group, the pages after none. *)
Definition two_pages (n : nat) (page : Z) : list json :=
  if page =? 1 then replicate n (group 7 "team" JNull)
  else if page =? 2 then [group 8 "tail" JNull]
  else [].

Definition unreserved (c : Z) : bool :=
  ((65 <=? c) && (c <=? 90)) || ((97 <=? c) && (c <=? 122)) || ((48 <=? c) && (c <=? 57))
  || (c =? 95) || (c =? 46) || (c =? 45) || (c =? 126).

Definition upper_hex (n : Z) : Z := if n <? 10 then 48 + n else 55 + n.

(** [quote_plus]: unreserved characters stay, a space becomes ['+'], every
    other character becomes the percent-escapes of its UTF-8 bytes; a str
    with a character that has none is refused. *)
Definition percent_quote (s : list Z) : option (list Z) :=
  match Utf8.encode s with
  | None => None
  | Some _ =>
      Some (flat_map (fun c =>
              if unreserved c then [c]
              else if c =? 32 then [43]
              else flat_map (fun b => [37; upper_hex (b / 16); upper_hex (b mod 16)])
                     (default [] (Utf8.encode_cp c))) s)
  end.

Definition env_of (keyring : bool) (api : list request -> request -> http_result) : env :=
  {| BASE_URL := lit "https://git.rikkei.edu.vn/api/v4";
     CACHE_FILE := lit "/home/u/.gitlab_gui_cache.json";
     TOKEN_FILE_FALLBACK := lit "/home/u/.gitlab_gui_token";
     KEYRING_AVAILABLE := keyring;
     REQUESTS_AVAILABLE := true;
     api := api;
     str_lower := ascii_lower;
     py_repr := Json.dumps 0;
     quote_plus := percent_quote;
     basename := last_component [];
     json_dump_chunks := Json.dump_chunks;
     json_loads := Json.loads;
     strftime := lit "2025-01-01 12:00:00";
     home_join := fun name => lit "/home/u/" ++ name;
     zip_folder := fun _ _ => Some (lit "PK") |}.

Definition world0 : world := World ∅ None [] [] [].

Definition client0 : GitLabClient.t :=
  GitLabClient.__init__ (Some (lit "glpat-abc")) (lit "https://git.rikkei.edu.vn/api/v4").

End Demo.

(** ** Readings of the specification that the code does not meet

    Kept as propositions so that they can be refuted. *)
Module Readings.
Import GitLabClient ClientSpec.

(** [o] is what [r.json()] gives for [rs], on its own or as a list. *)
Definition body_returned (o : outcome value) (rs : response) : Prop :=
  match json_body rs with
  | Some j => o = Return (VJson j) \/ exists l, j = JArr l /\ o = Return (VList l)
  | None => o = Raise (Exn JSONDecodeError (lit "Expecting value"))
  end.

(** "A refused status raises the error, an accepted status returns the
    parsed body", for every call and every answer received. *)
Definition uniform_contract (E : env) : Prop :=
  forall fuel self c w o w',
    run E fuel self c w = (o, w') -> o <> Diverge ->
    forall rq rs, (rq, Resp rs) ∈ new_exchanges w w' ->
      if accepts c rs then body_returned o rs else o = Raise (http_error rs).

(** "Every call is a single request." *)
Definition single_request (E : env) : Prop :=
  forall fuel self c w o w',
    run E fuel self c w = (o, w') -> o <> Diverge ->
    length (new_exchanges w w') = 1%nat.

(** "[_paged_get] asks for page n+1 only when page n held exactly 100
    entries", for the pages there are: those from 1 on. *)
Definition next_page_only_after_exactly_100 (E : env) (self : t) (path : list Z)
    (params : option (gmap (list Z) json)) (pages : Z -> list json) : Prop :=
  forall fuel w l w' n,
    1 <= n ->
    _paged_get E fuel self path params w = (Return l, w') ->
    page_request self path params (n + 1) ∈ (new_exchanges w w').*1 ->
    length (pages n) = 100%nat.

End Readings.

(** Further instances: the answer 404, the request [test] makes, and the
    environments of a server of pages. *)
Module Demo2.
Import Demo.

Definition not_found : response :=
  Response 404 (lit "Not Found") None (lit "Not Found").

Definition user_request : request :=
  Request GET (lit "https://git.rikkei.edu.vn/api/v4/user")
    (GitLabClient.headers client0) ∅ NoPayload 10.

Definition env_pages (n : nat) : env := env_of false (paged_api (two_pages n)).

Definition page_response (n : nat) (page : Z) : response :=
  Response 200 (lit "[...]") (Some (JArr (two_pages n page))) [].

End Demo2.

(** ** Vocabulary of the statements about the application *)
Module AppSpec.
Import GitLabGUIApp.

(** The Tk calls a run added. *)
Definition new_calls (s s' : state) : list (thread * widget_call) :=
  drop (length (calls s)) (calls s').

(** [m] keeps the relation [R] between the state it starts in and the
    state it ends in. *)
Definition preserves {S A} (R : relation S) (m : M S A) : Prop :=
  forall s, R s (m s).2.

(** Login state and token store are the same in both states. *)
Definition same_login (s s' : state) : Prop :=
  client s' = client s /\ user_info s' = user_info s /\ token s' = token s
  /\ fs (outside s') = fs (outside s)
  /\ keyring_pw (outside s') = keyring_pw (outside s)
  /\ io_log (outside s') = io_log (outside s).

End AppSpec.

(** A state to compute with: the application as [__init__] leaves it in an
    empty home directory, with a token typed in and 'save token' checked. *)
Module Demo3.
Import GitLabGUIApp Demo.

Definition state0 : state :=
  {| client := None; user_info := None; token := None;
     _all_groups := JArr []; last_parent_name := JNull; last_subgroup_name := JNull;
     current_project_id := None; tree := [];
     token_var := lit " glpat-abc "; save_token_var := true;
     status_var := lit "Sẵn sàng"; log_queue := []; log_area := [];
     cur_thread := MainThread; calls := []; outside := world0 |}.

(** The same, logged in. *)
Definition state1 : state := set_client (Some client0) state0.

End Demo3.

(** Further vocabulary for the application. *)
Module AppSpec2.
Import GitLabGUIApp AppSpec.

(** Calls that read or change the items of the tree widget. *)
Definition tree_call (c : widget_call) : Prop :=
  match c with
  | TreeGetChildren _ | TreeDelete _ | TreeInsert _ _ => True
  | _ => False
  end.

(** Every Tk call made between [s] and [s'] was made by the thread that
    runs in [s], which also runs in [s']. *)
Definition made_by_current (s s' : state) : Prop :=
  cur_thread s' = cur_thread s
  /\ exists cs, calls s' = calls s ++ cs /\ Forall (fun x => x.1 = cur_thread s) cs.

(** The world outside is the same in both states. *)
Definition same_outside (s s' : state) : Prop := outside s' = outside s.

(** The attributes the cache file keeps are the same in both states. *)
Definition same_cached (s s' : state) : Prop :=
  _all_groups s' = _all_groups s
  /\ last_parent_name s' = last_parent_name s
  /\ last_subgroup_name s' = last_subgroup_name s.

End AppSpec2.

Module Readings2.
Import GitLabGUIApp AppSpec AppSpec2.

(** "The tree is only touched on the main loop", for [populate_groups]
    started from the main loop. *)
Definition tree_on_main_loop_only (E : env) : Prop :=
  forall fuel s t c,
    cur_thread s = MainThread ->
    (t, c) ∈ new_calls s (populate_groups E fuel s).2 ->
    tree_call c -> t = MainThread.

End Readings2.

(** Relations between states that the steps of pure interface work keep:
    Tk calls, and updates of the tree, the status line and the log queue. *)
Module UiFrames.
Import GitLabGUIApp AppSpec.

Class UiFrame (R : relation state) := {
  ui_preorder :: PreOrder R;
  ui_tk c : preserves R (tk c);
  ui_set_tree roots : preserves R (modify (set_tree roots));
  ui_set_status_var text : preserves R (modify (set_status_var text));
  ui_set_log_queue f : preserves R (modify (fun s => set_log_queue (f s) s))
}.

End UiFrames.

(** ** Vocabulary of the statements about the tree *)
Module TreeSpec.
Import GitLabGUIApp.

(** [g.get(k)] for a group that is a dict; [None] where the key is absent
    or [g] is no dict. *)
Definition member (k : string) (g : json) : option json :=
  match g with
  | JObj m => dict_lookup (lit k) m
  | _ => None
  end.

(** The groups [populate_groups] puts at the top: [not g.get('parent_id')]. *)
Definition root_group (g : json) : bool :=
  negb (truthy (default JNull (member "parent_id" g))).

(** A group whose parent is absent or null. *)
Definition parentless (g : json) : Prop :=
  member "parent_id" g = None \/ member "parent_id" g = Some JNull.

(** A group as the loops can handle it: a dict whose name, if there is
    one, is a str. *)
Definition group_ok (g : json) : Prop :=
  exists m, g = JObj m
    /\ (dict_lookup (lit "name") m = None
        \/ exists n, dict_lookup (lit "name") m = Some (JStr n)).

(** A group with a name that is a str. *)
Definition group_named (g : json) : Prop :=
  exists n, member "name" g = Some (JStr n).

(** Order of keyed items: by key. *)
Definition key_le {A} (p q : list Z * A) : Prop := str_le p.1 q.1 = true.

Section WithEnv.
Context (E : env).

(** The sort key, [g.get('name', '').lower()]. *)
Definition sort_key (g : json) : list Z :=
  match default (JStr []) (member "name" g) with
  | JStr n => str_lower E n
  | _ => []
  end.

Definition group_iid (g : json) : list Z :=
  lit "group_" ++ py_str E (default JNull (member "id" g)).

(** The identifiers the tree gets for a root group: its own and the one of
    its placeholder child. *)
Definition root_iids (g : json) : list (list Z) :=
  [group_iid g; group_iid g ++ lit "_dummy"].

(** The item shown for a root group: named after the group, carrying the
    kind and the id, with the placeholder as only child. *)
Definition root_node (g : json) : Treeview.node :=
  Treeview.Node (group_iid g) (default JNull (member "name" g))
    [JStr (lit "group"); default JNull (member "id" g)]
    [Treeview.Node (group_iid g ++ lit "_dummy") (JStr (lit "(mở để tải...)")) [] []].

(** In ascending order of the sort key. *)
Definition by_name (a b : json) : Prop := str_le (sort_key a) (sort_key b) = true.

End WithEnv.
End TreeSpec.

Module Readings3.
Import GitLabGUIApp TreeSpec.

(** "The root items are exactly the groups without parent": here, that
    every root item stands for a group whose [parent_id] is absent or
    null, for an application whose tree is one Tk can hold (no item has
    the identifier of the root) and groups that are named and give
    identifiers that do not clash. *)
Definition roots_are_parentless (E : env) : Prop :=
  forall fuel s c groups w',
    client s = Some c ->
    GitLabClient.list_groups E fuel c (outside s) = (Return groups, w') ->
    [] ∉ Treeview.all_iids (tree s) ->
    Forall group_ok groups ->
    Forall group_named (List.filter root_group groups) ->
    NoDup (flat_map (root_iids E) (List.filter root_group groups)) ->
    forall n, n ∈ tree (populate_groups E fuel s).2 ->
      exists g, g ∈ groups /\ Treeview.node_iid n = group_iid E g /\ parentless g.

End Readings3.

(** Instances for the tree: a server with one page of groups. *)
Module Demo4.
Import Demo.

Definition one_page (groups : list json) (page : Z) : list json :=
  if page =? 1 then groups else [].

Definition env_groups (groups : list json) : env := env_of false (paged_api (one_page groups)).

(** A group whose [parent_id] is 0. *)
Definition zero_parent : json := group 5 "orphan" (JNum 0).

(** Two root groups and a subgroup of the first. *)
Definition three_groups : list json :=
  [group 2 "beta" JNull; group 3 "Alpha" (JNum 0); group 4 "sub" (JNum 2)].

(** A logged-in application with something to save. *)
Definition saved_state : GitLabGUIApp.state :=
  GitLabGUIApp.set_last_parent_name (JStr (lit "beta"))
    (GitLabGUIApp.set__all_groups (JArr three_groups) Demo3.state1).

End Demo4.

(** ** The handlers that reach the network, and what their requests may be *)
Module RequestSpec.
Import GitLabGUIApp ClientSpec.

(** The handlers of the application that issue requests themselves or
    through the client, with what the user gave them. *)
Inductive handler :=
| OnLogin (fuel : nat)
| PopulateGroups (fuel : nat)
| ActionUploadFile (fn : list Z)
| ActionUploadFolder (folder : list Z).

Definition handle (E : env) (h : handler) : M state unit :=
  match h with
  | OnLogin fuel => on_login E fuel
  | PopulateGroups fuel => populate_groups E fuel
  | ActionUploadFile fn => action_upload_file E fn
  | ActionUploadFolder folder => action_upload_folder E folder
  end.

(** The base URL every client of the application has: [on_login] is the
    only place that makes one. *)
Definition app_base (E : env) : list Z := rstrip_slash (BASE_URL E).

Definition client_ok (E : env) (s : state) : Prop :=
  forall c, client s = Some c -> GitLabClient.base_url c = app_base E.

(** No exchange was added between the two worlds. *)
Definition same_http (w w' : world) : Prop := http_log w' = http_log w.

(** A request to one of the endpoints under [base]. *)
Definition to_endpoint (base : list Z) (x : request * http_result) : Prop :=
  endpoint base (rq_url x.1).

(** From a state whose client is the application's own, the requests made
    up to [s'] all went to endpoints, and the client still is. *)
Definition requests_ok (E : env) (s s' : state) : Prop :=
  client_ok E s ->
  client_ok E s'
  /\ exists exs,
       http_log (outside s') = http_log (outside s) ++ exs
       /\ Forall (to_endpoint (app_base E)) exs.

End RequestSpec.

(** ** Further vocabulary: what requests look like, and what runs keep *)
Module ClientSpec2.
Import GitLabClient.

(** What every request of a client has: the client's headers, and a
    timeout between 10 and 60 seconds. *)
Definition well_formed (self : t) (x : request * http_result) : Prop :=
  rq_headers x.1 = headers self /\ 10 <= rq_timeout x.1 <= 60.

End ClientSpec2.

Module AppSpec3.
Import GitLabGUIApp.

(** A piece of code that comes to an end from every state: it returns or
    raises, and does not run out of fuel. *)
Definition halts {S A} (m : M S A) : Prop := forall s, (m s).1 <> Diverge.

(** A piece of code that returns from every state. *)
Definition returns {S A} (m : M S A) : Prop := forall s, exists a, (m s).1 = Return a.

(** The session is the same in both states. *)
Definition same_session (s s' : state) : Prop :=
  client s' = client s /\ user_info s' = user_info s /\ token s' = token s.

(** From a state without a client, the run to [s'] made no client and no
    request. *)
Definition silent (s s' : state) : Prop :=
  client s = None ->
  client s' = None /\ http_log (outside s') = http_log (outside s).

(** The status line shows [text]; as a relation, whatever the state
    before. *)
Definition status_is (text : list Z) (_ s' : state) : Prop := status_var s' = text.

End AppSpec3.

(** A server that knows its user: the request to /user gets status 200 and
    the user; every other request is answered as by the server of pages. *)
Module Demo5.
Import Demo.

Definition user (name : string) : json :=
  JObj [(lit "id", JNum 1); (lit "name", JStr (lit name))].

Definition user_api (pages : Z -> list json) : list request -> request -> http_result :=
  fun hist rq =>
    if bool_decide (rq_url rq = lit "https://git.rikkei.edu.vn/api/v4/user")
    then Resp (Response 200 (lit "{...}") (Some (user "An")) [])
    else paged_api pages hist rq.

Definition env_user (keyring : bool) (groups : list json) : env :=
  env_of keyring (user_api (Demo4.one_page groups)).

(** A project is selected. *)
Definition state2 : GitLabGUIApp.state :=
  {| GitLabGUIApp.client := Some client0; GitLabGUIApp.user_info := None;
     GitLabGUIApp.token := None;
     GitLabGUIApp._all_groups := JArr []; GitLabGUIApp.last_parent_name := JNull;
     GitLabGUIApp.last_subgroup_name := JNull;
     GitLabGUIApp.current_project_id := Some 42; GitLabGUIApp.tree := [];
     GitLabGUIApp.token_var := lit " glpat-abc "; GitLabGUIApp.save_token_var := true;
     GitLabGUIApp.status_var := lit "Chọn project id=42";
     GitLabGUIApp.log_queue := []; GitLabGUIApp.log_area := [];
     GitLabGUIApp.cur_thread := GitLabGUIApp.MainThread; GitLabGUIApp.calls := [];
     GitLabGUIApp.outside :=
       World {[lit "/home/u/notes.txt" := lit "hello"]} None [] [] [] |}.

End Demo5.

(** ** Further vocabulary for the cache and the tree *)
Module CacheSpec.
Import GitLabGUIApp TreeSpec.

(** The document in the cache file, as [_load_cache] reads it: [None] when
    there is no file, or it is not UTF-8, or not JSON. *)
Definition cache_document (E : env) (s : state) : option json :=
  bs ← fs (outside s) !! CACHE_FILE E;
  txt ← Utf8.decode bs;
  json_loads E (universal_newlines txt).

(** The [try] block of [_load_cache], and its [except] clause. *)
Definition load_cache_try (E : env) : M state unit :=
  data ← json_load E (CACHE_FILE E);
  g ← py_get data (lit "groups") (JArr []);
  modify (set__all_groups g) ;;
  lp ← py_get data (lit "last_parent") JNull;
  modify (set_last_parent_name lp) ;;
  ls ← py_get data (lit "last_subgroup") JNull;
  modify (set_last_subgroup_name ls) ;;
  log E (lit "Đã nạp cache groups") ;;
  cs ← tree_get_children [];
  tree_delete cs ;;
  ag ← gets _all_groups;
  groups ← py_iter ag;
  insert_root_groups E groups.

Definition load_cache_except (E : env) (e : exn) : M state unit :=
  log E (lit "Lỗi nạp cache: " ++ exn_msg e).

(** The state after a failure was reported in the log: the line, with its
    time stamp, at the end of the queue. *)
Definition logged (E : env) (text : list Z) (s : state) : state :=
  set_log_queue (log_queue s ++ [lit "[" ++ strftime E ++ lit "] " ++ text]) s.

(** The root groups of [groups] in the order the tree shows them. *)
Definition shown (E : env) (groups : list json) : list json :=
  let roots := List.filter root_group groups in
  (sort_keyed (zip (sort_key E <$> roots) roots)).*2.

End CacheSpec.

(** ** ProgressFile: a file that tells how much of it has been read

    The object wraps a file opened for reading. The open file is kept as
    the bytes that are still to be read ([None] once it is closed); the
    callback is the one the object was made with. *)
Module ProgressFile.

(** [open(path, 'rb')]. *)
Definition open_rb (p : list Z) : M world (list Z) := read_bytes p.

(** [os.path.getsize(path)]. *)
Definition getsize (p : list Z) : M world Z :=
  data ← read_bytes p;
  ret (Z.of_nat (length data)).

Record t := PF {
  path : list Z;
  f : option (list Z);
  total : Z;
  read_bytes : Z
}.

Definition __init__ (p : list Z) : M world t :=
  data ← open_rb p;
  total ← try_except (getsize p) (fun _ => ret 0);
  ret (PF p (Some data) total 0).

Definition __len__ (self : t) : Z := total self.

(** [self.f.close()] does not raise. *)
Definition close (self : t) : t := PF (path self) None (total self) (read_bytes self).

Section Read.
Context {S : Type}.
(** The class of the exception a closed file or a bad size raises (a
    ValueError), and the callback. *)
Context (ValueError : exn_class) (callback : Z -> Z -> M S unit).

(** [self.f.read(size)] on the buffered reader: a size below -1 is
    refused, before the file is looked at; then everything that is left
    when [size] is -1, else at most [size] bytes. *)
Definition file_read (fh : option (list Z)) (size : Z)
    : M S (list Z * option (list Z)) :=
  if size <? -1 then
    raise (Exn ValueError (lit "read length must be non-negative or -1"))
  else
    match fh with
    | None => raise (Exn ValueError (lit "read of closed file"))
    | Some data =>
        let chunk := if size =? -1 then data else take (Z.to_nat size) data in
        ret (chunk, Some (drop (length chunk) data))
    end.

Definition read (self : t) (size : Z) : M S (list Z * t) :=
  '(chunk, fh) ← file_read (f self) size;
  if bool_decide (chunk ≠ []) then
    let n := read_bytes self + Z.of_nat (length chunk) in
    try_except (callback n (total self)) (fun _ => ret tt) ;;
    ret (chunk, PF (path self) fh (total self) n)
  else ret (chunk, PF (path self) fh (total self) (read_bytes self)).

(** A reader that asks for one chunk after the other, of the sizes given. *)
Fixpoint read_each (self : t) (sizes : list Z) : M S (list (list Z) * t) :=
  match sizes with
  | [] => ret ([], self)
  | size :: sizes' =>
      '(chunk, self) ← read self size;
      '(chunks, self) ← read_each self sizes';
      ret (chunk :: chunks, self)
  end.

End Read.

(** A callback that notes what it is told. *)
Definition note (n total : Z) : M (list (Z * Z)) unit :=
  modify (fun l => l ++ [(n, total)]).

End ProgressFile.

(** ** ttk.Treeview, continued: looking items up *)
Module Treeview2.
Import Treeview.

(** The item [i] at or below [n]. *)
Fixpoint find_node (i : list Z) (n : node) : option node :=
  match n with
  | Node j _ _ cs =>
      if bool_decide (j = i) then Some n
      else
        (fix go (l : list node) : option node :=
           match l with
           | [] => None
           | c :: l' =>
               match find_node i c with
               | Some r => Some r
               | None => go l'
               end
           end) cs
  end.

Definition lookup (roots : list node) (i : list Z) : option node :=
  head (omap (find_node i) roots).

(** [s.endswith(suffix)]. *)
Definition endswith (s suffix : list Z) : bool := bool_decide (suffix `suffix_of` s).

End Treeview2.

(** ** GitLabGUIApp, continued: opening and selecting items of the tree,
    the token and log dialogs, start-up *)
Module GitLabGUIApp2.
Import GitLabGUIApp.

(** Library functions and constants this part needs besides those of
    [env]: [int()] of a str ([None] when it raises), the message of that
    error, whether pygments was imported, and the two exception classes
    this part meets that have had no name so far. Which classes they are
    makes no difference to the program: it catches [Exception] only. *)
Record lib := Lib {
  int_of_str : list Z -> option Z;
  int_error : list Z -> list Z;
  ValueError : exn_class;
  IndexError : exn_class;
  PYGMENTS_AVAILABLE : bool
}.

Definition set_current_project_id x s := State (client s) (user_info s) (token s) (_all_groups s) (last_parent_name s) (last_subgroup_name s) x (tree s) (token_var s) (save_token_var s) (status_var s) (log_queue s) (log_area s) (cur_thread s) (calls s) (outside s).
Definition set_token_var x s := State (client s) (user_info s) (token s) (_all_groups s) (last_parent_name s) (last_subgroup_name s) (current_project_id s) (tree s) x (save_token_var s) (status_var s) (log_queue s) (log_area s) (cur_thread s) (calls s) (outside s).
Definition set_save_token_var x s := State (client s) (user_info s) (token s) (_all_groups s) (last_parent_name s) (last_subgroup_name s) (current_project_id s) (tree s) (token_var s) x (status_var s) (log_queue s) (log_area s) (cur_thread s) (calls s) (outside s).

(** The application with the state of its buttons: the three action
    buttons under the viewer (upload file, upload folder, download), and
    the three buttons that need the network (login, create, refresh). *)
Record gui := Gui {
  app : state;
  actions_enabled : bool;
  network_enabled : bool
}.

Definition set_app x g := Gui x (actions_enabled g) (network_enabled g).
Definition set_actions_enabled x g := Gui (app g) x (network_enabled g).
Definition set_network_enabled x g := Gui (app g) (actions_enabled g) x.

(** Code of the first part, run on the application inside [gui]. *)
Definition in_app {A} (m : M state A) : M gui A := zoom app set_app m.

Section Methods.
Context (E : env) (L : lib).

(** [int(s)] for a str. *)
Definition py_int {S} (s : list Z) : M S Z :=
  match int_of_str L s with
  | Some n => ret n
  | None => raise (Exn (ValueError L) (int_error L s))
  end.

(** [v[k]] on a tuple. *)
Definition py_index {S A} (v : list A) (k : nat) : M S A :=
  match v !! k with
  | Some x => ret x
  | None => raise (Exn (IndexError L) (lit "tuple index out of range"))
  end.

(** [tree.item(i, 'values')]: the values of the item as Tcl hands them
    back, each one a str; the root item has none. *)
Definition tree_item_values (i : list Z) : M state (list (list Z)) :=
  roots ← gets tree;
  if bool_decide (i = []) then ret []
  else
    match Treeview2.lookup roots i with
    | Some n => ret (py_str E <$> Treeview.node_values n)
    | None => raise (Exn TclError (lit "Item " ++ i ++ lit " not found"))
    end.

(** [x == n] for an object and an int. *)
Definition py_eq_int (x : json) (n : Z) : bool :=
  match x with
  | JNum m => m =? n
  | JBool b => (if b then 1 else 0) =? n
  | _ => false
  end.

(** [self._all_groups or []], as the list a loop goes through. *)
Definition all_groups_or_empty : M state (list json) :=
  ag ← gets _all_groups;
  if truthy ag then py_iter ag else ret [].

(** The body of the loops over subgroups: the item, then its
    placeholder. *)
Definition insert_subgroup (parent : list Z) (sg : json) : M state unit :=
  id ← py_get sg (lit "id") JNull;
  let iid := lit "subgroup_" ++ py_str E id in
  name ← py_get sg (lit "name") JNull;
  tree_insert parent iid name [JStr (lit "subgroup"); id] ;;
  tree_insert iid (iid ++ lit "_dummy") (JStr (lit "(mở để tải...)")) [].

(** The body of the loops over projects; a project gets no placeholder. *)
Definition insert_project (parent : list Z) (p : json) : M state unit :=
  id ← py_get p (lit "id") JNull;
  let iid := lit "project_" ++ py_str E id in
  name ← py_get p (lit "name") JNull;
  tree_insert parent iid (JStr (lit "[P] " ++ py_str E name)) [JStr (lit "project"); id].

(** [for p in sorted(projects, key=...): insert]. *)
Definition insert_projects (parent : list Z) (projects : json) : M state unit :=
  ps ← py_iter projects;
  ordered ← sorted ps (name_key E);
  for_each ordered (insert_project parent).

(** [self.client.list_projects_in_group(group_id)]. *)
Definition list_projects (group_id : Z) : M state json :=
  c ← gets client;
  match c with
  | Some c => in_world (GitLabClient.list_projects_in_group E c (JNum group_id))
  | None => raise (no_attribute JNull "list_projects_in_group")
  end.

Definition _load_subgroups_and_projects (item : list Z) (group_id : Z) : M state unit :=
  try_except
    (gs ← all_groups_or_empty;
     subgs ← filter_M (fun g => p ← py_get g (lit "parent_id") JNull;
                                ret (py_eq_int p group_id)) gs;
     ordered ← sorted subgs (name_key E);
     for_each ordered (insert_subgroup item) ;;
     projects ← list_projects group_id;
     insert_projects item projects ;;
     n ← py_len projects;
     log E (lit "Loaded subgroups (" ++ str_of_Z (Z.of_nat (length subgs))
            ++ lit ") and projects (" ++ str_of_Z n
            ++ lit ") for group id=" ++ str_of_Z group_id))
    (fun e => log E (lit "Lỗi load subgroups/projects: " ++ exn_msg e)).

Definition _load_projects_for_subgroup (item : list Z) (subgroup_id : Z) : M state unit :=
  try_except
    (projects ← list_projects subgroup_id;
     insert_projects item projects ;;
     n ← py_len projects;
     log E (lit "Loaded projects (" ++ str_of_Z n
            ++ lit ") for subgroup id=" ++ str_of_Z subgroup_id))
    (fun e => log E (lit "Lỗi load projects cho subgroup: " ++ exn_msg e)).

Definition is_dummy (c : list Z) : bool := Treeview2.endswith c (lit "_dummy").

(** [item] is what [tree.focus()] returns when the event arrives. *)
Definition on_tree_open (item : list Z) : M state unit :=
  if bool_decide (item = []) then ret tt
  else
    v ← tree_item_values item;
    if bool_decide (v = []) then ret tt
    else
      typ ← py_index v 0;
      obj_id ← py_index v 1;
      children ← tree_get_children item;
      if bool_decide (children ≠ []) && negb (existsb is_dummy children) then ret tt
      else
        for_each children (fun c => if is_dummy c then tree_delete [c] else ret tt) ;;
        if bool_decide (typ = lit "group") then
          n ← py_int obj_id;
          _load_subgroups_and_projects item n
        else if bool_decide (typ = lit "subgroup") then
          n ← py_int obj_id;
          _load_projects_for_subgroup item n
        else if bool_decide (typ = lit "project") then
          proj_id ← py_int obj_id;
          let repo := lit "project_" ++ str_of_Z proj_id ++ lit "_repo" in
          tree_insert item repo (JStr (lit "Repository")) [JStr (lit "repo"); JNum proj_id] ;;
          tree_insert repo (repo ++ lit "_dummy") (JStr (lit "(mở để tải...)")) []
        else ret tt.

Definition set_action_buttons_state (enabled : bool) : M gui unit :=
  modify (set_actions_enabled enabled).

Section Select.
(** The viewer, [open_blob_in_viewer]: it is not part of the model. *)
Context (open_blob_in_viewer : list Z -> M gui unit).

(** [sel] is what [tree.selection()] returns when the event arrives. *)
Definition on_tree_select (sel : list (list Z)) : M gui unit :=
  match sel with
  | [] => set_action_buttons_state false
  | item :: _ =>
      v ← in_app (tree_item_values item);
      if bool_decide (v = []) then set_action_buttons_state false
      else
        typ ← py_index v 0;
        obj_id ← py_index v 1;
        if bool_decide (typ = lit "project") then
          set_action_buttons_state true ;;
          n ← py_int obj_id;
          in_app (modify (set_current_project_id (Some n))) ;;
          in_app (set_status (lit "Chọn project id=" ++ obj_id))
        else if bool_decide (typ = lit "repo") then
          set_action_buttons_state false ;;
          in_app (set_status (lit "Repository root"))
        else if bool_decide (typ = lit "blob") then
          set_action_buttons_state false ;;
          open_blob_in_viewer obj_id
        else set_action_buttons_state false
  end.

End Select.

(** [answer] is what the user says to [askyesno]. *)
Definition on_delete_token (answer : bool) : M state unit :=
  if answer then
    ok ← in_world (delete_saved_token E);
    if (ok : bool) then
      showinfo (lit "Đã xóa") (lit "Token đã được xóa khỏi hệ thống") ;;
      log E (lit "Token lưu đã bị xóa")
    else showerror (lit "Lỗi") (lit "Không thể xóa token lưu")
  else ret tt.

(** [log_area.get('1.0', 'end')]: the text of the widget, with the newline
    a Tk text always ends in. *)
Definition log_area_get : M state (list Z) :=
  t ← gets log_area;
  ret (t ++ lit (String (Ascii.ascii_of_nat 10) "")).

(** [fn] is what the file dialog returns, [''] when it is cancelled. *)
Definition save_log (fn : list Z) : M state unit :=
  try_except
    (if bool_decide (fn = []) then ret tt
     else
       in_world (open_w fn) ;;
       text ← log_area_get;
       in_world (write_str fn text) ;;
       showinfo (lit "Đã lưu") (lit "Log đã lưu vào " ++ fn))
    (fun e => showerror (lit "Lỗi") (lit "Không thể lưu log: " ++ exn_msg e)).

Definition find_group_by_name (name : list Z) : M state (option json) :=
  gs ← all_groups_or_empty;
  (fix loop (gs : list json) : M state (option json) :=
     match gs with
     | [] => ret None
     | g :: gs' =>
         n ← py_get g (lit "name") (JStr []);
         match n with
         | JStr n =>
             if bool_decide (str_lower E (strip n) = str_lower E (strip name))
             then ret (Some g) else loop gs'
         | _ => raise (no_attribute n "strip")
         end
     end) gs.

(** The application when its widgets have been made, before [__init__]
    looks for a saved token. *)
Definition fresh (w : world) : gui :=
  Gui {| client := None; user_info := None; token := None;
         _all_groups := JArr []; last_parent_name := JNull; last_subgroup_name := JNull;
         current_project_id := None; tree := [];
         token_var := []; save_token_var := false;
         status_var := lit "Sẵn sàng"; log_queue := []; log_area := [];
         cur_thread := MainThread; calls := []; outside := w |}
      false true.

(** [__init__], from the saved token on. The thread that
    [_start_log_worker] starts does its work in turns of its own
    ([log_worker_step]); starting it changes nothing here. *)
Definition __init__ (w : world) : outcome unit * gui :=
  (saved ← in_app (in_world (load_token E));
   match saved with
   | Some t =>
       if bool_decide (t ≠ []) then
         in_app (modify (set_token_var t)) ;;
         in_app (modify (set_save_token_var true))
       else ret tt
   | None => ret tt
   end ;;
   (if negb (REQUESTS_AVAILABLE E) then
      in_app (showerror (lit "Thiếu thư viện")
                (lit "Thư viện 'requests' chưa cài. Chạy: python -m pip install requests")) ;;
      modify (set_network_enabled false)
    else ret tt) ;;
   (if negb (PYGMENTS_AVAILABLE L) then
      in_app (log E (lit "Pygments không có: highlight sẽ dùng plain text"))
    else ret tt) ;;
   in_app (_load_cache E)) (fresh w).

End Methods.
End GitLabGUIApp2.

(** ** Vocabulary of the statements about opening items *)
Module OpenSpec.
Import GitLabGUIApp GitLabGUIApp2 TreeSpec Treeview.

(** The groups whose [parent_id] equals [gid]. *)
Definition child_of (gid : Z) (g : json) : bool :=
  py_eq_int (default JNull (member "parent_id" g)) gid.

Section WithEnv.
Context (E : env).

(** [sorted(l, key=lambda x: x.get('name', '').lower())]. *)
Definition in_order (l : list json) : list json :=
  (sort_keyed (zip (sort_key E <$> l) l)).*2.

Definition subgroup_iid (g : json) : list Z :=
  lit "subgroup_" ++ py_str E (default JNull (member "id" g)).

Definition project_iid (p : json) : list Z :=
  lit "project_" ++ py_str E (default JNull (member "id" p)).

(** The item shown for a subgroup, with its placeholder. *)
Definition subgroup_node (g : json) : node :=
  Node (subgroup_iid g) (default JNull (member "name" g))
    [JStr (lit "subgroup"); default JNull (member "id" g)]
    [Node (subgroup_iid g ++ lit "_dummy") (JStr (lit "(mở để tải...)")) [] []].

(** The item shown for a project. *)
Definition project_node (p : json) : node :=
  Node (project_iid p)
    (JStr (lit "[P] " ++ py_str E (default JNull (member "name" p))))
    [JStr (lit "project"); default JNull (member "id" p)] [].

End WithEnv.

(** The state after a call that only asked the tree for the children of
    [item]. *)
Definition asked_children (item : list Z) (s : state) : state :=
  set_calls (calls s ++ [(cur_thread s, TreeGetChildren item)]) s.

End OpenSpec.

Module OpenSpec2.
Import GitLabGUIApp.

(** What work on the widgets leaves alone: the client, the groups, the
    world outside and the thread that runs. *)
Definition same_data (s s' : state) : Prop :=
  client s' = client s /\ _all_groups s' = _all_groups s
  /\ outside s' = outside s /\ cur_thread s' = cur_thread s.

(** No item of the tree of [s'] is new: each was there in [s]. *)
Definition items_kept (s s' : state) : Prop :=
  Treeview.all_iids (tree s') ⊆ Treeview.all_iids (tree s).

(** The kind of the item [item], as the handlers read it: the first of
    its values, as a str. *)
Definition kind_of (E : env) (s : state) (item : list Z) : option (list Z) :=
  n ← Treeview2.lookup (tree s) item;
  v ← head (Treeview.node_values n);
  Some (py_str E v).

End OpenSpec2.

(** Instances for opening items: a library, and a server that also knows
    the projects of group 2. *)
Module Demo6.
Import Demo Demo4 GitLabGUIApp2.

(** [int()] on an optional minus sign and decimal digits. *)
Definition decimal (s : list Z) : option Z :=
  match Json.parse_int s with
  | Some (n, []) => Some n
  | _ => None
  end.

Definition lib0 : lib :=
  {| int_of_str := decimal;
     int_error := fun s => lit "invalid literal for int() with base 10: '" ++ s ++ lit "'";
     ValueError := UnicodeError;
     IndexError := TypeError;
     PYGMENTS_AVAILABLE := false |}.

Definition project (id : Z) (name : string) : json :=
  JObj [(lit "id", JNum id); (lit "name", JStr (lit name))].

Definition two_projects : list json := [project 11 "web"; project 10 "App"].

(** The projects of group 2 are served; every other request is answered
    with the page of groups it asks for. *)
Definition projects_api : list request -> request -> http_result :=
  fun hist rq =>
    if bool_decide (rq_url rq = lit "https://git.rikkei.edu.vn/api/v4/groups/2/projects")
    then Resp (Response 200 (lit "[...]") (Some (JArr two_projects)) [])
    else paged_api (one_page three_groups) hist rq.

(** The same server when it refuses to list the projects of group 2. *)
Definition refusing_api : list request -> request -> http_result :=
  fun hist rq =>
    if bool_decide (rq_url rq = lit "https://git.rikkei.edu.vn/api/v4/groups/2/projects")
    then Resp (Response 403 (lit "Forbidden") None (lit "Forbidden"))
    else paged_api (one_page three_groups) hist rq.

Definition env_projects : env := env_of false projects_api.

Definition env_refusing : env := env_of false refusing_api.

(** The application after a refresh of the tree. *)
Definition refreshed (E : env) : GitLabGUIApp.state :=
  (GitLabGUIApp.populate_groups E 5 Demo3.state1).2.

(** The items of the two root groups after the refresh. *)
Definition alpha_item : Treeview.node :=
  Treeview.Node (lit "group_3") (JStr (lit "Alpha")) [JStr (lit "group"); JNum 3]
    [Treeview.Node (lit "group_3_dummy") (JStr (lit "(mở để tải...)")) [] []].

Definition beta_placeholder : Treeview.node :=
  Treeview.Node (lit "group_2_dummy") (JStr (lit "(mở để tải...)")) [] [].

End Demo6.

(** ** Vocabulary for start-up and the dialogs *)
Module StartSpec.
Import GitLabGUIApp GitLabGUIApp2.

(** Nothing was written and nothing sent between [w] and [w']: files,
    keyring, the log of writes and the HTTP log are the same. *)
Definition untouched (w w' : world) : Prop :=
  fs w' = fs w /\ keyring_pw w' = keyring_pw w
  /\ io_log w' = io_log w /\ http_log w' = http_log w.

(** The login form, the session and the selected project are the same in
    both states, and the world outside is untouched. *)
Definition same_entry (s s' : state) : Prop :=
  token_var s' = token_var s /\ save_token_var s' = save_token_var s
  /\ client s' = client s /\ current_project_id s' = current_project_id s
  /\ untouched (outside s) (outside s').

(** What [load_token] finds in [w], as the token field shows it: nothing
    and the empty token both leave the field empty. *)
Definition offered (E : env) (w : world) : list Z :=
  match (load_token E w).1 with
  | Return (Some t) => t
  | _ => []
  end.

(** The name [find_group_by_name] compares for a group: [''] where the
    group has none. *)
Definition group_name (g : json) : list Z :=
  match TreeSpec.member "name" g with
  | Some (JStr n) => n
  | _ => []
  end.

(** [g] has the name [name], blanks around it and case apart. *)
Definition named (E : env) (name : list Z) (g : json) : bool :=
  bool_decide (str_lower E (strip (group_name g)) = str_lower E (strip name)).

End StartSpec.

(* ================================================================= *)
(** * Properties *)

(** Unfolding the monad: binds applied to a state reduce to matches. *)
Ltac msimpl :=
  repeat (progress (unfold mbind, M_bind, bind, ret, raise, gets, modify, try_except;
                    cbn beta iota)).

(** ** The codecs *)
Module Utf8Facts.
Import Utf8.

Ltac bools :=
  repeat match goal with
    | H : _ && _ = true |- _ => apply andb_true_iff in H; destruct H
    | H : _ && _ = false |- _ => apply andb_false_iff in H
    | H : negb _ = true |- _ => apply negb_true_iff in H
    | H : (_ <? _) = true |- _ => apply Z.ltb_lt in H
    | H : (_ <? _) = false |- _ => apply Z.ltb_ge in H
    | H : (_ <=? _) = true |- _ => apply Z.leb_le in H
    | H : (_ <=? _) = false |- _ => apply Z.leb_gt in H
    end.

Lemma encode_cp_Some c bs : encode_cp c = Some bs -> scalar c.
Proof.
  unfold encode_cp, scalar, is_surrogate.
  repeat (case_match; try discriminate); intros _; bools; lia.
Qed.

Lemma encode_cp_scalar c : scalar c -> is_Some (encode_cp c).
Proof.
  intros [Hr Hs]. unfold encode_cp, is_surrogate.
  repeat (case_match; eauto); bools; lia.
Qed.

Lemma encode_cp_bytes c bs : encode_cp c = Some bs -> Forall byte bs.
Proof.
  unfold encode_cp, byte.
  repeat (case_match; try discriminate); intros [= <-]; bools;
    repeat constructor; try (Z.div_mod_to_equations; lia).
Qed.

Lemma encode_cp_nonempty c bs : encode_cp c = Some bs -> bs <> [].
Proof.
  unfold encode_cp.
  repeat (case_match; try discriminate); by intros [= <-].
Qed.

(** Decoding undoes the encoding of one code point, whatever follows. *)
Lemma decode_encode_cp c bs rest :
  encode_cp c = Some bs -> decode (bs ++ rest) = cons c <$> decode rest.
Proof.
  unfold encode_cp.
  destruct (c <? 0) eqn:H0; [discriminate|].
  destruct (c <? 0x80) eqn:H1.
  { intros [= <-]. bools. simpl.
    replace ((0 <=? c) && (c <? 128)) with true; [done|].
    symmetry. apply andb_true_iff. split; [apply Z.leb_le | apply Z.ltb_lt]; lia. }
  destruct (c <? 0x800) eqn:H2.
  { intros [= <-]. bools.
    assert (Hq : 2 <= c / 64 < 32) by (Z.div_mod_to_equations; lia).
    assert (Hm : 0 <= c mod 64 < 64) by (Z.div_mod_to_equations; lia).
    cbn [app decode].
    replace ((0 <=? 192 + c / 64) && (192 + c / 64 <? 128)) with false
      by (symmetry; apply andb_false_iff; right; apply Z.ltb_ge; lia).
    replace ((192 <=? 192 + c / 64) && (192 + c / 64 <? 224)) with true
      by (symmetry; apply andb_true_iff; split;
          [apply Z.leb_le | apply Z.ltb_lt]; lia).
    replace ((192 + c / 64 - 192) * 64 + (128 + c mod 64 - 128)) with c
      by (Z.div_mod_to_equations; lia).
    unfold is_cont.
    replace (128 <=? 128 + c mod 64) with true by (symmetry; apply Z.leb_le; lia).
    replace (128 + c mod 64 <? 192) with true by (symmetry; apply Z.ltb_lt; lia).
    replace (128 <=? c) with true by (symmetry; apply Z.leb_le; lia).
    done. }
  destruct (c <? 0x10000) eqn:H3.
  { destruct (is_surrogate c) eqn:Hs; [discriminate|].
    intros [= <-]. bools.
    assert (Hq : 0 <= c / 4096 < 16) by (Z.div_mod_to_equations; lia).
    assert (Hm1 : 0 <= (c / 64) mod 64 < 64) by (Z.div_mod_to_equations; lia).
    assert (Hm2 : 0 <= c mod 64 < 64) by (Z.div_mod_to_equations; lia).
    cbn [app decode].
    replace ((0 <=? 224 + c / 4096) && (224 + c / 4096 <? 128)) with false
      by (symmetry; apply andb_false_iff; right; apply Z.ltb_ge; lia).
    replace ((192 <=? 224 + c / 4096) && (224 + c / 4096 <? 224)) with false
      by (symmetry; apply andb_false_iff; right; apply Z.ltb_ge; lia).
    replace ((224 <=? 224 + c / 4096) && (224 + c / 4096 <? 240)) with true
      by (symmetry; apply andb_true_iff; split;
          [apply Z.leb_le | apply Z.ltb_lt]; lia).
    replace ((224 + c / 4096 - 224) * 4096 + (128 + (c / 64) mod 64 - 128) * 64
             + (128 + c mod 64 - 128)) with c
      by (Z.div_mod_to_equations; lia).
    unfold is_cont.
    replace (128 <=? 128 + (c / 64) mod 64) with true
      by (symmetry; apply Z.leb_le; lia).
    replace (128 + (c / 64) mod 64 <? 192) with true
      by (symmetry; apply Z.ltb_lt; lia).
    replace (128 <=? 128 + c mod 64) with true by (symmetry; apply Z.leb_le; lia).
    replace (128 + c mod 64 <? 192) with true by (symmetry; apply Z.ltb_lt; lia).
    replace (2048 <=? c) with true by (symmetry; apply Z.leb_le; lia).
    rewrite Hs. done. }
  destruct (c <? 0x110000) eqn:H4; [|discriminate].
  intros [= <-]. bools.
  assert (Hq : 0 <= c / 262144 < 5) by (Z.div_mod_to_equations; lia).
  assert (Hm0 : 0 <= (c / 4096) mod 64 < 64) by (Z.div_mod_to_equations; lia).
  assert (Hm1 : 0 <= (c / 64) mod 64 < 64) by (Z.div_mod_to_equations; lia).
  assert (Hm2 : 0 <= c mod 64 < 64) by (Z.div_mod_to_equations; lia).
  cbn [app decode].
  replace ((0 <=? 240 + c / 262144) && (240 + c / 262144 <? 128)) with false
    by (symmetry; apply andb_false_iff; right; apply Z.ltb_ge; lia).
  replace ((192 <=? 240 + c / 262144) && (240 + c / 262144 <? 224)) with false
    by (symmetry; apply andb_false_iff; right; apply Z.ltb_ge; lia).
  replace ((224 <=? 240 + c / 262144) && (240 + c / 262144 <? 240)) with false
    by (symmetry; apply andb_false_iff; right; apply Z.ltb_ge; lia).
  replace ((240 <=? 240 + c / 262144) && (240 + c / 262144 <? 248)) with true
    by (symmetry; apply andb_true_iff; split;
        [apply Z.leb_le | apply Z.ltb_lt]; lia).
  replace ((240 + c / 262144 - 240) * 262144
           + (128 + (c / 4096) mod 64 - 128) * 4096
           + (128 + (c / 64) mod 64 - 128) * 64
           + (128 + c mod 64 - 128)) with c
    by (Z.div_mod_to_equations; lia).
  unfold is_cont.
  replace (128 <=? 128 + (c / 4096) mod 64) with true
    by (symmetry; apply Z.leb_le; lia).
  replace (128 + (c / 4096) mod 64 <? 192) with true
    by (symmetry; apply Z.ltb_lt; lia).
  replace (128 <=? 128 + (c / 64) mod 64) with true
    by (symmetry; apply Z.leb_le; lia).
  replace (128 + (c / 64) mod 64 <? 192) with true
    by (symmetry; apply Z.ltb_lt; lia).
  replace (128 <=? 128 + c mod 64) with true by (symmetry; apply Z.leb_le; lia).
  replace (128 + c mod 64 <? 192) with true by (symmetry; apply Z.ltb_lt; lia).
  replace (65536 <=? c) with true by (symmetry; apply Z.leb_le; lia).
  replace (c <? 1114112) with true by (symmetry; apply Z.ltb_lt; lia).
  done.
Qed.

(** [bytes.decode('utf-8')] undoes [str.encode('utf-8')]. *)
Lemma decode_encode s bs : encode s = Some bs -> decode bs = Some s.
Proof.
  revert bs. induction s as [|c s IH]; intros bs; simpl.
  - by intros [= <-].
  - destruct (encode_cp c) as [b1|] eqn:Hc; [|discriminate].
    destruct (encode s) as [b2|] eqn:Hs; [|discriminate].
    intros [= <-]. rewrite (decode_encode_cp _ _ _ Hc), (IH _ eq_refl). done.
Qed.

Lemma encode_Forall_scalar s : Forall scalar s -> is_Some (encode s).
Proof.
  induction 1 as [|c s Hc _ IH]; simpl; [eauto|].
  destruct (encode_cp_scalar c Hc) as [b1 ->]. destruct IH as [b2 ->]. eauto.
Qed.

Lemma encode_bytes s bs : encode s = Some bs -> Forall byte bs.
Proof.
  revert bs. induction s as [|c s IH]; intros bs; simpl.
  - intros [= <-]. constructor.
  - destruct (encode_cp c) as [b1|] eqn:Hc; [|discriminate].
    destruct (encode s) as [b2|] eqn:Hs; [|discriminate].
    intros [= <-]. apply Forall_app. split; [by eapply encode_cp_bytes | by apply IH].
Qed.

Lemma encode_nonempty s bs : encode s = Some bs -> s <> [] -> bs <> [].
Proof.
  destruct s as [|c s]; [done|]. simpl.
  destruct (encode_cp c) as [b1|] eqn:Hc; [|discriminate].
  destruct (encode s) as [b2|]; [|discriminate].
  intros [= <-] _ Happ. apply app_eq_nil in Happ as [-> _].
  by eapply encode_cp_nonempty.
Qed.

Lemma encode_app s1 s2 b1 b2 :
  encode s1 = Some b1 -> encode s2 = Some b2 -> encode (s1 ++ s2) = Some (b1 ++ b2).
Proof.
  revert b1. induction s1 as [|c s1 IH]; intros b1; simpl.
  - by intros [= <-] ->.
  - destruct (encode_cp c) as [bc|]; [|discriminate].
    destruct (encode s1) as [br|]; [|discriminate].
    intros [= <-] H2. rewrite (IH _ eq_refl H2). by rewrite app_assoc.
Qed.

End Utf8Facts.

Module Base64Facts.
Import Utf8 Base64.

Lemma list_ind3 {A} (P : list A -> Prop) :
  P [] -> (forall a, P [a]) -> (forall a b, P [a; b]) ->
  (forall a b c l, P l -> P (a :: b :: c :: l)) ->
  forall l, P l.
Proof.
  intros H0 H1 H2 H3 l.
  assert (H : P l /\ (forall a, P (a :: l)) /\ (forall a b, P (a :: b :: l))).
  { induction l as [|x l (IH0 & IH1 & IH2)]; [by auto|].
    split; [apply IH1|]. split; [intros a; apply IH2|].
    intros a b. by apply H3. }
  apply H.
Qed.

Lemma value_char n : 0 <= n < 64 -> value_of (char_of n) = Some n.
Proof.
  intros Hn. unfold char_of, value_of.
  repeat (case_match; Utf8Facts.bools; try lia); try (f_equal; lia).
  all: repeat match goal with
         | H : (_ =? _) = true |- _ => apply Z.eqb_eq in H
         | H : (_ =? _) = false |- _ => apply Z.eqb_neq in H
         | H : _ \/ _ |- _ => destruct H
         end; Utf8Facts.bools; try lia; f_equal; lia.
Qed.

Lemma char_b64char n : 0 <= n < 64 -> b64char (char_of n) /\ char_of n <> pad.
Proof.
  intros Hn. unfold char_of, b64char, pad.
  repeat (case_match; Utf8Facts.bools); try lia.
Qed.

Lemma char_not_pad n : 0 <= n < 64 -> (char_of n =? pad) = false.
Proof. intros Hn. apply Z.eqb_neq. by apply char_b64char. Qed.

Ltac sextet := unfold Utf8.byte in *; Z.div_mod_to_equations; lia.

Ltac split_bytes :=
  repeat match goal with
    | H : Forall _ (_ :: _) |- _ => apply Forall_cons_1 in H as [? H]
    end.

(** [b64decode] undoes [b64encode] on bytes. *)
Lemma b64decode_b64encode bs :
  Forall Utf8.byte bs -> b64decode (b64encode bs) = Some bs.
Proof.
  assert (Hpad : value_of pad = None) by reflexivity.
  unfold b64decode.
  induction bs as [|a|a b|a b c l IH] using list_ind3; intros Hb.
  - done.
  - split_bytes. cbn [b64encode a2b_base64].
    rewrite !char_not_pad by sextet. rewrite !value_char by sextet.
    rewrite Z.eqb_refl. cbn. do 2 f_equal. sextet.
  - split_bytes. cbn [b64encode a2b_base64].
    rewrite !char_not_pad by sextet. rewrite !value_char by sextet.
    rewrite Z.eqb_refl. cbn. repeat f_equal; sextet.
  - split_bytes. cbn [b64encode a2b_base64].
    rewrite !char_not_pad by sextet. rewrite !value_char by sextet.
    rewrite (IH Hb). cbn. repeat f_equal; sextet.
Qed.

Lemma b64encode_chars bs : Forall Utf8.byte bs -> Forall b64char (b64encode bs).
Proof.
  assert (Hp : b64char pad) by (unfold b64char, pad; lia).
  induction bs as [|a|a b|a b c l IH] using list_ind3; intros Hb.
  - constructor.
  - split_bytes. cbn [b64encode].
    repeat (constructor; [first [exact Hp | apply char_b64char; sextet]|]).
    constructor.
  - split_bytes. cbn [b64encode].
    repeat (constructor; [first [exact Hp | apply char_b64char; sextet]|]).
    constructor.
  - split_bytes. cbn [b64encode].
    repeat (constructor; [apply char_b64char; sextet|]). by apply IH.
Qed.

Lemma b64encode_nonempty bs : bs <> [] -> b64encode bs <> [].
Proof. destruct bs as [|a [|b [|c l]]]; done. Qed.

End Base64Facts.

(** ** The client *)
Module ClientFacts.
Import GitLabClient ClientSpec.

Lemma extend_http_nil w : extend_http [] w = w.
Proof. destruct w. unfold extend_http. simpl. by rewrite app_nil_r. Qed.

Lemma extend_http_app l1 l2 w :
  extend_http l2 (extend_http l1 w) = extend_http (l1 ++ l2) w.
Proof. unfold extend_http. simpl. by rewrite app_assoc. Qed.

Lemma add_http_extend x w : add_http x w = extend_http [x] w.
Proof. done. Qed.

Lemma new_exchanges_extend exs w : new_exchanges w (extend_http exs w) = exs.
Proof. unfold new_exchanges, extend_http. simpl. by rewrite drop_app_length. Qed.

Section Client.
Context (E : env).

Lemma send_eq rq w :
  send E rq w =
  (match api E ((http_log w).*1) rq with
   | Resp rs => Return rs
   | NetErr msg => Raise (Exn RequestException msg)
   end, extend_http [(rq, api E ((http_log w).*1) rq)] w).
Proof. unfold send. by destruct (api E _ rq). Qed.

Lemma py_iter_items (data : json) :
  @py_iter world data =
  match items_of data with
  | Some l => ret l
  | None => raise (Exn TypeError (lit "'" ++ type_name data ++ lit "' object is not iterable"))
  end.
Proof. by destruct data. Qed.

Lemma py_len_items (data : json) items :
  items_of data = Some items -> @py_len world data = ret (Z.of_nat (length items)).
Proof. destruct data; intros [= <-]; simpl; by rewrite ?length_fmap. Qed.

(** One turn of the loop. *)
Lemma paged_get_loop_step fuel self path params page res w :
  _paged_get_loop E (S fuel) self path params page res w =
  let rq := page_request self path params page in
  let r := api E ((http_log w).*1) rq in
  match page_verdict r res with
  | Stop o => (o, extend_http [(rq, r)] w)
  | Continue res' =>
      _paged_get_loop E fuel self path params (page + 1) res' (extend_http [(rq, r)] w)
  end.
Proof.
  cbn zeta. cbn [_paged_get_loop]. unfold mbind, M_bind. unfold bind at 1.
  rewrite send_eq. unfold page_verdict.
  destruct (api E _ _) as [rs|msg]; [|done].
  destruct (negb (status_code rs =? 200)); [done|].
  unfold bind at 1. unfold resp_json.
  destruct (json_body rs) as [data|]; [|done]. cbn [ret].
  destruct (negb (truthy data)); [done|].
  rewrite py_iter_items. destruct (items_of data) as [items|] eqn:Hi; [|done].
  unfold bind at 1. cbn [ret]. rewrite (py_len_items _ _ Hi).
  unfold bind at 1. cbn [ret].
  by destruct (Z.of_nat (length items) <? 100).
Qed.


Lemma paged_get_loop_run self path params fuel : forall page res w,
  exists exs o,
    _paged_get_loop E fuel self path params page res w = (o, extend_http exs w)
    /\ paged_run E self path params fuel page res ((http_log w).*1) exs o.
Proof.
  induction fuel as [|fuel IH]; intros page res w.
  - exists [], Diverge. rewrite extend_http_nil. split; [done|constructor].
  - rewrite paged_get_loop_step. cbn zeta.
    destruct (page_verdict _ res) as [o|res'] eqn:Hv.
    + eexists [_], o. split; [done|]. by constructor.
    + destruct (IH (page + 1) res' (extend_http
        [(page_request self path params page,
          api E ((http_log w).*1) (page_request self path params page))] w))
        as (exs & o & Heq & Hrun).
      eexists (_ :: exs), o. rewrite Heq, extend_http_app. split; [done|].
      eapply paged_more; [exact Hv|].
      simpl in Hrun. by rewrite fmap_app in Hrun.
Qed.

Lemma verdict_continue r res res' :
  page_verdict r res = Continue res' ->
  exists rs data items,
    r = Resp rs /\ status_code rs = 200 /\ json_body rs = Some data
    /\ truthy data = true /\ items_of data = Some items
    /\ (100 <= length items)%nat /\ res' = res ++ items.
Proof.
  unfold page_verdict. destruct r as [rs|]; [|done].
  destruct (status_code rs =? 200) eqn:Hs; [|done]. cbn [negb].
  destruct (json_body rs) as [data|] eqn:Hd; [|done].
  destruct (truthy data) eqn:Ht; [|done]. cbn [negb].
  destruct (items_of data) as [items|] eqn:Hi; [|done].
  destruct (Z.of_nat (length items) <? 100) eqn:Hl; [done|].
  intros [= <-]. exists rs, data, items.
  apply Z.eqb_eq in Hs. apply Z.ltb_ge in Hl. split_and!; try done. lia.
Qed.

Lemma verdict_continue_items rq r res res' :
  page_verdict r res = Continue res' -> res' = res ++ page_items (rq, r).
Proof.
  intros (rs & data & items & -> & _ & Hd & Ht & Hi & _ & ->)%verdict_continue.
  unfold page_items. simpl. by rewrite Hd, Ht, Hi.
Qed.

Lemma verdict_full rq r res res' :
  page_verdict r res = Continue res' -> full_page (rq, r).
Proof.
  intros (rs & data & items & -> & ? & ? & ? & ? & ? & _)%verdict_continue.
  by exists rs, data, items.
Qed.

Lemma verdict_stop_return rq r res l :
  page_verdict r res = Stop (Return l) -> l = res ++ page_items (rq, r).
Proof.
  unfold page_verdict, page_items. destruct r as [rs|]; [|done]. simpl.
  destruct (negb (status_code rs =? 200)); [done|].
  destruct (json_body rs) as [data|]; [|done].
  destruct (truthy data); cbn [negb].
  - destruct (items_of data) as [items|]; [|done].
    destruct (Z.of_nat (length items) <? 100); [|done]. by intros [= <-].
  - intros [= <-]. by rewrite app_nil_r.
Qed.

Section Run.
Context (self : t) (path : list Z) (params : option (gmap (list Z) json)).

(** The requests of a run are those for consecutive pages. *)
Lemma paged_run_requests fuel page res hist exs o :
  paged_run E self path params fuel page res hist exs o ->
  exs.*1 = page_request self path params <$> seqZ page (Z.of_nat (length exs)).
Proof.
  induction 1 as [| |fuel page res hist res' exs o Hv Hrun IH]; [done| done |].
  cbn [length]. rewrite Nat2Z.inj_succ, seqZ_cons by lia.
  rewrite !fmap_cons. cbn [fst]. f_equal.
  by replace (Z.pred (Z.succ (Z.of_nat (length exs)))) with (Z.of_nat (length exs)) by lia.
Qed.

(** Every answer is the server's, given the requests made before. *)
Lemma paged_run_answers fuel page res hist exs o :
  paged_run E self path params fuel page res hist exs o ->
  forall i x, exs !! i = Some x -> x.2 = api E (hist ++ (take i exs).*1) x.1.
Proof.
  induction 1 as [| |fuel page res hist res' exs o Hv Hrun IH]; intros i x.
  - done.
  - destruct i as [|i]; [|done]. intros [= <-]. simpl. by rewrite app_nil_r.
  - destruct i as [|i].
    + intros [= <-]. simpl. by rewrite app_nil_r.
    + simpl. intros Hx. rewrite (IH _ _ Hx). by rewrite <- app_assoc.
Qed.

(** A run that ends made full pages and then one last exchange, which
    decided the outcome. *)
Lemma paged_run_shape fuel page res hist exs o :
  paged_run E self path params fuel page res hist exs o ->
  o <> Diverge ->
  exists pre last,
    exs = pre ++ [last] /\ Forall full_page pre
    /\ page_verdict last.2 (res ++ concat (page_items <$> pre)) = Stop o.
Proof.
  induction 1 as [| |fuel page res hist res' exs o Hv Hrun IH]; intros Ho.
  - done.
  - eexists [], _. simpl. rewrite app_nil_r. by repeat split.
  - destruct (IH Ho) as (pre & last & -> & Hfull & Hlast).
    eexists (_ :: pre), last. split; [done|]. split.
    + constructor; [by eapply verdict_full|done].
    + rewrite fmap_cons. cbn [concat]. rewrite app_assoc.
      by rewrite <- (verdict_continue_items _ _ _ _ Hv).
Qed.

(** A run that is cut short made full pages only, as many as it had fuel. *)
Lemma paged_run_diverge fuel page res hist exs :
  paged_run E self path params fuel page res hist exs Diverge ->
  Forall full_page exs /\ length exs = fuel.
Proof.
  remember Diverge as o eqn:Ho.
  induction 1 as [| fuel page res hist o Hv |fuel page res hist res' exs o Hv Hrun IH].
  - done.
  - subst o. unfold page_verdict in Hv.
    repeat (case_match; try discriminate).
  - destruct (IH Ho) as [Hf <-]. split; [|done].
    constructor; [by eapply verdict_full|done].
Qed.

Lemma paged_run_length fuel page res hist exs o :
  paged_run E self path params fuel page res hist exs o -> (length exs <= fuel)%nat.
Proof. induction 1; simpl; lia. Qed.

(** What a run returns is what it had, then the items of its pages in
    order. *)
Lemma paged_run_return fuel page res hist exs l :
  paged_run E self path params fuel page res hist exs (Return l) ->
  l = res ++ concat (page_items <$> exs).
Proof.
  intros Hrun. destruct (paged_run_shape _ _ _ _ _ _ Hrun) as (pre & last & -> & _ & Hv);
    [done|].
  rewrite fmap_app, concat_app. simpl. rewrite app_nil_r, app_assoc.
  destruct last as [rq r]. by apply verdict_stop_return.
Qed.

End Run.
Ltac run_send :=
  unfold mbind, M_bind, bind; rewrite send_eq;
  eexists; split; cycle 1;
  [ lazymatch goal with
    | |- ?lhs = (single_result _ (api _ _ ?e), _) =>
        match lhs with context [api E _ ?r] => unify e r end
    end;
    destruct (api E _ _); [|done];
    unfold single_result, accepts, created, resp_json, ret, raise;
    repeat (case_match; simplify_eq; try done)
  | cbn [rq_url]; constructor ].

(** A call other than [list_groups] either raises before it sends
    anything, or makes one request, to an endpoint, and its outcome is
    decided by the answer. *)
Lemma run_single fuel self c w :
  c <> ListGroups ->
  (exists e, before_request E c w = Some e /\ run E fuel self c w = (Raise e, w))
  \/ (before_request E c w = None
      /\ exists rq,
           endpoint (base_url self) (rq_url rq)
           /\ run E fuel self c w =
              (single_result c (api E ((http_log w).*1) rq),
               extend_http [(rq, api E ((http_log w).*1) rq)] w)).
Proof.
  intros Hc. destruct c; try done.
  - right. split; [done|]. unfold run, test. run_send.
  - right. split; [done|]. unfold run, create_group. run_send.
  - right. split; [done|]. unfold run, create_project. run_send.
  - right. split; [done|]. unfold run, list_projects_in_group. run_send.
  - right. split; [done|]. unfold run, list_repository_tree. run_send.
  - cbn [before_request]. unfold run, get_file_raw.
    destruct (quote_plus E file_path) as [encoded|].
    + right. split; [done|]. run_send.
    + left. by eexists.
  - cbn [before_request].
    destruct (fs w !! file_path) as [data|] eqn:Hf.
    + right. split; [done|]. unfold run, upload_file, path_exists, read_bytes, gets.
      unfold mbind, M_bind. unfold bind at 1 2. cbn beta iota.
      rewrite bool_decide_true by (rewrite Hf; eauto). cbn [negb].
      unfold bind at 1. rewrite Hf. run_send.
    + left. eexists. split; [done|].
      unfold run, upload_file, path_exists, read_bytes, gets.
      unfold mbind, M_bind. unfold bind at 1 2. cbn beta iota.
      rewrite bool_decide_false; [done|]. rewrite Hf. by intros [? ?].
  - right. split; [done|]. unfold run, commit_files. run_send.
Qed.

Lemma run_list_groups fuel self w :
  exists exs o,
    paged_run E self (lit "/groups") None fuel 1 [] ((http_log w).*1) exs o
    /\ run E fuel self ListGroups w =
       (match o with
        | Return l => Return (VList l)
        | Raise e => Raise e
        | Diverge => Diverge
        end, extend_http exs w).
Proof.
  destruct (paged_get_loop_run self (lit "/groups") None fuel 1 [] w)
    as (exs & o & Heq & Hrun).
  exists exs, o. split; [done|].
  unfold run, list_groups, _paged_get, mbind, M_bind, bind. rewrite Heq.
  by destruct o.
Qed.

End Client.

End ClientFacts.

(** ** What a call of the client does *)
Module ClientClaims.
Import GitLabClient ClientSpec ClientFacts Readings.

Lemma app_snoc_inv {A} (l1 l2 pre : list A) (x last : A) :
  l1 ++ x :: l2 = pre ++ [last] ->
  (l2 = [] /\ x = last /\ l1 = pre) \/ x ∈ pre.
Proof.
  destruct l2 as [|y l2 _] using rev_ind.
  - intros H. apply app_inj_tail in H as [-> ->]. by left.
  - intros H. right. rewrite app_comm_cons, app_assoc in H.
    apply app_inj_tail in H as [<- _]. set_solver.
Qed.

Lemma full_page_accepted rq r : full_page (rq, r) -> failure ListGroups r -> False.
Proof.
  intros (rs & data & items & Hr & Hs & _) Hf. simpl in Hr. subst r.
  simpl in Hf. rewrite Hs in Hf. done.
Qed.

Lemma verdict_failure r res o :
  page_verdict r res = Stop o -> failure ListGroups r ->
  o = match r with
      | NetErr msg => Raise (Exn RequestException msg)
      | Resp rs => Raise (http_error rs)
      end.
Proof.
  unfold page_verdict, failure. destruct r as [rs|msg]; simpl.
  - intros Hv Hs. rewrite Hs in Hv. simpl in Hv. congruence.
  - congruence.
Qed.

Lemma single_result_failure c r :
  failure c r ->
  single_result c r = match r with
                      | NetErr msg => Raise (Exn RequestException msg)
                      | Resp rs => Raise (http_error rs)
                      end.
Proof. destruct r as [rs|msg]; simpl; [|done]. by intros ->. Qed.

Section Claims.
Context (E : env).

(** The exchanges of a call and its outcome, by cases on the call. *)
Lemma run_cases fuel self c w o w' :
  run E fuel self c w = (o, w') ->
  (c = ListGroups /\ exists o0,
     paged_run E self (lit "/groups") None fuel 1 [] ((http_log w).*1)
       (new_exchanges w w') o0 /\ o = lift_list o0)
  \/ (c <> ListGroups /\ new_exchanges w w' = []
      /\ exists e, before_request E c w = Some e /\ o = Raise e)
  \/ (c <> ListGroups /\ exists rq r,
        new_exchanges w w' = [(rq, r)] /\ endpoint (base_url self) (rq_url rq)
        /\ r = api E ((http_log w).*1) rq /\ o = single_result c r
        /\ before_request E c w = None).
Proof.
  intros Hrun.
  assert (Hdec : c = ListGroups \/ c <> ListGroups) by (destruct c; auto).
  destruct Hdec as [->|Hc].
  - left. split; [done|].
    destruct (run_list_groups E fuel self w) as (exs & o0 & Hp & Heq).
    rewrite Heq in Hrun. injection Hrun as <- <-.
    exists o0. by rewrite new_exchanges_extend.
  - right. destruct (run_single E fuel self c w Hc)
      as [(e & Hb & Heq)|(Hb & rq & Hep & Heq)].
    + left. rewrite Heq in Hrun. injection Hrun as <- <-.
      split; [done|]. split; [|by eauto].
      unfold new_exchanges. by rewrite drop_all.
    + right. rewrite Heq in Hrun. injection Hrun as <- <-.
      split; [done|]. eexists _, _. rewrite new_exchanges_extend.
      by split_and!.
Qed.

(** After an answer that is a failure for the call nothing more is asked,
    and the call raises. *)
Lemma failure_ends_run fuel self c w o w' l1 rq r l2 :
  run E fuel self c w = (o, w') ->
  new_exchanges w w' = l1 ++ (rq, r) :: l2 ->
  failure c r ->
  l2 = []
  /\ o = match r with
         | NetErr msg => Raise (Exn RequestException msg)
         | Resp rs => Raise (http_error rs)
         end.
Proof.
  intros Hrun Hnew Hfail.
  destruct (run_cases _ _ _ _ _ _ Hrun)
    as [(-> & o0 & Hp & ->)|[(_ & Hnil & _)|(_ & rq0 & r0 & Hone & _ & _ & -> & _)]].
  - rewrite Hnew in Hp. assert (Hdec : o0 = Diverge \/ o0 <> Diverge) by (destruct o0; auto).
    destruct Hdec as [->|Ho].
    + apply paged_run_diverge in Hp as [Hfull _].
      apply Forall_app in Hfull as [_ Hfull]. apply Forall_cons_1 in Hfull as [Hfull _].
      by destruct (full_page_accepted _ _ Hfull Hfail).
    + destruct (paged_run_shape _ _ _ _ _ _ _ _ _ _ Hp Ho) as (pre & last & Heq & Hfull & Hv).
      apply app_snoc_inv in Heq as [(-> & <- & ->)|Hin].
      * split; [done|]. simpl in Hv. rewrite (verdict_failure _ _ _ Hv Hfail).
        by destruct r.
      * rewrite list.Forall_forall in Hfull.
        by destruct (full_page_accepted _ _ (Hfull _ Hin) Hfail).
  - rewrite Hnil in Hnew. by destruct l1.
  - rewrite Hone in Hnew. destruct l1 as [|? [|? ?]]; try done.
    injection Hnew as <- <- <-. split; [done|]. by apply single_result_failure.
Qed.


(** C6. No client method retries: once an answer is a failure for the call
    (the library raised, or the status is not one the call accepts), that
    exchange is the last one of the call and the call raises at once: the
    library's exception, or HTTPError for the refused status. *)
Theorem no_retry_after_failure fuel self c w o w' l1 rq r l2 :
  run E fuel self c w = (o, w') ->
  new_exchanges w w' = l1 ++ (rq, r) :: l2 ->
  failure c r ->
  l2 = []
  /\ o = match r with
         | NetErr msg => Raise (Exn RequestException msg)
         | Resp rs => Raise (http_error rs)
         end.
Proof. apply failure_ends_run. Qed.

(** C1, as the code has it. A status the call does not accept raises
    HTTPError whose message is the status code, a colon and the body text.
    With an accepted status every call returns [r.json()], except
    [get_file_raw], which returns the raw content, and [list_groups], whose
    result is the items of all the pages it fetched, in order. *)
Theorem status_decides_outcome fuel self c w o w' rq rs :
  run E fuel self c w = (o, w') ->
  o <> Diverge ->
  (rq, Resp rs) ∈ new_exchanges w w' ->
  (accepts c rs = false ->
     o = Raise (http_error rs)
     /\ exn_cls (http_error rs) = HTTPError
     /\ exn_msg (http_error rs) = str_of_Z (status_code rs) ++ lit ": " ++ text rs)
  /\ (accepts c rs = true ->
      match c with
      | ListGroups =>
          forall l, o = Return (VList l) ->
                    l = concat (page_items <$> new_exchanges w w')
      | GetFileRaw _ _ _ => o = Return (VBytes (content rs))
      | _ => o = match json_body rs with
                 | Some v => Return (VJson v)
                 | None => Raise (Exn JSONDecodeError (lit "Expecting value"))
                 end
      end).
Proof.
  intros Hrun Ho Hin. split.
  - intros Hacc. split; [|done].
    apply list_elem_of_split in Hin as (l1 & l2 & Hsplit).
    by destruct (failure_ends_run _ _ _ _ _ _ _ _ _ _ Hrun Hsplit Hacc).
  - intros Hacc.
    destruct (run_cases _ _ _ _ _ _ Hrun)
      as [(-> & o0 & Hp & ->)|[(_ & Hnil & _)|(Hc & rq0 & r0 & Hone & _ & _ & -> & _)]].
    + intros l Hl. destruct o0 as [l0| |]; try done. injection Hl as ->.
      by rewrite (paged_run_return _ _ _ _ _ _ _ _ _ _ Hp).
    + rewrite Hnil in Hin. by apply elem_of_nil in Hin.
    + rewrite Hone in Hin. apply list_elem_of_singleton in Hin. injection Hin as <- <-.
      unfold single_result. rewrite Hacc. by destruct c.
Qed.

(** C2, as the code has it. A call other than [list_groups] makes exactly
    one request, but for two that may raise before they send anything and
    then make none: [upload_file] when the file does not exist, and
    [get_file_raw] when [quote_plus] raises on the path. [list_groups]
    makes one request per page: every answer before its last one was a
    full page. *)
Theorem requests_per_call fuel self c w o w' :
  run E fuel self c w = (o, w') ->
  o <> Diverge ->
  match c with
  | ListGroups =>
      exists pre last, new_exchanges w w' = pre ++ [last] /\ Forall full_page pre
  | UploadFile _ file_path =>
      length (new_exchanges w w') =
      if bool_decide (is_Some (fs w !! file_path)) then 1%nat else 0%nat
  | GetFileRaw _ file_path _ =>
      length (new_exchanges w w') =
      if bool_decide (is_Some (quote_plus E file_path)) then 1%nat else 0%nat
  | _ => length (new_exchanges w w') = 1%nat
  end.
Proof.
  intros Hrun Ho.
  destruct (run_cases _ _ _ _ _ _ Hrun)
    as [(-> & o0 & Hp & ->)|[(_ & Hnil & e & Hb & _)
                           |(Hc & rq0 & r0 & Hone & _ & _ & _ & Hb)]].
  - assert (Ho0 : o0 <> Diverge) by (by destruct o0).
    destruct (paged_run_shape _ _ _ _ _ _ _ _ _ _ Hp Ho0) as (pre & last & Heq & Hfull & _).
    by exists pre, last.
  - rewrite Hnil. destruct c; try done; cbn [before_request] in Hb.
    + destruct (quote_plus E file_path); [done|].
      rewrite bool_decide_false; [done|]. by intros [? ?].
    + destruct (fs w !! file_path); [done|].
      rewrite bool_decide_false; [done|]. by intros [? ?].
  - rewrite Hone. destruct c; try done; cbn [before_request] in Hb.
    + destruct (quote_plus E file_path); [|done]. by rewrite bool_decide_true by eauto.
    + destruct (fs w !! file_path); [|done]. by rewrite bool_decide_true by eauto.
Qed.

End Claims.
End ClientClaims.

(** ** Paging *)
Module PagedClaims.
Import GitLabClient ClientSpec ClientFacts Readings.

Section Paged.
Context (E : env) (self : t) (path : list Z) (params : option (gmap (list Z) json)).
Context (pages : Z -> list json).
Hypothesis Hserves : serves E self path params pages.

Lemma verdict_served rs l res :
  status_code rs = 200 -> json_body rs = Some (JArr l) ->
  page_verdict (Resp rs) res =
  if Z.of_nat (length l) <? 100 then Stop (Return (res ++ l)) else Continue (res ++ l).
Proof.
  intros Hs Hb. unfold page_verdict. rewrite Hs, Hb. cbn [Z.eqb Pos.eqb negb].
  unfold truthy. destruct l as [|x l].
  - cbn. by rewrite app_nil_r.
  - rewrite bool_decide_false by done. cbn [negb items_of].
    done.
Qed.

(** From page [p] on, with [d] full pages and then a short one, the loop
    asks for exactly these [d + 1] pages and returns their items. *)
Lemma paged_get_loop_served d : forall p res w fuel,
  (forall j, p <= j < p + Z.of_nat d -> (100 <= length (pages j))%nat) ->
  (length (pages (p + Z.of_nat d)) < 100)%nat ->
  (d < fuel)%nat ->
  exists exs,
    _paged_get_loop E fuel self path params p res w
    = (Return (res ++ concat (pages <$> seqZ p (Z.of_nat (S d)))), extend_http exs w)
    /\ exs.*1 = page_request self path params <$> seqZ p (Z.of_nat (S d)).
Proof.
  induction d as [|d IH]; intros p res w fuel Hfull Hshort Hfuel.
  - destruct fuel as [|fuel]; [lia|]. rewrite paged_get_loop_step. cbn zeta.
    destruct (Hserves ((http_log w).*1) p) as (rs & Hr & Hs & Hb).
    rewrite Hr, (verdict_served _ _ _ Hs Hb).
    replace (p + Z.of_nat 0) with p in Hshort by lia.
    replace (Z.of_nat (length (pages p)) <? 100) with true
      by (symmetry; apply Z.ltb_lt; lia).
    change (Z.of_nat 1) with 1. rewrite seqZ_cons by lia. cbn [Z.pred].
    rewrite seqZ_nil by lia. eexists. split.
    + cbn [fmap list_fmap concat]. by rewrite app_nil_r.
    + done.
  - destruct fuel as [|fuel]; [lia|]. rewrite paged_get_loop_step. cbn zeta.
    destruct (Hserves ((http_log w).*1) p) as (rs & Hr & Hs & Hb).
    rewrite Hr, (verdict_served _ _ _ Hs Hb).
    assert (Hp : (100 <= length (pages p))%nat) by (apply Hfull; lia).
    replace (Z.of_nat (length (pages p)) <? 100) with false
      by (symmetry; apply Z.ltb_ge; lia).
    edestruct (IH (p + 1) (res ++ pages p)
                 (extend_http [(page_request self path params p, Resp rs)] w) fuel)
      as (exs & Heq & Hreq).
    + intros j Hj. apply Hfull. lia.
    + by replace (p + 1 + Z.of_nat d) with (p + Z.of_nat (S d)) by lia.
    + lia.
    + rewrite Heq, extend_http_app.
      assert (Hseq : seqZ p (Z.of_nat (S (S d))) = p :: seqZ (p + 1) (Z.of_nat (S d))).
      { rewrite (seqZ_cons p) by lia. f_equal. f_equal; lia. }
      rewrite Hseq. eexists. split.
      * rewrite fmap_cons. cbn [concat]. by rewrite <- app_assoc.
      * rewrite fmap_app, Hreq. by rewrite fmap_cons.
Qed.

(** Among the pages from 1 on, the first short one. *)
Lemma first_short_page n :
  1 <= n -> (length (pages n) < 100)%nat ->
  exists d : nat,
    (length (pages (1 + Z.of_nat d)) < 100)%nat
    /\ forall j, 1 <= j < 1 + Z.of_nat d -> (100 <= length (pages j))%nat.
Proof.
  intros Hn Hshort.
  assert (H : forall m : nat,
             (exists d : nat, (d < m)%nat /\ (length (pages (1 + Z.of_nat d)) < 100)%nat
                /\ forall j, 1 <= j < 1 + Z.of_nat d -> (100 <= length (pages j))%nat)
             \/ forall j, 1 <= j < 1 + Z.of_nat m -> (100 <= length (pages j))%nat).
  { induction m as [|m [(d & Hd & Hs & Hf)|Hall]].
    - right. intros j Hj. lia.
    - left. exists d. split; [lia|done].
    - destruct (decide (length (pages (1 + Z.of_nat m)) < 100)%nat) as [Hlt|Hge].
      + left. exists m. split; [lia|done].
      + right. intros j Hj.
        destruct (decide (j = 1 + Z.of_nat m)) as [->|Hne]; [lia|].
        apply Hall. lia. }
  destruct (H (Z.to_nat n)) as [(d & _ & Hs & Hf)|Hall].
  - by exists d.
  - exists (Z.to_nat (n - 1)). replace (1 + Z.of_nat (Z.to_nat (n - 1))) with n by lia.
    split; [done|]. intros j Hj. apply Hall. lia.
Qed.

(** C8, as the code has it. When the server hands out pages and some page
    is shorter than 100 entries, [_paged_get] ends, given fuel for its
    turns: it asks for pages 1 to k, k being the first page with fewer than
    100 entries (an empty page counts), and for no other; it returns the
    entries of these pages in order. Page n+1 is asked for exactly when
    page n held 100 entries or more. *)
Theorem paged_get_until_short_page :
  (exists n, 1 <= n /\ (length (pages n) < 100)%nat) ->
  exists k : nat,
    (1 <= k)%nat
    /\ (length (pages (Z.of_nat k)) < 100)%nat
    /\ (forall j, 1 <= j < Z.of_nat k -> (100 <= length (pages j))%nat)
    /\ forall fuel w, (k <= fuel)%nat ->
         exists w',
           _paged_get E fuel self path params w
           = (Return (concat (pages <$> seqZ 1 (Z.of_nat k))), w')
           /\ (new_exchanges w w').*1
              = page_request self path params <$> seqZ 1 (Z.of_nat k).
Proof.
  intros (n & Hn & Hshort).
  destruct (first_short_page n Hn Hshort) as (d & Hs & Hf).
  exists (S d). split; [lia|].
  replace (Z.of_nat (S d)) with (1 + Z.of_nat d) by lia.
  split; [done|]. split; [done|].
  intros fuel w Hfuel.
  destruct (paged_get_loop_served d 1 [] w fuel Hf Hs) as (exs & Heq & Hreq); [lia|].
  exists (extend_http exs w). unfold _paged_get.
  replace (1 + Z.of_nat d) with (Z.of_nat (S d)) by lia.
  rewrite Heq, new_exchanges_extend. done.
Qed.

End Paged.

End PagedClaims.

(** ** Instances and counterexamples for the client *)
Module ClientInstances.
Import GitLabClient ClientSpec ClientFacts Readings ClientClaims PagedClaims Demo Demo2.

(** The server of pages serves its pages. *)
Lemma paged_api_serves keyring pages self path params :
  serves (env_of keyring (paged_api pages)) self path params pages.
Proof.
  intros hist n. exists (Response 200 (lit "[...]") (Some (JArr (pages n))) []).
  split; [|done].
  unfold env_of, paged_api. cbn [api page_request rq_params].
  rewrite lookup_insert_ne by (by vm_compute).
  by rewrite lookup_insert_eq.
Qed.

(** [test] against a server that answers 404. *)
Lemma test_404_run :
  run (env_pages 100) 5 client0 Test world0
  = (Raise (http_error not_found), extend_http [(user_request, Resp not_found)] world0).
Proof. vm_compute. reflexivity. Qed.

(** [list_groups] against a server whose first page is full. *)
Lemma list_groups_two_pages_run n :
  (100 <= n)%nat ->
  run (env_pages n) 5 client0 ListGroups world0
  = (Return (VList (two_pages n 1 ++ two_pages n 2)),
     extend_http
       [(page_request client0 (lit "/groups") None 1, Resp (page_response n 1));
        (page_request client0 (lit "/groups") None 2, Resp (page_response n 2))]
       world0).
Proof.
  intros Hn. unfold run, list_groups, _paged_get, mbind, M_bind, bind.
  rewrite paged_get_loop_step. cbn zeta.
  change (api (env_pages n) (http_log world0).*1 (page_request client0 (lit "/groups") None 1))
    with (paged_api (two_pages n) [] (page_request client0 (lit "/groups") None 1)).
  replace (paged_api (two_pages n) [] (page_request client0 (lit "/groups") None 1))
    with (Resp (page_response n 1)) by (by vm_compute).
  rewrite (verdict_served (page_response n 1) (two_pages n 1)) by done.
  replace (Z.of_nat (length (two_pages n 1)) <? 100) with false.
  2:{ symmetry. apply Z.ltb_ge. cbn. rewrite length_replicate. lia. }
  rewrite paged_get_loop_step. cbn zeta.
  match goal with
  | |- context [api ?e ?h ?r] =>
      replace (api e h r) with (Resp (page_response n 2)) by (by vm_compute)
  end.
  rewrite (verdict_served (page_response n 2) (two_pages n 2)) by done.
  cbn. rewrite extend_http_app. done.
Qed.


Lemma new_exchanges_world0 exs : new_exchanges world0 (extend_http exs world0) = exs.
Proof. apply new_exchanges_extend. Qed.

(** An instance of C6: [test] answered with 404. *)
Lemma no_retry_after_failure_witness :
  let o : outcome value := Raise (http_error not_found) in
  let w' := extend_http [(user_request, Resp not_found)] world0 in
  run (env_pages 100) 5 client0 Test world0 = (o, w')
  /\ new_exchanges world0 w' = [] ++ (user_request, Resp not_found) :: []
  /\ failure Test (Resp not_found)
  /\ ([] : list (request * http_result)) = []
  /\ o = Raise (http_error not_found).
Proof.
  intros o w'.
  assert (H1 : run (env_pages 100) 5 client0 Test world0 = (o, w')) by exact test_404_run.
  assert (H2 : new_exchanges world0 w' = [] ++ (user_request, Resp not_found) :: [])
    by apply new_exchanges_world0.
  assert (H3 : failure Test (Resp not_found)) by reflexivity.
  split; [exact H1|]. split; [exact H2|]. split; [exact H3|].
  exact (no_retry_after_failure (env_pages 100) 5 client0 Test world0 o w'
           [] user_request (Resp not_found) [] H1 H2 H3).
Defined.

(** An instance of C1: [test] answered with 404 raises "404: Not Found". *)
Lemma status_decides_outcome_witness :
  let o : outcome value := Raise (http_error not_found) in
  let w' := extend_http [(user_request, Resp not_found)] world0 in
  run (env_pages 100) 5 client0 Test world0 = (o, w')
  /\ o <> Diverge
  /\ (user_request, Resp not_found) ∈ new_exchanges world0 w'
  /\ (accepts Test not_found = false ->
      o = Raise (http_error not_found)
      /\ exn_cls (http_error not_found) = HTTPError
      /\ exn_msg (http_error not_found)
         = str_of_Z (status_code not_found) ++ lit ": " ++ text not_found).
Proof.
  intros o w'.
  assert (H1 : run (env_pages 100) 5 client0 Test world0 = (o, w')) by exact test_404_run.
  assert (H2 : o <> Diverge) by discriminate.
  assert (H3 : (user_request, Resp not_found) ∈ new_exchanges world0 w').
  { unfold w'. rewrite new_exchanges_world0. apply list_elem_of_here. }
  split; [exact H1|]. split; [exact H2|]. split; [exact H3|].
  exact (proj1 (status_decides_outcome (env_pages 100) 5 client0 Test world0 o w'
                  user_request not_found H1 H2 H3)).
Defined.

(** C1 as the specification words it fails: [list_groups] fed a full first
    page returns the entries of two pages, which is the parsed body of
    neither answer. *)
Lemma uniform_contract_counterexample : ~ uniform_contract (env_pages 100).
Proof.
  intros H.
  pose proof (list_groups_two_pages_run 100 (le_n _)) as Hrun.
  specialize (H 5%nat client0 ListGroups world0 _ _ Hrun).
  specialize (H ltac:(discriminate)
                (page_request client0 (lit "/groups") None 1) (page_response 100 1)).
  rewrite new_exchanges_world0 in H. specialize (H (list_elem_of_here _ _)).
  change (accepts ListGroups (page_response 100 1)) with true in H. cbn iota in H.
  unfold body_returned in H. cbn [json_body page_response] in H.
  destruct H as [H|(l & Hl & H)].
  { apply (f_equal (fun o => match o with Return (VList _) => true | _ => false end)) in H.
    cbv beta iota in H. discriminate H. }
  apply (f_equal (fun j => match j with JArr x => length x | _ => 0%nat end)) in Hl.
  apply (f_equal (fun o => match o with
                           | Return (VList x) => length x
                           | _ => 0%nat
                           end)) in H.
  rewrite <- Hl in H. vm_compute in H. lia.
Qed.

(** [get_file_raw] for a path that holds a lone
    surrogate raises before it sends anything. *)
Lemma get_file_raw_unencodable_run :
  run (env_pages 100) 5 client0 (GetFileRaw (JNum 1) [0xD800] (lit "master")) world0
  = (Raise (Exn UnicodeError (lit "'utf-8' codec can't encode character")), world0).
Proof. vm_compute. reflexivity. Qed.

(** Instances of C2: the two requests of [list_groups] above, and the
    call of [get_file_raw] that makes none. *)
Lemma requests_per_call_witness :
  let o := Return (VList (two_pages 100 1 ++ two_pages 100 2)) in
  let w' :=
    extend_http
      [(page_request client0 (lit "/groups") None 1, Resp (page_response 100 1));
       (page_request client0 (lit "/groups") None 2, Resp (page_response 100 2))]
      world0 in
  run (env_pages 100) 5 client0 ListGroups world0 = (o, w')
  /\ o <> Diverge
  /\ (exists pre last, new_exchanges world0 w' = pre ++ [last] /\ Forall full_page pre)
  /\ quote_plus (env_pages 100) [0xD800] = None
  /\ length (new_exchanges world0
               (run (env_pages 100) 5 client0
                  (GetFileRaw (JNum 1) [0xD800] (lit "master")) world0).2) = 0%nat.
Proof.
  intros o w'.
  assert (H1 : run (env_pages 100) 5 client0 ListGroups world0 = (o, w'))
    by exact (list_groups_two_pages_run 100 (le_n _)).
  assert (H2 : o <> Diverge) by discriminate.
  assert (H3 : (Raise (Exn UnicodeError (lit "'utf-8' codec can't encode character"))
                : outcome value) <> Diverge) by discriminate.
  split; [exact H1|]. split; [exact H2|].
  split; [exact (requests_per_call (env_pages 100) 5 client0 ListGroups world0 o w' H1 H2)|].
  split; [reflexivity|].
  exact (requests_per_call (env_pages 100) 5 client0
           (GetFileRaw (JNum 1) [0xD800] (lit "master")) world0 _ _
           get_file_raw_unencodable_run H3).
Defined.

(** C2 as the specification words it fails: that call made two requests. *)
Lemma single_request_counterexample : ~ single_request (env_pages 100).
Proof.
  intros H.
  pose proof (list_groups_two_pages_run 100 (le_n _)) as Hrun.
  specialize (H 5%nat client0 ListGroups world0 _ _ Hrun ltac:(discriminate)).
  rewrite new_exchanges_world0 in H. cbn [length] in H. lia.
Qed.

(** An instance of C8: pages of 100, 1 and 0 entries. *)
Lemma paged_get_until_short_page_witness :
  serves (env_pages 100) client0 (lit "/groups") None (two_pages 100)
  /\ (exists n, 1 <= n /\ (length (two_pages 100 n) < 100)%nat)
  /\ exists k : nat,
       (1 <= k)%nat
       /\ (length (two_pages 100 (Z.of_nat k)) < 100)%nat
       /\ (forall j, 1 <= j < Z.of_nat k -> (100 <= length (two_pages 100 j))%nat)
       /\ forall fuel w, (k <= fuel)%nat ->
            exists w',
              _paged_get (env_pages 100) fuel client0 (lit "/groups") None w
              = (Return (concat (two_pages 100 <$> seqZ 1 (Z.of_nat k))), w')
              /\ (new_exchanges w w').*1
                 = page_request client0 (lit "/groups") None <$> seqZ 1 (Z.of_nat k).
Proof.
  assert (H1 : serves (env_pages 100) client0 (lit "/groups") None (two_pages 100))
    by apply paged_api_serves.
  assert (H2 : exists n, 1 <= n /\ (length (two_pages 100 n) < 100)%nat).
  { exists 2. split; [lia|]. vm_compute. lia. }
  split; [exact H1|]. split; [exact H2|].
  exact (paged_get_until_short_page (env_pages 100) client0 (lit "/groups") None
           (two_pages 100) H1 H2).
Defined.

(** C8 as the specification words it fails: after a first page of 101
    entries the second page is asked for. *)
Lemma next_page_counterexample :
  serves (env_pages 101) client0 (lit "/groups") None (two_pages 101)
  /\ (length (two_pages 101 2) < 100)%nat
  /\ ~ next_page_only_after_exactly_100 (env_pages 101) client0 (lit "/groups") None
         (two_pages 101).
Proof.
  split; [apply paged_api_serves|]. split; [vm_compute; lia|].
  intros H.
  pose proof (list_groups_two_pages_run 101 ltac:(lia)) as Hrun.
  unfold run, list_groups, mbind, M_bind, bind in Hrun.
  destruct (_paged_get _ _ _ _ _ _) as [[l| |] w'] eqn:Heq; try discriminate.
  injection Hrun as -> ->.
  specialize (H 5%nat world0 _ _ 1 ltac:(lia) Heq). rewrite new_exchanges_world0 in H.
  assert (Hlen : length (two_pages 101 1) = 100%nat).
  { apply H. cbn [fmap list_fmap fst]. change (1 + 1) with 2.
    apply list_elem_of_further, list_elem_of_here. }
  vm_compute in Hlen. lia.
Qed.

End ClientInstances.

(** ** The token store *)
Module TokenFacts.
Import Utf8Facts Base64Facts.

Lemma lstrip_with_id p s :
  match s with c :: _ => p c = false | [] => True end -> lstrip_with p s = s.
Proof. destruct s as [|c s]; simpl; [done|]. by intros ->. Qed.

(** Stripping leaves a text without white space as it is. *)
Lemma strip_no_space s : Forall (fun c => isspace c = false) s -> strip s = s.
Proof.
  intros Hs. unfold strip, rstrip_with.
  rewrite (lstrip_with_id isspace s) by (by destruct Hs).
  rewrite lstrip_with_id; [apply reverse_involutive|].
  destruct (reverse s) as [|c r] eqn:Hr; [done|].
  rewrite list.Forall_forall in Hs. apply Hs.
  apply elem_of_reverse. rewrite Hr. apply list_elem_of_here.
Qed.

Lemma forallb_Forall_true {A} (f : A -> bool) l :
  Forall (fun x => f x = true) l -> forallb f l = true.
Proof. induction 1 as [|x l Hx _ IH]; simpl; [done|]. by rewrite Hx, IH. Qed.

Lemma b64char_ascii c : Base64.b64char c -> (0 <=? c) && (c <? 128) = true.
Proof.
  unfold Base64.b64char. intros H. apply andb_true_iff.
  split; [apply Z.leb_le | apply Z.ltb_lt]; lia.
Qed.

Lemma b64char_no_space c : Base64.b64char c -> isspace c = false.
Proof.
  unfold Base64.b64char, isspace. intros H.
  repeat (apply orb_false_iff; split);
    try (apply Z.eqb_neq; lia);
    apply andb_false_iff; first [left; apply Z.leb_gt; lia | right; apply Z.leb_gt; lia].
Qed.

Lemma b64char_scalar c : Base64.b64char c -> Utf8.scalar c.
Proof. unfold Base64.b64char, Utf8.scalar. lia. Qed.

(** A text without carriage return is read as it is. *)
Lemma universal_newlines_id s :
  Forall (fun c => c <> 13) s -> universal_newlines s = s.
Proof.
  induction 1 as [|c s Hc _ IH]; [done|]. cbn [universal_newlines].
  apply Z.eqb_neq in Hc. rewrite Hc. by rewrite IH.
Qed.

Lemma b64char_no_return c : Base64.b64char c -> c <> 13.
Proof. unfold Base64.b64char. lia. Qed.

Section Token.
Context (E : env).
Hypothesis Hfile : KEYRING_AVAILABLE E = false.

(** What a successful [save_token] leaves in the token file: the UTF-8
    bytes of the base64 text of the token's UTF-8 bytes. *)
Lemma save_token_file t w :
  (save_token E t w).1 = Return true ->
  exists bs fb,
    Utf8.encode t = Some bs
    /\ Utf8.encode (Base64.b64encode bs) = Some fb
    /\ fs (save_token E t w).2 !! TOKEN_FILE_FALLBACK E = Some fb.
Proof.
  unfold save_token. rewrite Hfile.
  unfold open_w, encode_utf8, decode_ascii. msimpl.
  destruct (Utf8.encode t) as [bs|] eqn:Ht; [|done].
  assert (Hchars : Forall Base64.b64char (Base64.b64encode bs))
    by (apply b64encode_chars; by eapply encode_bytes).
  assert (Hascii : forallb (fun b => (0 <=? b) && (b <? 128)) (Base64.b64encode bs) = true).
  { apply forallb_Forall_true. eapply list.Forall_impl; [exact Hchars|].
    apply b64char_ascii. }
  destruct (encode_Forall_scalar (Base64.b64encode bs)) as [fb Hfb].
  { eapply list.Forall_impl; [exact Hchars|]. apply b64char_scalar. }
  msimpl. rewrite Hascii. msimpl. unfold write_str. rewrite Hfb.
  unfold os_chmod. msimpl.
  intros _. exists bs, fb. split; [done|]. split; [done|].
  cbn [snd fs set_fs add_io]. rewrite lookup_insert_eq. rewrite lookup_insert_eq. done.
Qed.

(** [load_token] reads back what the file holds. *)
Lemma load_token_file t w bs fb :
  t <> [] ->
  Utf8.encode t = Some bs ->
  Utf8.encode (Base64.b64encode bs) = Some fb ->
  fs w !! TOKEN_FILE_FALLBACK E = Some fb ->
  (load_token E w).1 = Return (Some t).
Proof.
  intros Hne Ht Hfb Hfs.
  assert (Hbytes : Forall Utf8.byte bs) by (by eapply encode_bytes).
  assert (Hchars : Forall Base64.b64char (Base64.b64encode bs))
    by (by apply b64encode_chars).
  unfold load_token. rewrite Hfile.
  unfold path_exists, read_str, read_bytes. msimpl.
  rewrite Hfs. rewrite bool_decide_true by eauto. msimpl. rewrite Hfs. msimpl.
  rewrite (decode_encode _ _ Hfb). msimpl.
  rewrite universal_newlines_id
    by (eapply list.Forall_impl; [exact Hchars|]; apply b64char_no_return).
  rewrite strip_no_space
    by (eapply list.Forall_impl; [exact Hchars|]; apply b64char_no_space).
  rewrite bool_decide_true.
  2:{ apply b64encode_nonempty. by eapply encode_nonempty. }
  unfold encode_ascii.
  replace (forallb _ (Base64.b64encode bs)) with true.
  2:{ symmetry. apply forallb_Forall_true. eapply list.Forall_impl; [exact Hchars|].
      apply b64char_ascii. }
  msimpl. unfold b64decode. rewrite (b64decode_b64encode _ Hbytes). msimpl.
  unfold decode_utf8. by rewrite (decode_encode _ _ Ht).
Qed.

(** After [delete_saved_token] there is no token file, and [load_token]
    finds nothing. *)
Lemma load_after_delete w :
  (load_token E (delete_saved_token E w).2).1 = Return None.
Proof.
  assert (Hgone : fs (delete_saved_token E w).2 !! TOKEN_FILE_FALLBACK E = None).
  { unfold delete_saved_token. rewrite Hfile.
    unfold path_exists, os_remove. msimpl.
    destruct (fs w !! TOKEN_FILE_FALLBACK E) as [old|] eqn:Hold.
    - rewrite bool_decide_true by eauto. msimpl. rewrite Hold.
      cbn [snd fs set_fs add_io]. apply lookup_delete_eq.
    - rewrite bool_decide_false by (by intros [? ?]). done. }
  unfold load_token. rewrite Hfile.
  unfold path_exists. msimpl.
  rewrite Hgone. by rewrite bool_decide_false by (by intros [? ?]).
Qed.

(** C10. Without keyring, a token that is not empty comes back from
    [load_token] as it went into a successful [save_token], and after
    [delete_saved_token] [load_token] returns [None]. *)
Theorem token_file_round_trip t w w0 :
  t <> [] ->
  (save_token E t w).1 = Return true ->
  (load_token E (save_token E t w).2).1 = Return (Some t)
  /\ (load_token E (delete_saved_token E w0).2).1 = Return None.
Proof.
  intros Hne Hsave. split; [|apply load_after_delete].
  destruct (save_token_file t w Hsave) as (bs & fb & Ht & Hfb & Hfs).
  by eapply load_token_file.
Qed.

End Token.

(** An instance of C10: the token "glpat-abc" in an empty home directory. *)
Lemma token_file_round_trip_witness :
  let E := Demo.env_of false (Demo.paged_api (Demo.two_pages 0)) in
  let t := lit "glpat-abc" in
  KEYRING_AVAILABLE E = false
  /\ t <> []
  /\ (save_token E t Demo.world0).1 = Return true
  /\ (load_token E (save_token E t Demo.world0).2).1 = Return (Some t)
  /\ (load_token E (delete_saved_token E (save_token E t Demo.world0).2).2).1 = Return None.
Proof.
  intros E t.
  assert (H1 : KEYRING_AVAILABLE E = false) by reflexivity.
  assert (H2 : t <> []) by (by vm_compute).
  assert (H3 : (save_token E t Demo.world0).1 = Return true) by (vm_compute; reflexivity).
  split; [exact H1|]. split; [exact H2|]. split; [exact H3|].
  exact (token_file_round_trip E H1 t Demo.world0 (save_token E t Demo.world0).2 H2 H3).
Defined.

(** Every call of [save_token] leaves a trace: one keyring or file
    operation is added to the log, whether the call succeeds or not. *)
Lemma save_token_logs E token w :
  io_log (save_token E token w).2
  = io_log w ++ [if KEYRING_AVAILABLE E then KeyringSet token
                 else OpenForWrite (TOKEN_FILE_FALLBACK E)].
Proof.
  unfold save_token, try_except.
  destruct (KEYRING_AVAILABLE E); [reflexivity|].
  unfold mbind, M_bind, bind, open_w, modify, encode_utf8, decode_ascii,
    write_str, os_chmod, try_except, ret, raise, print; simpl.
  destruct (Utf8.encode token) as [bs|]; simpl; [|reflexivity].
  destruct (forallb _ (Base64.b64encode bs)); simpl; [|reflexivity].
  destruct (Utf8.encode (Base64.b64encode bs)); reflexivity.
Qed.

End TokenFacts.

(** ** The application *)
Module AppFacts.
Import GitLabGUIApp AppSpec ClientSpec ClientFacts.

Ltac st_simpl :=
  cbn [client user_info token _all_groups last_parent_name last_subgroup_name
       current_project_id tree token_var save_token_var status_var log_queue
       log_area cur_thread calls outside
       set_client set_user_info set_token set__all_groups set_last_parent_name
       set_last_subgroup_name set_tree set_status_var set_log_queue set_log_area
       set_cur_thread set_calls set_outside fst snd].

Ltac st_simpl_in H :=
  cbn [client user_info token _all_groups last_parent_name last_subgroup_name
       current_project_id tree token_var save_token_var status_var log_queue
       log_area cur_thread calls outside
       set_client set_user_info set_token set__all_groups set_last_parent_name
       set_last_subgroup_name set_tree set_status_var set_log_queue set_log_area
       set_cur_thread set_calls set_outside fst snd] in H.

(** *** Rules for [preserves] *)
Section Preserves.
Context {S : Type} (R : relation S) `{!PreOrder R}.

Lemma preserves_ret {A} (a : A) : preserves R (ret a).
Proof. intros s. reflexivity. Qed.

Lemma preserves_raise {A} e : preserves R (@raise S A e).
Proof. intros s. reflexivity. Qed.

Lemma preserves_bind {A B} (m : M S A) (k : A -> M S B) :
  preserves R m -> (forall a, preserves R (k a)) -> preserves R (bind m k).
Proof.
  intros Hm Hk s. unfold bind. specialize (Hm s).
  destruct (m s) as [[a|e|] s1]; simpl in *; try done.
  etrans; [exact Hm|]. apply Hk.
Qed.

Lemma preserves_mbind {A B} (m : M S A) (k : A -> M S B) :
  preserves R m -> (forall a, preserves R (k a)) -> preserves R (m ≫= k).
Proof. apply preserves_bind. Qed.

Lemma preserves_try_except {A} (m : M S A) h :
  preserves R m -> (forall e, preserves R (h e)) -> preserves R (try_except m h).
Proof.
  intros Hm Hh s. unfold try_except. specialize (Hm s).
  destruct (m s) as [[a|e|] s1]; simpl in *; try done.
  etrans; [exact Hm|]. apply Hh.
Qed.

Lemma preserves_try_finally {A} (m : M S A) f :
  preserves R m -> preserves R f -> preserves R (try_finally m f).
Proof.
  intros Hm Hf s. unfold try_finally. specialize (Hm s).
  destruct (m s) as [[a|e|] s1]; simpl in *; try done;
    specialize (Hf s1); destruct (f s1) as [[[]|e'|] s2]; simpl in *;
    by etrans.
Qed.

Lemma preserves_for_each {A} (l : list A) (f : A -> M S unit) :
  (forall x, preserves R (f x)) -> preserves R (for_each l f).
Proof.
  intros Hf. induction l as [|x l IH]; simpl.
  - apply preserves_ret.
  - apply preserves_mbind; [apply Hf|done].
Qed.

Lemma preserves_map_M {A B} (f : A -> M S B) (l : list A) :
  (forall x, preserves R (f x)) -> preserves R (map_M f l).
Proof.
  intros Hf. induction l as [|x l IH]; simpl.
  - apply preserves_ret.
  - apply preserves_mbind; [apply Hf|]. intros y.
    apply preserves_mbind; [done|]. intros ys. apply preserves_ret.
Qed.

Lemma preserves_filter_M {A} (p : A -> M S bool) (l : list A) :
  (forall x, preserves R (p x)) -> preserves R (filter_M p l).
Proof.
  intros Hp. induction l as [|x l IH]; simpl.
  - apply preserves_ret.
  - apply preserves_bind; [apply Hp|]. intros b.
    apply preserves_mbind; [done|]. intros ys. apply preserves_ret.
Qed.

Lemma preserves_gets {A} (f : S -> A) : preserves R (gets f).
Proof. intros s. reflexivity. Qed.

Lemma preserves_py_get v k d : preserves R (py_get v k d).
Proof. destruct v; first [apply preserves_ret | apply preserves_raise]. Qed.

Lemma preserves_py_iter v : preserves R (py_iter v).
Proof. destruct v; first [apply preserves_ret | apply preserves_raise]. Qed.

End Preserves.


#[global] Instance same_login_preorder : PreOrder same_login.
Proof.
  split.
  - intros s. by repeat split.
  - intros s1 s2 s3 (? & ? & ? & ? & ? & ?) (? & ? & ? & ? & ? & ?).
    unfold same_login. split_and!; congruence.
Qed.

Section Login.
Context (E : env).

Lemma test_world c w :
  exists x, (GitLabClient.test E c w).2 = extend_http [x] w.
Proof.
  unfold GitLabClient.test. msimpl. rewrite send_eq.
  destruct (api E _ _) as [rs|msg]; [|by eexists].
  destruct (status_code rs =? 200); [|by eexists].
  unfold GitLabClient.resp_json. destruct (json_body rs); by eexists.
Qed.

Lemma same_login_tk c : preserves same_login (tk c).
Proof. intros s. by repeat split. Qed.

Lemma same_login_set_status text : preserves same_login (set_status text).
Proof. intros s. by repeat split. Qed.

Lemma same_login_log text : preserves same_login (log E text).
Proof. intros s. by repeat split. Qed.

Lemma same_login_thread t s s' : same_login s s' -> same_login s (set_cur_thread t s').
Proof. done. Qed.

(** C9. When the request by which [on_login] checks the token raises (a
    status other than 200, or an exception of the library), the login
    state ([client], [user_info], [token]) is as before, and nothing was
    written to the token store: [save_token] did not run, whatever the
    'save token' box says. *)
Theorem login_failure_changes_nothing fuel s e :
  (GitLabClient.test E
     (GitLabClient.__init__ (Some (strip (token_var s))) (BASE_URL E)) (outside s)).1
  = Raise e ->
  let s' := (on_login E fuel s).2 in
  client s' = client s /\ user_info s' = user_info s /\ token s' = token s
  /\ fs (outside s') = fs (outside s)
  /\ keyring_pw (outside s') = keyring_pw (outside s)
  /\ io_log (outside s') = io_log (outside s).
Proof.
  intros Htest. cbn zeta. change (same_login s (on_login E fuel s).2).
  unfold on_login. msimpl.
  destruct (bool_decide (strip (token_var s) = [])); [apply same_login_tk|].
  destruct (negb (REQUESTS_AVAILABLE E)); [apply same_login_tk|].
  unfold spawn, on_thread.
  match goal with
  | |- same_login s (let (_, _) := ?x in _).2 =>
      assert (Htask : same_login s x.2); [|by destruct x as [[[]|?|] ?]]
  end.
  unfold on_login_task, try_except. msimpl.
  unfold set_status at 1. unfold tk. msimpl. unfold in_world at 1, zoom. st_simpl.
  destruct (test_world (GitLabClient.__init__ (Some (strip (token_var s))) (BASE_URL E))
              (outside s)) as [x Hx].
  destruct (GitLabClient.test E _ (outside s)) as [o w'] eqn:Hrun.
  simpl in Htest, Hx. subst o w'. msimpl.
  match goal with
  | |- same_login s (let (_, _) := log E ?a ?s0 in _).2 =>
      assert (H0 : same_login s s0) by (by repeat split);
      pose proof (same_login_log a s0) as H1;
      destruct (log E a s0) as [[[]|?|] s1]; simpl in H1
  end; [|by etrans|by etrans].
  msimpl.
  match goal with
  | |- same_login s (let (_, _) := showerror ?a ?b ?s0 in _).2 =>
      pose proof (same_login_tk (ShowError a b) s0) as H2;
      change (tk (ShowError a b)) with (showerror a b) in H2;
      destruct (showerror a b s0) as [[[]|?|] s2]; simpl in H2
  end; [|by do 2 (etrans; [eassumption|])|by do 2 (etrans; [eassumption|])].
  etrans; [exact H0|]. etrans; [exact H1|]. etrans; [exact H2|].
  apply same_login_set_status.
Qed.

End Login.

End AppFacts.

Module AppInstances.
Import GitLabGUIApp AppSpec AppSpec2 Readings2 ClientSpec ClientFacts AppFacts Demo Demo2 Demo3.

(** An instance of C9: the server answers 404 to the token check. *)
Lemma login_failure_changes_nothing_witness :
  let E := env_pages 0 in
  let s' := (on_login E 5 state0).2 in
  (GitLabClient.test E
     (GitLabClient.__init__ (Some (strip (token_var state0))) (BASE_URL E))
     (outside state0)).1
  = Raise (GitLabClient.http_error not_found)
  /\ client s' = client state0 /\ user_info s' = user_info state0
  /\ token s' = token state0
  /\ fs (outside s') = fs (outside state0)
  /\ keyring_pw (outside s') = keyring_pw (outside state0)
  /\ io_log (outside s') = io_log (outside state0).
Proof.
  intros E s'.
  assert (H1 : (GitLabClient.test E
                  (GitLabClient.__init__ (Some (strip (token_var state0))) (BASE_URL E))
                  (outside state0)).1
               = Raise (GitLabClient.http_error not_found))
    by (vm_compute; reflexivity).
  split; [exact H1|].
  exact (login_failure_changes_nothing E 5 state0 _ H1).
Defined.

End AppInstances.

Module AppFacts2.
Import GitLabGUIApp AppSpec AppSpec2 UiFrames Readings2 ClientSpec ClientFacts AppFacts.

(** *** What interface work keeps *)
Section Frame.
Context (E : env) (R : relation state) `{!UiFrame R}.

Lemma frame_set_status text : preserves R (set_status text).
Proof.
  unfold set_status. apply preserves_mbind; [apply _|apply ui_tk|].
  intros _. apply ui_set_status_var.
Qed.

Lemma frame_log text : preserves R (log E text).
Proof. unfold log. apply (ui_set_log_queue (fun s => log_queue s ++ [_])). Qed.

Lemma frame_showerror title msg : preserves R (showerror title msg).
Proof. apply ui_tk. Qed.

Lemma frame_showinfo title msg : preserves R (showinfo title msg).
Proof. apply ui_tk. Qed.

Lemma frame_tree_get_children i : preserves R (tree_get_children i).
Proof.
  unfold tree_get_children. apply preserves_mbind; [apply _|apply ui_tk|].
  intros _. apply preserves_mbind; [apply _|apply preserves_gets; apply _|].
  intros roots. destruct (Treeview.get_children roots i);
    [apply preserves_ret | apply preserves_raise]; apply _.
Qed.

Lemma frame_tree_delete items : preserves R (tree_delete items).
Proof.
  unfold tree_delete. apply preserves_mbind; [apply _|apply ui_tk|].
  intros _. apply preserves_mbind; [apply _|apply preserves_gets; apply _|].
  intros roots. destruct (Treeview.delete roots items);
    [apply ui_set_tree | apply preserves_raise; apply _].
Qed.

Lemma frame_tree_insert p i t v : preserves R (tree_insert p i t v).
Proof.
  unfold tree_insert. apply preserves_mbind; [apply _|apply ui_tk|].
  intros _. apply preserves_mbind; [apply _|apply preserves_gets; apply _|].
  intros roots. destruct (Treeview.insert roots p i t v);
    [apply ui_set_tree | apply preserves_raise; apply _].
Qed.

Lemma frame_py_lower v : preserves R (py_lower E v).
Proof. destruct v; first [apply preserves_ret | apply preserves_raise]; apply _. Qed.

Lemma frame_name_key x : preserves R (name_key E x).
Proof.
  unfold name_key. apply preserves_mbind; [apply _|apply preserves_py_get; apply _|].
  intros n. apply frame_py_lower.
Qed.

Lemma frame_is_root g : preserves R (is_root g).
Proof.
  unfold is_root. apply preserves_mbind; [apply _|apply preserves_py_get; apply _|].
  intros p. apply preserves_ret; apply _.
Qed.

Lemma frame_sorted l : preserves R (sorted l (name_key E)).
Proof.
  unfold sorted. apply preserves_mbind; [apply _| |].
  - apply preserves_map_M; [apply _|]. apply frame_name_key.
  - intros ks. apply preserves_ret; apply _.
Qed.

Lemma frame_insert_root_groups groups : preserves R (insert_root_groups E groups).
Proof.
  unfold insert_root_groups. apply preserves_mbind; [apply _| |].
  { apply preserves_filter_M; [apply _|]. apply frame_is_root. }
  intros roots. apply preserves_mbind; [apply _|apply frame_sorted|].
  intros ordered. apply preserves_for_each; [apply _|]. intros rg.
  unfold insert_root_group.
  apply preserves_mbind; [apply _|apply preserves_py_get; apply _|]. intros id.
  apply preserves_mbind; [apply _|apply preserves_py_get; apply _|]. intros name.
  apply preserves_mbind; [apply _|apply frame_tree_insert|]. intros _.
  apply frame_tree_insert.
Qed.

End Frame.

#[global] Instance made_by_current_preorder : PreOrder made_by_current.
Proof.
  split.
  - intros s. split; [done|]. exists []. by rewrite app_nil_r.
  - intros s1 s2 s3 (Ht1 & c1 & Hc1 & Hf1) (Ht2 & c2 & Hc2 & Hf2).
    split; [congruence|]. exists (c1 ++ c2). split.
    + by rewrite Hc2, Hc1, app_assoc.
    + apply Forall_app. split; [done|]. by rewrite <- Ht1.
Qed.

(** A step that changes neither the thread nor the list of calls. *)
Lemma made_by_current_quiet s s' :
  cur_thread s' = cur_thread s -> calls s' = calls s -> made_by_current s s'.
Proof. intros Ht Hc. split; [done|]. exists []. by rewrite app_nil_r. Qed.

#[global] Instance made_by_current_frame : UiFrame made_by_current.
Proof.
  split.
  - apply _.
  - intros c s. split; [done|]. exists [(cur_thread s, c)]. split; [done|].
    by repeat constructor.
  - intros roots s. by apply made_by_current_quiet.
  - intros text s. by apply made_by_current_quiet.
  - intros f s. by apply made_by_current_quiet.
Qed.

#[global] Instance same_cached_preorder : PreOrder same_cached.
Proof.
  split.
  - intros s. by repeat split.
  - intros s1 s2 s3 (? & ? & ?) (? & ? & ?). unfold same_cached. split_and!; congruence.
Qed.

#[global] Instance same_cached_frame : UiFrame same_cached.
Proof. split; [apply _|..]; intros; intros s; by repeat split. Qed.

Lemma tagged_in_world {A} (m : M world A) : preserves made_by_current (in_world m).
Proof.
  intros s. unfold in_world, zoom. destruct (m (outside s)). by apply made_by_current_quiet.
Qed.


(** *** Stepping through a [try] block *)
Lemma try_except_step {A B} (m : M state A) (k : A -> M state B) h s a s' :
  m s = (Return a, s') -> try_except (m ≫= k) h s = try_except (k a) h s'.
Proof. intros Hm. unfold try_except, mbind, M_bind, bind. by rewrite Hm. Qed.

Lemma try_except_step2 {A B C} (m : M state A) (k1 : A -> M state B)
    (k2 : B -> M state C) h s a s' :
  m s = (Return a, s') ->
  try_except ((m ≫= k1) ≫= k2) h s = try_except (k1 a ≫= k2) h s'.
Proof. intros Hm. unfold try_except, mbind, M_bind, bind. by rewrite Hm. Qed.

Lemma on_thread_state t (task : M state unit) s :
  (on_thread t task s).2 = set_cur_thread (cur_thread s) (task (set_cur_thread t s)).2.
Proof. unfold on_thread. by destruct (task _) as [[[]|?|] ?]. Qed.

Lemma made_by_current_calls s s' :
  made_by_current s s' ->
  exists cs, calls s' = calls s ++ cs /\ Forall (fun x => x.1 = cur_thread s) cs.
Proof. by intros [_ ?]. Qed.

Lemma new_calls_app s s' cs : calls s' = calls s ++ cs -> new_calls s s' = cs.
Proof. intros H. unfold new_calls. by rewrite H, drop_app_length. Qed.

Section Populate.
Context (E : env).

Lemma tagged_populate_groups_task fuel :
  preserves made_by_current (populate_groups_task E fuel).
Proof.
  unfold populate_groups_task. apply preserves_try_except; [apply _| |].
  - apply preserves_mbind; [apply _|apply frame_set_status; apply _|]. intros _.
    apply preserves_mbind; [apply _|apply preserves_gets; apply _|]. intros c.
    apply preserves_mbind; [apply _| |].
    { destruct c; [apply tagged_in_world|apply preserves_raise; apply _]. }
    intros groups.
    apply preserves_mbind; [apply _| |].
    { intros s. by apply made_by_current_quiet. }
    intros _. apply preserves_mbind; [apply _|apply frame_log; apply _|]. intros _.
    apply preserves_mbind; [apply _|apply frame_tree_get_children; apply _|]. intros cs.
    apply preserves_mbind; [apply _|apply frame_tree_delete; apply _|]. intros _.
    apply preserves_mbind; [apply _|apply frame_insert_root_groups; apply _|]. intros _.
    apply frame_set_status; apply _.
  - intros e.
    apply preserves_mbind; [apply _|apply frame_log; apply _|]. intros _.
    apply preserves_mbind; [apply _|apply frame_showerror; apply _|]. intros _.
    apply frame_set_status; apply _.
Qed.

(** The calls of [populate_groups] when [list_groups] returns: the status
    line, then the children of the root are read and deleted, all by the
    task's thread. *)
Lemma populate_groups_calls fuel s c l w' :
  client s = Some c ->
  GitLabClient.list_groups E fuel c (outside s) = (Return l, w') ->
  exists rest,
    new_calls s (populate_groups E fuel s).2
    = (ActionThread, StatusSet (lit "Tải groups..."))
      :: (ActionThread, TreeGetChildren [])
      :: (ActionThread, TreeDelete (Treeview.node_iid <$> tree s)) :: rest.
Proof.
  intros Hc Hl. unfold populate_groups. unfold mbind at 1, M_bind, bind, gets.
  rewrite Hc. unfold spawn. rewrite on_thread_state.
  unfold populate_groups_task.
  erewrite try_except_step; [|reflexivity].
  erewrite try_except_step; [|reflexivity]. st_simpl. rewrite Hc.
  erewrite try_except_step.
  2:{ unfold in_world, zoom. st_simpl. rewrite Hl. reflexivity. }
  erewrite try_except_step; [|reflexivity].
  erewrite try_except_step; [|reflexivity].
  erewrite try_except_step; [|reflexivity].
  unfold tree_delete at 1.
  erewrite try_except_step2; [|reflexivity].
  match goal with
  | |- context [try_except ?m ?h ?s0] =>
      assert (Hrest : preserves made_by_current (try_except m h));
      [|destruct (made_by_current_calls _ _ (Hrest s0)) as (cs & Hcs & _)]
  end.
  { apply preserves_try_except; [apply _| |].
    - apply preserves_mbind; [apply _| |].
      + apply preserves_mbind; [apply _|apply preserves_gets; apply _|].
        intros roots. destruct (Treeview.delete roots _);
          [apply ui_set_tree | apply preserves_raise; apply _].
      + intros _.
        apply preserves_mbind; [apply _|apply frame_insert_root_groups; apply _|].
        intros _. apply frame_set_status; apply _.
    - intros e.
      apply preserves_mbind; [apply _|apply frame_log; apply _|]. intros _.
      apply preserves_mbind; [apply _|apply frame_showerror; apply _|]. intros _.
      apply frame_set_status; apply _. }
  exists cs. apply new_calls_app. cbn [calls set_cur_thread]. rewrite Hcs. st_simpl.
  by rewrite <- !app_assoc.
Qed.

End Populate.

(** C7, as the code has it. [populate_groups] does not keep its Tk calls on
    the main loop. Without a client it makes one call, the error box, on
    the thread that called it. With a client every Tk call of the run is
    made by the one-shot thread of the task, the first being the status
    line, and when [list_groups] returns that thread itself reads and
    deletes the items of the tree. A call of [log] makes no Tk call: it
    puts the line at the end of the queue; the worker takes the first line
    off the queue and writes it into the log widget from its own
    thread. *)
Theorem tree_touched_by_task_thread E fuel s :
  (client s = None ->
     new_calls s (populate_groups E fuel s).2
     = [(cur_thread s, ShowError (lit "Lỗi") (lit "Bạn cần đăng nhập trước"))])
  /\ (forall c, client s = Some c ->
        (exists rest,
           new_calls s (populate_groups E fuel s).2
           = (ActionThread, StatusSet (lit "Tải groups...")) :: rest
           /\ Forall (fun x => x.1 = ActionThread) rest)
        /\ forall l w',
             GitLabClient.list_groups E fuel c (outside s) = (Return l, w') ->
             (ActionThread, TreeGetChildren []) ∈ new_calls s (populate_groups E fuel s).2
             /\ (ActionThread, TreeDelete (Treeview.node_iid <$> tree s))
                ∈ new_calls s (populate_groups E fuel s).2)
  /\ (forall text,
        new_calls s (log E text s).2 = []
        /\ log_queue (log E text s).2
           = log_queue s ++ [lit "[" ++ strftime E ++ lit "] " ++ text])
  /\ (forall line q,
        log_queue s = line :: q ->
        new_calls s (log_worker_step s).2 = [(LogWorker, LogAreaInsert line)]
        /\ log_queue (log_worker_step s).2 = q
        /\ log_area (log_worker_step s).2
           = log_area s ++ line ++ lit (String (Ascii.ascii_of_nat 10) "")).
Proof.
  split; [|split; [|split]].
  - intros Hc. unfold populate_groups. unfold mbind at 1, M_bind, bind, gets. rewrite Hc.
    by apply new_calls_app.
  - intros c Hc. split.
    + unfold populate_groups. unfold mbind at 1, M_bind, bind, gets. rewrite Hc.
      unfold spawn. rewrite on_thread_state.
      destruct (tagged_populate_groups_task E fuel (set_cur_thread ActionThread s))
        as (_ & cs & Hcs & Hall).
      assert (Hfirst : exists s0,
                calls (populate_groups_task E fuel (set_cur_thread ActionThread s)).2
                = (calls s ++ [(ActionThread, StatusSet (lit "Tải groups..."))]) ++ s0).
      { unfold populate_groups_task.
        erewrite try_except_step; [|reflexivity].
        match goal with
        | |- context [try_except ?m ?h ?s0] =>
            assert (Hrest : preserves made_by_current (try_except m h));
            [|destruct (made_by_current_calls _ _ (Hrest s0)) as (cs0 & Hcs0 & _)]
        end.
        { apply preserves_try_except; [apply _| |].
          - apply preserves_mbind; [apply _|apply preserves_gets; apply _|]. intros c0.
            apply preserves_mbind; [apply _| |].
            { destruct c0; [apply tagged_in_world|apply preserves_raise; apply _]. }
            intros groups.
            apply preserves_mbind; [apply _| |].
            { intros s1. by apply made_by_current_quiet. }
            intros _. apply preserves_mbind; [apply _|apply frame_log; apply _|]. intros _.
            apply preserves_mbind; [apply _|apply frame_tree_get_children; apply _|].
            intros cs1.
            apply preserves_mbind; [apply _|apply frame_tree_delete; apply _|]. intros _.
            apply preserves_mbind; [apply _|apply frame_insert_root_groups; apply _|].
            intros _. apply frame_set_status; apply _.
          - intros e.
            apply preserves_mbind; [apply _|apply frame_log; apply _|]. intros _.
            apply preserves_mbind; [apply _|apply frame_showerror; apply _|]. intros _.
            apply frame_set_status; apply _. }
        exists cs0. rewrite Hcs0. by st_simpl. }
      destruct Hfirst as (s0 & Hfirst).
      cbn [calls set_cur_thread] in Hcs. rewrite Hcs in Hfirst.
      rewrite <- app_assoc in Hfirst. apply app_inv_head in Hfirst. subst cs.
      exists s0. split.
      * apply new_calls_app. by st_simpl.
      * by apply Forall_cons_1 in Hall as [_ ?].
    + intros l w' Hl.
      destruct (populate_groups_calls E fuel s c l w' Hc Hl) as (rest & ->).
      split; [apply list_elem_of_further, list_elem_of_here|].
      do 2 apply list_elem_of_further. apply list_elem_of_here.
  - intros text. split; [|done]. unfold log, modify. cbn [snd].
    unfold new_calls. st_simpl. by rewrite drop_all.
  - intros line q Hq. unfold log_worker_step. rewrite Hq. cbn [snd]. st_simpl.
    split; [|done]. by apply new_calls_app.
Qed.

End AppFacts2.

Module AppInstances2.
Import GitLabGUIApp AppSpec AppSpec2 Readings2 AppFacts AppFacts2 Demo Demo2 Demo3.

Lemma populate_groups_empty_calls :
  new_calls state1 (populate_groups (env_pages 0) 5 state1).2
  = [(ActionThread, StatusSet (lit "Tải groups..."));
     (ActionThread, TreeGetChildren []);
     (ActionThread, TreeDelete []);
     (ActionThread, StatusSet (lit "Hoàn thành tải groups"))].
Proof. vm_compute. reflexivity. Qed.

(** An instance of C7: a logged-in application refreshes its tree against
    a server without groups, and the worker writes the line that [log] put
    on the queue. *)
Lemma tree_touched_by_task_thread_witness :
  let E := env_pages 0 in
  let queued := (log E (lit "hello") state1).2 in
  client state1 = Some client0
  /\ (exists rest,
        new_calls state1 (populate_groups E 5 state1).2
        = (ActionThread, StatusSet (lit "Tải groups...")) :: rest
        /\ Forall (fun x => x.1 = ActionThread) rest)
  /\ (ActionThread, TreeGetChildren []) ∈ new_calls state1 (populate_groups E 5 state1).2
  /\ log_queue queued = [lit "[2025-01-01 12:00:00] hello"]
  /\ new_calls queued (log_worker_step queued).2
     = [(LogWorker, LogAreaInsert (lit "[2025-01-01 12:00:00] hello"))].
Proof.
  intros E queued.
  assert (H1 : client state1 = Some client0) by reflexivity.
  assert (H2 : GitLabClient.list_groups E 5 client0 (outside state1)
               = (Return [], (GitLabClient.list_groups E 5 client0 (outside state1)).2))
    by (vm_compute; reflexivity).
  assert (H3 : log_queue queued = [lit "[2025-01-01 12:00:00] hello"])
    by (vm_compute; reflexivity).
  destruct (tree_touched_by_task_thread E 5 state1) as (_ & Ha & _).
  destruct (Ha client0 H1) as (Hfirst & Htree).
  destruct (Htree _ _ H2) as (Hget & _).
  destruct (tree_touched_by_task_thread E 5 queued) as (_ & _ & _ & Hw).
  destruct (Hw _ _ H3) as (Hcall & _).
  split; [exact H1|]. split; [exact Hfirst|]. split; [exact Hget|].
  split; [exact H3|exact Hcall].
Defined.

(** C7 as the specification words it fails: started from the main loop,
    [populate_groups] has its task thread delete the items of the tree. *)
Lemma tree_on_main_loop_only_counterexample : ~ tree_on_main_loop_only (env_pages 0).
Proof.
  intros H.
  specialize (H 5%nat state1 ActionThread (TreeDelete []) eq_refl).
  rewrite populate_groups_empty_calls in H.
  assert (Hin : ActionThread = MainThread); [|discriminate Hin].
  apply H; [|exact I].
  do 2 apply list_elem_of_further. apply list_elem_of_here.
Qed.

End AppInstances2.

(** ** The cache *)
Module CacheFacts.
Import GitLabGUIApp AppSpec AppSpec2 UiFrames AppFacts AppFacts2 Utf8Facts.

Lemma write_str_eq p c w :
  write_str p c w =
  match Utf8.encode c with
  | Some b => (Return tt, set_fs (fun m => <[p := default [] (m !! p) ++ b]> m) w)
  | None => (Raise (Exn UnicodeError (lit "'utf-8' codec can't encode character")), w)
  end.
Proof. unfold write_str. by destruct (Utf8.encode c). Qed.

(** Writing pieces one after the other leaves the UTF-8 bytes of their
    concatenation after what the file held. *)
Lemma write_chunks p chunks : forall w acc,
  fs w !! p = Some acc ->
  (for_each chunks (write_str p) w).1 = Return tt ->
  exists bs,
    Utf8.encode (concat chunks) = Some bs
    /\ fs (for_each chunks (write_str p) w).2 !! p = Some (acc ++ bs).
Proof.
  induction chunks as [|c chunks IH]; intros w acc Hacc; simpl.
  - intros _. exists []. split; [reflexivity|]. unfold ret. cbn [snd].
    rewrite app_nil_r. exact Hacc.
  - unfold mbind, M_bind, bind. rewrite write_str_eq.
    destruct (Utf8.encode c) as [b|] eqn:Hc; [|done].
    intros Hrest.
    edestruct (IH (set_fs (fun m => <[p := default [] (m !! p) ++ b]> m) w) (acc ++ b))
      as (bs & Hbs & Hfs); [|exact Hrest|].
    { cbn [fs set_fs]. rewrite lookup_insert_eq. by rewrite Hacc. }
    exists (b ++ bs). split; [by apply encode_app|]. by rewrite Hfs, app_assoc.
Qed.

#[global] Instance same_outside_frame : UiFrame same_outside.
Proof.
  split; [split|..].
  - by intros s.
  - intros s1 s2 s3 H1 H2. unfold same_outside in *. congruence.
  - by intros c s.
  - by intros roots s.
  - by intros text s.
  - by intros f s.
Qed.

Lemma bind_return_inv {S A B} (m : M S A) (k : A -> M S B) s b :
  ((m ≫= k) s).1 = Return b ->
  exists a s1, m s = (Return a, s1) /\ (k a s1).1 = Return b.
Proof.
  unfold mbind, M_bind, bind. destruct (m s) as [[a|e|] s1]; try done. eauto.
Qed.

Lemma bind_return_state {S A B} (m : M S A) (k : A -> M S B) s a s1 :
  m s = (Return a, s1) -> (m ≫= k) s = k a s1.
Proof. intros H. unfold mbind, M_bind, bind. by rewrite H. Qed.

Lemma try_except_return {S A} (m : M S A) h s a :
  (m s).1 = Return a -> try_except m h s = m s.
Proof. unfold try_except. by destruct (m s) as [[?|?|] ?]. Qed.

Section Cache.
Context (E : env).

(** After a [save_cache] whose [try] block went through, the cache file
    holds the UTF-8 bytes of the document [json.dump] wrote for the three
    attributes. *)
Lemma save_cache_file s :
  (save_cache_try E s).1 = Return tt ->
  exists bs,
    Utf8.encode (concat (json_dump_chunks E (cache_data s))) = Some bs
    /\ fs (outside (save_cache E s).2) !! CACHE_FILE E = Some bs.
Proof.
  intros Htry. unfold save_cache. rewrite (try_except_return _ _ _ _ Htry).
  unfold save_cache_try in *.
  apply bind_return_inv in Htry as (data & s1 & Hdata & Htry).
  unfold gets in Hdata. injection Hdata as <- <-.
  rewrite (bind_return_state (gets cache_data) _ s (cache_data s) s eq_refl).
  apply bind_return_inv in Htry as ([] & s2 & Hwrite & Htry).
  rewrite (bind_return_state _ _ _ _ _ Hwrite).
  assert (Hout : outside (( log E (lit "Lưu cache vào " ++ CACHE_FILE E) ;;
                            showinfo (lit "Đã lưu") (lit "Cache đã lưu")) s2).2 = outside s2).
  { eapply (preserves_mbind same_outside); [apply frame_log; apply _|].
    intros _. apply frame_showinfo; apply _. }
  rewrite Hout. clear Htry Hout.
  unfold in_world, zoom in Hwrite.
  destruct ((open_w (CACHE_FILE E) ;; for_each _ _) (outside s)) as [o w2] eqn:Hw.
  injection Hwrite as -> <-. cbn [outside set_outside].
  assert (Hw1 : ((open_w (CACHE_FILE E) ;;
                  for_each (json_dump_chunks E (cache_data s)) (write_str (CACHE_FILE E)))
                   (outside s)).1 = Return tt) by (by rewrite Hw).
  apply bind_return_inv in Hw1 as ([] & w1 & Hopen & Hchunks).
  rewrite (bind_return_state _ _ _ _ _ Hopen) in Hw.
  destruct (write_chunks (CACHE_FILE E) (json_dump_chunks E (cache_data s)) w1 [])
    as (bs & Hbs & Hfs); [|exact Hchunks|].
  { unfold open_w, modify in Hopen. injection Hopen as <-.
    cbn [fs set_fs add_io]. apply lookup_insert_eq. }
  exists bs. split; [done|]. by rewrite Hw in Hfs.
Qed.


Lemma json_load_eq p s bs txt v :
  fs (outside s) !! p = Some bs -> Utf8.decode bs = Some txt ->
  json_loads E (universal_newlines txt) = Some v ->
  json_load E p s = (Return v, set_outside (outside s) s).
Proof.
  intros Hfs Hdec Hv. unfold json_load, in_world, zoom, read_str, read_bytes. msimpl.
  rewrite Hfs. msimpl. rewrite Hdec. msimpl. by rewrite Hv.
Qed.

Lemma cache_data_lookup g lp ls :
  let m := [(lit "groups", g); (lit "last_parent", lp); (lit "last_subgroup", ls)] in
  dict_lookup (lit "groups") m = Some g
  /\ dict_lookup (lit "last_parent") m = Some lp
  /\ dict_lookup (lit "last_subgroup") m = Some ls.
Proof. vm_compute. done. Qed.

(** [_load_cache] takes the three attributes from the document in the
    cache file; what it does to the tree afterwards does not change them,
    also when it fails. *)
Lemma load_cache_fields s bs txt g lp ls :
  fs (outside s) !! CACHE_FILE E = Some bs ->
  Utf8.decode bs = Some txt ->
  json_loads E (universal_newlines txt)
  = Some (JObj [(lit "groups", g); (lit "last_parent", lp); (lit "last_subgroup", ls)]) ->
  _all_groups (_load_cache E s).2 = g
  /\ last_parent_name (_load_cache E s).2 = lp
  /\ last_subgroup_name (_load_cache E s).2 = ls.
Proof.
  intros Hfs Hdec Hv.
  destruct (cache_data_lookup g lp ls) as (Hg & Hlp & Hls). cbn zeta in *.
  unfold _load_cache.
  erewrite bind_return_state.
  2:{ unfold in_world, zoom, path_exists, gets. rewrite bool_decide_true by eauto.
      reflexivity. }
  cbn beta iota.
  erewrite try_except_step; [|by eapply json_load_eq].
  erewrite try_except_step; [|unfold py_get; rewrite Hg; reflexivity].
  erewrite try_except_step; [|reflexivity].
  erewrite try_except_step; [|unfold py_get; rewrite Hlp; reflexivity].
  erewrite try_except_step; [|reflexivity].
  erewrite try_except_step; [|unfold py_get; rewrite Hls; reflexivity].
  erewrite try_except_step; [|reflexivity].
  match goal with
  | |- context [try_except ?m ?h ?s0] =>
      assert (Hrest : preserves same_cached (try_except m h));
      [|destruct (Hrest s0) as (-> & -> & ->); by st_simpl]
  end.
  apply preserves_try_except; [apply _| |].
  - apply preserves_mbind; [apply _|apply frame_log; apply _|]. intros _.
    apply preserves_mbind; [apply _|apply frame_tree_get_children; apply _|]. intros cs.
    apply preserves_mbind; [apply _|apply frame_tree_delete; apply _|]. intros _.
    apply preserves_mbind; [apply _|apply preserves_gets; apply _|]. intros ag.
    apply preserves_mbind; [apply _|apply preserves_py_iter; apply _|]. intros groups.
    apply frame_insert_root_groups; apply _.
  - intros e. apply frame_log; apply _.
Qed.

(** C3. The cache file holds the document written for the group list and
    the two last-used names, and nothing else; and when [save_cache] went
    through and the json library reads back the document it wrote (from
    the text a file read in text mode hands over), a later [_load_cache]
    that finds the file as it was left sets [_all_groups],
    [last_parent_name] and [last_subgroup_name] to the saved values. *)
Theorem cache_round_trip s s2 :
  (save_cache_try E s).1 = Return tt ->
  json_loads E (universal_newlines (concat (json_dump_chunks E (cache_data s))))
  = Some (cache_data s) ->
  fs (outside s2) !! CACHE_FILE E = fs (outside (save_cache E s).2) !! CACHE_FILE E ->
  (exists bs,
     Utf8.encode
       (concat (json_dump_chunks E
                  (JObj [(lit "groups", _all_groups s);
                         (lit "last_parent", last_parent_name s);
                         (lit "last_subgroup", last_subgroup_name s)]))) = Some bs
     /\ fs (outside (save_cache E s).2) !! CACHE_FILE E = Some bs)
  /\ _all_groups (_load_cache E s2).2 = _all_groups s
  /\ last_parent_name (_load_cache E s2).2 = last_parent_name s
  /\ last_subgroup_name (_load_cache E s2).2 = last_subgroup_name s.
Proof.
  intros Hsave Hjson Hfile.
  destruct (save_cache_file s Hsave) as (bs & Hbs & Hfs).
  split; [by exists bs|].
  rewrite Hfs in Hfile.
  eapply load_cache_fields; [exact Hfile|by eapply decode_encode|exact Hjson].
Qed.

End Cache.
End CacheFacts.

(** ** Sorting *)
Module SortFacts.
Import GitLabGUIApp TreeSpec.

Lemma str_le_cons x a y b :
  str_le (x :: a) (y :: b) = true <-> x < y \/ (x = y /\ str_le a b = true).
Proof.
  simpl. rewrite orb_true_iff, andb_true_iff, Z.ltb_lt, Z.eqb_eq. done.
Qed.

Lemma str_le_refl a : str_le a a = true.
Proof. induction a as [|x a IH]; [done|]. apply str_le_cons. by right. Qed.

Lemma str_le_total a b : str_le a b = false -> str_le b a = true.
Proof.
  revert b. induction a as [|x a IH]; intros [|y b]; try done.
  intros H. apply str_le_cons.
  destruct (Z.lt_trichotomy x y) as [Hlt|[->|Hgt]].
  - assert (str_le (x :: a) (y :: b) = true) by (apply str_le_cons; by left). congruence.
  - right. split; [done|]. apply IH.
    destruct (str_le a b) eqn:Hab; [|done].
    assert (str_le (y :: a) (y :: b) = true) by (apply str_le_cons; by right). congruence.
  - by left.
Qed.

Lemma str_le_trans a b c : str_le a b = true -> str_le b c = true -> str_le a c = true.
Proof.
  revert b c. induction a as [|x a IH]; intros [|y b] [|z c]; try done.
  rewrite !str_le_cons. intros [Hxy|[-> Hab]] [Hyz|[-> Hbc]].
  - left. lia.
  - by left.
  - by left.
  - right. split; [done|]. by eapply IH.
Qed.

Section Sort.
Context {A : Type}.

Lemma insert_by_key_perm k (x : A) l : insert_by_key k x l ≡ₚ (k, x) :: l.
Proof.
  induction l as [|[k' y] l IH]; simpl; [done|].
  destruct (str_le k k'); [done|]. rewrite IH. apply Permutation_swap.
Qed.

Lemma sort_keyed_perm (l : list (list Z * A)) : sort_keyed l ≡ₚ l.
Proof.
  induction l as [|[k x] l IH]; simpl; [done|].
  by rewrite insert_by_key_perm, IH.
Qed.

Lemma insert_by_key_sorted k (x : A) l :
  StronglySorted key_le l -> StronglySorted key_le (insert_by_key k x l).
Proof.
  induction 1 as [|[k' y] l Hl IH Hall]; simpl.
  - repeat constructor.
  - destruct (str_le k k') eqn:Hk.
    + constructor; [by constructor|]. constructor; [done|].
      eapply list.Forall_impl; [exact Hall|]. intros [k'' z] Hz.
      unfold key_le in *. simpl in *. by eapply str_le_trans.
    + constructor; [done|].
      rewrite insert_by_key_perm. constructor; [|done].
      unfold key_le. simpl. by apply str_le_total.
Qed.

Lemma sort_keyed_sorted (l : list (list Z * A)) : StronglySorted key_le (sort_keyed l).
Proof.
  induction l as [|[k x] l IH]; simpl; [constructor|]. by apply insert_by_key_sorted.
Qed.

(** Sorting is stable: the items of one key keep their order. *)
Lemma insert_by_key_filter k0 k (x : A) l :
  List.filter (fun p : list Z * A => bool_decide (p.1 = k0)) (insert_by_key k x l)
  = List.filter (fun p : list Z * A => bool_decide (p.1 = k0)) ((k, x) :: l).
Proof.
  induction l as [|[k' y] l IH]; [done|].
  cbn [insert_by_key]. destruct (str_le k k') eqn:Hk; [done|].
  assert (Hne : k' <> k) by (intros ->; by rewrite str_le_refl in Hk).
  cbn [List.filter fst] in *. rewrite IH.
  destruct (decide (k = k0)) as [->|Hk0].
  - rewrite (bool_decide_false (k' = k0)) by done. done.
  - rewrite (bool_decide_false (k = k0)) by done. done.
Qed.

Lemma sort_keyed_filter k0 (l : list (list Z * A)) :
  List.filter (fun p : list Z * A => bool_decide (p.1 = k0)) (sort_keyed l)
  = List.filter (fun p : list Z * A => bool_decide (p.1 = k0)) l.
Proof.
  induction l as [|[k x] l IH]; [done|].
  cbn [sort_keyed]. rewrite insert_by_key_filter. cbn [List.filter]. by rewrite IH.
Qed.

Lemma filter_fmap_snd (key : A -> list Z) k0 (l : list (list Z * A)) :
  Forall (fun p => p.1 = key p.2) l ->
  List.filter (fun x => bool_decide (key x = k0)) (l.*2)
  = (List.filter (fun p : list Z * A => bool_decide (p.1 = k0)) l).*2.
Proof.
  induction 1 as [|[k x] l Hk _ IH]; [done|]. simpl in Hk. subst k.
  rewrite fmap_cons. cbn [List.filter fst snd].
  destruct (bool_decide (key x = k0)); [rewrite fmap_cons|]; by rewrite IH.
Qed.

(** What [sorted] returns for keys given by a function: a rearrangement of
    the items, in ascending order of key, the items of one key in the order
    they had. *)
Lemma sort_by_key (key : A -> list Z) (l : list A) :
  let ordered := (sort_keyed (zip (key <$> l) l)).*2 in
  ordered ≡ₚ l
  /\ StronglySorted (fun a b => str_le (key a) (key b) = true) ordered
  /\ forall k0, List.filter (fun x => bool_decide (key x = k0)) ordered
               = List.filter (fun x => bool_decide (key x = k0)) l.
Proof.
  cbn zeta.
  assert (Hzip : zip (key <$> l) l = (fun x => (key x, x)) <$> l).
  { induction l as [|x l IH]; [done|]. rewrite !fmap_cons. cbn [zip_with]. by f_equal. }
  rewrite Hzip.
  assert (Hkeys0 : Forall (fun p : list Z * A => p.1 = key p.2) ((fun x => (key x, x)) <$> l)).
  { apply Forall_fmap. by apply Forall_true. }
  assert (Hkeys : Forall (fun p : list Z * A => p.1 = key p.2)
                    (sort_keyed ((fun x => (key x, x)) <$> l))).
  { by rewrite sort_keyed_perm. }
  assert (Hsnd : ((fun x => (key x, x)) <$> l).*2 = l).
  { rewrite <- list_fmap_compose. apply list_fmap_id. }
  split; [|split].
  - by rewrite sort_keyed_perm, Hsnd.
  - pose proof (sort_keyed_sorted ((fun x => (key x, x)) <$> l)) as Hs.
    induction Hs as [|p l' Hl' IH Hall]; simpl; [constructor|].
    apply Forall_cons_1 in Hkeys as [Hp Hkeys].
    constructor; [by apply IH|].
    apply Forall_fmap.
    pose proof (proj2 (Forall_and _ _) (conj Hall Hkeys)) as Hboth.
    eapply list.Forall_impl; [exact Hboth|]. intros q [Hq1 Hq2].
    unfold key_le in Hq1. simpl. by rewrite <- Hp, <- Hq2.
  - intros k0. rewrite (filter_fmap_snd key k0 _ Hkeys), sort_keyed_filter.
    by rewrite <- (filter_fmap_snd key k0 _ Hkeys0), Hsnd.
Qed.

End Sort.
End SortFacts.

(** ** The tree *)
Module TreeFacts.
Import GitLabGUIApp TreeSpec AppSpec AppSpec2 UiFrames AppFacts AppFacts2 CacheFacts SortFacts.
Import Treeview.

Lemma node_iid_prune i n : node_iid (prune i n) = node_iid n.
Proof. by destruct n. Qed.

Lemma node_iid_in_iids n : node_iid n ∈ iids n.
Proof. destruct n. simpl. apply list_elem_of_here. Qed.

Lemma root_iid_in_all roots n : n ∈ roots -> node_iid n ∈ all_iids roots.
Proof.
  intros Hn. unfold all_iids. apply list_elem_of_In, in_flat_map.
  exists n. split; [by apply list_elem_of_In|]. apply list_elem_of_In, node_iid_in_iids.
Qed.

Lemma foldl_remove_all l : forall roots,
  (forall n, n ∈ roots -> node_iid n ∈ l) -> foldl remove roots l = [].
Proof.
  induction l as [|i l IH]; intros roots Hall; simpl.
  - destruct roots as [|n roots]; [done|].
    specialize (Hall n (list_elem_of_here _ _)). by apply elem_of_nil in Hall.
  - apply IH. intros n Hn. unfold remove in Hn.
    apply list_elem_of_In, filter_In in Hn as [Hn Hne].
    apply in_map_iff in Hn as (n0 & <- & Hn0).
    rewrite node_iid_prune in Hne |- *.
    apply negb_true_iff, bool_decide_eq_false in Hne.
    specialize (Hall n0 (proj2 (list_elem_of_In _ _) Hn0)).
    apply elem_of_cons in Hall as [?|?]; [congruence|done].
Qed.

(** Deleting the children of the root empties the tree. *)
Lemma delete_children_of_root roots :
  [] ∉ all_iids roots -> delete roots (node_iid <$> roots) = Some [].
Proof.
  intros Hroot. unfold delete.
  rewrite (proj2 (forallb_forall _ _)).
  - f_equal. apply foldl_remove_all. intros n Hn. by apply list_elem_of_fmap_2.
  - intros i Hi. apply list_elem_of_In, list_elem_of_fmap in Hi as (n & -> & Hn).
    apply andb_true_iff. split.
    + apply negb_true_iff, bool_decide_eq_false. intros Hnil. apply Hroot.
      rewrite <- Hnil. by apply root_iid_in_all.
    + apply bool_decide_eq_true. by apply root_iid_in_all.
Qed.

Lemma insert_at_root roots i t v :
  t <> JNull -> i <> [] -> i ∉ all_iids roots ->
  insert roots [] i t v = Some (roots ++ [Node i t v []]).
Proof.
  intros Ht Hi Hfresh.
  assert (H : (if exists_ roots i then None
               else if bool_decide (@nil Z = []) then Some (roots ++ [Node i t v []])
               else if bool_decide ([] ∈ all_iids roots)
                    then Some (List.map (add_child [] (Node i t v [])) roots)
               else None) = Some (roots ++ [Node i t v []])).
  { unfold exists_. rewrite (bool_decide_false (i = [])) by done.
    rewrite (bool_decide_false (i ∈ all_iids roots)) by done.
    by rewrite bool_decide_true. }
  unfold insert. by destruct t.
Qed.

Lemma insert_below roots p i t v :
  t <> JNull -> i <> [] -> i ∉ all_iids roots -> p <> [] -> p ∈ all_iids roots ->
  insert roots p i t v = Some (List.map (add_child p (Node i t v [])) roots).
Proof.
  intros Ht Hi Hfresh Hp Hin.
  assert (H : (if exists_ roots i then None
               else if bool_decide (p = []) then Some (roots ++ [Node i t v []])
               else if bool_decide (p ∈ all_iids roots)
                    then Some (List.map (add_child p (Node i t v [])) roots)
               else None) = Some (List.map (add_child p (Node i t v [])) roots)).
  { unfold exists_. rewrite (bool_decide_false (i = [])) by done.
    rewrite (bool_decide_false (i ∈ all_iids roots)) by done.
    rewrite (bool_decide_false (p = [])) by done.
    by rewrite bool_decide_true. }
  unfold insert. by destruct t.
Qed.

Section Roots.
Context (E : env).

Lemma all_iids_root_nodes l : all_iids (root_node E <$> l) = flat_map (root_iids E) l.
Proof.
  unfold all_iids. induction l as [|g l IH]; [done|].
  rewrite fmap_cons. cbn [flat_map]. rewrite IH. done.
Qed.

Lemma group_iid_nonempty g : group_iid E g <> [].
Proof.
  unfold group_iid. destruct (lit "group_") eqn:Hl; [by vm_compute in Hl|done].
Qed.

Lemma dummy_iid_nonempty g : group_iid E g ++ lit "_dummy" <> [].
Proof. intros H. apply app_eq_nil in H as [H _]. by apply group_iid_nonempty in H. Qed.

(** A new child for an item that is not among a root group's items leaves
    the root group's item alone. *)
Lemma add_child_other p new g :
  p ∉ root_iids E g -> add_child p new (root_node E g) = root_node E g.
Proof.
  intros Hp. unfold root_iids in Hp.
  apply not_elem_of_cons in Hp as [Hp1 Hp2].
  apply not_elem_of_cons in Hp2 as [Hp2 _].
  unfold root_node. cbn [add_child List.map].
  rewrite (bool_decide_false (group_iid E g = p)) by done.
  by rewrite (bool_decide_false (group_iid E g ++ lit "_dummy" = p)) by done.
Qed.


Lemma tree_insert_eq p i t v s roots' :
  Treeview.insert (tree s) p i t v = Some roots' ->
  tree_insert p i t v s
  = (Return tt, set_tree roots' (set_calls (calls s ++ [(cur_thread s, TreeInsert p i)]) s)).
Proof.
  intros H. unfold tree_insert, tk. msimpl. st_simpl. by rewrite H.
Qed.

(** One turn of the loop adds the item of its group after the items
    already there. *)
Lemma insert_root_group_step rg shown s :
  group_named rg ->
  tree s = root_node E <$> shown ->
  NoDup (flat_map (root_iids E) (shown ++ [rg])) ->
  exists s',
    insert_root_group E rg s = (Return tt, s')
    /\ tree s' = root_node E <$> (shown ++ [rg]).
Proof.
  intros [n Hname] Htree Hnodup.
  destruct rg as [| | | | |m]; try done. cbn [member] in Hname.
  rewrite flat_map_app in Hnodup. cbn [flat_map] in Hnodup. rewrite app_nil_r in Hnodup.
  apply NoDup_app in Hnodup as (_ & Hdisj & Hown).
  apply NoDup_cons in Hown as [Hne _].
  apply not_elem_of_cons in Hne as [Hne _].
  assert (Hf1 : group_iid E (JObj m) ∉ all_iids (tree s)).
  { rewrite Htree, all_iids_root_nodes. intros Hin. apply (Hdisj _ Hin).
    apply list_elem_of_here. }
  assert (Hf2 : group_iid E (JObj m) ++ lit "_dummy" ∉ all_iids (tree s)).
  { rewrite Htree, all_iids_root_nodes. intros Hin. apply (Hdisj _ Hin).
    apply list_elem_of_further, list_elem_of_here. }
  unfold insert_root_group. unfold py_get. msimpl.
  change (lit "group_" ++ py_str E (default JNull (dict_lookup (lit "id") m)))
    with (group_iid E (JObj m)).
  erewrite tree_insert_eq
    by (apply insert_at_root; [by rewrite Hname|apply group_iid_nonempty|done]).
  erewrite tree_insert_eq.
  2:{ st_simpl. apply insert_below.
      - done.
      - apply dummy_iid_nonempty.
      - unfold all_iids. rewrite flat_map_app. cbn [flat_map iids]. rewrite app_nil_r.
        intros [Hin|Hin]%elem_of_app; [done|].
        apply list_elem_of_singleton in Hin. by symmetry in Hin.
      - apply group_iid_nonempty.
      - unfold all_iids. rewrite flat_map_app. apply elem_of_app. right.
        apply list_elem_of_here. }
  eexists. split; [reflexivity|]. st_simpl.
  rewrite map_app. cbn [List.map add_child].
  rewrite bool_decide_true by done. rewrite fmap_app. f_equal.
  rewrite Htree. clear Htree Hf1 Hf2.
  induction shown as [|g shown IH]; [done|].
  rewrite fmap_cons. cbn [List.map]. cbn [flat_map] in Hdisj.
  rewrite add_child_other.
  - f_equal. apply IH. intros x Hx. apply Hdisj. apply elem_of_app. by right.
  - intros Hin. apply (Hdisj (group_iid E (JObj m))).
    + apply elem_of_app. by left.
    + apply list_elem_of_here.
Qed.

Lemma insert_root_group_loop todo : forall shown s,
  Forall group_named todo ->
  tree s = root_node E <$> shown ->
  NoDup (flat_map (root_iids E) (shown ++ todo)) ->
  exists s',
    for_each todo (insert_root_group E) s = (Return tt, s')
    /\ tree s' = root_node E <$> (shown ++ todo).
Proof.
  induction todo as [|rg todo IH]; intros shown s Hobj Htree Hnodup.
  - exists s. rewrite app_nil_r. done.
  - apply Forall_cons_1 in Hobj as [Hrg Hobj].
    destruct (insert_root_group_step rg shown s Hrg Htree) as (s1 & Hstep & Htree1).
    { rewrite (app_assoc shown [rg] todo) in Hnodup || rewrite cons_middle, app_assoc in Hnodup.
      rewrite flat_map_app in Hnodup. by apply NoDup_app in Hnodup as [? _]. }
    destruct (IH (shown ++ [rg]) s1 Hobj Htree1) as (s2 & Hloop & Htree2).
    { by rewrite <- app_assoc. }
    exists s2. cbn [for_each]. rewrite (bind_return_state _ _ _ _ _ Hstep).
    split; [done|]. by rewrite Htree2, <- app_assoc.
Qed.


Lemma tree_delete_eq items s roots' :
  Treeview.delete (tree s) items = Some roots' ->
  tree_delete items s
  = (Return tt, set_tree roots' (set_calls (calls s ++ [(cur_thread s, TreeDelete items)]) s)).
Proof.
  intros H. unfold tree_delete, tk. msimpl. st_simpl. by rewrite H.
Qed.

Lemma group_ok_obj g : group_ok g -> exists m, g = JObj m.
Proof. intros (m & -> & _). by exists m. Qed.

Lemma is_root_obj m (s : state) :
  is_root (JObj m) s = (Return (root_group (JObj m)), s).
Proof. reflexivity. Qed.

Lemma filter_is_root groups (s : state) :
  Forall group_ok groups ->
  filter_M is_root groups s = (Return (List.filter root_group groups), s).
Proof.
  induction 1 as [|g groups (m & -> & _) _ IH]; [done|].
  cbn [filter_M List.filter]. unfold bind at 1. rewrite is_root_obj.
  by rewrite (bind_return_state _ _ _ _ _ IH).
Qed.

Lemma name_key_obj g (s : state) :
  group_ok g -> name_key E g s = (Return (sort_key E g), s).
Proof.
  intros (m & -> & Hname). unfold name_key, sort_key, py_get, py_lower. cbn [member].
  destruct Hname as [->|[n ->]]; reflexivity.
Qed.

Lemma map_name_key groups (s : state) :
  Forall group_ok groups ->
  map_M (name_key E) groups s = (Return (sort_key E <$> groups), s).
Proof.
  induction 1 as [|g groups Hg _ IH]; [done|].
  cbn [map_M]. rewrite (bind_return_state _ _ _ _ _ (name_key_obj g s Hg)).
  by rewrite (bind_return_state _ _ _ _ _ IH).
Qed.

(** With groups it can handle and identifiers that do not clash, the loop
    shows the root groups in the order [sorted] gives them. *)
Lemma insert_root_groups_tree groups s :
  Forall group_ok groups ->
  Forall group_named (List.filter root_group groups) ->
  tree s = [] ->
  NoDup (flat_map (root_iids E) (List.filter root_group groups)) ->
  let roots := List.filter root_group groups in
  let ordered := (sort_keyed (zip (sort_key E <$> roots) roots)).*2 in
  exists s',
    insert_root_groups E groups s = (Return tt, s')
    /\ tree s' = root_node E <$> ordered.
Proof.
  intros Hok Hnamed Htree Hnodup roots ordered.
  assert (Hroots : Forall group_ok roots).
  { apply list.Forall_forall. intros g Hg. apply list_elem_of_In, filter_In in Hg as [Hg _].
    rewrite list.Forall_forall in Hok. by apply Hok, list_elem_of_In. }
  destruct (sort_by_key (sort_key E) roots) as (Hperm & _ & _). fold ordered in Hperm.
  destruct (insert_root_group_loop ordered [] s) as (s' & Hloop & Htree').
  - apply list.Forall_forall. intros g Hg. rewrite Hperm in Hg.
    rewrite list.Forall_forall in Hnamed. by apply Hnamed.
  - by rewrite Htree.
  - cbn [app]. by rewrite Hperm.
  - exists s'. split; [|done].
    unfold insert_root_groups.
    rewrite (bind_return_state _ _ _ _ _ (filter_is_root groups s Hok)).
    unfold sorted.
    rewrite (bind_return_state (map_M (name_key E) roots ≫= _) _ s ordered s).
    + exact Hloop.
    + by rewrite (bind_return_state _ _ _ _ _ (map_name_key roots s Hroots)).
Qed.

(** C4, as the code has it. When [list_groups] returns groups that are
    dicts with a str name (or none), the root groups among them all have a
    name, and the identifiers built from the ids of the root groups do not
    clash, [populate_groups] leaves as root items exactly the groups whose
    [parent_id] is absent or falsy (null, 0, false, empty), in ascending
    order of their lower-cased name, groups of the same lower-cased name in
    the order of the response; each item carries the group's name and id
    and one placeholder child. *)
Theorem populate_groups_shows_roots fuel s c groups w' :
  client s = Some c ->
  GitLabClient.list_groups E fuel c (outside s) = (Return groups, w') ->
  [] ∉ Treeview.all_iids (tree s) ->
  Forall group_ok groups ->
  Forall group_named (List.filter root_group groups) ->
  NoDup (flat_map (root_iids E) (List.filter root_group groups)) ->
  exists ordered,
    tree (populate_groups E fuel s).2 = root_node E <$> ordered
    /\ ordered ≡ₚ List.filter root_group groups
    /\ StronglySorted (by_name E) ordered
    /\ forall k, List.filter (fun g => bool_decide (sort_key E g = k)) ordered
                 = List.filter (fun g => bool_decide (sort_key E g = k))
                     (List.filter root_group groups).
Proof.
  intros Hc Hl Hroot Hok Hnamed Hnodup.
  destruct (sort_by_key (sort_key E) (List.filter root_group groups))
    as (Hperm & Hsorted & Hstable).
  eexists. split; [|split; [exact Hperm|split; [exact Hsorted|exact Hstable]]].
  unfold populate_groups. unfold mbind at 1, M_bind, bind, gets.
  rewrite Hc. unfold spawn. rewrite on_thread_state. cbn [tree set_cur_thread].
  unfold populate_groups_task.
  erewrite try_except_step; [|reflexivity].
  erewrite try_except_step; [|reflexivity]. st_simpl. rewrite Hc.
  erewrite try_except_step.
  2:{ unfold in_world, zoom. st_simpl. rewrite Hl. reflexivity. }
  erewrite try_except_step; [|reflexivity].
  erewrite try_except_step; [|reflexivity].
  erewrite try_except_step; [|reflexivity].
  erewrite try_except_step.
  2:{ apply tree_delete_eq. st_simpl. by apply delete_children_of_root. }
  match goal with
  | |- context [try_except _ _ ?s0] =>
      destruct (insert_root_groups_tree groups s0 Hok Hnamed eq_refl Hnodup)
        as (s1 & Hins & Htree)
  end.
  erewrite try_except_step; [|exact Hins].
  rewrite (try_except_return _ _ _ tt) by done.
  unfold set_status, tk. msimpl. st_simpl. exact Htree.
Qed.

End Roots.
End TreeFacts.

(** ** Instances and counterexamples for the application's tree and cache *)
Module TreeInstances.
Import GitLabGUIApp TreeSpec Readings3 AppSpec TreeFacts CacheFacts Demo Demo2 Demo3 Demo4.

(** C4 as the specification words it fails: a group whose [parent_id] is 0
    is shown as a root. *)
Lemma roots_are_parentless_counterexample :
  ~ roots_are_parentless (env_groups [zero_parent]).
Proof.
  intros H.
  assert (Hl : GitLabClient.list_groups (env_groups [zero_parent]) 5 client0 (outside state1)
               = (Return [zero_parent],
                  (GitLabClient.list_groups (env_groups [zero_parent]) 5 client0
                     (outside state1)).2))
    by (vm_compute; reflexivity).
  assert (Htree : tree (populate_groups (env_groups [zero_parent]) 5 state1).2
                  = [root_node (env_groups [zero_parent]) zero_parent])
    by (vm_compute; reflexivity).
  assert (Hok : Forall group_ok [zero_parent]).
  { repeat constructor. eexists. split; [reflexivity|]. right. eexists.
    vm_compute. reflexivity. }
  assert (Hnamed : Forall group_named (List.filter root_group [zero_parent])).
  { repeat constructor. eexists. vm_compute. reflexivity. }
  assert (Hnodup : NoDup (flat_map (root_iids (env_groups [zero_parent]))
                            (List.filter root_group [zero_parent]))).
  { apply (bool_decide_unpack _). vm_compute. exact I. }
  destruct (H 5%nat state1 client0 _ _ eq_refl Hl (not_elem_of_nil _) Hok Hnamed Hnodup
              (root_node (env_groups [zero_parent]) zero_parent))
    as (g & Hg & _ & Hp).
  - rewrite Htree. apply list_elem_of_here.
  - apply list_elem_of_singleton in Hg. subst g.
    destruct Hp as [Hp|Hp]; vm_compute in Hp; discriminate Hp.
Qed.

Lemma three_groups_ok : Forall group_ok three_groups.
Proof.
  repeat constructor; eexists; (split; [reflexivity|]); right; eexists;
    vm_compute; reflexivity.
Qed.

Lemma three_groups_roots_named : Forall group_named (List.filter root_group three_groups).
Proof. repeat constructor; eexists; vm_compute; reflexivity. Qed.

(** An instance of C4: two root groups, one of them with [parent_id] 0,
    and a subgroup. *)
Lemma populate_groups_shows_roots_witness :
  let E := env_groups three_groups in
  client state1 = Some client0
  /\ GitLabClient.list_groups E 5 client0 (outside state1)
     = (Return three_groups, (GitLabClient.list_groups E 5 client0 (outside state1)).2)
  /\ ([] ∉ Treeview.all_iids (tree state1))
  /\ Forall group_ok three_groups
  /\ Forall group_named (List.filter root_group three_groups)
  /\ NoDup (flat_map (root_iids E) (List.filter root_group three_groups))
  /\ exists ordered,
       tree (populate_groups E 5 state1).2 = root_node E <$> ordered
       /\ ordered ≡ₚ List.filter root_group three_groups
       /\ StronglySorted (by_name E) ordered
       /\ forall k, List.filter (fun g => bool_decide (sort_key E g = k)) ordered
                    = List.filter (fun g => bool_decide (sort_key E g = k))
                        (List.filter root_group three_groups).
Proof.
  intros E.
  assert (H1 : client state1 = Some client0) by reflexivity.
  assert (H2 : GitLabClient.list_groups E 5 client0 (outside state1)
               = (Return three_groups,
                  (GitLabClient.list_groups E 5 client0 (outside state1)).2))
    by (vm_compute; reflexivity).
  assert (H3 : [] ∉ Treeview.all_iids (tree state1)) by apply not_elem_of_nil.
  assert (H4 : Forall group_ok three_groups) by exact three_groups_ok.
  assert (H5 : NoDup (flat_map (root_iids E) (List.filter root_group three_groups))).
  { apply (bool_decide_unpack _). vm_compute. exact I. }
  assert (H6 : Forall group_named (List.filter root_group three_groups))
    by exact three_groups_roots_named.
  split; [exact H1|]. split; [exact H2|]. split; [exact H3|]. split; [exact H4|].
  split; [exact H6|]. split; [exact H5|].
  exact (populate_groups_shows_roots E 5 state1 client0 three_groups _ H1 H2 H3 H4 H6 H5).
Defined.

(** A root group without a name: the insertion of its item fails, the
    refresh ends in its [except] branch, and the tree stays empty. *)
Lemma nameless_root_group_fails :
  let E := env_groups [JObj [(lit "id", JNum 9)]] in
  tree (populate_groups E 5 state1).2 = []
  /\ status_var (populate_groups E 5 state1).2 = lit "Lỗi tải groups".
Proof. vm_compute. split; reflexivity. Qed.

(** What that instance shows: Alpha before beta. *)
Lemma three_groups_tree :
  Treeview.node_text <$> tree (populate_groups (env_groups three_groups) 5 state1).2
  = [JStr (lit "Alpha"); JStr (lit "beta")].
Proof. vm_compute. reflexivity. Qed.

End TreeInstances.

Module CacheInstances.
Import GitLabGUIApp TreeSpec AppSpec TreeFacts CacheFacts Demo Demo2 Demo3 Demo4.

(** An instance of C3: saved, then loaded by a fresh application that
    finds the file. *)
Lemma cache_round_trip_witness :
  let E := env_groups three_groups in
  let s2 := set_outside (outside (save_cache E saved_state).2) state0 in
  (save_cache_try E saved_state).1 = Return tt
  /\ json_loads E (universal_newlines
                     (concat (json_dump_chunks E (cache_data saved_state))))
     = Some (cache_data saved_state)
  /\ fs (outside s2) !! CACHE_FILE E
     = fs (outside (save_cache E saved_state).2) !! CACHE_FILE E
  /\ _all_groups (_load_cache E s2).2 = _all_groups saved_state
  /\ last_parent_name (_load_cache E s2).2 = last_parent_name saved_state
  /\ last_subgroup_name (_load_cache E s2).2 = last_subgroup_name saved_state.
Proof.
  intros E s2.
  assert (H1 : (save_cache_try E saved_state).1 = Return tt) by (vm_compute; reflexivity).
  assert (H2 : json_loads E (universal_newlines
                               (concat (json_dump_chunks E (cache_data saved_state))))
               = Some (cache_data saved_state)) by (vm_compute; reflexivity).
  assert (H3 : fs (outside s2) !! CACHE_FILE E
               = fs (outside (save_cache E saved_state).2) !! CACHE_FILE E) by reflexivity.
  split; [exact H1|]. split; [exact H2|]. split; [exact H3|].
  exact (proj2 (cache_round_trip E saved_state s2 H1 H2 H3)).
Defined.

End CacheInstances.

(** ** Where requests go *)
Module RequestFacts.
Import GitLabGUIApp ClientSpec ClientFacts ClientClaims AppSpec AppSpec2 UiFrames
  AppFacts AppFacts2 CacheFacts RequestSpec.

Section Requests.
Context (E : env).

#[global] Instance requests_ok_preorder : PreOrder (requests_ok E).
Proof.
  split.
  - intros s Hs. split; [done|]. exists []. by rewrite app_nil_r.
  - intros s1 s2 s3 H12 H23 H1.
    destruct (H12 H1) as (H2 & e1 & He1 & Hf1).
    destruct (H23 H2) as (H3 & e2 & He2 & Hf2).
    split; [done|]. exists (e1 ++ e2). split.
    + by rewrite He2, He1, app_assoc.
    + by apply Forall_app.
Qed.

(** A step that changes neither the client nor the log of exchanges. *)
Lemma requests_ok_quiet s s' :
  client s' = client s -> http_log (outside s') = http_log (outside s) ->
  requests_ok E s s'.
Proof.
  intros Hc Hl Hs. split.
  - intros c. rewrite Hc. apply Hs.
  - exists []. by rewrite app_nil_r.
Qed.

#[global] Instance requests_ok_frame : UiFrame (requests_ok E).
Proof. split; [apply _|..]; intros; intros s; by apply requests_ok_quiet. Qed.

Lemma requests_ok_in_world_quiet {A} (m : M world A) :
  (forall w, http_log (m w).2 = http_log w) ->
  preserves (requests_ok E) (in_world m).
Proof.
  intros Hm s. unfold in_world, zoom. specialize (Hm (outside s)).
  destruct (m (outside s)) as [r w]. by apply requests_ok_quiet.
Qed.

Lemma requests_ok_modify f :
  (forall s, client (f s) = client s /\ outside (f s) = outside s) ->
  preserves (requests_ok E) (modify f).
Proof.
  intros Hf s. destruct (Hf s) as [Hc Ho]. apply requests_ok_quiet; [done|].
  unfold modify. cbn [snd]. by rewrite Ho.
Qed.

(** Every exchange of a call of the client goes to an endpoint under the
    client's base URL. *)
Lemma run_extends fuel self c w :
  exists exs,
    (GitLabClient.run E fuel self c w).2 = extend_http exs w
    /\ Forall (to_endpoint (GitLabClient.base_url self)) exs.
Proof.
  assert (Hdec : c = GitLabClient.ListGroups \/ c <> GitLabClient.ListGroups)
    by (destruct c; auto).
  destruct Hdec as [->|Hc].
  - destruct (run_list_groups E fuel self w) as (exs & o & Hp & Heq).
    exists exs. rewrite Heq. split; [done|].
    apply paged_run_requests in Hp.
    apply list.Forall_forall. intros [rq r] Hin.
    assert (Hrq : rq ∈ exs.*1) by (by apply (list_elem_of_fmap_2 fst _ (rq, r))).
    rewrite Hp in Hrq. apply list_elem_of_fmap in Hrq as (n & -> & _).
    unfold to_endpoint. cbn [fst GitLabClient.page_request rq_url]. constructor.
  - destruct (run_single E fuel self c w Hc)
      as [(e & _ & Heq)|(_ & rq & Hep & Heq)].
    + exists []. rewrite Heq, extend_http_nil. by split.
    + eexists [_]. rewrite Heq. split; [done|]. by repeat constructor.
Qed.

Lemma client_call_requests_ok {A} (m : M world A) fuel c call :
  GitLabClient.base_url c = app_base E ->
  (forall w, (m w).2 = (GitLabClient.run E fuel c call w).2) ->
  preserves (requests_ok E) (in_world m).
Proof.
  intros Hbase Hm s Hs. unfold in_world, zoom. specialize (Hm (outside s)).
  destruct (m (outside s)) as [r w]. cbn [snd] in *. subst w.
  destruct (run_extends fuel c call (outside s)) as (exs & -> & Hexs).
  split; [done|]. exists exs. split; [done|]. by rewrite <- Hbase.
Qed.

Lemma test_requests_ok c :
  GitLabClient.base_url c = app_base E ->
  preserves (requests_ok E) (in_world (GitLabClient.test E c)).
Proof.
  intros Hbase. apply (client_call_requests_ok _ 0 c GitLabClient.Test Hbase).
  intros w. unfold GitLabClient.run, mbind, M_bind, bind.
  by destruct (GitLabClient.test E c w) as [[?|?|] ?].
Qed.

Lemma list_groups_requests_ok fuel c :
  GitLabClient.base_url c = app_base E ->
  preserves (requests_ok E) (in_world (GitLabClient.list_groups E fuel c)).
Proof.
  intros Hbase. apply (client_call_requests_ok _ fuel c GitLabClient.ListGroups Hbase).
  intros w. unfold GitLabClient.run, mbind, M_bind, bind.
  by destruct (GitLabClient.list_groups E fuel c w) as [[?|?|] ?].
Qed.

Lemma requests_ok_on_thread t task :
  preserves (requests_ok E) task -> preserves (requests_ok E) (on_thread t task).
Proof.
  intros Htask s Hs. rewrite on_thread_state.
  destruct (Htask (set_cur_thread t s) Hs) as (Hc & exs & Hexs & Hall).
  split; [done|]. by exists exs.
Qed.


#[global] Instance same_http_preorder : PreOrder same_http.
Proof.
  split; [by intros w|]. intros w1 w2 w3 H1 H2. unfold same_http in *. congruence.
Qed.

Lemma same_http_modify f :
  (forall w, http_log (f w) = http_log w) -> preserves same_http (modify f).
Proof. intros Hf w. apply Hf. Qed.

Lemma same_http_save_token t : preserves same_http (save_token E t).
Proof.
  unfold save_token. apply preserves_try_except; [apply _| |].
  - destruct (KEYRING_AVAILABLE E).
    + apply preserves_mbind; [apply _|by apply same_http_modify|].
      intros _. apply preserves_ret; apply _.
    + apply preserves_mbind; [apply _|by apply same_http_modify|]. intros _.
      apply preserves_mbind; [apply _| |].
      { unfold encode_utf8. destruct (Utf8.encode t);
          [apply preserves_ret|apply preserves_raise]; apply _. }
      intros bs. apply preserves_mbind; [apply _| |].
      { unfold decode_ascii. destruct (forallb _ _);
          [apply preserves_ret|apply preserves_raise]; apply _. }
      intros txt. apply preserves_mbind; [apply _| |].
      { unfold write_str. destruct (Utf8.encode txt);
          [by apply same_http_modify|apply preserves_raise; apply _]. }
      intros _. apply preserves_mbind; [apply _| |].
      { apply preserves_try_except; [apply _|apply preserves_ret; apply _|].
        intros _. apply preserves_ret; apply _. }
      intros _. apply preserves_ret; apply _.
  - intros e. apply preserves_mbind; [apply _|by apply same_http_modify|].
    intros _. apply preserves_ret; apply _.
Qed.

Lemma requests_ok_in_world_same {A} (m : M world A) :
  preserves same_http m -> preserves (requests_ok E) (in_world m).
Proof. intros Hm. apply requests_ok_in_world_quiet. apply Hm. Qed.

Lemma requests_ok_gets_client {B} (k : option GitLabClient.t -> M state B) :
  (forall c, (forall c0, c = Some c0 -> GitLabClient.base_url c0 = app_base E) ->
             preserves (requests_ok E) (k c)) ->
  preserves (requests_ok E) (gets client ≫= k).
Proof.
  intros Hk s Hs. unfold mbind, M_bind, bind, gets.
  apply Hk; [|done]. intros c0 Hc0. by apply Hs.
Qed.

Lemma init_base_url tok url :
  GitLabClient.base_url (GitLabClient.__init__ tok url) = rstrip_slash url.
Proof.
  unfold GitLabClient.__init__. destruct tok as [tk|]; [|done].
  by destruct (bool_decide (tk ≠ [])).
Qed.

Lemma requests_ok_spawn task :
  preserves (requests_ok E) task -> preserves (requests_ok E) (spawn task).
Proof. apply requests_ok_on_thread. Qed.

Lemma requests_ok_after task :
  preserves (requests_ok E) task -> preserves (requests_ok E) (after task).
Proof.
  intros Htask. unfold after. apply preserves_mbind; [apply _|apply ui_tk|].
  intros _. by apply requests_ok_on_thread.
Qed.

Lemma requests_ok_populate_groups_task fuel :
  preserves (requests_ok E) (populate_groups_task E fuel).
Proof.
  unfold populate_groups_task. apply preserves_try_except; [apply _| |].
  - apply preserves_mbind; [apply _|apply frame_set_status; apply _|]. intros _.
    apply requests_ok_gets_client. intros c Hc.
    apply preserves_mbind; [apply _| |].
    { destruct c as [c|]; [apply list_groups_requests_ok; by apply Hc
                          |apply preserves_raise; apply _]. }
    intros groups.
    apply preserves_mbind; [apply _|by apply requests_ok_modify|]. intros _.
    apply preserves_mbind; [apply _|apply frame_log; apply _|]. intros _.
    apply preserves_mbind; [apply _|apply frame_tree_get_children; apply _|]. intros cs.
    apply preserves_mbind; [apply _|apply frame_tree_delete; apply _|]. intros _.
    apply preserves_mbind; [apply _|apply frame_insert_root_groups; apply _|]. intros _.
    apply frame_set_status; apply _.
  - intros e.
    apply preserves_mbind; [apply _|apply frame_log; apply _|]. intros _.
    apply preserves_mbind; [apply _|apply frame_showerror; apply _|]. intros _.
    apply frame_set_status; apply _.
Qed.

Lemma requests_ok_populate_groups fuel :
  preserves (requests_ok E) (populate_groups E fuel).
Proof.
  unfold populate_groups. apply requests_ok_gets_client. intros [c|] _.
  - apply requests_ok_spawn, requests_ok_populate_groups_task.
  - apply frame_showerror; apply _.
Qed.

Lemma requests_ok_on_login fuel : preserves (requests_ok E) (on_login E fuel).
Proof.
  unfold on_login. apply preserves_mbind; [apply _|apply preserves_gets; apply _|].
  intros tv. destruct (bool_decide _); [apply frame_showerror; apply _|].
  destruct (negb _); [apply frame_showerror; apply _|].
  apply requests_ok_spawn. unfold on_login_task.
  apply preserves_try_except; [apply _| |].
  - apply preserves_mbind; [apply _|apply frame_set_status; apply _|]. intros _.
    apply preserves_mbind; [apply _| |].
    { apply test_requests_ok. apply init_base_url. }
    intros user. apply preserves_mbind; [apply _| |].
    { intros s Hs. split.
      - intros c [= <-]. exact (init_base_url (Some (strip tv)) (BASE_URL E)).
      - exists []. by rewrite app_nil_r. }
    intros _. apply preserves_mbind; [apply _|by apply requests_ok_modify|]. intros _.
    apply preserves_mbind; [apply _|by apply requests_ok_modify|]. intros _.
    apply preserves_mbind; [apply _|apply preserves_py_get; apply _|]. intros n.
    apply preserves_mbind; [apply _|apply frame_log; apply _|]. intros _.
    apply preserves_mbind; [apply _|apply preserves_py_get; apply _|]. intros n'.
    apply preserves_mbind; [apply _|apply frame_set_status; apply _|]. intros _.
    apply preserves_mbind; [apply _|apply preserves_gets; apply _|]. intros sv.
    apply preserves_mbind; [apply _| |].
    { destruct sv; [|apply preserves_ret; apply _].
      apply preserves_mbind; [apply _| |].
      - apply requests_ok_in_world_same, same_http_save_token.
      - intros [|]; [apply frame_log|apply preserves_ret]; apply _. }
    intros _. apply requests_ok_populate_groups.
  - intros e.
    apply preserves_mbind; [apply _|apply frame_log; apply _|]. intros _.
    apply preserves_mbind; [apply _|apply frame_showerror; apply _|]. intros _.
    apply frame_set_status; apply _.
Qed.


Lemma same_http_read_bytes p : preserves same_http (read_bytes p).
Proof. intros w. unfold read_bytes. by destruct (fs w !! p). Qed.

Lemma requests_ok_upload_post path timeout :
  preserves (requests_ok E) (upload_post E path timeout).
Proof.
  unfold upload_post.
  apply preserves_mbind; [apply _| |].
  { apply requests_ok_in_world_same, same_http_read_bytes. }
  intros data. apply requests_ok_gets_client. intros [c|] Hc;
    [|apply preserves_raise; apply _].
  apply preserves_mbind; [apply _|apply preserves_gets; apply _|].
  intros [pid|]; [|apply preserves_raise; apply _].
  apply preserves_mbind; [apply _| |].
  { destruct (bool_decide _); [|apply preserves_ret; apply _].
    apply requests_ok_after, ui_tk. }
  intros _ s Hs. unfold in_world, zoom. rewrite send_eq. cbn [snd].
  split; [done|]. eexists [_]. split; [done|].
  repeat constructor. unfold to_endpoint. cbn [fst rq_url].
  rewrite (Hc c eq_refl). constructor.
Qed.

Lemma requests_ok_upload_done r what tail :
  preserves (requests_ok E) (upload_done E r what tail).
Proof.
  unfold upload_done. destruct (GitLabClient.created r); [|apply preserves_raise; apply _].
  apply preserves_mbind; [apply _| |].
  { apply requests_ok_in_world_same. unfold GitLabClient.resp_json.
    destruct (json_body r); [apply preserves_ret|apply preserves_raise]; apply _. }
  intros res. apply preserves_mbind; [apply _|apply preserves_py_get; apply _|].
  intros u. apply preserves_mbind; [apply _|apply frame_log; apply _|].
  intros _. apply requests_ok_after, ui_tk.
Qed.

Lemma requests_ok_action_upload_file fn :
  preserves (requests_ok E) (action_upload_file E fn).
Proof.
  unfold action_upload_file.
  apply preserves_mbind; [apply _|apply preserves_gets; apply _|]. intros sel.
  destruct (negb sel); [apply frame_showerror; apply _|].
  destruct (negb _); [apply frame_showerror; apply _|].
  destruct (bool_decide _); [apply preserves_ret; apply _|].
  apply requests_ok_spawn. apply preserves_try_finally; [apply _| |].
  - apply preserves_try_except; [apply _| |].
    + apply preserves_mbind; [apply _|apply frame_set_status; apply _|]. intros _.
      apply preserves_mbind; [apply _|apply ui_tk|]. intros _.
      apply preserves_mbind; [apply _|apply requests_ok_upload_post|]. intros r.
      apply preserves_mbind; [apply _|apply ui_tk|]. intros _.
      apply preserves_mbind; [apply _|apply preserves_gets; apply _|]. intros pid.
      apply requests_ok_upload_done.
    + intros e. apply preserves_mbind; [apply _|apply frame_log; apply _|].
      intros _. apply frame_showerror; apply _.
  - apply frame_set_status; apply _.
Qed.

Lemma requests_ok_action_upload_folder folder :
  preserves (requests_ok E) (action_upload_folder E folder).
Proof.
  unfold action_upload_folder.
  apply preserves_mbind; [apply _|apply preserves_gets; apply _|]. intros sel.
  destruct (negb sel); [apply frame_showerror; apply _|].
  destruct (negb _); [apply frame_showerror; apply _|].
  destruct (bool_decide _); [apply preserves_ret; apply _|].
  apply preserves_try_except; [apply _| |].
  - apply preserves_mbind; [apply _| |].
    { apply requests_ok_in_world_same. by intros w. }
    intros files. destruct (zip_folder E files folder);
      [|apply preserves_raise; apply _].
    apply preserves_mbind; [apply _| |].
    { apply requests_ok_in_world_same.
      apply preserves_mbind; [apply _|by apply same_http_modify|].
      intros _. by apply same_http_modify. }
    intros _. apply requests_ok_spawn. apply preserves_try_finally; [apply _| |].
    + apply preserves_try_except; [apply _| |].
      * apply preserves_mbind; [apply _|apply frame_set_status; apply _|]. intros _.
        apply preserves_mbind; [apply _|apply ui_tk|]. intros _.
        apply preserves_mbind; [apply _|apply requests_ok_upload_post|]. intros r.
        apply preserves_mbind; [apply _|apply ui_tk|]. intros _.
        apply requests_ok_upload_done.
      * intros e. apply preserves_mbind; [apply _|apply frame_log; apply _|].
        intros _. apply frame_showerror; apply _.
    + apply frame_set_status; apply _.
  - intros e. apply frame_showerror; apply _.
Qed.

Lemma requests_ok_handle h : preserves (requests_ok E) (handle E h).
Proof.
  destruct h; cbn [handle].
  - apply requests_ok_on_login.
  - apply requests_ok_populate_groups.
  - apply requests_ok_action_upload_file.
  - apply requests_ok_action_upload_folder.
Qed.

(** C5. Every request goes to one of the eight endpoints: those of a call
    of the client lie under the client's base URL, and those of a handler
    of the application (login, filling the tree, the two uploads, which
    post on their own) lie under the base URL the application gives its
    clients. *)
Theorem requests_target_endpoints :
  (forall fuel self c w,
     Forall (to_endpoint (GitLabClient.base_url self))
       (new_exchanges w (GitLabClient.run E fuel self c w).2))
  /\ (forall h s,
        client_ok E s ->
        Forall (to_endpoint (app_base E))
          (new_exchanges (outside s) (outside (handle E h s).2))).
Proof.
  split.
  - intros fuel self c w. destruct (run_extends fuel self c w) as (exs & -> & Hexs).
    by rewrite new_exchanges_extend.
  - intros h s Hs. destruct (requests_ok_handle h s Hs) as (_ & exs & Hlog & Hexs).
    unfold new_exchanges. by rewrite Hlog, drop_app_length.
Qed.

End Requests.
End RequestFacts.

Module RequestInstances.
Import GitLabGUIApp ClientSpec AppSpec RequestSpec RequestFacts Demo Demo2 Demo3 Demo4.

(** An instance of C5: a refresh of the tree by a logged-in application. *)
Lemma requests_target_endpoints_witness :
  let E := env_groups three_groups in
  client_ok E state1
  /\ Forall (to_endpoint (app_base E))
       (new_exchanges (outside state1) (outside (handle E (PopulateGroups 5) state1).2)).
Proof.
  intros E.
  assert (H : client_ok E state1).
  { intros c Hc. injection Hc as <-. vm_compute. reflexivity. }
  split; [exact H|].
  exact (proj2 (requests_target_endpoints E) (PopulateGroups 5) state1 H).
Defined.

(** The one request of that refresh: page 1 of the groups. *)
Lemma refresh_requests :
  rq_url <$> (new_exchanges (outside state1)
                (outside (handle (env_groups three_groups) (PopulateGroups 5) state1).2)).*1
  = [lit "https://git.rikkei.edu.vn/api/v4/groups"].
Proof. vm_compute. reflexivity. Qed.

End RequestInstances.

Module TokenStore.
Import Utf8Facts Base64Facts TokenFacts.

(** X1. With the keyring, the token goes into the keyring as it is and
    never into a file: [save_token] succeeds and leaves the file system
    alone, [load_token] gives the token back, and after
    [delete_saved_token] there is nothing left to load. *)
Theorem keyring_round_trip E t w :
  KEYRING_AVAILABLE E = true ->
  let w1 := (save_token E t w).2 in
  let w2 := (delete_saved_token E w1).2 in
  (save_token E t w).1 = Return true
  /\ fs w1 = fs w
  /\ load_token E w1 = (Return (Some t), w1)
  /\ (delete_saved_token E w1).1 = Return true
  /\ keyring_pw w2 = None
  /\ fs w2 !! TOKEN_FILE_FALLBACK E = None
  /\ load_token E w2 = (Return None, w2).
Proof.
  intros Hk. cbn zeta.
  unfold save_token, load_token, delete_saved_token. rewrite Hk.
  unfold keyring_set_password, keyring_get_password, keyring_delete_password,
    path_exists, os_remove.
  msimpl. cbn [fst snd keyring_pw set_keyring_pw add_io fs].
  split; [done|]. split; [done|]. split; [done|].
  destruct (fs w !! TOKEN_FILE_FALLBACK E) as [old|] eqn:Hold.
  - rewrite bool_decide_true by eauto. msimpl. cbn [fs set_keyring_pw add_io].
    rewrite Hold. cbn [fst snd keyring_pw set_fs fs add_io set_keyring_pw].
    split; [done|]. split; [done|]. split; [apply lookup_delete_eq|]. done.
  - rewrite bool_decide_false by (by intros [? ?]). msimpl.
    cbn [fst snd keyring_pw set_fs fs add_io set_keyring_pw].
    split; [done|]. split; [done|]. split; [done|]. done.
Qed.

Lemma keyring_round_trip_witness :
  let E := Demo.env_of true (Demo.paged_api (Demo.two_pages 0)) in
  let t := lit "glpat-abc" in
  KEYRING_AVAILABLE E = true
  /\ (save_token E t Demo.world0).1 = Return true
  /\ load_token E (save_token E t Demo.world0).2
     = (Return (Some t), (save_token E t Demo.world0).2).
Proof.
  intros E t.
  assert (H1 : KEYRING_AVAILABLE E = true) by reflexivity.
  split; [exact H1|].
  pose proof (keyring_round_trip E t Demo.world0 H1) as H. cbn zeta in H.
  split; [apply H|apply H].
Defined.

Section File.
Context (E : env).
Hypothesis Hfile : KEYRING_AVAILABLE E = false.

Lemma b64_text_ascii bs :
  Forall Utf8.byte bs ->
  forallb (fun b => (0 <=? b) && (b <? 128)) (Base64.b64encode bs) = true.
Proof.
  intros Hb. apply forallb_Forall_true.
  eapply list.Forall_impl; [by apply b64encode_chars|]. apply b64char_ascii.
Qed.

Lemma b64_text_encodes bs :
  Forall Utf8.byte bs -> is_Some (Utf8.encode (Base64.b64encode bs)).
Proof.
  intros Hb. apply encode_Forall_scalar.
  eapply list.Forall_impl; [by apply b64encode_chars|]. apply b64char_scalar.
Qed.

(** Without keyring, [save_token] succeeds exactly when the token can be
    encoded as UTF-8. *)
Lemma save_token_outcome t w :
  (save_token E t w).1 = Return (bool_decide (is_Some (Utf8.encode t))).
Proof.
  unfold save_token. rewrite Hfile.
  unfold open_w, encode_utf8, decode_ascii. msimpl.
  destruct (Utf8.encode t) as [bs|] eqn:Ht.
  - pose proof (encode_bytes _ _ Ht) as Hb.
    msimpl. rewrite (b64_text_ascii _ Hb). msimpl. unfold write_str.
    destruct (b64_text_encodes _ Hb) as [fb ->]. unfold os_chmod. msimpl.
    by rewrite bool_decide_true by eauto.
  - msimpl. unfold print. msimpl.
    by rewrite bool_decide_false by (by intros [? ?]).
Qed.

(** X2. Without keyring, [save_token] succeeds exactly when the token can
    be encoded as UTF-8. The file is opened for writing before the token is
    encoded, so a save that fails leaves it empty: a token saved earlier is
    lost, and [load_token] then returns [None]. *)
Theorem failed_save_erases_token t w :
  (save_token E t w).1 = Return (bool_decide (is_Some (Utf8.encode t)))
  /\ (Utf8.encode t = None ->
      fs (save_token E t w).2 !! TOKEN_FILE_FALLBACK E = Some []
      /\ (load_token E (save_token E t w).2).1 = Return None).
Proof.
  split; [apply save_token_outcome|]. intros Ht.
  unfold save_token. rewrite Hfile.
  unfold open_w, encode_utf8, decode_ascii. msimpl. rewrite Ht.
  msimpl. unfold print. msimpl.
  cbn [snd fs set_fs add_io add_stdout].
  rewrite lookup_insert_eq. split; [done|].
  unfold load_token. rewrite Hfile. unfold path_exists, read_str, read_bytes. msimpl.
  cbn [fs set_fs add_io add_stdout]. rewrite lookup_insert_eq.
  rewrite bool_decide_true by eauto. msimpl.
  cbn [fs set_fs add_io add_stdout]. rewrite lookup_insert_eq. msimpl.
  cbn [Utf8.decode]. msimpl. done.
Qed.

End File.

Lemma failed_save_erases_token_witness :
  let E := Demo.env_of false (Demo.paged_api (Demo.two_pages 0)) in
  let w := (save_token E (lit "glpat-abc") Demo.world0).2 in
  KEYRING_AVAILABLE E = false
  /\ (load_token E w).1 = Return (Some (lit "glpat-abc"))
  /\ Utf8.encode [0xD800] = None
  /\ (save_token E [0xD800] w).1 = Return false
  /\ (load_token E (save_token E [0xD800] w).2).1 = Return None.
Proof.
  intros E w.
  assert (H1 : KEYRING_AVAILABLE E = false) by reflexivity.
  assert (H2 : Utf8.encode [0xD800] = None) by reflexivity.
  split; [exact H1|]. split; [vm_compute; reflexivity|]. split; [exact H2|].
  destruct (failed_save_erases_token E H1 [0xD800] w) as [Ha Hb].
  split; [exact Ha|]. exact (proj2 (Hb H2)).
Defined.

(** [save_token] never raises. *)
Lemma save_token_returns E t w : exists b, (save_token E t w).1 = Return b.
Proof.
  destruct (KEYRING_AVAILABLE E) eqn:Hk.
  - unfold save_token. rewrite Hk. unfold keyring_set_password. msimpl. by eexists.
  - rewrite (save_token_outcome E Hk). by eexists.
Qed.

(** X3. With the keyring, [delete_saved_token] asks the keyring first. When
    the keyring holds no entry that call raises, the function returns
    [False], and a fallback file that is still there is not removed. *)
Theorem delete_without_keyring_entry E w :
  KEYRING_AVAILABLE E = true ->
  keyring_pw w = None ->
  (delete_saved_token E w).1 = Return false
  /\ fs (delete_saved_token E w).2 = fs w
  /\ io_log (delete_saved_token E w).2 = io_log w.
Proof.
  intros Hk Hn. unfold delete_saved_token. rewrite Hk.
  unfold keyring_delete_password. msimpl. rewrite Hn. unfold print. msimpl. done.
Qed.

Lemma delete_without_keyring_entry_witness :
  let E := Demo.env_of true (Demo.paged_api (Demo.two_pages 0)) in
  let w := World {[TOKEN_FILE_FALLBACK E := lit "Z2xwYXQ="]} None [] [] [] in
  KEYRING_AVAILABLE E = true
  /\ keyring_pw w = None
  /\ (delete_saved_token E w).1 = Return false
  /\ is_Some (fs (delete_saved_token E w).2 !! TOKEN_FILE_FALLBACK E).
Proof.
  intros E w.
  assert (H1 : KEYRING_AVAILABLE E = true) by reflexivity.
  assert (H2 : keyring_pw w = None) by reflexivity.
  split; [exact H1|]. split; [exact H2|].
  destruct (delete_without_keyring_entry E w H1 H2) as (Ha & Hb & _).
  split; [exact Ha|]. rewrite Hb. unfold w. cbn [fs]. rewrite lookup_singleton_eq. eauto.
Defined.

(** What [load_token] does to the world, whatever it finds. *)
Lemma load_token_outcome E w :
  exists o w',
    load_token E w = (Return o, w')
    /\ fs w' = fs w /\ keyring_pw w' = keyring_pw w
    /\ io_log w' = io_log w /\ http_log w' = http_log w.
Proof.
  unfold load_token. destruct (KEYRING_AVAILABLE E).
  { unfold keyring_get_password. msimpl. by eexists _, _. }
  unfold path_exists, read_str, read_bytes, encode_ascii, b64decode, decode_utf8, print.
  msimpl.
  destruct (fs w !! TOKEN_FILE_FALLBACK E) as [bs|] eqn:Hf.
  2:{ rewrite bool_decide_false by (by intros [? ?]). by eexists _, _. }
  rewrite bool_decide_true by eauto. msimpl. rewrite Hf. msimpl.
  destruct (Utf8.decode bs) as [txt|]; msimpl; [|by eexists _, _].
  generalize (strip (universal_newlines txt)). intros b.
  destruct (bool_decide (b ≠ [])); msimpl; [|by eexists _, _].
  destruct (forallb _ b); msimpl; [|by eexists _, _].
  destruct (Base64.b64decode b); msimpl; [|by eexists _, _].
  destruct (Utf8.decode l); msimpl; by eexists _, _.
Qed.

(** Where neither the keyring nor the fallback file holds anything,
    [load_token] finds nothing. *)
Lemma load_token_nothing E w :
  keyring_pw w = None -> fs w !! TOKEN_FILE_FALLBACK E = None ->
  load_token E w = (Return None, w).
Proof.
  intros Hk Hf. unfold load_token. destruct (KEYRING_AVAILABLE E).
  { unfold keyring_get_password. msimpl. by rewrite Hk. }
  unfold path_exists. msimpl. rewrite Hf.
  by rewrite bool_decide_false by (by intros [? ?]).
Qed.

(** A [delete_saved_token] that returns [True] has removed the fallback
    file, and with the keyring the entry of the keyring. *)
Lemma delete_saved_token_done E w :
  (delete_saved_token E w).1 = Return true ->
  fs (delete_saved_token E w).2 !! TOKEN_FILE_FALLBACK E = None
  /\ (KEYRING_AVAILABLE E = true -> keyring_pw (delete_saved_token E w).2 = None)
  /\ (KEYRING_AVAILABLE E = false ->
      keyring_pw (delete_saved_token E w).2 = keyring_pw w)
  /\ http_log (delete_saved_token E w).2 = http_log w.
Proof.
  unfold delete_saved_token, keyring_delete_password, path_exists, os_remove, print.
  destruct (KEYRING_AVAILABLE E); msimpl.
  - destruct (keyring_pw w) as [pw|] eqn:Hk; msimpl; [|done].
    cbn [fs set_keyring_pw add_io].
    destruct (fs w !! TOKEN_FILE_FALLBACK E) as [bs|] eqn:Hf.
    + rewrite bool_decide_true by eauto. msimpl.
      cbn [fs set_keyring_pw add_io]. rewrite Hf. msimpl. intros _.
      cbn [snd fs keyring_pw http_log set_fs set_keyring_pw add_io].
      by rewrite lookup_delete_eq.
    + rewrite bool_decide_false by (by intros [? ?]). msimpl. intros _.
      cbn [snd fs keyring_pw http_log set_fs set_keyring_pw add_io]. done.
  - destruct (fs w !! TOKEN_FILE_FALLBACK E) as [bs|] eqn:Hf.
    + rewrite bool_decide_true by eauto. msimpl. rewrite Hf. msimpl. intros _.
      cbn [snd fs keyring_pw http_log set_fs set_keyring_pw add_io].
      by rewrite lookup_delete_eq.
    + rewrite bool_decide_false by (by intros [? ?]). msimpl. intros _. done.
Qed.

(** X4. [load_token] never raises and only reads: whatever the file or the
    keyring holds, it returns, and files, keyring, the log of writes and
    the HTTP log are as before; at most a line is printed. *)
Theorem load_token_reads_only E w :
  exists o w',
    load_token E w = (Return o, w')
    /\ fs w' = fs w /\ keyring_pw w' = keyring_pw w
    /\ io_log w' = io_log w /\ http_log w' = http_log w.
Proof. apply load_token_outcome. Qed.

End TokenStore.

Module SlugFacts.
Import Utf8Facts TokenFacts.

Lemma slug_char_no_space c : slug_char c = true -> isspace c = false.
Proof.
  unfold slug_char, isspace. intros H.
  repeat (apply orb_true_iff in H as [H|H]); bools;
    repeat (apply orb_false_iff; split);
    try (apply andb_false_iff; (left; apply Z.leb_gt; lia) || (right; apply Z.leb_gt; lia));
    try (apply Z.eqb_neq; lia).
  all: apply Z.eqb_eq in H; subst;
    try (apply andb_false_iff; (left; apply Z.leb_gt; lia) || (right; apply Z.leb_gt; lia));
    try (apply Z.eqb_neq; lia).
Qed.

Lemma sub_spaces_no_space b s :
  Forall (fun c => isspace c = false) s -> sub_spaces b s = s.
Proof.
  intros H. revert b. induction H as [|c s Hc _ IH]; intros b; simpl; [done|].
  by rewrite Hc, IH.
Qed.

Lemma filter_all {A} (p : A -> bool) l :
  Forall (fun x => p x = true) l -> List.filter p l = l.
Proof. induction 1 as [|x l Hx _ IH]; simpl; [done|]. by rewrite Hx, IH. Qed.

Lemma filter_Forall {A} (p : A -> bool) l : Forall (fun x => p x = true) (List.filter p l).
Proof.
  induction l as [|x l IH]; simpl; [constructor|].
  destruct (p x) eqn:Hx; [by constructor|done].
Qed.

Section Slug.
Context (E : env).

(** X5. Whatever the name, the path [slugify] makes of it holds only
    lower-case ASCII letters, digits and hyphens, and at most 255 of
    them. *)
Theorem slugify_alphabet name :
  Forall (fun c => 97 <= c <= 122 \/ 48 <= c <= 57 \/ c = 45) (slugify E name)
  /\ (length (slugify E name) <= 255)%nat.
Proof.
  unfold slugify. split.
  - apply Forall_take. eapply list.Forall_impl; [apply (filter_Forall slug_char)|].
    intros c Hc. cbv beta in Hc. unfold slug_char in Hc.
    repeat (apply orb_true_iff in Hc as [Hc|Hc]); bools; lia.
  - rewrite length_take. lia.
Qed.

Lemma slugify_slug_chars name : Forall (fun c => slug_char c = true) (slugify E name).
Proof. unfold slugify. apply Forall_take, filter_Forall. Qed.

(** X6. A slug is its own slug, when [str.lower] leaves lower-case ASCII
    letters, digits and hyphens as they are. *)
Theorem slugify_idempotent name :
  (forall s, Forall (fun c => slug_char c = true) s -> str_lower E s = s) ->
  slugify E (slugify E name) = slugify E name.
Proof.
  intros Hlow.
  pose proof (slugify_slug_chars name) as Hs.
  assert (Hlen : (length (slugify E name) <= 255)%nat)
    by (unfold slugify; rewrite length_take; lia).
  assert (Hns : Forall (fun c => isspace c = false) (slugify E name))
    by (eapply list.Forall_impl; [exact Hs|]; apply slug_char_no_space).
  set (r := slugify E name) in *.
  unfold slugify at 1. rewrite (strip_no_space _ Hns), (Hlow _ Hs).
  rewrite (sub_spaces_no_space _ _ Hns), (filter_all _ _ Hs).
  by apply take_ge.
Qed.

End Slug.

Lemma ascii_lower_slug s :
  Forall (fun c => slug_char c = true) s -> Demo.ascii_lower s = s.
Proof.
  unfold Demo.ascii_lower. induction 1 as [|c s Hc _ IH]; [done|].
  rewrite fmap_cons, IH. f_equal.
  unfold slug_char in Hc.
  destruct ((65 <=? c) && (c <=? 90)) eqn:Hu; [|done]. bools.
  repeat (apply orb_true_iff in Hc as [Hc|Hc]); bools; lia.
Qed.

Lemma slugify_idempotent_witness :
  let E := Demo.env_of false (Demo.paged_api (Demo.two_pages 0)) in
  slugify E (lit "  My  Group 1 ") = lit "my-group-1"
  /\ slugify E (slugify E (lit "  My  Group 1 ")) = slugify E (lit "  My  Group 1 ").
Proof.
  intros E. split; [vm_compute; reflexivity|].
  exact (slugify_idempotent E (lit "  My  Group 1 ") ascii_lower_slug).
Defined.

End SlugFacts.

Module ClientRequests.
Import GitLabClient ClientSpec ClientSpec2 ClientFacts PagedClaims.

Section Requests.
Context (E : env).

Lemma paged_run_well_formed self path params fuel page res hist exs o :
  paged_run E self path params fuel page res hist exs o ->
  Forall (well_formed self) exs.
Proof.
  induction 1; constructor; try done; split; simpl; (done || lia).
Qed.

Ltac one_send :=
  unfold mbind, M_bind, bind; rewrite send_eq;
  match goal with
  | |- context [api E ?h ?rq] =>
      exists [(rq, api E h rq)]; split;
      [ destruct (api E h rq); [|done];
        unfold resp_json, created, ret, raise; repeat (case_match; simplify_eq; try done)
      | constructor; [split; simpl; (done || lia)|constructor] ]
  end.

Lemma run_well_formed fuel self c w :
  exists exs,
    (run E fuel self c w).2 = extend_http exs w /\ Forall (well_formed self) exs.
Proof.
  destruct c; cbn [run].
  - unfold test. one_send.
  - destruct (run_list_groups E fuel self w) as (exs & o & Hrun & Heq).
    cbn [run] in Heq. rewrite Heq. exists exs. split; [done|].
    by eapply paged_run_well_formed.
  - unfold create_group. one_send.
  - unfold create_project. one_send.
  - unfold list_projects_in_group. one_send.
  - unfold list_repository_tree. one_send.
  - unfold get_file_raw. destruct (quote_plus E file_path) as [encoded|].
    + one_send.
    + exists []. rewrite extend_http_nil. split; [done|constructor].
  - unfold upload_file, path_exists, read_bytes.
    unfold mbind, M_bind. unfold bind at 1 2. unfold gets.
    destruct (fs w !! file_path) as [data|] eqn:Hf.
    + rewrite bool_decide_true by eauto. cbn [negb].
      unfold bind at 1 2. rewrite Hf. one_send.
    + rewrite bool_decide_false by (by intros [? ?]). cbn [negb].
      exists []. rewrite extend_http_nil. split; [done|constructor].
  - unfold commit_files. one_send.
Qed.

(** X7. A client made with a token sends it with every request: whatever
    the call and however many requests it takes, each one carries the
    stripped token as PRIVATE-TOKEN and as Bearer authorisation, and each
    has a timeout of 10 to 60 seconds. *)
Theorem requests_carry_token fuel tok url c w :
  tok <> [] ->
  Forall (fun x => rq_headers x.1 !! lit "PRIVATE-TOKEN" = Some (strip tok)
                   /\ rq_headers x.1 !! lit "Authorization"
                      = Some (lit "Bearer " ++ strip tok)
                   /\ 10 <= rq_timeout x.1 <= 60)
    (new_exchanges w (run E fuel (__init__ (Some tok) url) c w).2).
Proof.
  intros Htok.
  destruct (run_well_formed fuel (__init__ (Some tok) url) c w) as (exs & -> & Hwf).
  rewrite new_exchanges_extend.
  eapply list.Forall_impl; [exact Hwf|].
  intros x [Hh Ht]. rewrite Hh. unfold __init__.
  rewrite bool_decide_true by done. unfold set_token. cbn [headers].
  split; [|split; [|done]].
  - rewrite lookup_insert_ne by (by vm_compute).
    rewrite lookup_insert_ne by (by vm_compute).
    apply lookup_insert_eq.
  - rewrite lookup_insert_ne by (by vm_compute).
    apply lookup_insert_eq.
Qed.

End Requests.

Lemma requests_carry_token_witness :
  let E := Demo2.env_pages 100 in
  let tok := lit " glpat-abc " in
  tok <> []
  /\ Forall (fun x => rq_headers x.1 !! lit "PRIVATE-TOKEN" = Some (lit "glpat-abc"))
       (new_exchanges Demo.world0
          (run E 5 (__init__ (Some tok) (BASE_URL E)) ListGroups Demo.world0).2).
Proof.
  intros E tok.
  assert (H1 : tok <> []) by (by vm_compute).
  split; [exact H1|].
  eapply list.Forall_impl;
    [exact (requests_carry_token E 5 tok (BASE_URL E) ListGroups Demo.world0 H1)|].
  intros x (Hx & _ & _). rewrite Hx. by vm_compute.
Defined.

Section Endless.
Context (E : env) (self : t) (path : list Z) (params : option (gmap (list Z) json)).
Context (pages : Z -> list json).

Lemma paged_get_loop_full fuel : forall p res w,
  serves E self path params pages ->
  (forall n, p <= n -> (100 <= length (pages n))%nat) ->
  exists exs,
    _paged_get_loop E fuel self path params p res w = (Diverge, extend_http exs w)
    /\ exs.*1 = page_request self path params <$> seqZ p (Z.of_nat fuel).
Proof.
  induction fuel as [|fuel IH]; intros p res w Hs Hfull.
  - exists []. by rewrite extend_http_nil.
  - rewrite paged_get_loop_step. cbn zeta.
    destruct (Hs ((http_log w).*1) p) as (rs & Hrs & Hst & Hbody).
    rewrite Hrs.
    rewrite (verdict_served rs (pages p) res Hst Hbody).
    replace (Z.of_nat (length (pages p)) <? 100) with false
      by (symmetry; apply Z.ltb_ge; specialize (Hfull p); lia).
    destruct (IH (p + 1) (res ++ pages p)
                (extend_http [(page_request self path params p, Resp rs)] w) Hs)
      as (exs & Heq & Hreq).
    { intros n Hn. apply Hfull. lia. }
    exists ((page_request self path params p, Resp rs) :: exs).
    rewrite Heq, extend_http_app. split; [done|].
    rewrite fmap_cons, Hreq. cbn [fst].
    rewrite Nat2Z.inj_succ, (seqZ_cons p) by lia. rewrite fmap_cons.
    by replace (Z.pred (Z.succ (Z.of_nat fuel))) with (Z.of_nat fuel) by lia.
Qed.

(** X8. [_paged_get] has no limit on the number of pages. Against a server
    whose every page holds at least 100 entries the loop does not end:
    after any number of turns it has asked for the pages 1, 2, ... up to
    that number, and goes on. *)
Theorem paged_get_without_short_page fuel w :
  serves E self path params pages ->
  (forall n, 1 <= n -> (100 <= length (pages n))%nat) ->
  exists w',
    _paged_get E fuel self path params w = (Diverge, w')
    /\ (new_exchanges w w').*1
       = page_request self path params <$> seqZ 1 (Z.of_nat fuel).
Proof.
  intros Hs Hfull.
  destruct (paged_get_loop_full fuel 1 [] w Hs Hfull) as (exs & Heq & Hreq).
  exists (extend_http exs w). split; [exact Heq|].
  by rewrite new_exchanges_extend.
Qed.

End Endless.

Lemma paged_get_without_short_page_witness :
  let pages := fun _ : Z => replicate 100 (Demo.group 7 "team" JNull) in
  let E := Demo.env_of false (Demo.paged_api pages) in
  serves E Demo.client0 (lit "/groups") None pages
  /\ (forall n, 1 <= n -> (100 <= length (pages n))%nat)
  /\ exists w',
       _paged_get E 3 Demo.client0 (lit "/groups") None Demo.world0 = (Diverge, w')
       /\ (new_exchanges Demo.world0 w').*1
          = page_request Demo.client0 (lit "/groups") None <$> seqZ 1 (Z.of_nat 3).
Proof.
  intros pages E.
  assert (H1 : serves E Demo.client0 (lit "/groups") None pages)
    by apply ClientInstances.paged_api_serves.
  assert (H2 : forall n, 1 <= n -> (100 <= length (pages n))%nat).
  { intros n _. unfold pages. rewrite length_replicate. lia. }
  split; [exact H1|]. split; [exact H2|].
  exact (paged_get_without_short_page E Demo.client0 (lit "/groups") None pages 3
           Demo.world0 H1 H2).
Defined.

End ClientRequests.

(** ** Runs that come to an end *)
Module RunFacts.
Import GitLabGUIApp AppSpec AppSpec3 CacheSpec ClientFacts.

Lemma gets_bind {S A B} (f : S -> A) (k : A -> M S B) s : (gets f ≫= k) s = k (f s) s.
Proof. done. Qed.

Section Halts.
Context {S : Type}.

Lemma halts_ret {A} (a : A) : halts (@ret S A a).
Proof. by intros s. Qed.

Lemma halts_raise {A} e : halts (@raise S A e).
Proof. by intros s. Qed.

Lemma halts_gets {A} (f : S -> A) : halts (gets f).
Proof. by intros s. Qed.

Lemma halts_modify (f : S -> S) : halts (modify f).
Proof. by intros s. Qed.

Lemma halts_bind {A B} (m : M S A) (k : A -> M S B) :
  halts m -> (forall a, halts (k a)) -> halts (bind m k).
Proof.
  intros Hm Hk s. unfold bind. specialize (Hm s).
  destruct (m s) as [[a|e|] s']; [apply Hk|done|done].
Qed.

Lemma halts_mbind {A B} (m : M S A) (k : A -> M S B) :
  halts m -> (forall a, halts (k a)) -> halts (m ≫= k).
Proof. apply halts_bind. Qed.

Lemma halts_try_except {A} (m : M S A) h :
  halts m -> (forall e, halts (h e)) -> halts (try_except m h).
Proof.
  intros Hm Hh s. unfold try_except. specialize (Hm s).
  destruct (m s) as [[a|e|] s']; [done|apply Hh|done].
Qed.

Lemma halts_try_finally {A} (m : M S A) f :
  halts m -> halts f -> halts (try_finally m f).
Proof.
  intros Hm Hf s. unfold try_finally. specialize (Hm s).
  destruct (m s) as [[a|e|] s']; [| |done];
    specialize (Hf s'); by destruct (f s') as [[[]|?|] ?].
Qed.

Lemma halts_for_each {A} (l : list A) (f : A -> M S unit) :
  (forall x, halts (f x)) -> halts (for_each l f).
Proof.
  intros Hf. induction l as [|x l IH]; [apply halts_ret|].
  apply halts_mbind; [apply Hf|by intros _].
Qed.

Lemma halts_map_M {A B} (f : A -> M S B) (l : list A) :
  (forall x, halts (f x)) -> halts (map_M f l).
Proof.
  intros Hf. induction l as [|x l IH]; [apply halts_ret|].
  apply halts_mbind; [apply Hf|]. intros y.
  apply halts_mbind; [apply IH|]. intros ys. apply halts_ret.
Qed.

Lemma halts_filter_M {A} (p : A -> M S bool) (l : list A) :
  (forall x, halts (p x)) -> halts (filter_M p l).
Proof.
  intros Hp. induction l as [|x l IH]; [apply halts_ret|].
  apply halts_bind; [apply Hp|]. intros b.
  apply halts_mbind; [apply IH|]. intros ys. apply halts_ret.
Qed.

Lemma halts_py_get v k d : halts (@py_get S v k d).
Proof. destruct v; (apply halts_ret || apply halts_raise). Qed.

Lemma halts_py_iter v : halts (@py_iter S v).
Proof. destruct v; (apply halts_ret || apply halts_raise). Qed.

Lemma halts_py_len v : halts (@py_len S v).
Proof. destruct v; (apply halts_ret || apply halts_raise). Qed.

Lemma returns_halts {A} (m : M S A) : returns m -> halts m.
Proof. intros Hm s. destruct (Hm s) as [a Ha]. by rewrite Ha. Qed.

Lemma returns_ret {A} (a : A) : returns (@ret S A a).
Proof. intros s. by exists a. Qed.

Lemma returns_modify (f : S -> S) : returns (modify f).
Proof. intros s. by exists tt. Qed.

Lemma returns_bind {A B} (m : M S A) (k : A -> M S B) :
  returns m -> (forall a, returns (k a)) -> returns (m ≫= k).
Proof.
  intros Hm Hk s. unfold mbind, M_bind, bind. destruct (Hm s) as [a Ha].
  destruct (m s) as [o s']. simpl in Ha. subst o. apply Hk.
Qed.

(** A [try] whose handler returns cannot raise. *)
Lemma returns_try_except {A} (m : M S A) h :
  halts m -> (forall e, returns (h e)) -> returns (try_except m h).
Proof.
  intros Hm Hh s. unfold try_except. specialize (Hm s).
  destruct (m s) as [[a|e|] s']; [by exists a|apply Hh|done].
Qed.

End Halts.

Lemma halts_in_world {A} (m : M world A) : halts m -> halts (in_world m).
Proof.
  intros Hm s. unfold in_world, zoom. specialize (Hm (outside s)).
  by destruct (m (outside s)).
Qed.

Lemma returns_tk c : returns (tk c).
Proof. apply returns_modify. Qed.

Lemma halts_tk c : halts (tk c).
Proof. apply halts_modify. Qed.

Lemma returns_set_status text : returns (set_status text).
Proof. apply returns_bind; [apply returns_tk|]. intros _. apply returns_modify. Qed.

Lemma returns_log E text : returns (log E text).
Proof. apply returns_modify. Qed.

Lemma returns_on_thread t task : halts task -> returns (on_thread t task).
Proof.
  intros Ht s. unfold on_thread. specialize (Ht (set_cur_thread t s)).
  destruct (task (set_cur_thread t s)) as [[[]|e|] s']; [by exists tt|by exists tt|done].
Qed.

Lemma returns_after task : halts task -> returns (after task).
Proof.
  intros Ht. apply returns_bind; [apply returns_tk|]. intros _.
  by apply returns_on_thread.
Qed.

Lemma halts_send E rq : halts (GitLabClient.send E rq).
Proof. intros w. rewrite send_eq. by destruct (api E _ rq). Qed.

Lemma read_bytes_some p w data :
  fs w !! p = Some data -> read_bytes p w = (Return data, w).
Proof. intros Hf. unfold read_bytes. by rewrite Hf. Qed.

Lemma read_bytes_none p w :
  fs w !! p = None ->
  read_bytes p w = (Raise (Exn FileNotFoundError (lit "No such file or directory")), w).
Proof. intros Hf. unfold read_bytes. by rewrite Hf. Qed.

Lemma halts_read_bytes p : halts (read_bytes p).
Proof. intros w. unfold read_bytes. by destruct (fs w !! p). Qed.

Lemma halts_write_str p c : halts (write_str p c).
Proof. unfold write_str. destruct (Utf8.encode c); [apply halts_modify|apply halts_raise]. Qed.

Lemma halts_tree_get_children i : halts (tree_get_children i).
Proof.
  apply halts_mbind; [apply halts_tk|]. intros _.
  apply halts_mbind; [apply halts_gets|]. intros roots.
  destruct (Treeview.get_children roots i); [apply halts_ret|apply halts_raise].
Qed.

Lemma halts_tree_delete items : halts (tree_delete items).
Proof.
  apply halts_mbind; [apply halts_tk|]. intros _.
  apply halts_mbind; [apply halts_gets|]. intros roots.
  destruct (Treeview.delete roots items); [apply halts_modify|apply halts_raise].
Qed.

Lemma halts_tree_insert p i t v : halts (tree_insert p i t v).
Proof.
  apply halts_mbind; [apply halts_tk|]. intros _.
  apply halts_mbind; [apply halts_gets|]. intros roots.
  destruct (Treeview.insert roots p i t v); [apply halts_modify|apply halts_raise].
Qed.

Section App.
Context (E : env).

Lemma halts_name_key x : halts (name_key E x).
Proof.
  apply halts_mbind; [apply halts_py_get|]. intros n.
  destruct n; (apply halts_ret || apply halts_raise).
Qed.

Lemma halts_sorted l : halts (sorted l (name_key E)).
Proof.
  apply halts_mbind; [apply halts_map_M, halts_name_key|]. intros ks. apply halts_ret.
Qed.

Lemma halts_insert_root_group rg : halts (insert_root_group E rg).
Proof.
  apply halts_mbind; [apply halts_py_get|]. intros id.
  apply halts_mbind; [apply halts_py_get|]. intros name.
  apply halts_mbind; [apply halts_tree_insert|]. intros _. apply halts_tree_insert.
Qed.

Lemma halts_insert_root_groups groups : halts (insert_root_groups E groups).
Proof.
  apply halts_mbind.
  { apply halts_filter_M. intros g. apply halts_mbind; [apply halts_py_get|].
    intros p. apply halts_ret. }
  intros roots. apply halts_mbind; [apply halts_sorted|]. intros ordered.
  apply halts_for_each, halts_insert_root_group.
Qed.

Lemma halts_save_cache_try : halts (save_cache_try E).
Proof.
  apply halts_mbind; [apply halts_gets|]. intros data.
  apply halts_mbind.
  { apply halts_in_world. apply halts_mbind; [apply halts_modify|]. intros _.
    apply halts_for_each, halts_write_str. }
  intros _. apply halts_mbind; [apply returns_halts, returns_log|]. intros _.
  apply halts_tk.
Qed.

Lemma halts_json_load p : halts (json_load E p).
Proof.
  apply halts_mbind.
  { apply halts_in_world. apply halts_mbind; [apply halts_read_bytes|]. intros bs.
    destruct (Utf8.decode bs); [apply halts_ret|apply halts_raise]. }
  intros txt. destruct (json_loads E txt); [apply halts_ret|apply halts_raise].
Qed.

Lemma returns_load_cache : returns (_load_cache E).
Proof.
  unfold _load_cache. apply returns_bind.
  { intros s0. by eexists. }
  intros [|]; [|apply returns_ret].
  apply returns_try_except; [|intros e; apply returns_log].
  apply halts_mbind; [apply halts_json_load|]. intros data.
  apply halts_mbind; [apply halts_py_get|]. intros g.
  apply halts_mbind; [apply halts_modify|]. intros _.
  apply halts_mbind; [apply halts_py_get|]. intros lp.
  apply halts_mbind; [apply halts_modify|]. intros _.
  apply halts_mbind; [apply halts_py_get|]. intros ls.
  apply halts_mbind; [apply halts_modify|]. intros _.
  apply halts_mbind; [apply returns_halts, returns_log|]. intros _.
  apply halts_mbind; [apply halts_tree_get_children|]. intros cs.
  apply halts_mbind; [apply halts_tree_delete|]. intros _.
  apply halts_mbind; [apply halts_gets|]. intros ag.
  apply halts_mbind; [apply halts_py_iter|]. intros groups.
  apply halts_insert_root_groups.
Qed.

(** X9. The two cache operations never raise, whatever the state of the
    application and of the disk, and a failure is reported: when the
    [try] block of [save_cache] raises, the line with the message of the
    exception is put on the log queue and the error box with that message
    is shown; when the [try] block of [_load_cache] raises, the line with
    the message is put on the log queue. *)
Theorem cache_operations_return s :
  (save_cache E s).1 = Return tt
  /\ (forall e s1,
        save_cache_try E s = (Raise e, s1) ->
        save_cache E s
        = (Return tt,
           set_calls (calls s1 ++ [(cur_thread s1,
                                    ShowError (lit "Lỗi")
                                      (lit "Không thể lưu cache: " ++ exn_msg e))])
             (logged E (lit "Lỗi lưu cache: " ++ exn_msg e) s1)))
  /\ (_load_cache E s).1 = Return tt
  /\ _load_cache E s
     = (if bool_decide (is_Some (fs (outside s) !! CACHE_FILE E))
        then try_except (load_cache_try E) (load_cache_except E) s
        else (Return tt, s))
  /\ (forall e s1,
        is_Some (fs (outside s) !! CACHE_FILE E) ->
        load_cache_try E s = (Raise e, s1) ->
        _load_cache E s = (Return tt, logged E (lit "Lỗi nạp cache: " ++ exn_msg e) s1)).
Proof.
  assert (Hload : _load_cache E s
                  = (if bool_decide (is_Some (fs (outside s) !! CACHE_FILE E))
                     then try_except (load_cache_try E) (load_cache_except E) s
                     else (Return tt, s))).
  { unfold _load_cache, mbind at 1, M_bind, bind at 1, in_world, zoom, path_exists, gets.
    assert (Hs : set_outside (outside s) s = s) by (by destruct s). rewrite Hs.
    by destruct (bool_decide _). }
  split; [|split; [|split; [|split; [exact Hload|]]]].
  - assert (H : returns (save_cache E)).
    { apply returns_try_except; [apply halts_save_cache_try|]. intros e.
      apply returns_bind; [apply returns_log|]. intros _. apply returns_tk. }
    destruct (H s) as [[] Hs]. exact Hs.
  - intros e s1 Htry. unfold save_cache, try_except. by rewrite Htry.
  - destruct (returns_load_cache s) as [[] Hs]. exact Hs.
  - intros e s1 Hex Htry. rewrite Hload, bool_decide_true by done.
    unfold try_except. by rewrite Htry.
Qed.

Lemma halts_upload_post path timeout : halts (upload_post E path timeout).
Proof.
  apply halts_mbind; [apply halts_in_world, halts_read_bytes|]. intros data.
  apply halts_mbind; [apply halts_gets|]. intros [c|]; [|apply halts_raise].
  apply halts_mbind; [apply halts_gets|]. intros [pid|]; [|apply halts_raise].
  apply halts_mbind.
  { destruct (bool_decide _); [|apply halts_ret].
    apply returns_halts, returns_after, halts_tk. }
  intros _. apply halts_in_world, halts_send.
Qed.

Lemma halts_upload_done r what tail : halts (upload_done E r what tail).
Proof.
  unfold upload_done. destruct (GitLabClient.created r); [|apply halts_raise].
  apply halts_mbind.
  { apply halts_in_world. unfold GitLabClient.resp_json.
    destruct (json_body r); [apply halts_ret|apply halts_raise]. }
  intros res. apply halts_mbind; [apply halts_py_get|]. intros u.
  apply halts_mbind; [apply returns_halts, returns_log|]. intros _.
  apply returns_halts, returns_after, halts_tk.
Qed.

(** A thread that runs [try: body finally: set_status(text)] leaves the
    status line at [text]. *)
Lemma spawn_finally_status (body : M state unit) text s :
  halts body ->
  (spawn (try_finally body (set_status text)) s).1 = Return tt
  /\ status_var (spawn (try_finally body (set_status text)) s).2 = text
  /\ cur_thread (spawn (try_finally body (set_status text)) s).2 = cur_thread s.
Proof.
  intros Hb. unfold spawn, on_thread, try_finally.
  specialize (Hb (set_cur_thread ActionThread s)).
  destruct (body (set_cur_thread ActionThread s)) as [[[]|e|] s']; [| |done];
    unfold set_status, tk; msimpl; done.
Qed.

End App.
End RunFacts.

Ltac msimpl_in H :=
  repeat (progress (unfold mbind, M_bind, bind, ret, raise, gets, modify, try_except in H;
                    cbn beta iota in H)).

(** ** Sessions: login, logout, and what the handlers do without one *)
Module SessionFacts.
Import GitLabGUIApp AppSpec AppSpec2 AppSpec3 UiFrames ClientSpec ClientFacts
  AppFacts AppFacts2 CacheFacts RequestSpec RequestFacts RunFacts TokenFacts.

#[global] Instance same_session_preorder : PreOrder same_session.
Proof.
  split; [by intros s|].
  intros s1 s2 s3 (? & ? & ?) (? & ? & ?). unfold same_session. split_and!; congruence.
Qed.

#[global] Instance same_session_frame : UiFrame same_session.
Proof. split; [apply _|..]; intros; intros s; done. Qed.

Lemma same_session_in_world {A} (m : M world A) : preserves same_session (in_world m).
Proof. intros s. unfold in_world, zoom. by destruct (m (outside s)). Qed.

Lemma same_session_on_thread t task :
  preserves same_session task -> preserves same_session (on_thread t task).
Proof. intros Ht s. rewrite on_thread_state. apply (Ht (set_cur_thread t s)). Qed.

#[global] Instance silent_preorder : PreOrder silent.
Proof.
  split; [by intros s|].
  intros s1 s2 s3 H12 H23 H1. destruct (H12 H1) as [H2 Hl]. destruct (H23 H2) as [H3 Hl'].
  split; [done|congruence].
Qed.

Lemma silent_quiet s s' :
  client s' = client s -> http_log (outside s') = http_log (outside s) -> silent s s'.
Proof. intros Hc Hl Hn. split; congruence. Qed.

#[global] Instance silent_frame : UiFrame silent.
Proof. split; [apply _|..]; intros; intros s; by apply silent_quiet. Qed.

Lemma silent_in_world {A} (m : M world A) :
  preserves same_http m -> preserves silent (in_world m).
Proof.
  intros Hm s. unfold in_world, zoom. specialize (Hm (outside s)).
  destruct (m (outside s)) as [r w]. by apply silent_quiet.
Qed.

Lemma silent_on_thread t task : preserves silent task -> preserves silent (on_thread t task).
Proof. intros Ht s. rewrite on_thread_state. apply (Ht (set_cur_thread t s)). Qed.

(** Code that starts by reading [self.client] is silent when what it does
    without a client is. *)
Lemma silent_gets_client {B} (k : option GitLabClient.t -> M state B) :
  preserves silent (k None) -> preserves silent (gets client ≫= k).
Proof.
  intros Hk s Hs. unfold mbind, M_bind, bind, gets. rewrite Hs. by apply Hk.
Qed.

Section Session.
Context (E : env).

Lemma same_session_populate_groups fuel : preserves same_session (populate_groups E fuel).
Proof.
  unfold populate_groups.
  apply preserves_mbind; [apply _|apply preserves_gets; apply _|]. intros [c|].
  2:{ apply frame_showerror; apply _. }
  apply same_session_on_thread. unfold populate_groups_task.
  apply preserves_try_except; [apply _| |].
  - apply preserves_mbind; [apply _|apply frame_set_status; apply _|]. intros _.
    apply preserves_mbind; [apply _|apply preserves_gets; apply _|]. intros c'.
    apply preserves_mbind; [apply _| |].
    { destruct c'; [apply same_session_in_world|apply preserves_raise; apply _]. }
    intros groups.
    apply preserves_mbind; [apply _|by intros s|]. intros _.
    apply preserves_mbind; [apply _|apply frame_log; apply _|]. intros _.
    apply preserves_mbind; [apply _|apply frame_tree_get_children; apply _|]. intros cs.
    apply preserves_mbind; [apply _|apply frame_tree_delete; apply _|]. intros _.
    apply preserves_mbind; [apply _|apply frame_insert_root_groups; apply _|]. intros _.
    apply frame_set_status; apply _.
  - intros e.
    apply preserves_mbind; [apply _|apply frame_log; apply _|]. intros _.
    apply preserves_mbind; [apply _|apply frame_showerror; apply _|]. intros _.
    apply frame_set_status; apply _.
Qed.

(** What [on_login_task] does once the session attributes are set. *)
Lemma same_session_after_login fuel tok user :
  preserves same_session
    (n ← py_get user (lit "name") JNull;
     log E (lit "Đăng nhập thành công: " ++ py_str E n) ;;
     n ← py_get user (lit "name") JNull;
     set_status (lit "Đăng nhập: " ++ py_str E n) ;;
     sv ← gets save_token_var;
     (if (sv : bool) then
        ok ← in_world (save_token E tok);
        if (ok : bool) then log E (lit "Token đã được lưu an toàn") else ret tt
      else ret tt) ;;
     populate_groups E fuel).
Proof.
  apply preserves_mbind; [apply _|apply preserves_py_get; apply _|]. intros n.
  apply preserves_mbind; [apply _|apply frame_log; apply _|]. intros _.
  apply preserves_mbind; [apply _|apply preserves_py_get; apply _|]. intros n'.
  apply preserves_mbind; [apply _|apply frame_set_status; apply _|]. intros _.
  apply preserves_mbind; [apply _|apply preserves_gets; apply _|]. intros sv.
  apply preserves_mbind; [apply _| |].
  { destruct sv; [|apply preserves_ret; apply _].
    apply preserves_mbind; [apply _|apply same_session_in_world|].
    intros [|]; [apply frame_log|apply preserves_ret]; apply _. }
  intros _. apply same_session_populate_groups.
Qed.

Lemma login_handler_frame (R : relation state) `{!UiFrame R} e :
  preserves R
    (log E (lit "Lỗi đăng nhập: " ++ exn_msg e) ;;
     showerror (lit "Lỗi đăng nhập") (exn_msg e) ;;
     set_status (lit "Đăng nhập thất bại")).
Proof.
  apply preserves_mbind; [apply _|apply frame_log; apply _|]. intros _.
  apply preserves_mbind; [apply _|apply frame_showerror; apply _|]. intros _.
  apply frame_set_status; apply _.
Qed.

(** The state in which [on_login_task] has set the session attributes. *)
Lemma on_login_reaches fuel s user w' :
  strip (token_var s) <> [] ->
  REQUESTS_AVAILABLE E = true ->
  GitLabClient.test E
    (GitLabClient.__init__ (Some (strip (token_var s))) (BASE_URL E)) (outside s)
  = (Return user, w') ->
  exists s5 (rest : M state unit) (h : exn -> M state unit),
    (on_login E fuel s).2 = set_cur_thread (cur_thread s) (try_except rest h s5).2
    /\ preserves same_session rest /\ (forall e, preserves same_session (h e))
    /\ client s5 = Some (GitLabClient.__init__ (Some (strip (token_var s))) (BASE_URL E))
    /\ user_info s5 = Some user
    /\ token s5 = Some (strip (token_var s))
    /\ outside s5 = w'.
Proof.
  intros Htok Hreq Htest.
  unfold on_login. unfold mbind at 1, M_bind at 1, bind at 1, gets at 1.
  rewrite bool_decide_false by done. rewrite Hreq. cbn [negb].
  unfold spawn. rewrite on_thread_state.
  unfold on_login_task.
  set (tok := strip (token_var s)) in *.
  set (c := GitLabClient.__init__ (Some tok) (BASE_URL E)) in *.
  erewrite try_except_step; [|reflexivity].
  erewrite try_except_step.
  2:{ unfold in_world, zoom. st_simpl. rewrite Htest. reflexivity. }
  erewrite try_except_step; [|reflexivity].
  erewrite try_except_step; [|reflexivity].
  erewrite try_except_step; [|reflexivity].
  eexists _, _, _. split; [reflexivity|].
  split; [apply same_session_after_login|].
  split; [intros e; apply login_handler_frame; apply _|].
  by st_simpl.
Qed.

(** X10. Once the token check [test()] has returned, the session is set:
    [client], [user_info] and [token] hold the new client, the answer of
    the server and the stripped token, whatever the later steps of the
    login do, also when one of them raises and the login is reported as
    failed. *)
Theorem login_sets_session fuel s user w' :
  strip (token_var s) <> [] ->
  REQUESTS_AVAILABLE E = true ->
  GitLabClient.test E
    (GitLabClient.__init__ (Some (strip (token_var s))) (BASE_URL E)) (outside s)
  = (Return user, w') ->
  let s' := (on_login E fuel s).2 in
  client s' = Some (GitLabClient.__init__ (Some (strip (token_var s))) (BASE_URL E))
  /\ user_info s' = Some user
  /\ token s' = Some (strip (token_var s)).
Proof.
  intros Htok Hreq Htest. cbn zeta.
  destruct (on_login_reaches fuel s user w' Htok Hreq Htest)
    as (s5 & rest & h & -> & Hrest & Hh & Hc & Hu & Ht & _).
  pose proof (preserves_try_except same_session rest h Hrest Hh s5) as (H1 & H2 & H3).
  st_simpl. by rewrite H1, H2, H3.
Qed.

#[local] Instance same_login_frame : UiFrame same_login.
Proof. split; [apply _|..]; intros; intros s0; by repeat split. Qed.

Lemma same_login_list_groups fuel c :
  preserves same_login (in_world (GitLabClient.list_groups E fuel c)).
Proof.
  intros s0. unfold in_world, zoom.
  destruct (run_list_groups E fuel c (outside s0)) as (exs & o & _ & Heq).
  cbn [GitLabClient.run] in Heq. unfold mbind, M_bind, bind in Heq.
  destruct (GitLabClient.list_groups E fuel c (outside s0)) as [[l|e|] w1];
    injection Heq as _ ->; by repeat split.
Qed.

Lemma same_login_populate_groups fuel : preserves same_login (populate_groups E fuel).
Proof.
  unfold populate_groups.
  apply preserves_mbind; [apply _|apply preserves_gets; apply _|]. intros [c|].
  2:{ apply frame_showerror; apply _. }
  intros s0. unfold spawn. rewrite on_thread_state.
  apply (same_login_thread (cur_thread s0) (set_cur_thread ActionThread s0)).
  revert s0. 
  assert (Ht : preserves same_login (populate_groups_task E fuel)).
  { unfold populate_groups_task.
    apply preserves_try_except; [apply _| |].
    - apply preserves_mbind; [apply _|apply frame_set_status; apply _|]. intros _.
      apply preserves_mbind; [apply _|apply preserves_gets; apply _|]. intros c'.
      apply preserves_mbind; [apply _| |].
      { destruct c'; [apply same_login_list_groups|apply preserves_raise; apply _]. }
      intros groups.
      apply preserves_mbind; [apply _|by intros s0; repeat split|]. intros _.
      apply preserves_mbind; [apply _|apply frame_log; apply _|]. intros _.
      apply preserves_mbind; [apply _|apply frame_tree_get_children; apply _|]. intros cs.
      apply preserves_mbind; [apply _|apply frame_tree_delete; apply _|]. intros _.
      apply preserves_mbind; [apply _|apply frame_insert_root_groups; apply _|]. intros _.
      apply frame_set_status; apply _.
    - intros e.
      apply preserves_mbind; [apply _|apply frame_log; apply _|]. intros _.
      apply preserves_mbind; [apply _|apply frame_showerror; apply _|]. intros _.
      apply frame_set_status; apply _. }
  intros s0. destruct (Ht (set_cur_thread ActionThread s0)) as (?&?&?&?&?&?).
  by repeat split.
Qed.

(** X11. "Save token" works: after a login whose token check returned the
    user (a JSON object) with the box checked, [load_token] gives the
    stripped token back, from the keyring where there is one, else from the
    file provided the token can be encoded as UTF-8. *)
Theorem login_saves_token fuel s m w' :
  strip (token_var s) <> [] ->
  REQUESTS_AVAILABLE E = true ->
  save_token_var s = true ->
  KEYRING_AVAILABLE E = true \/ is_Some (Utf8.encode (strip (token_var s))) ->
  GitLabClient.test E
    (GitLabClient.__init__ (Some (strip (token_var s))) (BASE_URL E)) (outside s)
  = (Return (JObj m), w') ->
  (load_token E (outside (on_login E fuel s).2)).1 = Return (Some (strip (token_var s))).
Proof.
  intros Htok Hreq Hsv Hmode Htest.
  unfold on_login. unfold mbind at 1, M_bind at 1, bind at 1, gets at 1.
  rewrite bool_decide_false by done. rewrite Hreq. cbn [negb].
  unfold spawn. rewrite on_thread_state.
  unfold on_login_task.
  set (tok := strip (token_var s)) in *.
  erewrite try_except_step; [|reflexivity].
  erewrite try_except_step.
  2:{ unfold in_world, zoom. st_simpl. rewrite Htest. reflexivity. }
  do 3 (erewrite try_except_step; [|reflexivity]).
  erewrite try_except_step; [|reflexivity].
  erewrite try_except_step; [|reflexivity].
  erewrite try_except_step; [|reflexivity].
  erewrite try_except_step; [|reflexivity].
  erewrite try_except_step; [|unfold gets; st_simpl; rewrite Hsv; reflexivity].
  destruct (save_token E tok w') as [osave w1] eqn:Hsave.
  assert (Hfinal : forall (rest : M state unit) h s8,
            preserves same_login rest -> (forall e, preserves same_login (h e)) ->
            outside s8 = w1 ->
            (load_token E (outside (set_cur_thread (cur_thread s)
                                      (try_except rest h s8).2))).1
            = Return (Some tok)).
  { intros rest h s8 Hrest Hh Hout.
    pose proof (preserves_try_except same_login rest h Hrest Hh s8)
      as (_ & _ & _ & Hfs & Hkr & _).
    st_simpl. rewrite Hout in Hfs, Hkr.
    set (sf := (try_except rest h s8).2) in *. clearbody sf.
    destruct (KEYRING_AVAILABLE E) eqn:Hk.
    - unfold load_token. rewrite Hk. unfold keyring_get_password. msimpl.
      cbn [fst]. rewrite Hkr.
      unfold save_token in Hsave. rewrite Hk in Hsave.
      unfold keyring_set_password in Hsave. msimpl_in Hsave.
      injection Hsave as _ <-. done.
    - destruct Hmode as [|Henc]; [done|].
      assert (Hok : (save_token E tok w').1 = Return true).
      { rewrite (TokenStore.save_token_outcome E Hk). by rewrite bool_decide_true. }
      destruct (save_token_file E Hk tok w' Hok) as (bs & fb & Hbs & Hfb & Hfile).
      rewrite Hsave in Hfile. cbn [snd] in Hfile.
      eapply (load_token_file E Hk); [exact Htok|exact Hbs|exact Hfb|].
      by rewrite Hfs. }
  destruct osave as [ok|e|].
  - cbn beta iota. erewrite try_except_step2.
    2:{ unfold in_world, zoom. st_simpl. rewrite Hsave. reflexivity. }
    apply Hfinal; [|intros e; apply login_handler_frame; apply _|done].
    apply preserves_mbind; [apply _| |intros _; apply same_login_populate_groups].
    destruct ok; [apply frame_log|apply preserves_ret]; apply _.
  - exfalso. destruct (TokenStore.save_token_returns E tok w') as [b Hb].
    rewrite Hsave in Hb. done.
  - exfalso. destruct (TokenStore.save_token_returns E tok w') as [b Hb].
    rewrite Hsave in Hb. done.
Qed.

Lemma silent_upload_post path timeout : preserves silent (upload_post E path timeout).
Proof.
  unfold upload_post.
  apply preserves_mbind; [apply _|apply silent_in_world, same_http_read_bytes|].
  intros data. apply silent_gets_client. apply preserves_raise; apply _.
Qed.

Lemma silent_upload_done r what tail : preserves silent (upload_done E r what tail).
Proof.
  unfold upload_done. destruct (GitLabClient.created r); [|apply preserves_raise; apply _].
  apply preserves_mbind; [apply _| |].
  { apply silent_in_world. unfold GitLabClient.resp_json.
    destruct (json_body r); [apply preserves_ret|apply preserves_raise]; apply _. }
  intros res. apply preserves_mbind; [apply _|apply preserves_py_get; apply _|].
  intros u. apply preserves_mbind; [apply _|apply frame_log; apply _|].
  intros _. unfold after. apply preserves_mbind; [apply _|apply ui_tk|].
  intros _. apply silent_on_thread, ui_tk.
Qed.

Lemma silent_populate_groups fuel : preserves silent (populate_groups E fuel).
Proof.
  unfold populate_groups. apply silent_gets_client. apply frame_showerror; apply _.
Qed.

Lemma silent_action_upload_file fn : preserves silent (action_upload_file E fn).
Proof.
  unfold action_upload_file.
  apply preserves_mbind; [apply _|apply preserves_gets; apply _|]. intros sel.
  destruct (negb sel); [apply frame_showerror; apply _|].
  destruct (negb _); [apply frame_showerror; apply _|].
  destruct (bool_decide _); [apply preserves_ret; apply _|].
  apply silent_on_thread. apply preserves_try_finally; [apply _| |].
  - apply preserves_try_except; [apply _| |].
    + apply preserves_mbind; [apply _|apply frame_set_status; apply _|]. intros _.
      apply preserves_mbind; [apply _|apply ui_tk|]. intros _.
      apply preserves_mbind; [apply _|apply silent_upload_post|]. intros r.
      apply preserves_mbind; [apply _|apply ui_tk|]. intros _.
      apply preserves_mbind; [apply _|apply preserves_gets; apply _|]. intros pid.
      apply silent_upload_done.
    + intros e. apply preserves_mbind; [apply _|apply frame_log; apply _|].
      intros _. apply frame_showerror; apply _.
  - apply frame_set_status; apply _.
Qed.

Lemma silent_action_upload_folder folder : preserves silent (action_upload_folder E folder).
Proof.
  unfold action_upload_folder.
  apply preserves_mbind; [apply _|apply preserves_gets; apply _|]. intros sel.
  destruct (negb sel); [apply frame_showerror; apply _|].
  destruct (negb _); [apply frame_showerror; apply _|].
  destruct (bool_decide _); [apply preserves_ret; apply _|].
  apply preserves_try_except; [apply _| |].
  - apply preserves_mbind; [apply _| |].
    { apply silent_in_world. by intros w. }
    intros files. destruct (zip_folder E files folder);
      [|apply preserves_raise; apply _].
    apply preserves_mbind; [apply _| |].
    { apply silent_in_world.
      apply preserves_mbind; [apply _|by apply same_http_modify|].
      intros _. by apply same_http_modify. }
    intros _. apply silent_on_thread. apply preserves_try_finally; [apply _| |].
    + apply preserves_try_except; [apply _| |].
      * apply preserves_mbind; [apply _|apply frame_set_status; apply _|]. intros _.
        apply preserves_mbind; [apply _|apply ui_tk|]. intros _.
        apply preserves_mbind; [apply _|apply silent_upload_post|]. intros r.
        apply preserves_mbind; [apply _|apply ui_tk|]. intros _.
        apply silent_upload_done.
      * intros e. apply preserves_mbind; [apply _|apply frame_log; apply _|].
        intros _. apply frame_showerror; apply _.
    + apply frame_set_status; apply _.
  - intros e. apply frame_showerror; apply _.
Qed.

(** X12. Logging out ends the session and leaves the world outside alone
    (a saved token stays saved). After it, refreshing the tree or uploading
    a file or a folder sends no request, though the project chosen before
    is still remembered. *)
Theorem logged_out_sends_nothing s fuel fn folder :
  let s0 := (on_logout E s).2 in
  client s0 = None /\ user_info s0 = None /\ token s0 = None
  /\ outside s0 = outside s
  /\ current_project_id s0 = current_project_id s
  /\ http_log (outside (populate_groups E fuel s0).2) = http_log (outside s)
  /\ http_log (outside (action_upload_file E fn s0).2) = http_log (outside s)
  /\ http_log (outside (action_upload_folder E folder s0).2) = http_log (outside s).
Proof.
  cbn zeta.
  assert (H0 : client (on_logout E s).2 = None /\ outside (on_logout E s).2 = outside s)
    by done.
  destruct H0 as [Hc Ho].
  split; [done|]. split; [done|]. split; [done|]. split; [done|]. split; [done|].
  rewrite <- Ho. split; [|split].
  - apply (silent_populate_groups fuel _ Hc).
  - apply (silent_action_upload_file fn _ Hc).
  - apply (silent_action_upload_folder folder _ Hc).
Qed.

(** X13. An upload always gives the status line back: once the task of
    [action_upload_file] or [action_upload_folder] has started, the handler
    returns, and whether the upload went through or failed, the status line
    ends at 'Sẵn sàng'. *)
Theorem uploads_end_ready s :
  has_project s = true ->
  REQUESTS_AVAILABLE E = true ->
  (forall fn, fn <> [] ->
     (action_upload_file E fn s).1 = Return tt
     /\ status_var (action_upload_file E fn s).2 = lit "Sẵn sàng")
  /\ (forall folder archive,
        folder <> [] -> zip_folder E (fs (outside s)) folder = Some archive ->
        (action_upload_folder E folder s).1 = Return tt
        /\ status_var (action_upload_folder E folder s).2 = lit "Sẵn sàng").
Proof.
  intros Hp Hreq. split.
  - intros fn Hfn. unfold action_upload_file.
    rewrite !gets_bind, Hp, Hreq. cbn [negb].
    rewrite !bool_decide_false by done.
    match goal with
    | |- (spawn (try_finally ?b _) s).1 = _ /\ _ =>
        destruct (spawn_finally_status b (lit "Sẵn sàng") s) as (H1 & H2 & _)
    end.
    { apply halts_try_except.
      - apply halts_mbind; [apply returns_halts, returns_set_status|]. intros _.
        apply halts_mbind; [apply halts_tk|]. intros _.
        apply halts_mbind; [apply halts_upload_post|]. intros r.
        apply halts_mbind; [apply halts_tk|]. intros _.
        apply halts_mbind; [apply halts_gets|]. intros pid.
        apply halts_upload_done.
      - intros e. apply halts_mbind; [apply returns_halts, returns_log|].
        intros _. apply halts_tk. }
    split; [exact H1|exact H2].
  - intros folder archive Hfolder Hzip. unfold action_upload_folder.
    rewrite !gets_bind, Hp, Hreq. cbn [negb].
    rewrite !bool_decide_false by done.
    assert (Hstep : forall (k : gmap (list Z) (list Z) -> M state unit) h,
              try_except (in_world (gets fs) ≫= k) h s
              = try_except (k (fs (outside s))) h s).
    { intros k h. unfold try_except, mbind, M_bind, bind, in_world, zoom, gets.
      by destruct s. }
    rewrite !Hstep, Hzip.
    assert (Hstep2 : forall p data (k : M state unit) h,
              try_except (in_world (open_w p ;; modify (set_fs <[p := data]>)) ;; k) h s
              = try_except k h
                  (set_outside (set_fs <[p := data]>
                     (set_fs <[p := []]> (add_io (OpenForWrite p) (outside s)))) s)).
    { intros p data k h. by apply (try_except_step _ (fun _ => k) h s tt). }
    rewrite !Hstep2.
    assert (Hspawn : forall (task : M state unit) h s0,
              halts task -> try_except (spawn task) h s0 = spawn task s0).
    { intros task h s0 Ht. unfold try_except.
      destruct (returns_on_thread ActionThread task Ht s0) as [[] Hr].
      unfold spawn. destruct (on_thread ActionThread task s0) as [o s1].
      simpl in Hr. by subst o. }
    rewrite !Hspawn.
    2: apply halts_try_finally; [|apply returns_halts, returns_set_status];
         apply halts_try_except;
         [ apply halts_mbind; [apply returns_halts, returns_set_status|]; intros _;
           apply halts_mbind; [apply halts_tk|]; intros _;
           apply halts_mbind; [apply halts_upload_post|]; intros r;
           apply halts_mbind; [apply halts_tk|]; intros _;
           apply halts_upload_done
         | intros e; apply halts_mbind; [apply returns_halts, returns_log|];
           intros _; apply halts_tk ].
    match goal with
    | |- context [spawn (try_finally ?b _) ?s0] =>
        destruct (spawn_finally_status b (lit "Sẵn sàng") s0) as (H1 & H2 & _)
    end.
    { apply halts_try_except.
      - apply halts_mbind; [apply returns_halts, returns_set_status|]. intros _.
        apply halts_mbind; [apply halts_tk|]. intros _.
        apply halts_mbind; [apply halts_upload_post|]. intros r.
        apply halts_mbind; [apply halts_tk|]. intros _.
        apply halts_upload_done.
      - intros e. apply halts_mbind; [apply returns_halts, returns_log|].
        intros _. apply halts_tk. }
    split; [exact H1|exact H2].
Qed.

End Session.
End SessionFacts.

Module SessionInstances.
Import GitLabGUIApp AppSpec AppSpec3 SessionFacts Demo Demo2 Demo3 Demo5.

(** A login that the server accepts. *)
Lemma login_sets_session_witness :
  let E := env_user false [] in
  let c := GitLabClient.__init__ (Some (strip (token_var state0))) (BASE_URL E) in
  strip (token_var state0) <> []
  /\ REQUESTS_AVAILABLE E = true
  /\ (GitLabClient.test E c (outside state0)).1 = Return (user "An")
  /\ client (on_login E 5 state0).2 = Some c
  /\ user_info (on_login E 5 state0).2 = Some (user "An")
  /\ token (on_login E 5 state0).2 = Some (strip (token_var state0)).
Proof.
  intros E c.
  assert (H1 : strip (token_var state0) <> []) by (by vm_compute).
  assert (H2 : REQUESTS_AVAILABLE E = true) by reflexivity.
  assert (H3 : GitLabClient.test E c (outside state0)
               = (Return (user "An"), (GitLabClient.test E c (outside state0)).2))
    by (vm_compute; reflexivity).
  split; [exact H1|]. split; [exact H2|]. split; [by rewrite H3|].
  exact (login_sets_session E 5 state0 (user "An") _ H1 H2 H3).
Defined.

Lemma login_saves_token_witness :
  let E := env_user false [] in
  let c := GitLabClient.__init__ (Some (strip (token_var state0))) (BASE_URL E) in
  strip (token_var state0) <> []
  /\ REQUESTS_AVAILABLE E = true
  /\ save_token_var state0 = true
  /\ is_Some (Utf8.encode (strip (token_var state0)))
  /\ (load_token E (outside (on_login E 5 state0).2)).1
     = Return (Some (strip (token_var state0))).
Proof.
  intros E c.
  assert (H1 : strip (token_var state0) <> []) by (by vm_compute).
  assert (H2 : REQUESTS_AVAILABLE E = true) by reflexivity.
  assert (H3 : save_token_var state0 = true) by reflexivity.
  assert (H4 : is_Some (Utf8.encode (strip (token_var state0))))
    by (vm_compute; eauto).
  assert (H5 : GitLabClient.test E c (outside state0)
               = (Return (JObj [(lit "id", JNum 1); (lit "name", JStr (lit "An"))]),
                  (GitLabClient.test E c (outside state0)).2))
    by (vm_compute; reflexivity).
  split; [exact H1|]. split; [exact H2|]. split; [exact H3|]. split; [exact H4|].
  exact (login_saves_token E 5 state0 _ _ H1 H2 H3 (or_intror H4) H5).
Defined.

Lemma uploads_end_ready_witness :
  let E := env_pages 0 in
  has_project state2 = true
  /\ REQUESTS_AVAILABLE E = true
  /\ lit "/home/u/notes.txt" <> []
  /\ (action_upload_file E (lit "/home/u/notes.txt") state2).1 = Return tt
  /\ status_var (action_upload_file E (lit "/home/u/notes.txt") state2).2 = lit "Sẵn sàng".
Proof.
  intros E.
  assert (H1 : has_project state2 = true) by reflexivity.
  assert (H2 : REQUESTS_AVAILABLE E = true) by reflexivity.
  assert (H3 : lit "/home/u/notes.txt" <> []) by (by vm_compute).
  split; [exact H1|]. split; [exact H2|]. split; [exact H3|].
  exact (proj1 (uploads_end_ready E state2 H1 H2) (lit "/home/u/notes.txt") H3).
Defined.

End SessionInstances.

(** ** The cache at start-up *)
Module CacheFacts2.
Import GitLabGUIApp TreeSpec AppSpec AppSpec2 AppSpec3 CacheSpec UiFrames
  AppFacts AppFacts2 CacheFacts TreeFacts RunFacts.

Lemma set_log_queue_nil s : set_log_queue (log_queue s ++ []) s = s.
Proof. destruct s. unfold set_log_queue. simpl. by rewrite app_nil_r. Qed.

Lemma set_outside_same s : set_outside (outside s) s = s.
Proof. by destruct s. Qed.

Section Cache.
Context (E : env).

Lemma cache_file_exists s bs :
  fs (outside s) !! CACHE_FILE E = Some bs ->
  in_world (path_exists (CACHE_FILE E)) s = (Return true, s).
Proof.
  intros Hf. unfold in_world, zoom, path_exists, gets.
  rewrite bool_decide_true by eauto. by rewrite set_outside_same.
Qed.

(** The tree [populate_groups] builds. *)
Lemma populate_groups_tree fuel s c groups w' :
  client s = Some c ->
  GitLabClient.list_groups E fuel c (outside s) = (Return groups, w') ->
  [] ∉ Treeview.all_iids (tree s) ->
  Forall group_ok groups ->
  Forall group_named (List.filter root_group groups) ->
  NoDup (flat_map (root_iids E) (List.filter root_group groups)) ->
  tree (populate_groups E fuel s).2 = root_node E <$> shown E groups.
Proof.
  intros Hc Hl Hroot Hok Hnamed Hnodup.
  unfold populate_groups. unfold mbind at 1, M_bind, bind, gets.
  rewrite Hc. unfold spawn. rewrite on_thread_state. cbn [tree set_cur_thread].
  unfold populate_groups_task.
  erewrite try_except_step; [|reflexivity].
  erewrite try_except_step; [|reflexivity]. st_simpl. rewrite Hc.
  erewrite try_except_step.
  2:{ unfold in_world, zoom. st_simpl. rewrite Hl. reflexivity. }
  erewrite try_except_step; [|reflexivity].
  erewrite try_except_step; [|reflexivity].
  erewrite try_except_step; [|reflexivity].
  erewrite try_except_step.
  2:{ apply tree_delete_eq. st_simpl. by apply delete_children_of_root. }
  match goal with
  | |- context [try_except _ _ ?s0] =>
      destruct (insert_root_groups_tree E groups s0 Hok Hnamed eq_refl Hnodup)
        as (s1 & Hins & Htree)
  end.
  erewrite try_except_step; [|exact Hins].
  rewrite (try_except_return _ _ _ tt) by done.
  unfold set_status, tk. msimpl. st_simpl. exact Htree.
Qed.

(** The tree [_load_cache] builds from a cache that holds [groups]. *)
Lemma load_cache_tree s m groups :
  cache_document E s = Some (JObj m) ->
  dict_lookup (lit "groups") m = Some (JArr groups) ->
  [] ∉ Treeview.all_iids (tree s) ->
  Forall group_ok groups ->
  Forall group_named (List.filter root_group groups) ->
  NoDup (flat_map (root_iids E) (List.filter root_group groups)) ->
  _all_groups (_load_cache E s).2 = JArr groups
  /\ tree (_load_cache E s).2 = root_node E <$> shown E groups.
Proof.
  intros Hdoc Hg Hroot Hok Hnamed Hnodup.
  unfold cache_document in Hdoc.
  destruct (fs (outside s) !! CACHE_FILE E) as [bs|] eqn:Hf; [|done].
  cbn [mbind option_bind] in Hdoc.
  destruct (Utf8.decode bs) as [txt|] eqn:Hd; [|done].
  cbn [mbind option_bind] in Hdoc.
  unfold _load_cache.
  rewrite (bind_return_state _ _ _ _ _ (cache_file_exists s bs Hf)).
  cbn beta iota.
  erewrite try_except_step; [|by eapply json_load_eq].
  erewrite try_except_step; [|unfold py_get; rewrite Hg; reflexivity].
  do 6 (erewrite try_except_step; [|reflexivity]).
  erewrite try_except_step; [|reflexivity].
  erewrite try_except_step.
  2:{ apply tree_delete_eq. st_simpl. by apply delete_children_of_root. }
  erewrite try_except_step; [|reflexivity].
  erewrite try_except_step; [|reflexivity].
  st_simpl.
  match goal with
  | |- context [try_except _ _ ?s0] =>
      destruct (insert_root_groups_tree E groups s0 Hok Hnamed eq_refl Hnodup)
        as (s1 & Hins & Htree);
      pose proof (frame_insert_root_groups E same_cached groups s0) as Hsame
  end.
  rewrite (try_except_return _ _ _ tt) by (by rewrite Hins).
  rewrite Hins in Hsame |- *. cbn [snd] in *.
  split; [|exact Htree]. destruct Hsame as (-> & _). by st_simpl.
Qed.

(** X14. What the cache shows at start-up is what the last refresh showed:
    from a cache file that holds the groups [list_groups] returned,
    [_load_cache] builds the tree [populate_groups] built from them, the
    root groups in order of name, each with its placeholder. The groups
    are dicts whose name, if there is one, is a str; the root groups all
    have a name (the insertion of an item without text fails), and their
    identifiers do not clash. *)
Theorem cache_shows_refreshed_tree fuel s c groups w' s2 m :
  client s = Some c ->
  GitLabClient.list_groups E fuel c (outside s) = (Return groups, w') ->
  [] ∉ Treeview.all_iids (tree s) ->
  Forall group_ok groups ->
  Forall group_named (List.filter root_group groups) ->
  NoDup (flat_map (root_iids E) (List.filter root_group groups)) ->
  cache_document E s2 = Some (JObj m) ->
  dict_lookup (lit "groups") m = Some (JArr groups) ->
  [] ∉ Treeview.all_iids (tree s2) ->
  tree (_load_cache E s2).2 = tree (populate_groups E fuel s).2
  /\ tree (_load_cache E s2).2 = root_node E <$> shown E groups.
Proof.
  intros Hc Hl Hroot Hok Hnamed Hnodup Hdoc Hg Hroot2.
  destruct (load_cache_tree s2 m groups Hdoc Hg Hroot2 Hok Hnamed Hnodup) as [_ Ht].
  split; [|exact Ht].
  by rewrite Ht, (populate_groups_tree fuel s c groups w').
Qed.

(** X15. A cache that cannot be used changes nothing. Without a cache file
    [_load_cache] leaves the application as it is; with a file that is not
    UTF-8, not JSON, or not a JSON object, all it does is queue exactly one
    line for the log: the attributes, the tree and the world outside are as
    before. *)
Theorem unusable_cache_changes_nothing s :
  (forall m, cache_document E s <> Some (JObj m)) ->
  exists lines,
    _load_cache E s = (Return tt, set_log_queue (log_queue s ++ lines) s)
    /\ (length lines <= 1)%nat
    /\ (fs (outside s) !! CACHE_FILE E = None -> lines = [])
    /\ (is_Some (fs (outside s) !! CACHE_FILE E) -> length lines = 1%nat).
Proof.
  intros Hdoc. unfold cache_document in Hdoc. unfold _load_cache.
  destruct (fs (outside s) !! CACHE_FILE E) as [bs|] eqn:Hf.
  2:{ exists []. rewrite set_log_queue_nil.
      split; [|split; [simpl; lia|split; [done|by intros [? ?]]]].
      unfold mbind, M_bind, bind, in_world, zoom, path_exists, gets.
      rewrite Hf. rewrite bool_decide_false by (by intros [? ?]).
      by rewrite set_outside_same. }
  cbn [mbind option_bind] in Hdoc.
  rewrite (bind_return_state _ _ _ _ _ (cache_file_exists s bs Hf)).
  cbn beta iota.
  assert (Hraise : forall e (k : json -> M state unit),
            json_load E (CACHE_FILE E) s = (Raise e, s) ->
            exists lines,
              try_except (json_load E (CACHE_FILE E) ≫= k)
                (fun e => log E (lit "Lỗi nạp cache: " ++ exn_msg e)) s
              = (Return tt, set_log_queue (log_queue s ++ lines) s)
              /\ (length lines <= 1)%nat /\ (Some bs = None -> lines = [])
              /\ (is_Some (Some bs) -> length lines = 1%nat)).
  { intros e k He. eexists [_]. split; [|split; [simpl; lia|done]].
    unfold try_except, mbind, M_bind, bind. rewrite He. reflexivity. }
  destruct (Utf8.decode bs) as [txt|] eqn:Hd.
  2:{ eapply Hraise. unfold json_load, mbind, M_bind, bind, in_world, zoom, read_str,
        read_bytes. unfold mbind, M_bind, bind. rewrite Hf, Hd.
      unfold raise. by rewrite set_outside_same. }
  cbn [mbind option_bind] in Hdoc.
  destruct (json_loads E (universal_newlines txt)) as [v|] eqn:Hj.
  2:{ eapply Hraise. unfold json_load, mbind, M_bind, bind, in_world, zoom, read_str,
        read_bytes. unfold mbind, M_bind, bind. rewrite Hf, Hd. unfold ret. rewrite Hj.
      unfold raise. by rewrite set_outside_same. }
  erewrite try_except_step; [|by eapply json_load_eq].
  rewrite set_outside_same.
  destruct v as [| | | | |m]; try (eexists [_]; split; [reflexivity|split; [simpl; lia|done]]).
  by destruct (Hdoc m).
Qed.

End Cache.
End CacheFacts2.

Module CacheInstances2.
Import GitLabGUIApp TreeSpec AppSpec CacheSpec TreeFacts CacheFacts CacheFacts2
  Demo Demo2 Demo3 Demo4.

(** The groups are fetched and saved; a fresh application then finds the
    cache file and shows the tree of the refresh. *)
Lemma cache_shows_refreshed_tree_witness :
  let E := env_groups three_groups in
  let s2 := set_outside (outside (save_cache E saved_state).2) state0 in
  client state1 = Some client0
  /\ GitLabClient.list_groups E 5 client0 (outside state1)
     = (Return three_groups, (GitLabClient.list_groups E 5 client0 (outside state1)).2)
  /\ Forall group_ok three_groups
  /\ Forall group_named (List.filter root_group three_groups)
  /\ NoDup (flat_map (root_iids E) (List.filter root_group three_groups))
  /\ cache_document E s2 = Some (cache_data saved_state)
  /\ tree (_load_cache E s2).2 = tree (populate_groups E 5 state1).2.
Proof.
  intros E s2.
  assert (H1 : client state1 = Some client0) by reflexivity.
  assert (H2 : GitLabClient.list_groups E 5 client0 (outside state1)
               = (Return three_groups,
                  (GitLabClient.list_groups E 5 client0 (outside state1)).2))
    by (vm_compute; reflexivity).
  assert (H3 : [] ∉ Treeview.all_iids (tree state1)) by apply not_elem_of_nil.
  assert (H4 : Forall group_ok three_groups) by exact TreeInstances.three_groups_ok.
  assert (H5 : NoDup (flat_map (root_iids E) (List.filter root_group three_groups))).
  { apply (bool_decide_unpack _). vm_compute. exact I. }
  assert (H6 : cache_document E s2 = Some (cache_data saved_state))
    by (vm_compute; reflexivity).
  assert (H7 : dict_lookup (lit "groups")
                 [(lit "groups", _all_groups saved_state);
                  (lit "last_parent", last_parent_name saved_state);
                  (lit "last_subgroup", last_subgroup_name saved_state)]
               = Some (JArr three_groups)) by (vm_compute; reflexivity).
  assert (H8 : [] ∉ Treeview.all_iids (tree s2)) by apply not_elem_of_nil.
  assert (H9 : Forall group_named (List.filter root_group three_groups))
    by exact TreeInstances.three_groups_roots_named.
  split; [exact H1|]. split; [exact H2|]. split; [exact H4|]. split; [exact H9|].
  split; [exact H5|]. split; [exact H6|].
  exact (proj1 (cache_shows_refreshed_tree E 5 state1 client0 three_groups _ s2 _
                  H1 H2 H3 H4 H9 H5 H6 H7 H8)).
Defined.

(** A cache file that holds a JSON list, not an object. *)
Lemma unusable_cache_changes_nothing_witness :
  let E := env_groups three_groups in
  let s := set_outside (World {[CACHE_FILE E := lit "[1, 2]"]} None [] [] []) state0 in
  (forall m, cache_document E s <> Some (JObj m))
  /\ exists lines, _load_cache E s = (Return tt, set_log_queue (log_queue s ++ lines) s).
Proof.
  intros E s.
  assert (H1 : forall m, cache_document E s <> Some (JObj m)).
  { intros m. assert (Hd : cache_document E s = Some (JArr [JNum 1; JNum 2]))
      by (vm_compute; reflexivity). by rewrite Hd. }
  split; [exact H1|].
  destruct (unusable_cache_changes_nothing E s H1) as (lines & Heq & _).
  by exists lines.
Defined.

End CacheInstances2.

(** ** ProgressFile *)
Module ProgressFileFacts.
Import ProgressFile AppSpec3 RunFacts.

Lemma init_file p w data :
  fs w !! p = Some data ->
  __init__ p w = (Return (PF p (Some data) (Z.of_nat (length data)) 0), w).
Proof.
  intros Hf. unfold __init__, open_rb, getsize. msimpl.
  rewrite (read_bytes_some _ _ _ Hf). msimpl. by rewrite (read_bytes_some _ _ _ Hf).
Qed.

Section Read.
Context {S : Type} (ValueError : exn_class) (callback : Z -> Z -> M S unit).
Hypothesis Hcb : forall n t, halts (callback n t).

(** One [read] of an open file: the chunk is cut off the front of what was
    left, and counted. *)
Lemma read_open self size data s :
  f self = Some data ->
  -1 <= size ->
  exists chunk s',
    read ValueError callback self size s
    = (Return (chunk,
               PF (path self) (Some (drop (length chunk) data)) (total self)
                  (read_bytes self + Z.of_nat (length chunk))), s')
    /\ chunk = (if size =? -1 then data else take (Z.to_nat size) data)
    /\ (chunk = [] -> s' = s).
Proof.
  intros Hf Hsize. unfold read, file_read.
  rewrite (proj2 (Z.ltb_ge size (-1))) by lia. rewrite Hf. msimpl.
  set (chunk := if size =? -1 then data else take (Z.to_nat size) data).
  destruct chunk as [|b chunk0] eqn:Hc.
  - rewrite bool_decide_false by (by intros H). msimpl.
    eexists [], s. split; [|done]. simpl. by rewrite Z.add_0_r.
  - rewrite bool_decide_true by done. msimpl.
    pose proof (Hcb (read_bytes self + Z.of_nat (length (b :: chunk0))) (total self) s) as Hh.
    destruct (callback _ _ s) as [[[]|e|] s1]; [| |done];
      eexists _, _; (split; [reflexivity|done]).
Qed.

(** A size below -1 is refused: [read] raises, and nothing is read, counted
    or reported. *)
Lemma read_bad_size self size s :
  size < -1 ->
  read ValueError callback self size s
  = (Raise (Exn ValueError (lit "read length must be non-negative or -1")), s).
Proof.
  intros Hsize. unfold read, file_read.
  by rewrite (proj2 (Z.ltb_lt size (-1))) by lia.
Qed.

Lemma read_each_open sizes : forall self data s,
  f self = Some data ->
  Forall (fun size => -1 <= size) sizes ->
  exists chunks rest s',
    read_each ValueError callback self sizes s
    = (Return (chunks, PF (path self) (Some rest) (total self)
                         (read_bytes self + Z.of_nat (length (concat chunks)))), s')
    /\ concat chunks ++ rest = data
    /\ ((exists size, size ∈ sizes /\ (size = -1 \/ Z.of_nat (length data) <= size)) ->
        rest = []).
Proof.
  induction sizes as [|size sizes IH]; intros self data s Hf Hsizes.
  - exists [], data, s. simpl. rewrite Z.add_0_r. split; [by destruct self; simpl in *; subst|].
    split; [done|]. intros (size & Hin & _). by apply elem_of_nil in Hin.
  - apply Forall_cons_1 in Hsizes as [Hsize Hsizes].
    destruct (read_open self size data s Hf Hsize) as (chunk & s1 & Hr & Hc & _).
    cbn [read_each]. unfold mbind, M_bind, bind. rewrite Hr.
    set (self1 := PF _ _ _ _).
    destruct (IH self1 (drop (length chunk) data) s1 eq_refl Hsizes)
      as (chunks & rest & s2 & Hrs & Hcat & Hend).
    unfold mbind, M_bind, bind in Hrs. rewrite Hrs. cbn [ret path total read_bytes self1].
    exists (chunk :: chunks), rest, s2. split.
    { cbn [concat]. rewrite length_app, Nat2Z.inj_add, Z.add_assoc. reflexivity. }
    assert (Hpre : chunk ++ drop (length chunk) data = data).
    { subst chunk. destruct (size =? -1).
      - by rewrite drop_all, app_nil_r.
      - rewrite length_take.
        destruct (decide (Z.to_nat size <= length data)%nat).
        + rewrite Nat.min_l by done. apply take_drop.
        + rewrite Nat.min_r by lia. rewrite take_ge by lia.
          by rewrite drop_all, app_nil_r. }
    split.
    { cbn [concat]. rewrite <- app_assoc, Hcat. exact Hpre. }
    intros (sz & Hin & Hsz). apply elem_of_cons in Hin as [->|Hin].
    + assert (Hd : drop (length chunk) data = []).
      { subst chunk. destruct (size =? -1) eqn:Hneg.
        - apply drop_all.
        - apply Z.eqb_neq in Hneg. rewrite take_ge by lia. apply drop_all. }
      rewrite Hd in Hcat. by apply app_eq_nil in Hcat as [_ ->].
    + apply Hend. exists sz. split; [done|].
      destruct Hsz as [?|Hsz]; [by left|right].
      rewrite length_drop. lia.
Qed.

End Read.

(** What the noting callback has noted after a sequence of reads: counts
    that grow, end at the number of bytes read, and never leave the
    total behind when the total is the length of the file. *)
Lemma read_each_notes ve sizes : forall self data notes,
  f self = Some data ->
  Forall (fun size => -1 <= size) sizes ->
  exists chunks rest added,
    read_each ve note self sizes notes
    = (Return (chunks, PF (path self) (Some rest) (total self)
                         (read_bytes self + Z.of_nat (length (concat chunks)))),
       notes ++ added)
    /\ concat chunks ++ rest = data
    /\ added.*2 = replicate (length added) (total self)
    /\ StronglySorted Z.lt (read_bytes self :: added.*1)
    /\ last (read_bytes self :: added.*1)
       = Some (read_bytes self + Z.of_nat (length (concat chunks))).
Proof.
  induction sizes as [|size sizes IH]; intros self data notes Hf Hsizes.
  - exists [], data, []. simpl. rewrite Z.add_0_r, app_nil_r.
    split; [by destruct self; simpl in *; subst|].
    split; [done|]. split; [done|]. split; [repeat constructor|done].
  - apply Forall_cons_1 in Hsizes as [Hsize Hsizes].
    cbn [read_each]. unfold mbind, M_bind, bind, read, file_read.
    rewrite (proj2 (Z.ltb_ge size (-1))) by lia. rewrite Hf. msimpl.
    set (chunk := if size =? -1 then data else take (Z.to_nat size) data).
    assert (Hpre : chunk ++ drop (length chunk) data = data).
    { subst chunk. destruct (size =? -1).
      - by rewrite drop_all, app_nil_r.
      - rewrite length_take.
        destruct (decide (Z.to_nat size <= length data)%nat).
        + rewrite Nat.min_l by done. apply take_drop.
        + rewrite Nat.min_r by lia. rewrite take_ge by lia.
          by rewrite drop_all, app_nil_r. }
    destruct (decide (chunk = [])) as [He|Hne].
    + rewrite bool_decide_false by (by intros H). msimpl.
      set (self1 := PF _ _ _ _).
      destruct (IH self1 (drop (length chunk) data) notes eq_refl Hsizes)
        as (chunks & rest & added & Hrs & Hcat & Htot & Hsort & Hlast).
      unfold mbind, M_bind, bind in Hrs. rewrite Hrs. cbn [ret path total read_bytes self1] in *.
      exists (chunk :: chunks), rest, added. rewrite He in *. cbn [concat app length] in *.
      split; [done|]. split; [by rewrite Hcat|]. done.
    + rewrite bool_decide_true by done. msimpl.
      change (note ?n ?t notes) with (Return tt, notes ++ [(n, t)]). cbn beta iota.
      set (self1 := PF _ _ _ _).
      destruct (IH self1 (drop (length chunk) data)
                  (notes ++ [(read_bytes self + Z.of_nat (length chunk), total self)]) eq_refl
                  Hsizes)
        as (chunks & rest & added & Hrs & Hcat & Htot & Hsort & Hlast).
      unfold mbind, M_bind, bind in Hrs. rewrite Hrs. cbn [ret path total read_bytes self1] in *.
      exists (chunk :: chunks), rest,
        ((read_bytes self + Z.of_nat (length chunk), total self) :: added).
      assert (Hlen : (0 < length chunk)%nat) by (destruct chunk; [done|simpl; lia]).
      split.
      { rewrite <- app_assoc. cbn [concat].
        rewrite length_app, Nat2Z.inj_add, Z.add_assoc. reflexivity. }
      split; [cbn [concat]; by rewrite <- app_assoc, Hcat|].
      split; [cbn; by rewrite Htot|].
      split.
      { cbn [fmap list_fmap fst]. constructor; [exact Hsort|].
        constructor; [lia|].
        apply StronglySorted_inv in Hsort as [_ Hall].
        eapply list.Forall_impl; [exact Hall|]. intros x Hx. cbv beta in Hx. lia. }
      cbn [fmap list_fmap fst]. rewrite last_cons_cons.
      cbn [fmap list_fmap fst] in Hlast. rewrite Hlast.
      f_equal. cbn [concat]. rewrite length_app. lia.
Qed.

(** X16. Reading through a ProgressFile loses nothing and cannot fail on
    account of the callback. Opened on a file, the object's length is the
    size of the file; whatever sizes from -1 on a reader asks for, the
    chunks it gets are, in order, a prefix of the file, [read_bytes] is the
    number of bytes handed out, and once a read asked for everything (size
    -1, or at least the size of the file) nothing is left. An exception of
    the callback is swallowed. A size below -1 is refused with a
    ValueError, and then nothing is read or counted. *)
Theorem reads_cover_file {S : Type} ve (callback : Z -> Z -> M S unit) p w data sizes s :
  fs w !! p = Some data ->
  (forall n t, halts (callback n t)) ->
  Forall (fun size => -1 <= size) sizes ->
  exists self chunks self' s',
    __init__ p w = (Return self, w)
    /\ __len__ self = Z.of_nat (length data)
    /\ read_each ve callback self sizes s = (Return (chunks, self'), s')
    /\ (exists rest, f self' = Some rest /\ concat chunks ++ rest = data
        /\ ((exists size, size ∈ sizes /\ (size = -1 \/ Z.of_nat (length data) <= size)) ->
            rest = []))
    /\ read_bytes self' = Z.of_nat (length (concat chunks))
    /\ __len__ self' = Z.of_nat (length data)
    /\ (forall size s0, size < -1 ->
          read ve callback self' size s0
          = (Raise (Exn ve (lit "read length must be non-negative or -1")), s0)).
Proof.
  intros Hf Hcb Hsizes.
  destruct (read_each_open ve callback Hcb sizes
              (PF p (Some data) (Z.of_nat (length data)) 0) data s eq_refl Hsizes)
    as (chunks & rest & s' & Hr & Hcat & Hend).
  eexists _, chunks, _, s'. split; [by apply init_file|].
  split; [done|]. split; [exact Hr|]. split; [by exists rest|].
  split; [done|]. split; [done|].
  intros size s0 Hsize. by apply read_bad_size.
Qed.

Lemma reads_cover_file_witness :
  let w := World {[lit "/home/u/notes.txt" := lit "hello"]} None [] [] [] in
  fs w !! lit "/home/u/notes.txt" = Some (lit "hello")
  /\ (forall n t, halts (note n t))
  /\ Forall (fun size => -1 <= size) [2; 0; -1; 4]
  /\ exists self chunks self' s',
       __init__ (lit "/home/u/notes.txt") w = (Return self, w)
       /\ read_each TypeError note self [2; 0; -1; 4] [] = (Return (chunks, self'), s')
       /\ read_bytes self' = Z.of_nat (length (concat chunks)).
Proof.
  intros w.
  assert (H1 : fs w !! lit "/home/u/notes.txt" = Some (lit "hello"))
    by apply lookup_singleton_eq.
  assert (H2 : forall n t, halts (note n t)) by (by intros n t s).
  assert (H3 : Forall (fun size => -1 <= size) [2; 0; -1; 4])
    by (repeat constructor; lia).
  split; [exact H1|]. split; [exact H2|]. split; [exact H3|].
  destruct (reads_cover_file TypeError note (lit "/home/u/notes.txt") w (lit "hello")
              [2; 0; -1; 4] [] H1 H2 H3)
    as (self & chunks & self' & s' & Hi & _ & Hr & _ & Hn & _).
  by exists self, chunks, self', s'.
Defined.

(** X17. The progress a ProgressFile reports is exact. With a callback
    that notes what it is told, and reads of sizes from -1 on: every
    report names the size of the file as the total; the counts are
    positive and strictly growing, one report for each chunk that was not
    empty; the last count is the number of bytes read so far, which never
    exceeds the size of the file. An empty file is never reported. *)
Theorem progress_reports_are_exact ve p w data sizes :
  fs w !! p = Some data ->
  Forall (fun size => -1 <= size) sizes ->
  exists self chunks self' notes,
    __init__ p w = (Return self, w)
    /\ read_each ve note self sizes [] = (Return (chunks, self'), notes)
    /\ Forall (fun x => x.2 = Z.of_nat (length data)) notes
    /\ StronglySorted Z.lt (0 :: notes.*1)
    /\ last (0 :: notes.*1) = Some (read_bytes self')
    /\ 0 <= read_bytes self' <= Z.of_nat (length data)
    /\ length notes = length (List.filter (fun c => negb (bool_decide (c = []))) chunks)
    /\ (data = [] -> notes = []).
Proof.
  intros Hf Hsizes.
  assert (Hcount : forall sizes self d notes chunks self' notes',
            f self = Some d ->
            read_each ve note self sizes notes = (Return (chunks, self'), notes') ->
            length notes'
            = (length notes
               + length (List.filter (fun c => negb (bool_decide (c = []))) chunks))%nat).
  { clear. induction sizes as [|size sizes IH]; intros self d notes chunks self' notes' Hf.
    - intros [= <- <- <-]. simpl. lia.
    - cbn [read_each]. unfold mbind, M_bind, bind, read, file_read.
      destruct (size <? -1); [by msimpl|]. rewrite Hf. msimpl.
      set (chunk := if size =? -1 then d else take (Z.to_nat size) d).
      destruct (decide (chunk = [])) as [He|Hne].
      + rewrite bool_decide_false by (by intros H). msimpl.
        set (self1 := PF _ _ _ _).
        destruct (read_each ve note self1 sizes notes) as [[[cs sf]|e|] n1] eqn:Hr;
          [|done|done].
        intros [= <- <- <-]. rewrite (IH self1 _ _ _ _ _ eq_refl Hr).
        cbn [List.filter]. by rewrite bool_decide_true by done.
      + rewrite bool_decide_true by done. msimpl.
        change (note ?n ?t notes) with (Return tt, notes ++ [(n, t)]). cbn beta iota.
        set (self1 := PF _ _ _ _).
        destruct (read_each ve note self1 sizes _) as [[[cs sf]|e|] n1] eqn:Hr;
          [|done|done].
        intros [= <- <- <-]. rewrite (IH self1 _ _ _ _ _ eq_refl Hr).
        cbn [List.filter]. rewrite bool_decide_false by done. cbn [negb length].
        rewrite length_app. simpl. lia. }
  destruct (read_each_notes ve sizes (PF p (Some data) (Z.of_nat (length data)) 0) data []
              eq_refl Hsizes)
    as (chunks & rest & added & Hr & Hcat & Htot & Hsort & Hlast).
  cbn [path total read_bytes app] in *.
  eexists _, chunks, _, added. split; [by apply init_file|].
  split; [exact Hr|].
  assert (Hle : Z.of_nat (length (concat chunks)) <= Z.of_nat (length data)).
  { rewrite <- Hcat, length_app. lia. }
  split.
  { apply list.Forall_forall. intros x Hx.
    assert (Hx2 : x.2 ∈ added.*2) by (by apply list_elem_of_fmap_2).
    rewrite Htot in Hx2. by apply elem_of_replicate in Hx2 as [-> _]. }
  split; [exact Hsort|]. split; [by rewrite Hlast|].
  split; [cbn [read_bytes]; lia|].
  split.
  { rewrite (Hcount sizes (PF p (Some data) (Z.of_nat (length data)) 0) data [] _ _ _
               eq_refl Hr). done. }
  intros ->. destruct (concat chunks) eqn:Hc; [|done].
  destruct added as [|x added]; [done|].
  cbn [fmap list_fmap fst] in Hsort, Hlast.
  apply StronglySorted_inv in Hsort as [Hs Hall]. apply Forall_cons_1 in Hall as [Hx _].
  assert (Hlast' : last (x.1 :: added.*1) = Some 0).
  { rewrite last_cons_cons in Hlast. by rewrite Hlast. }
  assert (Hge : forall l x0, StronglySorted Z.lt (x0 :: l) -> forall y, last (x0 :: l) = Some y -> x0 <= y).
  { clear. induction l as [|a l IH]; intros x0 Hs y.
    - intros [= <-]. lia.
    - rewrite last_cons_cons. intros Hy.
      apply StronglySorted_inv in Hs as [Hs Hall]. apply Forall_cons_1 in Hall as [Ha _].
      specialize (IH a Hs y Hy). lia. }
  specialize (Hge _ _ Hs 0 Hlast'). lia.
Qed.

Lemma progress_reports_are_exact_witness :
  let w := World {[lit "/home/u/notes.txt" := lit "hello"]} None [] [] [] in
  fs w !! lit "/home/u/notes.txt" = Some (lit "hello")
  /\ Forall (fun size => -1 <= size) [2; -1]
  /\ exists self chunks self' notes,
       __init__ (lit "/home/u/notes.txt") w = (Return self, w)
       /\ read_each TypeError note self [2; -1] [] = (Return (chunks, self'), notes)
       /\ Forall (fun x => x.2 = Z.of_nat (length (lit "hello"))) notes.
Proof.
  intros w.
  assert (H1 : fs w !! lit "/home/u/notes.txt" = Some (lit "hello"))
    by apply lookup_singleton_eq.
  assert (H2 : Forall (fun size => -1 <= size) [2; -1]) by (repeat constructor; lia).
  split; [exact H1|]. split; [exact H2|].
  destruct (progress_reports_are_exact TypeError (lit "/home/u/notes.txt") w (lit "hello")
              [2; -1] H1 H2)
    as (self & chunks & self' & notes & Hi & Hr & Hall & _).
  by exists self, chunks, self', notes.
Defined.

End ProgressFileFacts.

(** ** Items of the tree: looking up, adding below, removing *)
Module TreeFacts2.
Import Treeview Treeview2 TreeFacts.

(** Induction on an item with the hypothesis for all its children. *)
Lemma node_rect' (P : node -> Prop) :
  (forall i t v cs, Forall P cs -> P (Node i t v cs)) -> forall n, P n.
Proof.
  intros H. fix IH 1. intros [i t v cs]. apply H.
  induction cs as [|c cs IHcs]; constructor; [apply IH|exact IHcs].
Qed.

Lemma all_iids_app r1 r2 : all_iids (r1 ++ r2) = all_iids r1 ++ all_iids r2.
Proof. unfold all_iids. apply flat_map_app. Qed.

Lemma all_iids_cons n r : all_iids (n :: r) = iids n ++ all_iids r.
Proof. done. Qed.

Lemma iids_node i t v cs : iids (Node i t v cs) = i :: all_iids cs.
Proof. done. Qed.

Lemma add_child_notin p new n : p ∉ iids n -> add_child p new n = n.
Proof.
  induction n as [i t v cs IH] using node_rect'. rewrite iids_node.
  intros [Hi Hcs]%not_elem_of_cons. cbn [add_child].
  rewrite bool_decide_false by done. f_equal.
  induction cs as [|c cs IHcs]; [done|].
  apply Forall_cons_1 in IH as [Hc IH]. rewrite all_iids_cons in Hcs.
  apply not_elem_of_app in Hcs as [Hc1 Hc2]. cbn [List.map].
  by rewrite (Hc Hc1), (IHcs IH Hc2).
Qed.

Lemma map_add_child_notin p new l :
  p ∉ all_iids l -> List.map (add_child p new) l = l.
Proof.
  induction l as [|c l IH]; [done|]. rewrite all_iids_cons.
  intros [H1 H2]%not_elem_of_app. cbn [List.map].
  by rewrite add_child_notin, IH.
Qed.

Lemma filter_keep_all (i : list Z) l :
  i ∉ node_iid <$> l ->
  List.filter (fun c => negb (bool_decide (node_iid c = i))) l = l.
Proof.
  induction l as [|c l IH]; [done|]. rewrite fmap_cons.
  intros [H1 H2]%not_elem_of_cons. cbn [List.filter].
  rewrite bool_decide_false by done. cbn [negb]. by rewrite IH.
Qed.

Lemma node_iids_subset l : node_iid <$> l ⊆ all_iids l.
Proof.
  intros i (n & -> & Hn)%list_elem_of_fmap. by apply root_iid_in_all.
Qed.

Lemma prune_notin i n : i ∉ iids n -> prune i n = n.
Proof.
  induction n as [j t v cs IH] using node_rect'. rewrite iids_node.
  intros [Hi Hcs]%not_elem_of_cons. cbn [prune]. f_equal.
  assert (Hmap : List.map (prune i) cs = cs).
  { clear Hi. induction cs as [|c cs IHcs]; [done|].
    apply Forall_cons_1 in IH as [Hc IH]. rewrite all_iids_cons in Hcs.
    apply not_elem_of_app in Hcs as [Hc1 Hc2]. cbn [List.map].
    by rewrite (Hc Hc1), (IHcs IH Hc2). }
  rewrite Hmap. apply filter_keep_all. intros Hin. by apply Hcs, node_iids_subset.
Qed.

Lemma map_prune_notin i l : i ∉ all_iids l -> List.map (prune i) l = l.
Proof.
  induction l as [|c l IH]; [done|]. rewrite all_iids_cons.
  intros [H1 H2]%not_elem_of_app. cbn [List.map]. by rewrite prune_notin, IH.
Qed.

Lemma remove_notin i l : i ∉ all_iids l -> remove l i = l.
Proof.
  intros Hi. unfold remove. rewrite map_prune_notin by done.
  apply filter_keep_all. intros Hin. by apply Hi, node_iids_subset.
Qed.

Lemma find_node_notin i n : i ∉ iids n -> find_node i n = None.
Proof.
  induction n as [j t v cs IH] using node_rect'. rewrite iids_node.
  intros [Hi Hcs]%not_elem_of_cons. cbn [find_node].
  rewrite bool_decide_false by done.
  induction cs as [|c cs IHcs]; [done|].
  apply Forall_cons_1 in IH as [Hc IH]. rewrite all_iids_cons in Hcs.
  apply not_elem_of_app in Hcs as [Hc1 Hc2].
  rewrite (Hc Hc1). by apply IHcs.
Qed.

Lemma find_node_here i t v cs : find_node i (Node i t v cs) = Some (Node i t v cs).
Proof. cbn [find_node]. by rewrite bool_decide_true. Qed.

Lemma omap_find_node_notin i l : i ∉ all_iids l -> omap (find_node i) l = [].
Proof.
  induction l as [|c l IH]; [done|]. rewrite all_iids_cons.
  intros [H1 H2]%not_elem_of_app. cbn [omap list_omap].
  by rewrite find_node_notin, IH.
Qed.

(** A top-level item is found as it is. *)
Lemma lookup_top pre i t v cs post :
  i ∉ all_iids pre ->
  lookup (pre ++ Node i t v cs :: post) i = Some (Node i t v cs).
Proof.
  intros Hpre. unfold lookup. rewrite omap_app, omap_find_node_notin by done.
  cbn [app omap list_omap]. by rewrite find_node_here.
Qed.

(** [get_children] gives the children of the item [lookup] finds. *)
Lemma find_children_find_node i n :
  find_children i n = (fun m => node_iid <$> node_children m) <$> find_node i n.
Proof.
  induction n as [j t v cs IH] using node_rect'. cbn [find_children find_node].
  destruct (bool_decide (j = i)); [done|].
  induction cs as [|c cs IHcs]; [done|].
  apply Forall_cons_1 in IH as [Hc IH]. rewrite Hc.
  destruct (find_node i c); [done|]. by apply IHcs.
Qed.

Lemma get_children_lookup roots i n :
  i <> [] -> lookup roots i = Some n ->
  get_children roots i = Some (node_iid <$> node_children n).
Proof.
  intros Hi. unfold lookup, get_children. rewrite bool_decide_false by done.
  induction roots as [|r roots IH]; [done|].
  cbn [omap list_omap]. rewrite find_children_find_node.
  destruct (find_node i r) as [m|]; cbn [fmap option_fmap option_map head].
  - by intros [= ->].
  - exact IH.
Qed.

Lemma lookup_in_all roots i n : lookup roots i = Some n -> i ∈ all_iids roots.
Proof.
  intros Hl. destruct (decide (i ∈ all_iids roots)) as [|Hn]; [done|].
  unfold lookup in Hl. by rewrite omap_find_node_notin in Hl.
Qed.

End TreeFacts2.

(** ** Opening an item of the tree *)
Module OpenFacts.
Import GitLabGUIApp GitLabGUIApp2 TreeSpec OpenSpec OpenSpec2 AppSpec AppSpec2 AppSpec3 UiFrames
  AppFacts AppFacts2 CacheFacts SortFacts TreeFacts TreeFacts2 RunFacts.
Import Treeview Treeview2.

Lemma try_except_raise {S A B} (m : M S A) (k : A -> M S B) h s e s' :
  m s = (Raise e, s') -> try_except (m ≫= k) h s = h e s'.
Proof. intros Hm. unfold try_except, mbind, M_bind, bind. by rewrite Hm. Qed.

#[global] Instance same_data_preorder : PreOrder same_data.
Proof.
  split; [by intros s|].
  intros s1 s2 s3 (?&?&?&?) (?&?&?&?). unfold same_data. split_and!; congruence.
Qed.

#[global] Instance same_data_frame : UiFrame same_data.
Proof. split; [apply _|..]; intros; intros s; done. Qed.

Lemma dummy_suffix i : is_dummy (i ++ lit "_dummy") = true.
Proof. unfold is_dummy, endswith. apply bool_decide_eq_true. by exists i. Qed.

Lemma app_dummy_ne (i : list Z) : i ++ lit "_dummy" <> i.
Proof.
  intros H. apply (f_equal length) in H. rewrite length_app in H.
  assert (Hl : length (lit "_dummy") = 6%nat) by (by vm_compute). lia.
Qed.

(** Removing a child of a top-level item. *)
Lemma remove_child_top pre i t v d dt dv post :
  NoDup (all_iids (pre ++ Node i t v [Node d dt dv []] :: post)) ->
  remove (pre ++ Node i t v [Node d dt dv []] :: post) d
  = pre ++ Node i t v [] :: post.
Proof.
  rewrite all_iids_app, all_iids_cons, iids_node. cbn [all_iids flat_map iids app].
  intros Hnd. apply NoDup_app in Hnd as (_ & Hpre & Hnd).
  apply NoDup_cons in Hnd as [Hi Hnd]. apply NoDup_cons in Hnd as [Hd _].
  assert (Hdpre : d ∉ all_iids pre).
  { intros Hin. apply (Hpre _ Hin). apply list_elem_of_further, list_elem_of_here. }
  assert (Hdpost : d ∉ all_iids post) by done.
  assert (Hdi : i <> d).
  { intros ->. apply Hi. apply list_elem_of_here. }
  unfold remove. rewrite map_app. cbn [List.map prune].
  rewrite !map_prune_notin by done. cbn [List.filter node_iid].
  rewrite bool_decide_true by done. cbn [negb].
  rewrite List.filter_app. cbn [List.filter node_iid].
  rewrite (bool_decide_false (i = d)) by done. cbn [negb].
  rewrite !filter_keep_all; [done| |].
  - intros Hin. by apply Hdpost, node_iids_subset.
  - intros Hin. by apply Hdpre, node_iids_subset.
Qed.

(** Adding a child below a top-level item. *)
Lemma add_child_top pre i t v kids post new :
  i ∉ all_iids pre -> i ∉ all_iids post ->
  List.map (add_child i new) (pre ++ Node i t v kids :: post)
  = pre ++ Node i t v (kids ++ [new]) :: post.
Proof.
  intros Hpre Hpost. rewrite map_app. cbn [List.map add_child].
  rewrite bool_decide_true by done. by rewrite !map_add_child_notin.
Qed.

(** Adding a child below the last child of a top-level item. *)
Lemma add_child_second pre i t v kids j jt jv post new :
  j ∉ all_iids pre -> j ∉ all_iids post -> j <> i -> j ∉ all_iids kids ->
  List.map (add_child j new) (pre ++ Node i t v (kids ++ [Node j jt jv []]) :: post)
  = pre ++ Node i t v (kids ++ [Node j jt jv [new]]) :: post.
Proof.
  intros Hpre Hpost Hji Hkids. rewrite map_app. cbn [List.map add_child].
  rewrite (bool_decide_false (i = j)) by done.
  rewrite map_app. cbn [List.map add_child]. rewrite (bool_decide_true (j = j)) by done.
  by rewrite !map_add_child_notin by done.
Qed.

Lemma perm_new_child {A} (a b c d x : list A) (i : A) :
  (a ++ (i :: b ++ x) ++ c) ++ d ≡ₚ (a ++ (i :: b) ++ c) ++ x ++ d.
Proof.
  rewrite <- !app_assoc, <- !app_comm_cons. apply Permutation_app_head. constructor.
  rewrite <- !app_assoc. apply Permutation_app_head.
  rewrite !app_assoc. apply Permutation_app_tail, Permutation_app_comm.
Qed.

Lemma all_iids_snoc l n : all_iids (l ++ [n]) = all_iids l ++ iids n.
Proof. rewrite all_iids_app, all_iids_cons. unfold all_iids at 2. simpl. by rewrite app_nil_r. Qed.

Section Open.
Context (E : env) (L : lib).

Lemma tree_item_values_eq i n s :
  i <> [] -> lookup (tree s) i = Some n ->
  tree_item_values E i s = (Return (py_str E <$> node_values n), s).
Proof.
  intros Hi Hn. unfold tree_item_values. rewrite gets_bind.
  rewrite bool_decide_false by done. by rewrite Hn.
Qed.

Lemma tree_get_children_eq i n s :
  i <> [] -> lookup (tree s) i = Some n ->
  tree_get_children i s = (Return (node_iid <$> node_children n), asked_children i s).
Proof.
  intros Hi Hn. unfold tree_get_children, tk. msimpl. st_simpl.
  by rewrite (get_children_lookup _ _ _ Hi Hn).
Qed.

Lemma existsb_is_dummy_false cs :
  Forall (fun c => is_dummy (node_iid c) = false) cs ->
  existsb is_dummy (node_iid <$> cs) = false.
Proof.
  induction 1 as [|c cs Hc _ IH]; [done|]. rewrite fmap_cons. cbn [existsb].
  by rewrite Hc, IH.
Qed.

(** An item whose children have been loaded is left alone. *)
Lemma on_tree_open_loaded s item n :
  item <> [] ->
  lookup (tree s) item = Some n ->
  (2 <= length (node_values n))%nat ->
  node_children n <> [] ->
  Forall (fun c => is_dummy (node_iid c) = false) (node_children n) ->
  on_tree_open E L item s = (Return tt, asked_children item s).
Proof.
  intros Hi Hn Hv Hcs Hd. unfold on_tree_open.
  rewrite bool_decide_false by done.
  rewrite (bind_return_state _ _ _ _ _ (tree_item_values_eq item n s Hi Hn)).
  destruct (node_values n) as [|v0 [|v1 vs]] eqn:Hvals; [simpl in Hv; lia|simpl in Hv; lia|].
  rewrite bool_decide_false by done.
  erewrite bind_return_state; [|reflexivity].
  erewrite bind_return_state; [|reflexivity].
  rewrite (bind_return_state _ _ _ _ _ (tree_get_children_eq item n s Hi Hn)).
  rewrite bool_decide_true.
  2:{ destruct (node_children n); [done|]. by rewrite fmap_cons. }
  by rewrite (existsb_is_dummy_false _ Hd).
Qed.

Lemma subgroup_iid_nonempty g : subgroup_iid E g <> [].
Proof.
  unfold subgroup_iid. intros H. apply (f_equal length) in H.
  rewrite length_app in H.
  assert (Hl : length (lit "subgroup_") = 9%nat) by (by vm_compute). simpl in H. lia.
Qed.

Lemma project_iid_nonempty p : project_iid E p <> [].
Proof.
  unfold project_iid. intros H. apply (f_equal length) in H.
  rewrite length_app in H.
  assert (Hl : length (lit "project_") = 8%nat) by (by vm_compute). simpl in H. lia.
Qed.

(** What a tree with a top-level item [item] whose identifiers are all
    different says about [item]. *)
Lemma top_item_unique pre item t v kids post :
  NoDup (all_iids (pre ++ Node item t v kids :: post)) ->
  (item ∉ all_iids pre) /\ (item ∉ all_iids post) /\ (item ∉ all_iids kids)
  /\ (item ∈ all_iids (pre ++ Node item t v kids :: post)).
Proof.
  rewrite all_iids_app, all_iids_cons, iids_node.
  intros Hnd. apply NoDup_app in Hnd as (_ & Hpre & Hnd).
  apply NoDup_cons in Hnd as [Hi _].
  apply not_elem_of_app in Hi as [Hk Hp].
  split_and!; [|done|done|].
  - intros Hin. apply (Hpre _ Hin). apply list_elem_of_here.
  - apply elem_of_app. right. apply list_elem_of_here.
Qed.

Lemma insert_subgroup_step pre item t v kids post sg s :
  group_named sg ->
  item <> [] ->
  tree s = pre ++ Node item t v kids :: post ->
  NoDup (all_iids (tree s) ++ iids (subgroup_node E sg)) ->
  exists s',
    insert_subgroup E item sg s = (Return tt, s')
    /\ tree s' = pre ++ Node item t v (kids ++ [subgroup_node E sg]) :: post.
Proof.
  intros [n Hname] Hitem Htree Hnd.
  destruct sg as [| | | | |m]; try done. cbn [member] in Hname.
  apply NoDup_app in Hnd as (Hnd & Hdisj & _).
  assert (Hsid : subgroup_iid E (JObj m) ∉ all_iids (tree s)).
  { intros Hin. apply (Hdisj _ Hin). apply list_elem_of_here. }
  assert (Hsd : subgroup_iid E (JObj m) ++ lit "_dummy" ∉ all_iids (tree s)).
  { intros Hin. apply (Hdisj _ Hin). cbn. apply list_elem_of_further, list_elem_of_here. }
  rewrite Htree in Hnd, Hsid, Hsd.
  destruct (top_item_unique _ _ _ _ _ _ Hnd) as (Hipre & Hipost & Hikids & Hiin).
  unfold insert_subgroup. unfold py_get. msimpl.
  change (lit "subgroup_" ++ py_str E (default JNull (dict_lookup (lit "id") m)))
    with (subgroup_iid E (JObj m)).
  erewrite tree_insert_eq.
  2:{ rewrite Htree.
      apply insert_below; [by rewrite Hname|apply subgroup_iid_nonempty|done|done|done]. }
  rewrite add_child_top by done.
  pose proof Hsid as Hsid'. rewrite all_iids_app, all_iids_cons, iids_node in Hsid'.
  apply not_elem_of_app in Hsid' as [Hs1 Hs2].
  apply not_elem_of_cons in Hs2 as [Hs2 Hs3].
  apply not_elem_of_app in Hs3 as [Hs3 Hs4].
  erewrite tree_insert_eq.
  2:{ st_simpl. apply insert_below.
      - done.
      - intros H. apply app_eq_nil in H as [H _]. by apply subgroup_iid_nonempty in H.
      - rewrite all_iids_app, all_iids_cons, iids_node, all_iids_app.
        cbn [all_iids flat_map iids app].
        rewrite all_iids_app, all_iids_cons, iids_node in Hsd.
        intros [Hin|Hin]%elem_of_app; [by apply Hsd, elem_of_app; left|].
        apply elem_of_cons in Hin as [Hin|Hin].
        { apply Hsd. apply elem_of_app. right. rewrite Hin. apply list_elem_of_here. }
        apply elem_of_app in Hin as [Hin|Hin].
        + apply elem_of_app in Hin as [Hin|Hin].
          * apply Hsd. apply elem_of_app. right. apply list_elem_of_further.
            apply elem_of_app. by left.
          * apply list_elem_of_singleton in Hin. by apply app_dummy_ne in Hin.
        + apply Hsd. apply elem_of_app. right. apply list_elem_of_further.
          apply elem_of_app. by right.
      - apply subgroup_iid_nonempty.
      - rewrite all_iids_app, all_iids_cons, iids_node, all_iids_app.
        apply elem_of_app. right. apply list_elem_of_further.
        apply elem_of_app. left. apply elem_of_app. right. apply list_elem_of_here. }
  eexists. split; [reflexivity|]. st_simpl.
  by rewrite add_child_second.
Qed.

Lemma insert_subgroup_loop pre item t v post subs : forall kids s,
  Forall group_named subs ->
  item <> [] ->
  tree s = pre ++ Node item t v kids :: post ->
  NoDup (all_iids (tree s) ++ all_iids (subgroup_node E <$> subs)) ->
  exists s',
    for_each subs (insert_subgroup E item) s = (Return tt, s')
    /\ tree s' = pre ++ Node item t v (kids ++ (subgroup_node E <$> subs)) :: post.
Proof.
  induction subs as [|sg subs IH]; intros kids s Hobj Hitem Htree Hnd.
  - exists s. by rewrite app_nil_r.
  - apply Forall_cons_1 in Hobj as [Hsg Hobj].
    rewrite fmap_cons, all_iids_cons in Hnd.
    destruct (insert_subgroup_step pre item t v kids post sg s Hsg Hitem Htree)
      as (s1 & Hstep & Htree1).
    { rewrite app_assoc in Hnd. by apply NoDup_app in Hnd as [? _]. }
    destruct (IH (kids ++ [subgroup_node E sg]) s1 Hobj Hitem Htree1) as (s2 & Hloop & Htree2).
    { rewrite Htree1, all_iids_app, all_iids_cons, iids_node, all_iids_snoc.
      rewrite Htree, all_iids_app, all_iids_cons, iids_node in Hnd.
      eapply NoDup_Permutation_proper; [|exact Hnd]. apply perm_new_child. }
    exists s2. cbn [for_each]. rewrite (bind_return_state _ _ _ _ _ Hstep).
    split; [done|]. rewrite Htree2, <- app_assoc. done.
Qed.

Lemma insert_project_step pre item t v kids post p s :
  (exists m, p = JObj m) ->
  item <> [] ->
  tree s = pre ++ Node item t v kids :: post ->
  NoDup (all_iids (tree s) ++ iids (project_node E p)) ->
  exists s',
    insert_project E item p s = (Return tt, s')
    /\ tree s' = pre ++ Node item t v (kids ++ [project_node E p]) :: post.
Proof.
  intros [m ->] Hitem Htree Hnd.
  apply NoDup_app in Hnd as (Hnd & Hdisj & _).
  assert (Hpid : project_iid E (JObj m) ∉ all_iids (tree s)).
  { intros Hin. apply (Hdisj _ Hin). apply list_elem_of_here. }
  rewrite Htree in Hnd, Hpid.
  destruct (top_item_unique _ _ _ _ _ _ Hnd) as (Hipre & Hipost & Hikids & Hiin).
  unfold insert_project. unfold py_get. msimpl.
  change (lit "project_" ++ py_str E (default JNull (dict_lookup (lit "id") m)))
    with (project_iid E (JObj m)).
  erewrite tree_insert_eq.
  2:{ rewrite Htree.
      apply insert_below; [done|apply project_iid_nonempty|done|done|done]. }
  eexists. split; [reflexivity|]. st_simpl. by rewrite add_child_top.
Qed.

Lemma insert_project_loop pre item t v post ps : forall kids s,
  Forall (fun g => exists m, g = JObj m) ps ->
  item <> [] ->
  tree s = pre ++ Node item t v kids :: post ->
  NoDup (all_iids (tree s) ++ all_iids (project_node E <$> ps)) ->
  exists s',
    for_each ps (insert_project E item) s = (Return tt, s')
    /\ tree s' = pre ++ Node item t v (kids ++ (project_node E <$> ps)) :: post.
Proof.
  induction ps as [|p ps IH]; intros kids s Hobj Hitem Htree Hnd.
  - exists s. by rewrite app_nil_r.
  - apply Forall_cons_1 in Hobj as [Hp Hobj].
    rewrite fmap_cons, all_iids_cons in Hnd.
    destruct (insert_project_step pre item t v kids post p s Hp Hitem Htree)
      as (s1 & Hstep & Htree1).
    { rewrite app_assoc in Hnd. by apply NoDup_app in Hnd as [? _]. }
    destruct (IH (kids ++ [project_node E p]) s1 Hobj Hitem Htree1) as (s2 & Hloop & Htree2).
    { rewrite Htree1, all_iids_app, all_iids_cons, iids_node, all_iids_snoc.
      rewrite Htree, all_iids_app, all_iids_cons, iids_node in Hnd.
      eapply NoDup_Permutation_proper; [|exact Hnd]. apply perm_new_child. }
    exists s2. cbn [for_each]. rewrite (bind_return_state _ _ _ _ _ Hstep).
    split; [done|]. rewrite Htree2, <- app_assoc. done.
Qed.

Lemma all_groups_or_empty_eq s groups :
  _all_groups s = JArr groups -> all_groups_or_empty s = (Return groups, s).
Proof.
  intros Hg. unfold all_groups_or_empty. rewrite gets_bind, Hg. cbn [truthy].
  destruct groups; [|done]. by rewrite bool_decide_true by done.
Qed.

Lemma filter_child_of gid groups (s : state) :
  Forall group_ok groups ->
  filter_M (fun g => p ← py_get g (lit "parent_id") JNull; ret (py_eq_int p gid)) groups s
  = (Return (List.filter (child_of gid) groups), s).
Proof.
  induction 1 as [|g groups (m & -> & _) _ IH]; [done|].
  cbn [filter_M List.filter]. unfold bind at 1.
  change ((py_get (JObj m) (lit "parent_id") JNull
           ≫= (fun p => ret (py_eq_int p gid))) s)
    with (Return (child_of gid (JObj m)), s).
  cbn beta iota. by rewrite (bind_return_state _ _ _ _ _ IH).
Qed.

Lemma sorted_in_order l (s : state) :
  Forall group_ok l -> sorted l (name_key E) s = (Return (in_order E l), s).
Proof.
  intros Hl. unfold sorted.
  by rewrite (bind_return_state _ _ _ _ _ (map_name_key E l s Hl)).
Qed.

Lemma Forall_filter_ok (p : json -> bool) l :
  Forall group_ok l -> Forall group_ok (List.filter p l).
Proof.
  induction 1 as [|g l Hg _ IH]; [constructor|]. cbn [List.filter].
  destruct (p g); [by constructor|done].
Qed.

Lemma in_order_perm l : in_order E l ≡ₚ l.
Proof. apply (sort_by_key (sort_key E) l). Qed.

Lemma Forall_in_order_ok l : Forall group_ok l -> Forall group_ok (in_order E l).
Proof. intros H. by rewrite in_order_perm. Qed.

Lemma is_dummy_nonempty d : is_dummy d = true -> d <> [].
Proof.
  unfold is_dummy, endswith. intros [k ->]%bool_decide_eq_true Hnil.
  apply app_eq_nil in Hnil as [_ Hnil]. by vm_compute in Hnil.
Qed.

(** The loop of [on_tree_open] that takes the placeholder away, for a
    top-level item with no child or the placeholder only. *)
Lemma delete_dummies pre item t v kids post s :
  tree s = pre ++ Node item t v kids :: post ->
  NoDup (all_iids (tree s)) ->
  (kids = [] \/ exists d dt dv, kids = [Node d dt dv []] /\ is_dummy d = true) ->
  exists s1,
    for_each (node_iid <$> kids)
      (fun c => if is_dummy c then tree_delete [c] else ret tt) s = (Return tt, s1)
    /\ tree s1 = pre ++ Node item t v [] :: post
    /\ same_data s s1.
Proof.
  intros Htree Hnd [->|(d & dt & dv & -> & Hd)].
  - exists s. by rewrite Htree.
  - cbn [fmap list_fmap for_each node_iid]. rewrite Hd.
    erewrite bind_return_state.
    2:{ apply tree_delete_eq. unfold delete. cbn [forallb].
        rewrite (bool_decide_false (d = [])) by (by apply is_dummy_nonempty).
        rewrite bool_decide_true.
        2:{ rewrite Htree, all_iids_app, all_iids_cons, iids_node.
            apply elem_of_app. right. apply list_elem_of_further.
            apply elem_of_app. left. apply list_elem_of_here. }
        cbn [negb andb foldl]. rewrite Htree. rewrite remove_child_top; [done|].
        by rewrite <- Htree. }
    eexists. split; [reflexivity|]. by st_simpl.
Qed.

(** Opening a top-level item of kind group comes down to loading its
    children into the item, emptied of its placeholder. *)
Lemma on_tree_open_group s pre item name gid kids post :
  item <> [] ->
  tree s = pre ++ Node item name [JStr (lit "group"); JNum gid] kids :: post ->
  (kids = [] \/ exists d dt dv, kids = [Node d dt dv []] /\ is_dummy d = true) ->
  NoDup (all_iids (tree s)) ->
  int_of_str L (str_of_Z gid) = Some gid ->
  exists s1,
    on_tree_open E L item s = _load_subgroups_and_projects E item gid s1
    /\ tree s1 = pre ++ Node item name [JStr (lit "group"); JNum gid] [] :: post
    /\ same_data s s1.
Proof.
  intros Hitem Htree Hkids Hnd Hint.
  assert (Hunique := Hnd). rewrite Htree in Hunique.
  apply top_item_unique in Hunique as (Hipre & _).
  assert (Hlook : lookup (tree s) item
                  = Some (Node item name [JStr (lit "group"); JNum gid] kids)).
  { rewrite Htree. by apply lookup_top. }
  unfold on_tree_open. rewrite bool_decide_false by done.
  rewrite (bind_return_state _ _ _ _ _ (tree_item_values_eq item _ s Hitem Hlook)).
  cbn [node_values fmap list_fmap]. rewrite bool_decide_false by done.
  erewrite bind_return_state; [|reflexivity].
  erewrite bind_return_state; [|reflexivity].
  rewrite (bind_return_state _ _ _ _ _ (tree_get_children_eq item _ s Hitem Hlook)).
  cbn [node_children].
  destruct (delete_dummies pre item name [JStr (lit "group"); JNum gid] kids post
              (asked_children item s)) as (s1 & Hdel & Htree1 & Hsame); [done|done|done|].
  assert (Hguard : bool_decide (node_iid <$> kids ≠ [])
                   && negb (existsb is_dummy (node_iid <$> kids)) = false).
  { destruct Hkids as [->|(d & dt & dv & -> & Hd)]; [done|].
    cbn [fmap list_fmap node_iid existsb]. rewrite Hd. by rewrite andb_false_r. }
  rewrite Hguard.
  rewrite (bind_return_state _ _ _ _ _ Hdel).
  cbn [py_str]. rewrite (bool_decide_true (lit "group" = lit "group")) by done.
  unfold py_int. rewrite Hint.
  exists s1. split; [done|]. split; [done|].
  destruct Hsame as (?&?&?&?). by repeat split.
Qed.

Lemma frame_insert_subgroup (R : relation state) `{!UiFrame R} item sg :
  preserves R (insert_subgroup E item sg).
Proof.
  apply preserves_mbind; [apply _|apply preserves_py_get; apply _|]. intros id.
  apply preserves_mbind; [apply _|apply preserves_py_get; apply _|]. intros name.
  apply preserves_mbind; [apply _|apply frame_tree_insert; apply _|]. intros _.
  apply frame_tree_insert; apply _.
Qed.

Lemma frame_insert_project (R : relation state) `{!UiFrame R} item p :
  preserves R (insert_project E item p).
Proof.
  apply preserves_mbind; [apply _|apply preserves_py_get; apply _|]. intros id.
  apply preserves_mbind; [apply _|apply preserves_py_get; apply _|]. intros name.
  apply frame_tree_insert; apply _.
Qed.

Lemma list_projects_eq gid s c :
  client s = Some c ->
  list_projects E gid s
  = ((GitLabClient.list_projects_in_group E c (JNum gid) (outside s)).1,
     set_outside (GitLabClient.list_projects_in_group E c (JNum gid) (outside s)).2 s).
Proof.
  intros Hc. unfold list_projects. rewrite gets_bind, Hc. unfold in_world, zoom.
  by destruct (GitLabClient.list_projects_in_group E c (JNum gid) (outside s)).
Qed.

(** The first half of [_load_subgroups_and_projects]: the subgroups are
    put below the item, and the projects are asked for next. *)
Lemma load_subgroups s1 pre item t v post gid groups :
  item <> [] ->
  tree s1 = pre ++ Node item t v [] :: post ->
  _all_groups s1 = JArr groups ->
  Forall group_ok groups ->
  Forall group_named (List.filter (child_of gid) groups) ->
  let subs := in_order E (List.filter (child_of gid) groups) in
  NoDup (all_iids (tree s1) ++ all_iids (subgroup_node E <$> subs)) ->
  exists s2,
    _load_subgroups_and_projects E item gid s1
    = try_except
        (projects ← list_projects E gid;
         insert_projects E item projects ;;
         n ← py_len projects;
         log E (lit "Loaded subgroups ("
                ++ str_of_Z (Z.of_nat (length (List.filter (child_of gid) groups)))
                ++ lit ") and projects (" ++ str_of_Z n
                ++ lit ") for group id=" ++ str_of_Z gid))
        (fun e => log E (lit "Lỗi load subgroups/projects: " ++ exn_msg e)) s2
    /\ tree s2 = pre ++ Node item t v (subgroup_node E <$> subs) :: post
    /\ same_data s1 s2.
Proof.
  intros Hitem Htree Hg Hok Hnamed subs Hnd.
  assert (Hsubok : Forall group_ok (List.filter (child_of gid) groups))
    by (by apply Forall_filter_ok).
  destruct (insert_subgroup_loop pre item t v post subs [] s1) as (s2 & Hloop & Htree2);
    [|done|done|done|].
  { unfold subs. by rewrite in_order_perm. }
  exists s2. split; [|split; [exact Htree2|]].
  - unfold _load_subgroups_and_projects.
    erewrite try_except_step; [|by apply all_groups_or_empty_eq].
    erewrite try_except_step; [|by apply filter_child_of].
    erewrite try_except_step; [|by apply sorted_in_order].
    erewrite try_except_step; [|exact Hloop]. done.
  - pose proof (preserves_for_each same_data subs (insert_subgroup E item)
                  (fun sg => frame_insert_subgroup same_data item sg) s1) as Hsame.
    by rewrite Hloop in Hsame.
Qed.

(** The second half, when the projects arrive. *)
Lemma load_projects s2 pre item t v kids post gid c projects w' n0 :
  item <> [] ->
  tree s2 = pre ++ Node item t v kids :: post ->
  client s2 = Some c ->
  GitLabClient.list_projects_in_group E c (JNum gid) (outside s2)
  = (Return (JArr projects), w') ->
  Forall group_ok projects ->
  let projs := in_order E projects in
  NoDup (all_iids (tree s2) ++ all_iids (project_node E <$> projs)) ->
  let s3 :=
    (try_except
       (projects ← list_projects E gid;
        insert_projects E item projects ;;
        n ← py_len projects;
        log E (lit "Loaded subgroups (" ++ n0
               ++ lit ") and projects (" ++ str_of_Z n
               ++ lit ") for group id=" ++ str_of_Z gid))
       (fun e => log E (lit "Lỗi load subgroups/projects: " ++ exn_msg e)) s2) in
  s3.1 = Return tt
  /\ tree s3.2 = pre ++ Node item t v (kids ++ (project_node E <$> projs)) :: post
  /\ outside s3.2 = w'.
Proof.
  intros Hitem Htree Hc Hlist Hok projs Hnd. cbn zeta.
  pose proof (list_projects_eq gid s2 c Hc) as Hlp. rewrite Hlist in Hlp. cbn [fst snd] in Hlp.
  erewrite try_except_step; [|exact Hlp].
  destruct (insert_project_loop pre item t v post projs kids (set_outside w' s2))
    as (s3 & Hloop & Htree3); [|done|by st_simpl|by st_simpl|].
  { eapply list.Forall_impl; [apply Forall_in_order_ok, Hok|]. apply group_ok_obj. }
  assert (Hins : insert_projects E item (JArr projects) (set_outside w' s2) = (Return tt, s3)).
  { unfold insert_projects. erewrite bind_return_state; [|reflexivity].
    erewrite bind_return_state; [|by apply sorted_in_order]. exact Hloop. }
  erewrite try_except_step; [|exact Hins].
  erewrite try_except_step; [|reflexivity].
  rewrite (try_except_return _ _ _ tt) by done.
  pose proof (preserves_for_each same_data projs (insert_project E item)
                (fun p => frame_insert_project same_data item p) (set_outside w' s2)) as Hsame.
  rewrite Hloop in Hsame. destruct Hsame as (_ & _ & Hout & _).
  unfold log, modify. st_simpl. done.
Qed.

(** The second half, when asking for the projects fails. *)
Lemma load_projects_fails s2 gid c e w' item n0 :
  client s2 = Some c ->
  GitLabClient.list_projects_in_group E c (JNum gid) (outside s2) = (Raise e, w') ->
  try_except
    (projects ← list_projects E gid;
     insert_projects E item projects ;;
     n ← py_len projects;
     log E (lit "Loaded subgroups (" ++ n0
            ++ lit ") and projects (" ++ str_of_Z n
            ++ lit ") for group id=" ++ str_of_Z gid))
    (fun e => log E (lit "Lỗi load subgroups/projects: " ++ exn_msg e)) s2
  = (Return tt,
     set_log_queue
       (log_queue s2 ++ [lit "[" ++ strftime E ++ lit "] "
                         ++ (lit "Lỗi load subgroups/projects: " ++ exn_msg e)])
       (set_outside w' s2)).
Proof.
  intros Hc Hlist.
  pose proof (list_projects_eq gid s2 c Hc) as Hlp. rewrite Hlist in Hlp. cbn [fst snd] in Hlp.
  erewrite try_except_raise; [|exact Hlp]. done.
Qed.

Lemma sublist_without_kids pre item t v kids post :
  all_iids (pre ++ Node item t v [] :: post)
  `sublist_of` all_iids (pre ++ Node item t v kids :: post).
Proof.
  rewrite !all_iids_app, !all_iids_cons, !iids_node.
  apply sublist_app; [done|]. rewrite <- !app_comm_cons. apply sublist_skip.
  change (all_iids []) with (@nil (list Z)). cbn [app]. by apply sublist_inserts_l.
Qed.

Lemma perm_with_kids pre item t v kids post :
  all_iids (pre ++ Node item t v kids :: post)
  ≡ₚ all_iids (pre ++ Node item t v [] :: post) ++ all_iids kids.
Proof.
  rewrite !all_iids_app, !all_iids_cons, !iids_node.
  change (all_iids []) with (@nil (list Z)). cbn [app].
  rewrite <- !app_assoc. apply Permutation_app_head.
  cbn [app]. apply Permutation_skip, Permutation_app_comm.
Qed.

(** X18. Opening a group fills it. For a top-level item of kind group that
    has no child yet, or its placeholder only, [on_tree_open] takes the
    placeholder away and puts below the item first the subgroups of the
    group (the cached groups whose [parent_id] is the group's id), in
    order of lower-cased name and each with a placeholder of its own, then
    the projects the server lists for the group, in order of lower-cased
    name; the one request it makes is the listing of the projects. The
    cached groups and the projects are dicts whose name, if there is one,
    is a str, and the subgroups all have a name: the insertion of an item
    without text fails. *)
Theorem open_group_loads_children s pre item name gid kids post groups c projects w' :
  item <> [] ->
  tree s = pre ++ Node item name [JStr (lit "group"); JNum gid] kids :: post ->
  (kids = [] \/ exists d dt dv, kids = [Node d dt dv []] /\ is_dummy d = true) ->
  int_of_str L (str_of_Z gid) = Some gid ->
  _all_groups s = JArr groups ->
  Forall group_ok groups ->
  Forall group_named (List.filter (child_of gid) groups) ->
  client s = Some c ->
  GitLabClient.list_projects_in_group E c (JNum gid) (outside s)
  = (Return (JArr projects), w') ->
  Forall group_ok projects ->
  NoDup (all_iids (tree s)
         ++ all_iids (subgroup_node E <$> in_order E (List.filter (child_of gid) groups))
         ++ all_iids (project_node E <$> in_order E projects)) ->
  (on_tree_open E L item s).1 = Return tt
  /\ tree (on_tree_open E L item s).2
     = pre ++ Node item name [JStr (lit "group"); JNum gid]
                ((subgroup_node E <$> in_order E (List.filter (child_of gid) groups))
                 ++ (project_node E <$> in_order E projects)) :: post
  /\ outside (on_tree_open E L item s).2 = w'.
Proof.
  intros Hitem Htree Hkids Hint Hg Hok Hnamed Hc Hlist Hpok Hnd.
  set (subs := in_order E (List.filter (child_of gid) groups)) in *.
  set (projs := in_order E projects) in *.
  assert (Hnd0 : NoDup (all_iids (tree s))) by (by apply NoDup_app in Hnd as [? _]).
  destruct (on_tree_open_group s pre item name gid kids post Hitem Htree Hkids Hnd0 Hint)
    as (s1 & -> & Htree1 & (Hc1 & Hg1 & Ho1 & _)).
  assert (Hsub1 : all_iids (tree s1) `sublist_of` all_iids (tree s)).
  { rewrite Htree1, Htree. apply sublist_without_kids. }
  destruct (load_subgroups s1 pre item name [JStr (lit "group"); JNum gid] post gid groups
              Hitem Htree1) as (s2 & -> & Htree2 & (Hc2 & Hg2 & Ho2 & _)).
  { by rewrite Hg1. }
  { done. }
  { done. }
  { fold subs. rewrite app_assoc in Hnd. apply NoDup_app in Hnd as [Hnd _].
    eapply sublist_NoDup; [exact Hnd|]. by apply sublist_app. }
  fold subs in Htree2 |- *.
  apply (load_projects s2 pre item name [JStr (lit "group"); JNum gid]
           (subgroup_node E <$> subs) post gid c projects w'); try done.
  - by rewrite Hc2, Hc1.
  - by rewrite Ho2, Ho1.
  - fold projs. rewrite Htree2, perm_with_kids, <- Htree1.
    rewrite <- app_assoc. eapply sublist_NoDup; [exact Hnd|].
    by apply sublist_app.
Qed.

(** X19. A failed load is not tried again. When the listing of the
    projects fails after subgroups (all of them named) have been put below
    the group, the item keeps the subgroups and has lost its placeholder;
    opening it again then does nothing at all, so the projects of the
    group are not asked for again while this tree stands. *)
Theorem failed_load_is_not_retried s pre item name gid kids post groups c e w' :
  item <> [] ->
  tree s = pre ++ Node item name [JStr (lit "group"); JNum gid] kids :: post ->
  (kids = [] \/ exists d dt dv, kids = [Node d dt dv []] /\ is_dummy d = true) ->
  int_of_str L (str_of_Z gid) = Some gid ->
  _all_groups s = JArr groups ->
  Forall group_ok groups ->
  Forall group_named (List.filter (child_of gid) groups) ->
  client s = Some c ->
  GitLabClient.list_projects_in_group E c (JNum gid) (outside s) = (Raise e, w') ->
  in_order E (List.filter (child_of gid) groups) <> [] ->
  Forall (fun g => is_dummy (subgroup_iid E g) = false)
    (in_order E (List.filter (child_of gid) groups)) ->
  NoDup (all_iids (tree s)
         ++ all_iids (subgroup_node E <$> in_order E (List.filter (child_of gid) groups))) ->
  let s' := (on_tree_open E L item s).2 in
  tree s' = pre ++ Node item name [JStr (lit "group"); JNum gid]
                     (subgroup_node E <$> in_order E (List.filter (child_of gid) groups))
                   :: post
  /\ outside s' = w'
  /\ on_tree_open E L item s' = (Return tt, asked_children item s').
Proof.
  intros Hitem Htree Hkids Hint Hg Hok Hnamed Hc Hlist Hne Hnodummy Hnd. cbn zeta.
  set (subs := in_order E (List.filter (child_of gid) groups)) in *.
  assert (Hnd0 : NoDup (all_iids (tree s))) by (by apply NoDup_app in Hnd as [? _]).
  destruct (on_tree_open_group s pre item name gid kids post Hitem Htree Hkids Hnd0 Hint)
    as (s1 & -> & Htree1 & (Hc1 & Hg1 & Ho1 & _)).
  destruct (load_subgroups s1 pre item name [JStr (lit "group"); JNum gid] post gid groups
              Hitem Htree1) as (s2 & -> & Htree2 & (Hc2 & Hg2 & Ho2 & _)).
  { by rewrite Hg1. }
  { done. }
  { done. }
  { fold subs. eapply sublist_NoDup; [exact Hnd|]. apply sublist_app; [|done].
    rewrite Htree1, Htree. apply sublist_without_kids. }
  fold subs in Htree2.
  rewrite (load_projects_fails s2 gid c e w').
  2:{ by rewrite Hc2, Hc1. }
  2:{ by rewrite Ho2, Ho1. }
  cbn [snd]. st_simpl. split; [exact Htree2|]. split; [done|].
  apply (on_tree_open_loaded _ _
           (Node item name [JStr (lit "group"); JNum gid] (subgroup_node E <$> subs))).
  - done.
  - st_simpl. rewrite Htree2. apply lookup_top.
    rewrite Htree in Hnd0. by apply top_item_unique in Hnd0 as (? & _).
  - simpl. lia.
  - cbn [node_children]. intros Hnil. by apply fmap_nil_inv in Hnil.
  - cbn [node_children]. apply Forall_fmap.
    eapply list.Forall_impl; [exact Hnodummy|]. by intros g Hgd.
Qed.

(** X20. Children are loaded once. An item that has values and children,
    none of them a placeholder, is left as it is by [on_tree_open]: the
    tree, the world outside and every attribute stay the same, and no
    request is made. *)
Theorem open_loaded_item_does_nothing s item n :
  item <> [] ->
  lookup (tree s) item = Some n ->
  (2 <= length (node_values n))%nat ->
  node_children n <> [] ->
  Forall (fun c => is_dummy (node_iid c) = false) (node_children n) ->
  on_tree_open E L item s = (Return tt, asked_children item s)
  /\ tree (asked_children item s) = tree s
  /\ outside (asked_children item s) = outside s.
Proof. intros Hi Hn Hv Hc Hd. split; [by eapply on_tree_open_loaded|done]. Qed.

End Open.
End OpenFacts.

Module OpenInstances.
Import GitLabGUIApp GitLabGUIApp2 TreeSpec OpenSpec AppSpec OpenFacts
  Demo Demo3 Demo4 Demo6.
Import Treeview Treeview2.

(** Group 2 is opened after a refresh: its subgroup and its two projects
    take the place of the placeholder. *)
Lemma open_group_loads_children_witness :
  let E := env_projects in
  let s := refreshed E in
  let subs := in_order E (List.filter (child_of 2) three_groups) in
  let projs := in_order E two_projects in
  tree s = [alpha_item] ++ Node (lit "group_2") (JStr (lit "beta"))
                             [JStr (lit "group"); JNum 2] [beta_placeholder] :: []
  /\ NoDup (all_iids (tree s) ++ all_iids (subgroup_node E <$> subs)
            ++ all_iids (project_node E <$> projs))
  /\ (on_tree_open E lib0 (lit "group_2") s).1 = Return tt
  /\ tree (on_tree_open E lib0 (lit "group_2") s).2
     = [alpha_item] ++ Node (lit "group_2") (JStr (lit "beta")) [JStr (lit "group"); JNum 2]
                         ((subgroup_node E <$> subs) ++ (project_node E <$> projs)) :: [].
Proof.
  intros E s subs projs.
  assert (H1 : lit "group_2" <> []) by (vm_compute; discriminate).
  assert (H2 : tree s = [alpha_item] ++ Node (lit "group_2") (JStr (lit "beta"))
                 [JStr (lit "group"); JNum 2] [beta_placeholder] :: [])
    by (vm_compute; reflexivity).
  assert (H3 : [beta_placeholder] = []
               \/ exists d dt dv, [beta_placeholder] = [Node d dt dv []] /\ is_dummy d = true).
  { right. eexists _, _, _. split; [reflexivity|]. vm_compute. reflexivity. }
  assert (H4 : int_of_str lib0 (str_of_Z 2) = Some 2) by (vm_compute; reflexivity).
  assert (H5 : _all_groups s = JArr three_groups) by (vm_compute; reflexivity).
  assert (H6 : Forall group_ok three_groups) by exact TreeInstances.three_groups_ok.
  assert (H6n : Forall group_named (List.filter (child_of 2) three_groups)).
  { repeat constructor. exists (lit "sub"). vm_compute. reflexivity. }
  assert (H7 : client s = Some client0) by (vm_compute; reflexivity).
  assert (H8 : GitLabClient.list_projects_in_group E client0 (JNum 2) (outside s)
               = (Return (JArr two_projects),
                  (GitLabClient.list_projects_in_group E client0 (JNum 2) (outside s)).2))
    by (vm_compute; reflexivity).
  assert (H9 : Forall group_ok two_projects).
  { repeat constructor; vm_compute; eauto. }
  assert (H10 : NoDup (all_iids (tree s) ++ all_iids (subgroup_node E <$> subs)
                       ++ all_iids (project_node E <$> projs))).
  { apply (bool_decide_unpack _). vm_compute. exact I. }
  split; [exact H2|]. split; [exact H10|].
  destruct (open_group_loads_children E lib0 s [alpha_item] (lit "group_2")
              (JStr (lit "beta")) 2 [beta_placeholder] [] three_groups client0
              two_projects _ H1 H2 H3 H4 H5 H6 H6n H7 H8 H9 H10) as (Ha & Hb & _).
  split; [exact Ha|exact Hb].
Defined.

(** The server refuses to list the projects of group 2: the subgroup stays
    below the group, and a second opening does nothing. *)
Lemma failed_load_is_not_retried_witness :
  let E := env_refusing in
  let s := refreshed E in
  let subs := in_order E (List.filter (child_of 2) three_groups) in
  let s' := (on_tree_open E lib0 (lit "group_2") s).2 in
  subs <> []
  /\ Forall (fun g => is_dummy (subgroup_iid E g) = false) subs
  /\ tree s' = [alpha_item] ++ Node (lit "group_2") (JStr (lit "beta"))
                                 [JStr (lit "group"); JNum 2] (subgroup_node E <$> subs) :: []
  /\ on_tree_open E lib0 (lit "group_2") s' = (Return tt, asked_children (lit "group_2") s').
Proof.
  intros E s subs s'.
  assert (H1 : lit "group_2" <> []) by (vm_compute; discriminate).
  assert (H2 : tree s = [alpha_item] ++ Node (lit "group_2") (JStr (lit "beta"))
                 [JStr (lit "group"); JNum 2] [beta_placeholder] :: [])
    by (vm_compute; reflexivity).
  assert (H3 : [beta_placeholder] = []
               \/ exists d dt dv, [beta_placeholder] = [Node d dt dv []] /\ is_dummy d = true).
  { right. eexists _, _, _. split; [reflexivity|]. vm_compute. reflexivity. }
  assert (H4 : int_of_str lib0 (str_of_Z 2) = Some 2) by (vm_compute; reflexivity).
  assert (H5 : _all_groups s = JArr three_groups) by (vm_compute; reflexivity).
  assert (H6 : Forall group_ok three_groups) by exact TreeInstances.three_groups_ok.
  assert (H6n : Forall group_named (List.filter (child_of 2) three_groups)).
  { repeat constructor. exists (lit "sub"). vm_compute. reflexivity. }
  assert (H7 : client s = Some client0) by (vm_compute; reflexivity).
  assert (H8 : GitLabClient.list_projects_in_group E client0 (JNum 2) (outside s)
               = (Raise (Exn HTTPError (lit "403: Forbidden")),
                  (GitLabClient.list_projects_in_group E client0 (JNum 2) (outside s)).2))
    by (vm_compute; reflexivity).
  assert (H9 : subs <> []) by (vm_compute; discriminate).
  assert (H10 : Forall (fun g => is_dummy (subgroup_iid E g) = false) subs).
  { apply (bool_decide_unpack _). vm_compute. exact I. }
  assert (H11 : NoDup (all_iids (tree s) ++ all_iids (subgroup_node E <$> subs))).
  { apply (bool_decide_unpack _). vm_compute. exact I. }
  split; [exact H9|]. split; [exact H10|].
  destruct (failed_load_is_not_retried E lib0 s [alpha_item] (lit "group_2")
              (JStr (lit "beta")) 2 [beta_placeholder] [] three_groups client0
              _ _ H1 H2 H3 H4 H5 H6 H6n H7 H8 H9 H10 H11) as (Ha & _ & Hb).
  split; [exact Ha|exact Hb].
Defined.

(** Group 2 is opened a second time after its children were loaded. *)
Lemma open_loaded_item_does_nothing_witness :
  let E := env_projects in
  let s := (on_tree_open E lib0 (lit "group_2") (refreshed E)).2 in
  (exists n, lookup (tree s) (lit "group_2") = Some n
             /\ (2 <= length (node_values n))%nat
             /\ node_children n <> []
             /\ Forall (fun c => is_dummy (node_iid c) = false) (node_children n))
  /\ on_tree_open E lib0 (lit "group_2") s = (Return tt, asked_children (lit "group_2") s).
Proof.
  intros E s.
  assert (H1 : lit "group_2" <> []) by (vm_compute; discriminate).
  assert (H2 : exists n, lookup (tree s) (lit "group_2") = Some n
             /\ (2 <= length (node_values n))%nat
             /\ node_children n <> []
             /\ Forall (fun c => is_dummy (node_iid c) = false) (node_children n)).
  { exists (default (Node [] JNull [] []) (lookup (tree s) (lit "group_2"))).
    split; [vm_compute; reflexivity|]. split; [vm_compute; lia|].
    split; [vm_compute; discriminate|]. apply (bool_decide_unpack _). vm_compute. exact I. }
  split; [exact H2|].
  destruct H2 as (n & Ha & Hb & Hc & Hd).
  exact (proj1 (open_loaded_item_does_nothing E lib0 s (lit "group_2") n H1 Ha Hb Hc Hd)).
Defined.

End OpenInstances.

(** ** Opening an item that is no group *)
Module OpenFacts2.
Import GitLabGUIApp GitLabGUIApp2 TreeSpec OpenSpec OpenSpec2 AppSpec AppSpec2 AppSpec3 UiFrames
  AppFacts AppFacts2 CacheFacts SortFacts TreeFacts TreeFacts2 RunFacts OpenFacts.
Import Treeview Treeview2.

#[global] Instance items_kept_preorder : PreOrder items_kept.
Proof.
  split; [by intros s x Hx|]. intros s1 s2 s3 H1 H2 x Hx. by apply H1, H2.
Qed.

Lemma filter_iids_subset (p : node -> bool) l : all_iids (List.filter p l) ⊆ all_iids l.
Proof.
  induction l as [|c l IH]; [done|]. cbn [List.filter]. intros x.
  destruct (p c); rewrite ?all_iids_cons, ?elem_of_app; intros Hx.
  - destruct Hx as [Hx|Hx]; [by left|right; by apply IH].
  - right. by apply IH.
Qed.

Lemma prune_subset i n : iids (prune i n) ⊆ iids n.
Proof.
  induction n as [j t v cs IH] using node_rect'. cbn [prune]. rewrite !iids_node.
  intros x [->|Hx]%elem_of_cons; [apply list_elem_of_here|].
  apply list_elem_of_further. apply filter_iids_subset in Hx.
  clear -IH Hx. induction cs as [|c cs IHcs]; [done|].
  apply Forall_cons_1 in IH as [Hc IH]. cbn [List.map] in Hx.
  rewrite all_iids_cons in Hx. rewrite all_iids_cons.
  apply elem_of_app in Hx as [Hx|Hx]; apply elem_of_app; [left; by apply Hc|right; by apply IHcs].
Qed.

Lemma remove_subset i l : all_iids (remove l i) ⊆ all_iids l.
Proof.
  unfold remove. intros x Hx. apply filter_iids_subset in Hx.
  induction l as [|c l IH]; [done|]. cbn [List.map] in Hx.
  rewrite all_iids_cons in Hx. rewrite all_iids_cons.
  apply elem_of_app in Hx as [Hx|Hx]; apply elem_of_app;
    [left; by apply (prune_subset i c)|right; by apply IH].
Qed.

Lemma foldl_remove_subset items l : all_iids (foldl remove l items) ⊆ all_iids l.
Proof.
  revert l. induction items as [|i items IH]; intros l; [done|]. cbn [foldl].
  intros x Hx. by apply (remove_subset i l), IH.
Qed.

Lemma items_kept_tk c : preserves items_kept (tk c).
Proof. by intros s x Hx. Qed.

Lemma items_kept_tree_get_children i : preserves items_kept (tree_get_children i).
Proof.
  unfold tree_get_children. apply preserves_mbind; [apply _|apply items_kept_tk|].
  intros _. apply preserves_mbind; [apply _|apply preserves_gets; apply _|].
  intros roots. destruct (get_children roots i);
    [apply preserves_ret | apply preserves_raise]; apply _.
Qed.

Lemma items_kept_tree_delete items : preserves items_kept (tree_delete items).
Proof.
  unfold tree_delete. apply preserves_mbind; [apply _|apply items_kept_tk|].
  intros _ s. rewrite gets_bind. unfold delete.
  destruct (forallb _ items); [|reflexivity].
  unfold items_kept, modify. st_simpl. apply foldl_remove_subset.
Qed.

Section Open2.
Context (E : env) (L : lib).

Lemma preserves_py_index {S A} (R : relation S) `{!PreOrder R} (v : list A) k :
  preserves R (py_index L v k).
Proof. unfold py_index. destruct (v !! k); [apply preserves_ret|apply preserves_raise]; apply _. Qed.

Lemma preserves_py_int {S} (R : relation S) `{!PreOrder R} x :
  preserves R (@py_int L S x).
Proof. unfold py_int. destruct (int_of_str L x); [apply preserves_ret|apply preserves_raise]; apply _. Qed.

(** [on_tree_open] up to the point where the kind of the item decides:
    what is kept by every step before, and by the branch taken for the
    kind, is kept by the handler. *)
Lemma on_tree_open_by_kind (R : relation state) `{!PreOrder R} item s :
  (forall i, preserves R (tree_get_children i)) ->
  (forall l, preserves R (tree_delete l)) ->
  (forall typ obj_id,
     kind_of E s item = Some typ ->
     forall s1,
       R s1 ((if bool_decide (typ = lit "group") then
                n ← py_int L obj_id; _load_subgroups_and_projects E item n
              else if bool_decide (typ = lit "subgroup") then
                n ← py_int L obj_id; _load_projects_for_subgroup E item n
              else if bool_decide (typ = lit "project") then
                proj_id ← py_int L obj_id;
                let repo := lit "project_" ++ str_of_Z proj_id ++ lit "_repo" in
                tree_insert item repo (JStr (lit "Repository")) [JStr (lit "repo"); JNum proj_id] ;;
                tree_insert repo (repo ++ lit "_dummy") (JStr (lit "(mở để tải...)")) []
              else ret tt) s1).2) ->
  R s (on_tree_open E L item s).2.
Proof.
  intros Hget Hdel Hkind. unfold on_tree_open.
  case_bool_decide as Hitem; [reflexivity|].
  unfold kind_of in Hkind.
  destruct (lookup (tree s) item) as [n|] eqn:Hn.
  2:{ unfold tree_item_values, mbind, M_bind, bind, gets.
      rewrite bool_decide_false by done. rewrite Hn. reflexivity. }
  rewrite (bind_return_state _ _ _ _ _ (tree_item_values_eq E item n s Hitem Hn)).
  cbn [mbind option_bind] in Hkind.
  destruct (node_values n) as [|v0 vs] eqn:Hv; [reflexivity|].
  cbn [head mbind option_bind] in Hkind.
  cbn [fmap list_fmap]. rewrite bool_decide_false by done.
  erewrite bind_return_state; [|reflexivity].
  specialize (Hkind (py_str E v0)).
  generalize dependent (py_str E v0). intros typ Hkind. clear Hn Hv.
  assert (Hrest : forall obj_id s1,
    R s1 ((if bool_decide (typ = lit "group") then
                n ← py_int L obj_id; _load_subgroups_and_projects E item n
              else if bool_decide (typ = lit "subgroup") then
                n ← py_int L obj_id; _load_projects_for_subgroup E item n
              else if bool_decide (typ = lit "project") then
                proj_id ← py_int L obj_id;
                let repo := lit "project_" ++ str_of_Z proj_id ++ lit "_repo" in
                tree_insert item repo (JStr (lit "Repository")) [JStr (lit "repo"); JNum proj_id] ;;
                tree_insert repo (repo ++ lit "_dummy") (JStr (lit "(mở để tải...)")) []
              else ret tt) s1).2) by (intros; by apply Hkind).
  clear Hkind. revert s.
  apply preserves_mbind; [done|by apply preserves_py_index|]. intros obj_id.
  apply preserves_mbind; [done|apply Hget|]. intros children.
  destruct (_ && _); [by apply preserves_ret|].
  apply preserves_mbind; [done| |].
  - apply preserves_for_each; [done|]. intros c.
    destruct (is_dummy c); [apply Hdel|by apply preserves_ret].
  - intros _ s1. apply Hrest.
Qed.

(** X21. Only groups and subgroups are looked up on the server. Opening
    an item of any other kind (a project, a repository, an item without
    values, an item that is not there) makes no request and touches no
    file: the world outside, the client and the cached groups are what
    they were. *)
Theorem only_groups_are_fetched item s :
  kind_of E s item <> Some (lit "group") ->
  kind_of E s item <> Some (lit "subgroup") ->
  same_data s (on_tree_open E L item s).2.
Proof.
  intros Hg Hs. apply on_tree_open_by_kind; [apply _| | |].
  - intros i. apply frame_tree_get_children; apply _.
  - intros l. apply frame_tree_delete; apply _.
  - intros typ obj_id Hk. rewrite Hk in Hg, Hs.
    rewrite bool_decide_false by (by intros ->).
    rewrite bool_decide_false by (by intros ->).
    destruct (bool_decide (typ = lit "project")); [|by apply preserves_ret; apply _].
    apply preserves_mbind; [apply _|apply preserves_py_int; apply _|]. intros n.
    apply preserves_mbind; [apply _|apply frame_tree_insert; apply _|]. intros _.
    apply frame_tree_insert; apply _.
Qed.

(** X22. The contents of a repository are never listed. Opening an item
    that is no group, subgroup or project, such as the Repository item
    below a project, puts no item into the tree: every item the tree holds
    afterwards was there before. *)
Theorem repository_gains_no_item item s :
  kind_of E s item <> Some (lit "group") ->
  kind_of E s item <> Some (lit "subgroup") ->
  kind_of E s item <> Some (lit "project") ->
  items_kept s (on_tree_open E L item s).2.
Proof.
  intros Hg Hs Hp. apply on_tree_open_by_kind; [apply _| | |].
  - apply items_kept_tree_get_children.
  - apply items_kept_tree_delete.
  - intros typ obj_id Hk s1. rewrite Hk in Hg, Hs, Hp.
    rewrite bool_decide_false by (by intros ->).
    rewrite bool_decide_false by (by intros ->).
    rewrite bool_decide_false by (by intros ->).
    reflexivity.
Qed.

End Open2.
End OpenFacts2.

Module OpenInstances2.
Import GitLabGUIApp GitLabGUIApp2 TreeSpec OpenSpec OpenSpec2 AppSpec OpenFacts2
  Demo Demo3 Demo4 Demo6.
Import Treeview Treeview2.

(** The project 10 below group 2 is opened: a Repository item appears,
    and no request is made. *)
Lemma only_groups_are_fetched_witness :
  let E := env_projects in
  let s := (on_tree_open E lib0 (lit "group_2") (refreshed E)).2 in
  kind_of E s (lit "project_10") = Some (lit "project")
  /\ outside (on_tree_open E lib0 (lit "project_10") s).2 = outside s
  /\ lit "project_10_repo" ∈ all_iids (tree (on_tree_open E lib0 (lit "project_10") s).2).
Proof.
  intros E s.
  assert (H0 : kind_of E s (lit "project_10") = Some (lit "project"))
    by (vm_compute; reflexivity).
  assert (H1 : kind_of E s (lit "project_10") <> Some (lit "group")).
  { rewrite H0. vm_compute. discriminate. }
  assert (H2 : kind_of E s (lit "project_10") <> Some (lit "subgroup")).
  { rewrite H0. vm_compute. discriminate. }
  split; [exact H0|]. split.
  - exact (proj1 (proj2 (proj2 (only_groups_are_fetched E lib0 (lit "project_10") s H1 H2)))).
  - apply (bool_decide_unpack _). vm_compute. exact I.
Defined.

(** The Repository item of project 10 is opened: its placeholder goes and
    nothing comes. *)
Lemma repository_gains_no_item_witness :
  let E := env_projects in
  let s1 := (on_tree_open E lib0 (lit "group_2") (refreshed E)).2 in
  let s := (on_tree_open E lib0 (lit "project_10") s1).2 in
  kind_of E s (lit "project_10_repo") = Some (lit "repo")
  /\ get_children (tree s) (lit "project_10_repo") = Some [lit "project_10_repo_dummy"]
  /\ get_children (tree (on_tree_open E lib0 (lit "project_10_repo") s).2)
       (lit "project_10_repo") = Some []
  /\ items_kept s (on_tree_open E lib0 (lit "project_10_repo") s).2.
Proof.
  intros E s1 s.
  assert (H0 : kind_of E s (lit "project_10_repo") = Some (lit "repo"))
    by (vm_compute; reflexivity).
  assert (H1 : kind_of E s (lit "project_10_repo") <> Some (lit "group")).
  { rewrite H0. vm_compute. discriminate. }
  assert (H2 : kind_of E s (lit "project_10_repo") <> Some (lit "subgroup")).
  { rewrite H0. vm_compute. discriminate. }
  assert (H3 : kind_of E s (lit "project_10_repo") <> Some (lit "project")).
  { rewrite H0. vm_compute. discriminate. }
  split; [exact H0|]. split; [vm_compute; reflexivity|]. split; [vm_compute; reflexivity|].
  exact (repository_gains_no_item E lib0 (lit "project_10_repo") s H1 H2 H3).
Defined.

End OpenInstances2.

(** ** Selecting an item of the tree *)
Module SelectFacts.
Import GitLabGUIApp GitLabGUIApp2 TreeSpec OpenSpec OpenSpec2 AppSpec AppSpec2 AppSpec3
  AppFacts AppFacts2 CacheFacts TreeFacts TreeFacts2 RunFacts OpenFacts.
Import Treeview Treeview2.

Lemma in_app_return {A} (m : M state A) g a s' :
  m (app g) = (Return a, s') -> in_app m g = (Return a, set_app s' g).
Proof. intros H. unfold in_app, zoom. by rewrite H. Qed.

Lemma set_app_same g : set_app (app g) g = g.
Proof. by destruct g. Qed.

Section Select.
Context (E : env) (L : lib) (viewer : list Z -> M gui unit).

(** X23. Selecting a project makes it the target of the uploads. For an
    item whose first value reads project and whose second value reads as
    the number [id], [on_tree_select] returns with the three action
    buttons enabled, [current_project_id] set to [id] and the status line
    naming the project; it asks the server nothing. *)
Theorem selecting_project_sets_target item rest n v0 v1 vs id g :
  item <> [] ->
  lookup (tree (app g)) item = Some n ->
  node_values n = v0 :: v1 :: vs ->
  py_str E v0 = lit "project" ->
  int_of_str L (py_str E v1) = Some id ->
  let g' := (on_tree_select E L viewer (item :: rest) g).2 in
  (on_tree_select E L viewer (item :: rest) g).1 = Return tt
  /\ actions_enabled g' = true
  /\ current_project_id (app g') = Some id
  /\ status_var (app g') = lit "Chọn project id=" ++ py_str E v1
  /\ outside (app g') = outside (app g)
  /\ tree (app g') = tree (app g).
Proof.
  intros Hitem Hn Hv Hp Hid. cbn zeta. unfold on_tree_select.
  rewrite (bind_return_state _ _ _ _ _
             (in_app_return _ g _ _ (tree_item_values_eq E item n (app g) Hitem Hn))).
  rewrite set_app_same, Hv. cbn [fmap list_fmap]. rewrite bool_decide_false by done.
  erewrite bind_return_state; [|reflexivity].
  erewrite bind_return_state; [|reflexivity].
  rewrite Hp. rewrite (bool_decide_true (lit "project" = lit "project")) by done.
  unfold py_int. rewrite Hid. by destruct g.
Qed.

(** X24. Selecting anything else disables the uploads. For an item
    without values, or of a kind that is neither project nor blob (a
    group, a subgroup, a repository), [on_tree_select] returns with the
    three action buttons disabled. The project selected before stays in
    [current_project_id]. *)
Theorem other_selection_disables_actions item rest n g :
  item <> [] ->
  lookup (tree (app g)) item = Some n ->
  (node_values n = []
   \/ exists v0 v1 vs, node_values n = v0 :: v1 :: vs
                       /\ py_str E v0 <> lit "project" /\ py_str E v0 <> lit "blob") ->
  let g' := (on_tree_select E L viewer (item :: rest) g).2 in
  (on_tree_select E L viewer (item :: rest) g).1 = Return tt
  /\ actions_enabled g' = false
  /\ current_project_id (app g') = current_project_id (app g)
  /\ outside (app g') = outside (app g)
  /\ tree (app g') = tree (app g).
Proof.
  intros Hitem Hn Hv. cbn zeta. unfold on_tree_select.
  rewrite (bind_return_state _ _ _ _ _
             (in_app_return _ g _ _ (tree_item_values_eq E item n (app g) Hitem Hn))).
  rewrite set_app_same.
  destruct Hv as [->|(v0 & v1 & vs & -> & Hp & Hb)]; [by destruct g|].
  cbn [fmap list_fmap]. rewrite bool_decide_false by done.
  erewrite bind_return_state; [|reflexivity].
  erewrite bind_return_state; [|reflexivity].
  rewrite (bool_decide_false (py_str E v0 = lit "project")) by done.
  rewrite (bool_decide_false (py_str E v0 = lit "blob")) by done.
  destruct (bool_decide (py_str E v0 = lit "repo")); by destruct g.
Qed.

End Select.
End SelectFacts.

(** ** Start-up, and the dialogs for the saved token and the log *)
Module StartFacts.
Import GitLabGUIApp GitLabGUIApp2 TreeSpec AppSpec AppSpec2 AppSpec3 UiFrames StartSpec
  AppFacts AppFacts2 CacheFacts TreeFacts RunFacts TokenStore SelectFacts.

#[global] Instance untouched_preorder : PreOrder untouched.
Proof.
  split; [by intros w|]. intros w1 w2 w3 (?&?&?&?) (?&?&?&?).
  repeat split; congruence.
Qed.

#[global] Instance same_entry_preorder : PreOrder same_entry.
Proof.
  split; [by intros s|].
  intros s1 s2 s3 (?&?&?&?&(?&?&?&?)) (?&?&?&?&(?&?&?&?)).
  repeat split; congruence.
Qed.

#[global] Instance same_entry_frame : UiFrame same_entry.
Proof. split; [apply _|..]; intros; intros s; done. Qed.

Lemma same_entry_in_world {A} (m : M world A) :
  (forall w, untouched w (m w).2) -> preserves same_entry (in_world m).
Proof.
  intros Hm s. unfold in_world, zoom. specialize (Hm (outside s)).
  destruct (m (outside s)) as [o w']. simpl in *. destruct Hm as (?&?&?&?).
  by repeat split.
Qed.

Section Start.
Context (E : env) (L : lib).

Lemma same_entry_load_cache : preserves same_entry (_load_cache E).
Proof.
  unfold _load_cache. apply preserves_mbind; [apply _| |].
  { apply same_entry_in_world. by intros w. }
  intros [|]; [|apply preserves_ret; apply _].
  apply preserves_try_except; [apply _| |intros e; apply frame_log; apply _].
  apply preserves_mbind; [apply _| |].
  { unfold json_load. apply preserves_mbind; [apply _| |].
    - apply same_entry_in_world. intros w. unfold read_str, read_bytes. msimpl.
      destruct (fs w !! _); [|done]. by destruct (Utf8.decode _).
    - intros txt. destruct (json_loads E txt);
        [apply preserves_ret|apply preserves_raise]; apply _. }
  intros data. apply preserves_mbind; [apply _|apply preserves_py_get; apply _|]. intros g.
  apply preserves_mbind; [apply _|by intros s|]. intros _.
  apply preserves_mbind; [apply _|apply preserves_py_get; apply _|]. intros lp.
  apply preserves_mbind; [apply _|by intros s|]. intros _.
  apply preserves_mbind; [apply _|apply preserves_py_get; apply _|]. intros ls.
  apply preserves_mbind; [apply _|by intros s|]. intros _.
  apply preserves_mbind; [apply _|apply frame_log; apply _|]. intros _.
  apply preserves_mbind; [apply _|apply frame_tree_get_children; apply _|]. intros cs.
  apply preserves_mbind; [apply _|apply frame_tree_delete; apply _|]. intros _.
  apply preserves_mbind; [apply _|apply preserves_gets; apply _|]. intros ag.
  apply preserves_mbind; [apply _|apply preserves_py_iter; apply _|]. intros groups.
  apply frame_insert_root_groups; apply _.
Qed.

(** The last step of [__init__]. *)
Lemma in_app_load_cache g :
  exists a, in_app (_load_cache E) g = (Return tt, set_app a g) /\ same_entry (app g) a.
Proof.
  unfold in_app, zoom. pose proof (same_entry_load_cache (app g)) as Hs.
  destruct (returns_load_cache E (app g)) as [[] Hr].
  destruct (_load_cache E (app g)) as [o a]. simpl in Hr. subst o. by exists a.
Qed.

(** X25. Start-up offers the saved token and does nothing with it. After
    [__init__] the token field holds what [load_token] found (it is empty
    when there was nothing, or the empty token) and the box for saving is
    ticked exactly when the field is filled; no client is made and no
    request sent, no file and no keyring entry is written; the action
    buttons are disabled, and the network buttons are enabled exactly when
    requests could be imported. *)
Theorem startup_offers_saved_token w :
  let g := (__init__ E L w).2 in
  (__init__ E L w).1 = Return tt
  /\ token_var (app g) = offered E w
  /\ save_token_var (app g) = bool_decide (offered E w <> [])
  /\ client (app g) = None
  /\ untouched w (outside (app g))
  /\ actions_enabled g = false
  /\ network_enabled g = REQUESTS_AVAILABLE E.
Proof.
  cbn zeta. unfold __init__, offered.
  destruct (load_token_outcome E w) as (o & w1 & Hl & Hfs & Hk & Hio & Hh).
  rewrite Hl. cbn [fst].
  assert (Hfirst : in_app (in_world (load_token E)) (fresh w)
                   = (Return o, set_app (set_outside w1 (app (fresh w))) (fresh w))).
  { apply in_app_return. unfold in_world, zoom. cbn [fresh app outside]. by rewrite Hl. }
  rewrite (bind_return_state _ _ _ _ _ Hfirst). clear Hfirst.
  assert (Hu : untouched w w1) by done. clear Hl Hfs Hk Hio Hh.
  assert (Hend : forall a0 : state,
    (_load_cache E a0).1 = Return tt /\ same_entry a0 (_load_cache E a0).2).
  { intros a0. split; [|apply same_entry_load_cache].
    destruct (returns_load_cache E a0) as [[] Hr]. exact Hr. }
  generalize dependent (_load_cache E). intros lc Hend.
  destruct Hu as (Hfs & Hk & Hio & Hh).
  destruct o as [t|]; [destruct (bool_decide (t ≠ [])) eqn:Ht|];
    destruct (REQUESTS_AVAILABLE E); destruct (PYGMENTS_AVAILABLE L);
    cbn [negb]; unfold in_app, zoom, showerror, log, tk; msimpl;
    cbn [app set_app fresh];
    match goal with
    | |- context [lc ?a0] =>
        destruct (Hend a0) as (H1 & H2 & H3 & H4 & H5 & H6 & H7 & H8 & H9);
        destruct (lc a0) as [r a1]
    end; cbn -[bool_decide] in *; subst r; unfold untouched;
    rewrite H2, H3, H4, H6, H7, H8, H9.
  all: repeat split; try done.
  all: destruct t; [done|by rewrite bool_decide_true in Ht].
Qed.

(** X26. A token reported as deleted is not offered again. When
    [delete_saved_token] returns [True], [on_delete_token] shows the
    message that the token is gone and leaves the session as it is (the
    user stays logged in), and a [load_token] in the world it leaves
    finds nothing, so that the next start-up shows an empty token
    field. *)
Theorem deleted_token_is_not_offered s :
  (delete_saved_token E (outside s)).1 = Return true ->
  let s' := (on_delete_token E true s).2 in
  (on_delete_token E true s).1 = Return tt
  /\ last (calls s')
     = Some (cur_thread s, ShowInfo (lit "Đã xóa") (lit "Token đã được xóa khỏi hệ thống"))
  /\ client s' = client s /\ token s' = token s
  /\ http_log (outside s') = http_log (outside s)
  /\ offered E (outside s') = [].
Proof.
  intros Hd. cbn zeta.
  destruct (delete_saved_token_done E (outside s) Hd) as (Hfs & Hk1 & Hk2 & Hh).
  unfold on_delete_token, in_world, zoom, showinfo, log, tk. msimpl.
  destruct (delete_saved_token E (outside s)) as [o w'] eqn:Hdel.
  cbn [fst snd] in *. subst o. msimpl. st_simpl.
  split; [done|]. split; [by rewrite last_snoc|]. split; [done|]. split; [done|].
  split; [done|].
  unfold offered, load_token, keyring_get_password, path_exists. msimpl.
  destruct (KEYRING_AVAILABLE E).
  - by rewrite Hk1.
  - rewrite Hfs. by rewrite bool_decide_false by (by intros [? ?]).
Qed.


(** X28. A log that cannot be written costs the file. When the text of
    the log widget has a character UTF-8 cannot encode (a lone surrogate),
    the file chosen has been opened for writing by then: [save_log] shows
    the error, returns, and leaves the file empty, whatever it held
    before. *)
Theorem failed_save_log_empties_file fn s :
  fn <> [] ->
  Utf8.encode (log_area s ++ lit (String (Ascii.ascii_of_nat 10) "")) = None ->
  let s' := (save_log fn s).2 in
  (save_log fn s).1 = Return tt
  /\ fs (outside s') = <[fn := []]> (fs (outside s))
  /\ exists msg, last (calls s') = Some (cur_thread s, ShowError (lit "Lỗi") msg).
Proof.
  intros Hfn Henc. cbn zeta. unfold save_log.
  rewrite (bool_decide_false (fn = [])) by done.
  unfold in_world, zoom, open_w, log_area_get, write_str, showerror, tk. msimpl. st_simpl.
  rewrite Henc. msimpl. st_simpl.
  split; [done|]. split; [done|]. eexists. by rewrite last_snoc.
Qed.

(** X29. [find_group_by_name] gives the first group of that name. Over
    groups that are dicts whose names are strs, it returns the first group
    of [_all_groups] whose name equals [name] once both are stripped and
    lower-cased, and [None] when there is none; a group without a name
    counts as named by the empty string. The state is left as it is. *)
Theorem find_group_by_name_first_match name s groups :
  _all_groups s = JArr groups ->
  Forall group_ok groups ->
  find_group_by_name E name s = (Return (List.find (named E name) groups), s).
Proof.
  intros Hg Hok. unfold find_group_by_name.
  rewrite (bind_return_state _ _ _ _ _ (OpenFacts.all_groups_or_empty_eq s groups Hg)).
  clear Hg. induction Hok as [|g gs (m & -> & Hname) _ IH]; [done|].
  cbn [List.find]. unfold named at 1, group_name. cbn [member py_get].
  erewrite bind_return_state; [|reflexivity].
  destruct Hname as [->|[n ->]]; cbn [default from_option id];
    case_bool_decide; (done || apply IH).
Qed.

End Start.
End StartFacts.

Module StartInstances.
Import GitLabGUIApp GitLabGUIApp2 TreeSpec OpenSpec AppSpec StartSpec SelectFacts StartFacts
  Demo Demo3 Demo4 Demo6.
Import Treeview Treeview2.

(** Project 10 is selected in the tree with group 2 opened. *)
Lemma selecting_project_sets_target_witness :
  let E := env_projects in
  let g := Gui (on_tree_open E lib0 (lit "group_2") (refreshed E)).2 false true in
  let g' := (on_tree_select E lib0 (fun _ => ret tt) [lit "project_10"] g).2 in
  current_project_id (app g) = None
  /\ actions_enabled g' = true
  /\ current_project_id (app g') = Some 10
  /\ status_var (app g') = lit "Chọn project id=10".
Proof.
  intros E g g'.
  assert (H1 : lit "project_10" <> []) by (vm_compute; discriminate).
  assert (H2 : lookup (tree (app g)) (lit "project_10")
               = Some (Node (lit "project_10") (JStr (lit "[P] App"))
                         [JStr (lit "project"); JNum 10] []))
    by (vm_compute; reflexivity).
  assert (H3 : py_str E (JStr (lit "project")) = lit "project") by reflexivity.
  assert (H4 : int_of_str lib0 (py_str E (JNum 10)) = Some 10) by (vm_compute; reflexivity).
  split; [vm_compute; reflexivity|].
  destruct (selecting_project_sets_target E lib0 (fun _ => ret tt) (lit "project_10") []
              _ _ _ [] 10 g H1 H2 eq_refl H3 H4) as (_ & Ha & Hb & Hc & _).
  split; [exact Ha|]. split; [exact Hb|].
  etrans; [exact Hc|]. vm_compute. reflexivity.
Defined.

(** After project 10, group 3 is selected: the buttons are disabled and
    project 10 is still the one remembered. *)
Lemma other_selection_disables_actions_witness :
  let E := env_projects in
  let g0 := Gui (on_tree_open E lib0 (lit "group_2") (refreshed E)).2 false true in
  let g := (on_tree_select E lib0 (fun _ => ret tt) [lit "project_10"] g0).2 in
  let g' := (on_tree_select E lib0 (fun _ => ret tt) [lit "group_3"] g).2 in
  actions_enabled g = true
  /\ actions_enabled g' = false
  /\ current_project_id (app g') = Some 10.
Proof.
  intros E g0 g g'.
  assert (H1 : lit "group_3" <> []) by (vm_compute; discriminate).
  assert (H2 : lookup (tree (app g)) (lit "group_3") = Some alpha_item)
    by (vm_compute; reflexivity).
  assert (H3 : node_values alpha_item = []
               \/ exists v0 v1 vs, node_values alpha_item = v0 :: v1 :: vs
                    /\ py_str E v0 <> lit "project" /\ py_str E v0 <> lit "blob").
  { right. exists (JStr (lit "group")), (JNum 3), []. split; [reflexivity|].
    split; vm_compute; discriminate. }
  split; [vm_compute; reflexivity|].
  destruct (other_selection_disables_actions E lib0 (fun _ => ret tt) (lit "group_3") []
              alpha_item g H1 H2 H3) as (_ & Ha & Hb & _).
  split; [exact Ha|]. etrans; [exact Hb|]. vm_compute. reflexivity.
Defined.

(** The keyring holds a token, and the user confirms its deletion. *)
Lemma deleted_token_is_not_offered_witness :
  let E := env_of true (paged_api (two_pages 0)) in
  let s := set_outside (World ∅ (Some (lit "glpat-abc")) [] [] []) state1 in
  offered E (outside s) = lit "glpat-abc"
  /\ (delete_saved_token E (outside s)).1 = Return true
  /\ client (on_delete_token E true s).2 = Some client0
  /\ offered E (outside (on_delete_token E true s).2) = [].
Proof.
  intros E s.
  assert (H1 : (delete_saved_token E (outside s)).1 = Return true)
    by (vm_compute; reflexivity).
  split; [vm_compute; reflexivity|]. split; [exact H1|].
  destruct (deleted_token_is_not_offered E s H1) as (_ & _ & Ha & _ & _ & Hb).
  split; [exact Ha|exact Hb].
Defined.


(** The log holds a lone surrogate: the file that held something is left
    empty. *)
Lemma failed_save_log_empties_file_witness :
  let fn := lit "/home/u/log.txt" in
  let s := set_log_area [0xD800]
             (set_outside (World {[fn := lit "old"]} None [] [] []) state0) in
  fn <> []
  /\ Utf8.encode (log_area s ++ lit (String (Ascii.ascii_of_nat 10) "")) = None
  /\ fs (outside s) !! fn = Some (lit "old")
  /\ fs (outside (save_log fn s).2) !! fn = Some [].
Proof.
  intros fn s.
  assert (H1 : fn <> []) by (vm_compute; discriminate).
  assert (H2 : Utf8.encode (log_area s ++ lit (String (Ascii.ascii_of_nat 10) "")) = None)
    by (vm_compute; reflexivity).
  split; [exact H1|]. split; [exact H2|]. split; [apply lookup_singleton_eq|].
  destruct (failed_save_log_empties_file fn s H1 H2) as (_ & Ha & _).
  etrans; [exact (f_equal (fun m => m !! fn) Ha)|]. apply lookup_insert_eq.
Defined.

(** The group Alpha is asked for in capitals, with blanks around. *)
Lemma find_group_by_name_first_match_witness :
  let E := env_groups three_groups in
  _all_groups saved_state = JArr three_groups
  /\ Forall group_ok three_groups
  /\ find_group_by_name E (lit "  ALPHA ") saved_state
     = (Return (Some (group 3 "Alpha" (JNum 0))), saved_state)
  /\ find_group_by_name E (lit "gamma") saved_state = (Return None, saved_state).
Proof.
  intros E.
  assert (H1 : _all_groups saved_state = JArr three_groups) by reflexivity.
  assert (H2 : Forall group_ok three_groups) by exact TreeInstances.three_groups_ok.
  split; [exact H1|]. split; [exact H2|]. split.
  - etrans; [exact (find_group_by_name_first_match E (lit "  ALPHA ") saved_state
                      three_groups H1 H2)|].
    vm_compute. reflexivity.
  - etrans; [exact (find_group_by_name_first_match E (lit "gamma") saved_state
                      three_groups H1 H2)|].
    vm_compute. reflexivity.
Defined.

End StartInstances.
